(* ===== verification/_CoqProject ===== *)
-Q . S2P
Prelude.v
GoStd.v
Json.v
Scanner.v
Compact.v
GoTime.v
GoCrypto.v
GoAes.v
Model.v
Codecs.v
Helpers.v
World.v
Schema.v
External.v
EventsRepo.v
Crypto.v
Providers.v
Auth.v
Hub.v
Search.v
Dashboard.v
Stream.v
SseTrace.v
Double.v
Limiter.v
WorkerRepo.v
Ingest.v
Github.v
Shopify.v
Stripe.v
Worker.v
WorkerLoop.v
Deliver.v
MockDest.v
Testutil.v
Startup.v
Handlers.v
Pipeline.v
App.v
Router.v
Keeps.v
HubTrace.v
System.v
SystemInv.v
Secrets.v
Lifecycle.v
TokenLib.v
Fixtures.v
Scenario.v
SpecReceive.v
SpecSystem.v
SpecLimiter.v
SpecDelivery.v
SpecMock.v
SpecServices.v
SpecAuth.v
SpecDashboard.v
SpecStartup.v
SpecTestutil.v
