(* ===== verification/Prelude.v ===== *)
(** * Vaulthook, a webhook gateway: a verification development

    Vaulthook receives webhooks from GitHub, Shopify and Stripe, verifies their
    signatures, drops duplicates, stores them in PostgreSQL and has workers
    forward them to the destination configured for each provider, with rate
    limits, retries and replay; a dashboard lists, searches and streams the
    events.  This library models the Go code under [src/internal] and the
    mock destination of [src/cmd/api-mock], with the schema under
    [src/migrations], and proves what makes each part correct.

    ** How the parts interact

    An endpoint ([api/handler/github.go], ...) asks its provider's service to
    validate the signature against the secret in the Redis cache, checks for a
    duplicate, inserts a [queued] row, offers the event to the SSE hub and puts
    a token on the workers' signal channel.  Workers claim rows, forward them in
    one goroutine each behind the rate limiter, report the outcomes in one
    batch and offer the updated rows to the hub.  The dashboard's requests pass
    the JWT middleware.  The shared state (tables, Redis, hub, signal, requests
    sent, clock) is the record [World.World], and every effectful operation is
    a function [World -> result * World], the monad [M].

    The outside world is a script, [w_env]: each call to PostgreSQL, Redis, a
    destination or the random source takes the next [EnvStep], which says how
    much time passes, whether the call fails and what it yields; past its end,
    calls succeed at once.  A theorem about all worlds is thus about every
    pattern of failures, timeouts and delays.

    ** Files

    Libraries and data:
    - [Prelude]: results, the state monad and its notation, hint databases,
      64-bit arithmetic, the generic lemmas;
    - [GoStd]: the parts of Go's standard library the code computes with
      (slices, [strings], [hex], [base64], [strconv.Atoi], header keys);
    - [Json]: [encoding/json]: strings, numbers, the encoder's syntax and the
      decoder's parser, and that the one reads what the other writes;
      [Compact]: raw messages; [Scanner]: the scanner as a state machine, which
      agrees with the parser on where a value ends or fails; [GoTime]: RFC 3339;
    - [GoCrypto]: SHA-256 and HMAC; [GoAes]: AES and its GCM mode;
    - [Model]: [internal/model] with the validation of search requests, and
      the errors of all packages;
    - [Codecs]: the JSON of providers, webhooks, headers, statistics and pages;
      [Helpers]: [json.Decoder] and [internal/helpers], the decoding of request
      bodies;
    - [World]: the shared state, the outside world, [read_only] and [keeps];
    - [Schema]: the SQL fragment in use and the constraints of the migrations;
    - [External]: the interface of stripe-go, and concrete instances of the
      libraries' interfaces in its module [Concrete].

    Components:
    - [EventsRepo], [Search], [Hub]: [internal/events] (repository; queries of
      the service; the hub with its channels and flush loop);
    - [Crypto], [Providers]: [internal/crypto], [internal/providers],
      [internal/cache];
    - [Ingest], [Github], [Shopify], [Stripe]: the provider services, what they
      share in [Ingest]; the class [SignatureCheck] is what a handler relies on;
    - [Handlers]: the three [Receive] functions and their common specification
      [ingest_outcome]; [Pipeline]: the same three as one function of two
      stages, up to the duplicate check and from the insertion on;
    - [Double], [Limiter]: IEEE doubles as integers with rounding;
      [worker/limiter.go]; [WorkerRepo]: [worker/repository.go] and
      [worker/cleanup.go]; [Worker], [WorkerLoop]: [worker/service.go] and
      [worker/pool.go], the loop proved against the class [RepositoryLaws];
      [Deliver]: when an attempt and a round succeed;
    - [Auth]: [internal/auth] and [api/handler/auth.go]; [TokenLib]: an
      executable JWT library; [Dashboard]: [api/handler/events.go] and
      [provider.go]; [Stream], [SseTrace]: the bytes of the
      SSE stream and the client that reads them; a connection within a history of
      the hub;
    - [Startup]: [config], [internal/health], the Redis client and the start-up
      sequence of [app/app.go]; [App]: the answer of every route; [Router]: the
      table of mounted routes;
    - [MockDest]: [cmd/api-mock/main.go], the simulated destination; [Testutil]:
      [internal/testutil], the databases of the integration tests.

    The whole program:
    - [Keeps]: what each operation does to a property of the tables and the
      cache, given what its SQL statements do ([common_keep]);
    - [System]: a labelled step relation over the shared state, the phases of
      the pool's workers and the requests between their two stages: requests,
      insertions, wakeups, claims, forwards, updates, cleanups, crashes, starts
      and steps of the hub and the outside world; [step_keeps] is its rule
      induction; [HubTrace]: its hub always has a history;
    - [SystemInv], [Secrets], [Lifecycle]: invariants by [step_keeps], on the
      rows, on stored secrets and providers, and the abstract life cycle
      [life_step] of an event;
    - [Scenario]: the states reachable from the migrated tables, and a concrete
      run through them that the witnesses use.

    Theorems (each [C<n>] is one property):
    - [SpecReceive]: each endpoint refines [ingest_outcome] and equals the
      generic pipeline; unsigned requests change nothing; an acknowledged request
      is a stored event; no duplicates; the lost second delivery of a GitHub hook;
    - [SpecSystem]: invariants and types of every reachable state, durability of
      events, their life cycle, delivery of queued events, finality of delivered
      rows, panic freedom of the routes, what a crash strands, and that the loop
      of [run] is made of the system's steps;
    - [SpecDelivery]: claims, forwarding, the meaning of responses, atomic
      updates, draining of the queue, the cleanup; [SpecLimiter]: the bucket
      against a reference defined from the admitted calls, its bounds;
    - [SpecServices]: the hub, search, configuration, secrets, headers;
    - [SpecAuth], [SpecDashboard], [SpecStartup]: sessions and tokens; the guard
      of the routes and their table, read-only requests, the SSE stream and its
      wire format, the request bodies that are accepted; health, sizing, configuration, singletons and start;
    - [SpecMock]: what the workers make of the simulated destination;
      [SpecTestutil]: what a test database is made of and that it is given back.
    [Fixtures] holds the small deployment the witnesses run on.

    ** Bounds and fuel

    Integers that the code keeps in [int] or [int64] are [Z] with [wrap64]
    written where the code can overflow; times are nanoseconds, and columns
    round to microseconds ([pg_time]).  [Worker.run] takes the number of rounds
    it may run and says whether it returned: [queued_events_are_delivered] takes
    as many as events are queued, [queue_drains] gives a number that empties the queue, and
    [run_never_returns] shows that no number makes it return.  The JSON parser takes
    one more than three times the length of its input as fuel, which is enough:
    by [Scanner.value_scan] it fails only where the scanner, which needs none,
    finds no value.  Values nest to the depth of 10000 that encoding/json allows.
    SHA-256, AES and the scanner recurse structurally.  The limiter's script computes with doubles, each
    operation rounded ([Double]); its theorems hold for clocks between 2004 and
    2106 and limits to 2^20 requests a second, where only the reading of the clock
    is inexact.  The uptime of the health check is in [SpecFloat].

    ** Reading the model

    A statement of a transaction is atomic; claims skip the rows in
    [es_locked], those other transactions hold.  The rows [UPDATE ... RETURNING]
    gives back are in the order of selection, which PostgreSQL does not
    promise and the code does not use.  In [System] a request to an endpoint is
    two steps, its checks ([LArrive]) and its insertion ([LStore]), between
    which anything may happen; every other request is one step.  A crash
    ([LCrash]) stops the process wherever its workers and requests are, and a
    start ([LStart]) runs [Startup.start]; the tables and Redis stay.  A step
    of the hub ([LHub]) is any of its actions ([hub_act]).  The columns of type
    TIMESTAMP are read and written in UTC, as the connection string asks.
    Content types are ASCII.

    The standard library the code computes with is defined, not assumed:
    encoding/json, RFC 3339 times, hex, base64, SHA-256, HMAC, AES-GCM.  What
    other modules provide is a class with the laws that are used: google/uuid
    ([UuidLib]), golang-jwt ([JwtLib]), stripe-go ([StripeLib]), the database
    server ([Postgres]), the goroutine scheduler ([Scheduler]), chi's matching of
    paths, zerolog, pgxpool and go-redis ([LogLib], [InfraLib]), the parsing of
    URLs ([HttpLib]); so is strconv's table of printable runes ([Unicode]).
    Three corners of the decoder are simpler than encoding/json's: escapes
    within the string of a time are decoded where Go refuses them, [null]
    elements of a slice that a repeated member fills again are empty strings,
    and the body of a request arrives whole or not at all.  The client's
    JSON.parse in [Stream] has the decoder's limit on depth.

    ** Not modelled

    Logging; the router's throttling, timeouts and path cleaning, and
    net/http; the texts of the replies of the login endpoints; the two goroutines
    of the health check beyond the order of their pings; indexes and the down
    migrations, which no query depends on; connection pools and their settings;
    the constructors that only store their arguments; tests; the frontend.
    Contexts with deadlines show as failing calls.  [main] calls [New], which is
    [Startup.start] with [Router.router], and [Run], which serves until the
    process ends ([LCrash]).

    ** State of the development

    Every package under [src/internal] and the mock destination have their
    component; what is left are the items above, which are input and output of
    libraries.  Possible extensions: the contents of overflow notices along a
    stream, and delivery past the rate limits, through the retries of the events
    they refuse. *)
From stdpp Require Import base tactics list gmap strings sorting.
From Stdlib Require Import ZArith Lia.

(** ** Notation scope, hint and rewrite databases of the development *)

Declare Scope go_scope.
Delimit Scope go_scope with go.

Create HintDb vault.
Create HintDb world.
Create Rewrite HintDb vault.
Create Rewrite HintDb world.

(** ** Results of Go functions

    [Ok]/[Err] stand for the [(value, error)] convention, [Panic] for a
    run-time panic (an out-of-range slice expression, for example). *)

Inductive res (E A : Type) : Type :=
| Ok (a : A)
| Err (e : E)
| Panic.
Arguments Ok {E A} a.
Arguments Err {E A} e.
Arguments Panic {E A}.

#[export] Instance res_eq_dec {E A} `{EqDecision E, EqDecision A} : EqDecision (res E A).
Proof. solve_decision. Defined.

Definition res_map {E A B} (f : A → B) (r : res E A) : res E B :=
  match r with Ok a => Ok (f a) | Err e => Err e | Panic => Panic end.

Definition is_ok {E A} (r : res E A) : bool := match r with Ok _ => true | _ => false end.

(** ** State passing

    Stateful code is a function from a state to a result and the new state.
    [let*] sequences two computations; [let?] is the idiom
    [x, err := m; if err != nil { return err }]. *)

Definition ST (S A : Type) : Type := S → A * S.

Definition st_ret {S A} (a : A) : ST S A := λ s, (a, s).

Definition st_bind {S A B} (m : ST S A) (k : A → ST S B) : ST S B :=
  λ s, let r := m s in k (r.1) (r.2).

Definition st_bind_res {S E A B} (m : ST S (res E A)) (k : A → ST S (res E B)) : ST S (res E B) :=
  st_bind m (λ r, match r with
                  | Ok a => k a
                  | Err e => st_ret (Err e)
                  | Panic => st_ret Panic
                  end).

Definition st_gets {S A} (f : S → A) : ST S A := λ s, (f s, s).
Definition st_modify {S} (f : S → S) : ST S unit := λ s, (tt, f s).

Notation "'let*' x ':=' m 'in' k" := (st_bind m (λ x, k))
  (at level 10, x pattern, m at level 100, k at level 200,
   format "'[v' 'let*'  x  ':='  m  'in' '/' k ']'") : go_scope.
Notation "'let?' x ':=' m 'in' k" := (st_bind_res m (λ x, k))
  (at level 10, x pattern, m at level 100, k at level 200,
   format "'[v' 'let?'  x  ':='  m  'in' '/' k ']'") : go_scope.
Open Scope go_scope.

Fixpoint st_mapM {S A B} (f : A → ST S B) (l : list A) : ST S (list B) :=
  match l with
  | [] => st_ret []
  | a :: l => let* b := f a in let* bs := st_mapM f l in st_ret (b :: bs)
  end.

Fixpoint st_iter {S A} (f : A → ST S unit) (l : list A) : ST S unit :=
  match l with
  | [] => st_ret tt
  | a :: l => let* _ := f a in st_iter f l
  end.

Lemma st_bind_run {S A B} (m : ST S A) (k : A → ST S B) s :
  st_bind m k s = k (m s).1 (m s).2.
Proof. reflexivity. Qed.

(** An invariant that every computation of a list keeps is kept by the loop. *)
Lemma st_iter_inv {S A} (I : S → Prop) (f : A → ST S unit) l s :
  (∀ a s, I s → I (f a s).2) → I s → I (st_iter f l s).2.
Proof.
  intros Hf. revert s. induction l as [|a l IH]; intros s Hs; [done|].
  apply IH, Hf, Hs.
Qed.

Lemma st_mapM_inv {S A B} (I : S → Prop) (f : A → ST S B) l s :
  (∀ a s, I s → I (f a s).2) → I s → I (st_mapM f l s).2.
Proof.
  intros Hf. revert s. induction l as [|a l IH]; intros s Hs; [done|].
  apply IH, Hf, Hs.
Qed.

(** ** Machine integers *)

Open Scope Z_scope.

Definition min_int64 : Z := - 2 ^ 63.
Definition max_int64 : Z := 2 ^ 63 - 1.
Definition max_int32 : Z := 2 ^ 31 - 1.

(** Two's complement wrap-around of Go's 64-bit [int]. *)
Definition wrap64 (z : Z) : Z := (z + 2 ^ 63) mod 2 ^ 64 - 2 ^ 63.

Definition int64_ok (z : Z) : bool := (min_int64 <=? z) && (z <=? max_int64).

Lemma wrap64_range z : min_int64 <= wrap64 z <= max_int64.
Proof.
  unfold wrap64, min_int64, max_int64.
  pose proof (Z.mod_pos_bound (z + 2 ^ 63) (2 ^ 64) ltac:(lia)). lia.
Qed.

Lemma wrap64_small z : min_int64 <= z <= max_int64 → wrap64 z = z.
Proof.
  unfold wrap64, min_int64, max_int64. intros Hz.
  rewrite Z.mod_small; lia.
Qed.

(** ** Proof automation *)

(** Splits boolean connectives and comparisons in the context into
    propositions [lia] understands. *)
Ltac bsplit :=
  repeat match goal with
  | H : (_ && _)%bool = true |- _ => apply andb_true_iff in H; destruct H
  | H : (_ || _)%bool = false |- _ => apply orb_false_iff in H; destruct H
  | H : negb _ = true |- _ => apply negb_true_iff in H
  | H : negb _ = false |- _ => apply negb_false_iff in H
  | H : bool_decide _ = true |- _ => apply bool_decide_eq_true_1 in H
  | H : bool_decide _ = false |- _ => apply bool_decide_eq_false_1 in H
  | H : (_ <? _) = true |- _ => apply Z.ltb_lt in H
  | H : (_ <? _) = false |- _ => apply Z.ltb_ge in H
  | H : (_ <=? _) = true |- _ => apply Z.leb_le in H
  | H : (_ <=? _) = false |- _ => apply Z.leb_gt in H
  | H : (_ =? _) = true |- _ => apply Z.eqb_eq in H
  | H : (_ =? _) = false |- _ => apply Z.eqb_neq in H
  end.

(** Case analysis on the scrutinee of every [match]/[if] of the goal or of
    a hypothesis, discarding the impossible branches. *)
Ltac branch := repeat (case_match; simplify_eq/=; try done).
Ltac branch_in H :=
  repeat (match type of H with
          | context [match ?x with _ => _ end] => destruct x eqn:?
          end; simplify_eq/=; try done).

(** Closed equations by evaluation; neither side is read back. *)
Lemma eq_by_compute {A} `{EqDecision A} (x y : A) : bool_decide (x = y) = true → x = y.
Proof. apply bool_decide_eq_true_1. Qed.
Ltac by_compute := apply eq_by_compute; vm_compute; reflexivity.

Lemma last_cons_default {A} (x d : A) l : List.last (x :: l) d = List.last l x.
Proof.
  revert x d. induction l as [|y l IH]; intros x d; [done|].
  change (List.last (y :: l) d = List.last (y :: l) x). by rewrite !IH.
Qed.

(** ** Ordered selection

    [select_first leb n l] is the meaning of [ORDER BY ... LIMIT n] on the
    rows [l]: the first [n] rows of the list sorted by [leb]. *)

Section select.
Context {A : Type} (leb : A → A → bool).

Definition leb_rel : relation A := λ x y, leb x y = true.

#[export] Instance leb_rel_dec x y : Decision (leb_rel x y).
Proof. unfold leb_rel. apply _. Defined.

Definition sort_by (l : list A) : list A := merge_sort leb_rel l.
Definition select_first (n : nat) (l : list A) : list A := take n (sort_by l).

Lemma sort_by_Permutation l : sort_by l ≡ₚ l.
Proof. apply merge_sort_Permutation. Qed.

Lemma elem_of_sort_by x l : x ∈ sort_by l ↔ x ∈ l.
Proof. by rewrite sort_by_Permutation. Qed.

Lemma length_sort_by l : length (sort_by l) = length l.
Proof. by rewrite sort_by_Permutation. Qed.

Lemma elem_of_select_first x n l : x ∈ select_first n l → x ∈ l.
Proof.
  intros Hx. apply elem_of_sort_by.
  unfold select_first in Hx. rewrite <-(take_drop n (sort_by l)).
  apply elem_of_app; by left.
Qed.

Lemma length_select_first n l : (length (select_first n l) = n `min` length l)%nat.
Proof. unfold select_first. by rewrite length_take, length_sort_by. Qed.

Lemma NoDup_select_first n l : NoDup l → NoDup (select_first n l).
Proof.
  intros Hl. eapply sublist_NoDup; [|apply sublist_take].
  by rewrite sort_by_Permutation.
Qed.

(** Every selected row comes before every row left out. *)
Lemma select_first_minimal `{!Transitive leb_rel, !Total leb_rel} n l x y :
  x ∈ select_first n l → y ∈ drop n (sort_by l) → leb x y = true.
Proof.
  intros Hx Hy.
  eapply (StronglySorted_app_1_elem_of leb_rel); [|exact Hx|exact Hy].
  unfold select_first. rewrite take_drop.
  by apply StronglySorted_merge_sort.
Qed.

Lemma select_first_all n l : (length l ≤ n)%nat → select_first n l ≡ₚ l.
Proof.
  intros Hn. unfold select_first.
  rewrite take_ge by (by rewrite length_sort_by). apply sort_by_Permutation.
Qed.
End select.

(** ** Finite maps used as tables keyed by a field of the row *)

Section table.
Context {K V : Type} `{Countable K}.

Definition rows (m : gmap K V) : list V := (map_to_list m).*2.

Lemma elem_of_rows (m : gmap K V) v : v ∈ rows m ↔ ∃ k, m !! k = Some v.
Proof.
  unfold rows. rewrite list_elem_of_fmap. split.
  - intros [[k v'] [-> Hin]]. exists k. by apply elem_of_map_to_list.
  - intros [k Hk]. exists (k, v). split; [done|]. by apply elem_of_map_to_list.
Qed.

(** The rows are keyed by [key]. *)
Definition keyed (key : V → K) (m : gmap K V) : Prop :=
  ∀ k v, m !! k = Some v → key v = k.

Lemma keyed_empty key : keyed key (∅ : gmap K V).
Proof. intros k v. by rewrite lookup_empty. Qed.

Lemma keyed_insert key (m : gmap K V) k v :
  key v = k → keyed key m → keyed key (<[k:=v]> m).
Proof. intros Hk Hm k' v'. rewrite lookup_insert. case_decide; naive_solver. Qed.

Lemma keyed_alter key (m : gmap K V) f k :
  (∀ v, key (f v) = key v) → keyed key m → keyed key (alter f k m).
Proof.
  intros Hf Hm k' v'. rewrite lookup_alter. case_decide as Hkk; [|apply Hm].
  subst. destruct (m !! k') eqn:E; [|done]. intros [= <-].
  rewrite Hf. by apply Hm.
Qed.

Lemma keyed_filter key (m : gmap K V) P `{∀ kv, Decision (P kv)} :
  keyed key m → keyed key (filter P m).
Proof. intros Hm k v Hkv. apply map_lookup_filter_Some in Hkv. naive_solver. Qed.

Lemma NoDup_rows key (m : gmap K V) : keyed key m → NoDup (key <$> rows m).
Proof.
  intros Hm. unfold rows. rewrite <-list_fmap_compose.
  replace ((key ∘ snd) <$> map_to_list m) with ((map_to_list m).*1).
  - apply NoDup_fst_map_to_list.
  - apply list_fmap_ext. intros i [k v] Hi. simpl. symmetry. apply Hm.
    apply elem_of_map_to_list. by eapply list_elem_of_lookup_2.
Qed.
End table.

#[export] Hint Resolve keyed_empty keyed_insert keyed_alter keyed_filter : vault.
