(* ===== verification/GoStd.v ===== *)
(** The parts of Go's standard library the program calls on strings, bytes
    and headers: [unicode/utf8], [strings.TrimSpace], [encoding/hex],
    [encoding/base64], [strconv.Atoi] and [net/http]'s header keys.  A Go
    string and a [[]byte] are both a Rocq [string], a sequence of bytes. *)
From stdpp Require Import base tactics list gmap strings numbers.
From Stdlib Require Import ZArith Lia Ascii.
From S2P Require Import Prelude.

Open Scope Z_scope.

(** ** Bytes *)

Definition code (c : ascii) : Z := Z.of_N (N_of_ascii c).
Definition chr (z : Z) : ascii := ascii_of_N (Z.to_N z).

Fixpoint bytes_of (s : string) : list Z :=
  match s with EmptyString => [] | String c s => code c :: bytes_of s end.
Fixpoint string_of (l : list Z) : string :=
  match l with [] => EmptyString | z :: l => String (chr z) (string_of l) end.

Definition is_byte (z : Z) : bool := (0 <=? z) && (z <? 256).

(** [len(s)] *)
Definition len (s : string) : Z := Z.of_nat (String.length s).

Lemma code_range c : 0 <= code c < 256.
Proof. unfold code. pose proof (N_ascii_bounded c). lia. Qed.

Lemma chr_code c : chr (code c) = c.
Proof. unfold chr, code. by rewrite N2Z.id, ascii_N_embedding. Qed.

Lemma code_chr z : 0 <= z < 256 → code (chr z) = z.
Proof. intros Hz. unfold chr, code. rewrite N_ascii_embedding; lia. Qed.

Lemma string_of_bytes_of s : string_of (bytes_of s) = s.
Proof. induction s as [|c s IH]; simpl; [done|]. by rewrite chr_code, IH. Qed.

Lemma bytes_of_string_of l : Forall (λ z, 0 <= z < 256) l → bytes_of (string_of l) = l.
Proof.
  induction 1 as [|z l Hz Hl IH]; simpl; [done|]. by rewrite code_chr, IH.
Qed.

Lemma bytes_of_range s : Forall (λ z, 0 <= z < 256) (bytes_of s).
Proof. induction s; simpl; constructor; [apply code_range|done]. Qed.

Lemma length_bytes_of s : length (bytes_of s) = String.length s.
Proof. induction s; simpl; congruence. Qed.

Lemma length_string_of l : String.length (string_of l) = length l.
Proof. induction l; simpl; congruence. Qed.

Lemma bytes_of_app s t : bytes_of (s +:+ t) = bytes_of s ++ bytes_of t.
Proof.
  induction s as [|c s IH]; [done|].
  change (String c s +:+ t) with (String c (s +:+ t)). simpl. by rewrite IH.
Qed.

Lemma string_of_app k l : string_of (k ++ l) = string_of k +:+ string_of l.
Proof.
  induction k as [|z k IH]; [done|]. simpl. rewrite IH.
  done.
Qed.

Lemma string_of_inj k l :
  Forall (λ z, 0 <= z < 256) k → Forall (λ z, 0 <= z < 256) l →
  string_of k = string_of l → k = l.
Proof. intros Hk Hl E. rewrite <-(bytes_of_string_of k), E; auto using bytes_of_string_of. Qed.

Lemma string_app_cons c (a b : string) : String c a +:+ b = String c (a +:+ b).
Proof. done. Qed.
Lemma string_app_assoc (a b c : string) : (a +:+ b) +:+ c = a +:+ b +:+ c.
Proof. induction a as [|x a IH]; [done|]. by rewrite !string_app_cons, IH. Qed.
Lemma string_app_nil_r (a : string) : a +:+ "" = a.
Proof. induction a as [|x a IH]; [done|]. by rewrite string_app_cons, IH. Qed.

Lemma length_append s t : (String.length (s +:+ t) = String.length s + String.length t)%nat.
Proof. rewrite <-!length_bytes_of, bytes_of_app, length_app. done. Qed.

#[export] Hint Rewrite length_append length_string_of length_bytes_of : vault.

(** Slice expressions [s[:n]] and [s[n:]]; [None] is the run-time panic of an
    index beyond the length. *)
Definition slice_to (s : string) (n : nat) : option string :=
  if (n <=? String.length s)%nat then Some (string_of (take n (bytes_of s))) else None.
Definition slice_from (s : string) (n : nat) : option string :=
  if (n <=? String.length s)%nat then Some (string_of (drop n (bytes_of s))) else None.

Lemma slice_to_app s t : slice_to (s +:+ t) (String.length s) = Some s.
Proof.
  unfold slice_to. rewrite length_append, (proj2 (Nat.leb_le _ _)) by lia.
  rewrite bytes_of_app, <-length_bytes_of, take_app_length. by rewrite string_of_bytes_of.
Qed.

Lemma slice_from_app s t : slice_from (s +:+ t) (String.length s) = Some t.
Proof.
  unfold slice_from. rewrite length_append, (proj2 (Nat.leb_le _ _)) by lia.
  rewrite bytes_of_app, <-length_bytes_of, drop_app_length. by rewrite string_of_bytes_of.
Qed.

(** ** UTF-8

    [segments l] cuts [l] into the byte sequences that successive calls of
    [utf8.DecodeRune] consume: a valid encoding, or one byte of an invalid
    one. *)

Definition cont (b : Z) : bool := (0x80 <=? b) && (b <=? 0xBF).
Definition between (lo b hi : Z) : bool := (lo <=? b) && (b <=? hi).

Definition two (b0 b1 : Z) : bool := between 0xC2 b0 0xDF && cont b1.
Definition three (b0 b1 b2 : Z) : bool :=
  ((b0 =? 0xE0) && between 0xA0 b1 0xBF
   || (between 0xE1 b0 0xEC || between 0xEE b0 0xEF) && cont b1
   || (b0 =? 0xED) && between 0x80 b1 0x9F) && cont b2.
Definition four (b0 b1 b2 b3 : Z) : bool :=
  ((b0 =? 0xF0) && between 0x90 b1 0xBF
   || between 0xF1 b0 0xF3 && cont b1
   || (b0 =? 0xF4) && between 0x80 b1 0x8F) && cont b2 && cont b3.

Fixpoint segments (l : list Z) : list (list Z) :=
  match l with
  | [] => []
  | b0 :: t0 =>
    if b0 <? 0x80 then [b0] :: segments t0 else
    match t0 with
    | b1 :: t1 =>
      if two b0 b1 then [b0; b1] :: segments t1 else
      match t1 with
      | b2 :: t2 =>
        if three b0 b1 b2 then [b0; b1; b2] :: segments t2 else
        match t2 with
        | b3 :: t3 =>
          if four b0 b1 b2 b3 then [b0; b1; b2; b3] :: segments t3
          else [b0] :: segments t0
        | [] => [b0] :: segments t0
        end
      | [] => [b0] :: segments t0
      end
    | [] => [b0] :: segments t0
    end
  end.

(** [utf8.RuneCountInString] *)
Definition RuneCountInString (s : string) : Z :=
  Z.of_nat (length (segments (bytes_of s))).

(** [unicode.IsSpace] on the encoding of a rune. *)
Definition is_space (seg : list Z) : bool :=
  match seg with
  | [b] => between 0x09 b 0x0D || (b =? 0x20)
  | [b0; b1] => (b0 =? 0xC2) && ((b1 =? 0x85) || (b1 =? 0xA0))
  | [b0; b1; b2] =>
    (b0 =? 0xE1) && (b1 =? 0x9A) && (b2 =? 0x80)
    || (b0 =? 0xE2) && (b1 =? 0x80)
       && (between 0x80 b2 0x8A || (b2 =? 0xA8) || (b2 =? 0xA9) || (b2 =? 0xAF))
    || (b0 =? 0xE2) && (b1 =? 0x81) && (b2 =? 0x9F)
    || (b0 =? 0xE3) && (b1 =? 0x80) && (b2 =? 0x80)
  | _ => false
  end.

Fixpoint drop_spaces (l : list (list Z)) : list (list Z) :=
  match l with
  | seg :: l' => if is_space seg then drop_spaces l' else l
  | [] => []
  end.

(** [strings.TrimSpace] *)
Definition TrimSpace (s : string) : string :=
  string_of (mjoin (reverse (drop_spaces (reverse (drop_spaces (segments (bytes_of s))))))).

(** [utf8.ValidString] *)
Definition utf8_valid (s : string) : bool :=
  forallb (λ seg, match seg with [b] => b <? 0x80 | _ => true end) (segments (bytes_of s)).

(** [strings.Split(s, sep)] for a separator of one byte. *)
Fixpoint split_bytes (sep : Z) (l cur : list Z) : list (list Z) :=
  match l with
  | [] => [reverse cur]
  | b :: l => if b =? sep then reverse cur :: split_bytes sep l [] else split_bytes sep l (b :: cur)
  end.
Definition Split (s : string) (sep : Z) : list string := string_of <$> split_bytes sep (bytes_of s) [].

(** ** encoding/hex *)

Definition hex_digit (d : Z) : Z := if d <? 10 then 48 + d else 87 + d.
Definition hex_value (b : Z) : option Z :=
  if between 48 b 57 then Some (b - 48)
  else if between 97 b 102 then Some (b - 87)
  else if between 65 b 70 then Some (b - 55)
  else None.

Fixpoint hex_encode (l : list Z) : list Z :=
  match l with
  | [] => []
  | b :: l => hex_digit (b / 16) :: hex_digit (b mod 16) :: hex_encode l
  end.
Fixpoint hex_decode (l : list Z) : option (list Z) :=
  match l with
  | [] => Some []
  | hi :: lo :: l =>
    match hex_value hi, hex_value lo, hex_decode l with
    | Some h, Some v, Some r => Some (h * 16 + v :: r)
    | _, _, _ => None
    end
  | _ => None
  end.

Definition EncodeToString (s : string) : string := string_of (hex_encode (bytes_of s)).
(** [hex.DecodeString]; [None] is its error. *)
Definition DecodeString (s : string) : option string :=
  string_of <$> hex_decode (bytes_of s).

Lemma hex_value_digit d : 0 <= d < 16 → hex_value (hex_digit d) = Some d.
Proof.
  intros Hd. unfold hex_value, hex_digit, between.
  destruct (Z.ltb_spec d 10); repeat case_match; bsplit; f_equal; try lia;
    repeat match goal with H : (_ && _)%bool = false |- _ => apply andb_false_iff in H; destruct H end;
    bsplit; lia.
Qed.

Lemma hex_digit_range d : 0 <= d < 16 → 0 <= hex_digit d < 256.
Proof. unfold hex_digit. intros. case_match; lia. Qed.

Lemma hex_encode_range l :
  Forall (λ z, 0 <= z < 256) l → Forall (λ z, 0 <= z < 256) (hex_encode l).
Proof.
  induction 1 as [|b l Hb Hl IH]; simpl; [constructor|].
  pose proof (Z.mod_pos_bound b 16 ltac:(lia)).
  assert (0 <= b / 16 < 16) by (split; [apply Z.div_pos|apply Z.div_lt_upper_bound]; lia).
  repeat constructor; try done; apply hex_digit_range; lia.
Qed.

Lemma hex_decode_encode l :
  Forall (λ z, 0 <= z < 256) l → hex_decode (hex_encode l) = Some l.
Proof.
  induction 1 as [|b l Hb Hl IH]; simpl; [done|].
  pose proof (Z.mod_pos_bound b 16 ltac:(lia)).
  assert (0 <= b / 16 < 16) by (split; [apply Z.div_pos|apply Z.div_lt_upper_bound]; lia).
  rewrite !hex_value_digit, IH by lia. f_equal. f_equal.
  rewrite (Z.div_mod b 16) at 3; lia.
Qed.

Lemma length_hex_encode l : length (hex_encode l) = (2 * length l)%nat.
Proof. induction l; simpl; lia. Qed.

Lemma DecodeString_EncodeToString s : DecodeString (EncodeToString s) = Some s.
Proof.
  unfold DecodeString, EncodeToString.
  rewrite bytes_of_string_of by apply hex_encode_range, bytes_of_range.
  rewrite hex_decode_encode by apply bytes_of_range. simpl.
  by rewrite string_of_bytes_of.
Qed.

Lemma EncodeToString_inj s t : EncodeToString s = EncodeToString t → s = t.
Proof.
  intros E. apply (f_equal DecodeString) in E.
  rewrite !DecodeString_EncodeToString in E. congruence.
Qed.

Lemma length_EncodeToString s : (String.length (EncodeToString s) = 2 * String.length s)%nat.
Proof. unfold EncodeToString. by rewrite length_string_of, length_hex_encode, length_bytes_of. Qed.

(** ** encoding/base64, [base64.StdEncoding.DecodeString] *)

Definition b64_value (b : Z) : option Z :=
  if between 65 b 90 then Some (b - 65)
  else if between 97 b 122 then Some (b - 71)
  else if between 48 b 57 then Some (b + 4)
  else if b =? 43 then Some 62
  else if b =? 47 then Some 63
  else None.

Definition is_pad (b : Z) : bool := b =? 61.
Definition is_newline (b : Z) : bool := (b =? 10) || (b =? 13).

(** A quantum of four characters; padding only ends the input. *)
Fixpoint b64_decode (l : list Z) : option (list Z) :=
  match l with
  | [] => Some []
  | a :: b :: c :: d :: l' =>
    match b64_value a, b64_value b with
    | Some va, Some vb =>
      match b64_value c, b64_value d with
      | Some vc, Some vd =>
        match b64_decode l' with
        | Some r => Some (va * 4 + vb / 16 :: (vb mod 16) * 16 + vc / 4 :: (vc mod 4) * 64 + vd :: r)
        | None => None
        end
      | Some vc, None =>
        if is_pad d && bool_decide (l' = []) then Some [va * 4 + vb / 16; (vb mod 16) * 16 + vc / 4] else None
      | None, _ =>
        if is_pad c && is_pad d && bool_decide (l' = []) then Some [va * 4 + vb / 16] else None
      end
    | _, _ => None
    end
  | _ => None
  end.

Definition Base64Decode (s : string) : option string :=
  string_of <$> b64_decode (filter (λ b, is_newline b = false) (bytes_of s)).

(** ** strconv.Atoi *)

Definition digit_value (b : Z) : option Z := if between 48 b 57 then Some (b - 48) else None.

Fixpoint digits (acc : Z) (l : list Z) : option Z :=
  match l with
  | [] => Some acc
  | b :: l => match digit_value b with Some d => digits (acc * 10 + d) l | None => None end
  end.

(** [None] is a syntax or a range error. *)
Definition Atoi (s : string) : option Z :=
  let parse neg l :=
    match l with
    | [] => None
    | _ => match digits 0 l with
           | Some n => let n := if (neg : bool) then - n else n in
                       if int64_ok n then Some n else None
           | None => None
           end
    end in
  match bytes_of s with
  | b :: l => if b =? 45 then parse true l else if b =? 43 then parse false l else parse false (b :: l)
  | [] => None
  end.

Lemma Atoi_range s n : Atoi s = Some n → min_int64 <= n <= max_int64.
Proof.
  unfold Atoi. intros H. branch_in H; unfold int64_ok in *; bsplit; done.
Qed.

(** ** net/http header keys and values *)

Definition is_token (b : Z) : bool :=
  between 48 b 57 || between 65 b 90 || between 97 b 122
  || bool_decide (b ∈ [33; 35; 36; 37; 38; 39; 42; 43; 45; 46; 94; 95; 96; 124; 126]).

Definition upper (b : Z) : Z := if between 97 b 122 then b - 32 else b.
Definition lower (b : Z) : Z := if between 65 b 90 then b + 32 else b.

Fixpoint canonical (up : bool) (l : list Z) : list Z :=
  match l with
  | [] => []
  | b :: l => (if up then upper b else lower b) :: canonical (b =? 45) l
  end.

(** [http.CanonicalHeaderKey]: a key with a byte that is not a token byte is
    left unchanged. *)
Definition CanonicalHeaderKey (s : string) : string :=
  if forallb is_token (bytes_of s) then string_of (canonical true (bytes_of s)) else s.

(** [http.Header], a [map[string][]string]. *)
Abbreviation Header := (gmap string (list string)).

Definition header_add (k v : string) (h : Header) : Header :=
  <[CanonicalHeaderKey k := default [] (h !! CanonicalHeaderKey k) ++ [v]]> h.
Definition header_get (k : string) (h : Header) : string :=
  match h !! CanonicalHeaderKey k with Some (v :: _) => v | _ => ""%string end.

Example canonical_github : CanonicalHeaderKey "x-GITHUB-hook-ID" = "X-Github-Hook-Id"%string.
Proof. reflexivity. Qed.
Example trim_example : TrimSpace (" a b " +:+ String (chr 0xC2) (String (chr 0xA0) "")) = "a b"%string.
Proof. reflexivity. Qed.
Example split_example : Split "a;b;" 59 = ["a"; "b"; ""]%string.
Proof. reflexivity. Qed.
Example atoi_example : (Atoi "-120", Atoi "1x", Atoi "9223372036854775808") = (Some (-120), None, None).
Proof. reflexivity. Qed.
Example base64_example : Base64Decode "aGVsbG8=" = Some "hello"%string.
Proof. reflexivity. Qed.
