(* ===== verification/Json.v ===== *)
(** [encoding/json] of Go's standard library, on bytes: the encoder's strings
    and numbers, the scanner and decoder, and that what the encoder writes the
    decoder reads back. *)
From stdpp Require Import base tactics list gmap strings numbers.
From Stdlib Require Import ZArith Lia Ascii.
From S2P Require Import Prelude GoStd.

Open Scope Z_scope.

(** ** Values, as the decoder sees them

    Numbers are kept as their literals, the strings are unquoted, and the
    members of an object stay in their order. *)
Inductive json : Type :=
| JNull
| JBool (b : bool)
| JNum (lit : list Z)
| JStr (s : list Z)
| JArr (l : list json)
| JObj (l : list (list Z * json)).

(** ** Strings *)

Definition hex4 (a b c d : Z) : option Z :=
  match hex_value a, hex_value b, hex_value c, hex_value d with
  | Some a, Some b, Some c, Some d => Some (((a * 16 + b) * 16 + c) * 16 + d)
  | _, _, _, _ => None
  end.

(** [utf8.AppendRune] *)
Definition encode_rune (r : Z) : list Z :=
  if r <? 0x80 then [r]
  else if r <? 0x800 then [0xC0 + r / 64; 0x80 + r mod 64]
  else if r <? 0x10000 then [0xE0 + r / 4096; 0x80 + r / 64 mod 64; 0x80 + r mod 64]
  else [0xF0 + r / 262144; 0x80 + r / 4096 mod 64; 0x80 + r / 64 mod 64; 0x80 + r mod 64].

Definition replacement : list Z := [0xEF; 0xBF; 0xBD].

(** The bytes of a rune as [appendString] writes them, for HTML. *)
Definition escape_ascii (b : Z) : list Z :=
  if (b =? 34) || (b =? 92) then [92; b]
  else if b =? 8 then [92; 98]
  else if b =? 12 then [92; 102]
  else if b =? 10 then [92; 110]
  else if b =? 13 then [92; 114]
  else if b =? 9 then [92; 116]
  else if (b <? 32) || (b =? 60) || (b =? 62) || (b =? 38)
  then [92; 117; 48; 48; hex_digit (b / 16); hex_digit (b mod 16)]
  else [b].

Definition escape_seg (seg : list Z) : list Z :=
  match seg with
  | [b] => if b <? 0x80 then escape_ascii b else [92; 117; 102; 102; 102; 100]
  | _ =>
    if bool_decide (seg = [0xE2; 0x80; 0xA8]) then [92; 117; 50; 48; 50; 56]
    else if bool_decide (seg = [0xE2; 0x80; 0xA9]) then [92; 117; 50; 48; 50; 57]
    else seg
  end.

Definition quote (s : list Z) : list Z := 34 :: mjoin (escape_seg <$> segments s) ++ [34].

(** The body of a string literal and what follows the closing quote; escapes
    are replaced by the encoding of their rune, two surrogates by that of the
    pair, a lone one by the replacement character. *)
Definition surrogate (r : Z) : bool := between 0xD800 r 0xDFFF.
Definition surrogate_pair (r r1 : Z) : option Z :=
  if between 0xD800 r 0xDBFF && between 0xDC00 r1 0xDFFF
  then Some ((r - 0xD800) * 1024 + (r1 - 0xDC00) + 0x10000) else None.

Definition short_escape (e : Z) : option Z :=
  if (e =? 34) || (e =? 92) || (e =? 47) then Some e
  else if e =? 98 then Some 8 else if e =? 102 then Some 12 else if e =? 110 then Some 10
  else if e =? 114 then Some 13 else if e =? 116 then Some 9 else None.

Definition push (pre : list Z) (r : option (list Z * list Z)) : option (list Z * list Z) :=
  match r with Some (s, rest) => Some (pre ++ s, rest) | None => None end.

Fixpoint str_body (l : list Z) : option (list Z * list Z) :=
  match l with
  | [] => None
  | b :: l =>
    if b =? 34 then Some ([], l)
    else if b <? 32 then None
    else if negb (b =? 92) then push [b] (str_body l)
    else
      match l with
      | [] => None
      | e :: l =>
        if negb (e =? 117) then
          match short_escape e with Some c => push [c] (str_body l) | None => None end
        else
          match l with
          | h1 :: h2 :: h3 :: h4 :: l =>
            match hex4 h1 h2 h3 h4 with
            | None => None
            | Some r =>
              if negb (surrogate r) then push (encode_rune r) (str_body l)
              else
                match l with
                | b1 :: b2 :: g1 :: g2 :: g3 :: g4 :: l' =>
                  match (if (b1 =? 92) && (b2 =? 117)
                         then hex4 g1 g2 g3 g4 ≫= surrogate_pair r else None) with
                  | Some r2 => push (encode_rune r2) (str_body l')
                  | None => push replacement (str_body l)
                  end
                | _ => push replacement (str_body l)
                end
            end
          | _ => None
          end
      end
  end.

(** Bytes that are not UTF-8 are replaced. *)
Definition valid_seg (seg : list Z) : bool := match seg with [b] => b <? 0x80 | _ => true end.
Definition clean_seg (seg : list Z) : list Z := if valid_seg seg then seg else replacement.
Definition sanitize (s : list Z) : list Z := mjoin (clean_seg <$> segments s).

Definition str_lit (l : list Z) : option (list Z * list Z) :=
  match str_body l with Some (s, rest) => Some (sanitize s, rest) | None => None end.

(** ** Numbers *)

Definition is_digit (b : Z) : bool := between 48 b 57.

Fixpoint span_digits (l : list Z) : list Z * list Z :=
  match l with
  | b :: l' => if is_digit b then let '(ds, rest) := span_digits l' in (b :: ds, rest) else ([], l)
  | [] => ([], [])
  end.

(** An optional fraction and an optional exponent. *)
Definition fraction (l : list Z) : option (list Z * list Z) :=
  match l with
  | 46 :: l => match span_digits l with ([], _) => None | (ds, rest) => Some (46 :: ds, rest) end
  | _ => Some ([], l)
  end.
Definition exponent (l : list Z) : option (list Z * list Z) :=
  match l with
  | e :: l' =>
    if (e =? 101) || (e =? 69) then
      let '(sign, l') := match l' with s :: l'' => if (s =? 43) || (s =? 45) then ([s], l'') else ([], l') | [] => ([], l') end in
      match span_digits l' with ([], _) => None | (ds, rest) => Some (e :: sign ++ ds, rest) end
    else Some ([], l)
  | [] => Some ([], l)
  end.

(** The integer part: no zero in front. *)
Definition integer (l : list Z) : option (list Z * list Z) :=
  match l with
  | b :: l' => if is_digit b then Some (if b =? 48 then ([48], l') else span_digits l) else None
  | [] => None
  end.

Definition minus_sign (l : list Z) : list Z * list Z :=
  match l with b :: l' => if b =? 45 then ([45], l') else ([], l) | [] => ([], l) end.

Definition number (l : list Z) : option (list Z * list Z) :=
  let '(sign, l) := minus_sign l in
  '(int, l) ← integer l;
  '(frac, l) ← fraction l;
  '(ex, l) ← exponent l;
  Some (sign ++ int ++ frac ++ ex, l).

(** Decimal numbers, [strconv.AppendInt]. *)
Fixpoint dec (fuel : nat) (n : Z) : list Z :=
  match fuel with
  | O => []
  | S fuel => if n <? 10 then [48 + n] else dec fuel (n / 10) ++ [48 + n mod 10]
  end.
Definition decimal (n : Z) : list Z := dec (S (Z.to_nat (Z.log2 n))) n.
Definition int_lit (z : Z) : list Z := if z <? 0 then 45 :: decimal (- z) else decimal z.

(** ** The decoder's syntax *)

Definition is_ws (b : Z) : bool := (b =? 32) || (b =? 9) || (b =? 13) || (b =? 10).

Fixpoint skip_ws (l : list Z) : list Z :=
  match l with b :: l' => if is_ws b then skip_ws l' else l | [] => [] end.

Definition maxNestingDepth : Z := 10000.

(** What follows the text [word], if [l] begins with it. *)
Fixpoint expect (word l : list Z) : option (list Z) :=
  match word, l with
  | [], _ => Some l
  | a :: word, b :: l => if a =? b then expect word l else None
  | _, [] => None
  end.

Definition word_true : list Z := [116; 114; 117; 101].
Definition word_false : list Z := [102; 97; 108; 115; 101].
Definition word_null : list Z := [110; 117; 108; 108].

Definition literal (l : list Z) : option (json * list Z) :=
  match expect word_true l, expect word_false l, expect word_null l with
  | Some rest, _, _ => Some (JBool true, rest)
  | _, Some rest, _ => Some (JBool false, rest)
  | _, _, Some rest => Some (JNull, rest)
  | None, None, None =>
    match number l with Some (lit, rest) => Some (JNum lit, rest) | None => None end
  end.

(** A value after white space, the elements of an array after its bracket or a
    comma, the members of an object; [depth] counts the open brackets.  Every
    call uses up fuel, and an input of [n] bytes needs no more than [3 n]. *)
Fixpoint value (fuel : nat) (depth : Z) (l : list Z) {struct fuel} : option (json * list Z) :=
  match fuel with
  | O => None
  | S fuel =>
    match skip_ws l with
    | [] => None
    | b :: l =>
      if b =? 34 then match str_lit l with Some (s, rest) => Some (JStr s, rest) | None => None end
      else if b =? 91 then
        if maxNestingDepth <=? depth then None else
        match skip_ws l with
        | 93 :: rest => Some (JArr [], rest)
        | _ => match elements fuel (depth + 1) l with Some (js, rest) => Some (JArr js, rest) | None => None end
        end
      else if b =? 123 then
        if maxNestingDepth <=? depth then None else
        match skip_ws l with
        | 125 :: rest => Some (JObj [], rest)
        | _ => match members fuel (depth + 1) l with Some (ms, rest) => Some (JObj ms, rest) | None => None end
        end
      else literal (b :: l)
    end
  end
with elements (fuel : nat) (depth : Z) (l : list Z) {struct fuel} : option (list json * list Z) :=
  match fuel with
  | O => None
  | S fuel =>
    match value fuel depth l with
    | None => None
    | Some (j, l) =>
      match skip_ws l with
      | b :: l =>
        if b =? 93 then Some ([j], l)
        else if b =? 44 then match elements fuel depth l with Some (js, rest) => Some (j :: js, rest) | None => None end
        else None
      | [] => None
      end
    end
  end
with members (fuel : nat) (depth : Z) (l : list Z) {struct fuel} : option (list (list Z * json) * list Z) :=
  match fuel with
  | O => None
  | S fuel =>
    match skip_ws l with
    | b :: l =>
      if negb (b =? 34) then None else
      match str_lit l with
      | None => None
      | Some (k, l) =>
        match skip_ws l with
        | c :: l =>
          if negb (c =? 58) then None else
          match value fuel depth l with
          | None => None
          | Some (j, l) =>
            match skip_ws l with
            | b :: l =>
              if b =? 125 then Some ([(k, j)], l)
              else if b =? 44 then
                match members fuel depth l with Some (ms, rest) => Some ((k, j) :: ms, rest) | None => None end
              else None
            | [] => None
            end
          end
        | [] => None
        end
      end
    | [] => None
    end
  end.

Definition parse_fuel (l : list Z) : nat := S (3 * length l).

(** One value with nothing but white space after it, as [json.Unmarshal] wants. *)
Definition parse_at (depth : Z) (l : list Z) : option json :=
  match value (parse_fuel l) depth l with
  | Some (j, rest) => match skip_ws rest with [] => Some j | _ => None end
  | None => None
  end.
Definition parse (l : list Z) : option json := parse_at 0 l.

(** ** The encoder's syntax *)

Fixpoint join (ls : list (list Z)) : list Z :=
  match ls with [] => [] | [l] => l | l :: ls => l ++ 44 :: join ls end.

Definition array_lit (ls : list (list Z)) : list Z := 91 :: join ls ++ [93].
Definition member_lit (m : list Z * list Z) : list Z := m.1 ++ 58 :: m.2.
Definition object_lit (ms : list (list Z * list Z)) : list Z := 123 :: join (member_lit <$> ms) ++ [125].
Definition bool_lit (b : bool) : list Z := if b then word_true else word_false.

(** ** Strings are read back *)

Definition byte_range (l : list Z) : Prop := Forall (λ b, 0 <= b < 256) l.

Lemma push_push a b r : push a (push b r) = push (a ++ b) r.
Proof. destruct r as [[s rest]|]; [|done]. simpl. by rewrite app_assoc. Qed.

Lemma push_nil r : push [] r = r.
Proof. by destruct r as [[s rest]|]. Qed.

(** A segment: one byte, or several of a longer encoding. *)
Definition seg_ok (seg : list Z) : Prop :=
  byte_range seg ∧ ((∃ b, seg = [b]) ∨ (2 ≤ length seg)%nat ∧ Forall (λ b, 0x80 <= b) seg).

Lemma two_high b0 b1 : two b0 b1 = true → 0x80 <= b0 ∧ 0x80 <= b1.
Proof. unfold two, between, cont. intros. bsplit. lia. Qed.
Lemma three_high b0 b1 b2 : three b0 b1 b2 = true → 0x80 <= b0 ∧ 0x80 <= b1 ∧ 0x80 <= b2.
Proof.
  unfold three, between, cont. intros Ht. bsplit.
  repeat match goal with H : (_ || _) = true |- _ => apply orb_true_iff in H as [H|H] end; bsplit; lia.
Qed.
Lemma four_high b0 b1 b2 b3 : four b0 b1 b2 b3 = true → 0x80 <= b0 ∧ 0x80 <= b1 ∧ 0x80 <= b2 ∧ 0x80 <= b3.
Proof.
  unfold four, between, cont. intros Ht. bsplit.
  repeat match goal with H : (_ || _) = true |- _ => apply orb_true_iff in H as [H|H] end; bsplit; lia.
Qed.

(** The encoding of a rune. *)
Definition rune (seg : list Z) : bool :=
  match seg with
  | [b] => b <? 0x80
  | [a; b] => two a b
  | [a; b; c] => three a b c
  | [a; b; c; d] => four a b c d
  | _ => false
  end.

(** What [segments] cuts off: one byte, or a longer encoding. *)
Definition seg_cut (seg : list Z) : Prop :=
  ((∃ c, seg = [c]) ∨ (2 ≤ length seg)%nat ∧ Forall (λ b, 0x80 <= b) seg) ∧ (valid_seg seg = true → rune seg = true).

(** Cutting into segments, one at a time. *)
Lemma segments_cons b l :
  ∃ seg rest, b :: l = seg ++ rest ∧ segments (b :: l) = seg :: segments rest ∧ seg_cut seg.
Proof.
  assert (∀ r, segments (b :: l) = [b] :: r → r = segments l → ∃ seg rest, b :: l = seg ++ rest ∧
    segments (b :: l) = seg :: segments rest ∧ seg_cut seg)
    as Hone by (intros r E ->; exists [b], l; split_and!; [done..|split; [by left; eauto|done]]).
  cbn [segments] in *. destruct (b <? 0x80); [by eapply Hone|].
  destruct l as [|b1 l]; [by eapply Hone|]. destruct (two b b1) eqn:E2.
  { exists [b; b1], l. split_and!; [done..|]. split; [right|done]. apply two_high in E2. split; [done|]. repeat constructor; lia. }
  destruct l as [|b2 l]; [by eapply Hone|]. destruct (three b b1 b2) eqn:E3.
  { exists [b; b1; b2], l. split_and!; [done..|]. split; [right|done]. apply three_high in E3.
    split; [simpl; lia|]. repeat constructor; lia. }
  destruct l as [|b3 l]; [by eapply Hone|]. destruct (four b b1 b2 b3) eqn:E4; [|by eapply Hone].
  exists [b; b1; b2; b3], l. split_and!; [done..|]. split; [right|done]. apply four_high in E4.
  split; [simpl; lia|]. repeat constructor; lia.
Qed.

Lemma segments_join l : mjoin (segments l) = l.
Proof.
  induction l as [l IH] using (induction_ltof1 _ (@length Z)). unfold ltof in IH. destruct l as [|b l]; [done|].
  destruct (segments_cons b l) as (seg & rest & E & -> & Hs). rewrite E in IH |- *. simpl. f_equal. apply IH.
  rewrite length_app. destruct Hs as [[[c ->]|[? _]] _]; simpl; lia.
Qed.

Lemma segments_runes l : Forall (λ seg, valid_seg seg = true → rune seg = true) (segments l).
Proof.
  induction l as [l IH] using (induction_ltof1 _ (@length Z)). unfold ltof in IH. destruct l as [|b l]; [constructor|].
  destruct (segments_cons b l) as (seg & rest & E & -> & Hs). rewrite E in IH. constructor; [apply Hs|]. apply IH.
  rewrite length_app. destruct Hs as [[[c ->]|[? _]] _]; simpl; lia.
Qed.

(** An encoding is cut off whole. *)
Lemma segments_rune seg rest : rune seg = true → segments (seg ++ rest) = seg :: segments rest.
Proof.
  destruct seg as [|b0 [|b1 [|b2 [|b3 [|b4 seg]]]]]; cbn [rune]; try done; intros Hr; cbn [app segments].
  - by rewrite Hr.
  - pose proof (two_high _ _ Hr). by rewrite (proj2 (Z.ltb_ge b0 0x80)), Hr by lia.
  - pose proof (three_high _ _ _ Hr). rewrite (proj2 (Z.ltb_ge b0 0x80)) by lia.
    assert (two b0 b1 = false) as ->; [|by rewrite Hr].
    apply not_true_is_false. unfold two, three, between, cont in *. intros Ht. bsplit.
    repeat match goal with H : (_ || _) = true |- _ => apply orb_true_iff in H as [H|H] end; bsplit; lia.
  - pose proof (four_high _ _ _ _ Hr). rewrite (proj2 (Z.ltb_ge b0 0x80)) by lia.
    assert (0xF0 <= b0) as Hb.
    { unfold four, between, cont in Hr. bsplit.
      repeat match goal with H : (_ || _) = true |- _ => apply orb_true_iff in H as [H|H] end; bsplit; lia. }
    assert (two b0 b1 = false) as ->
      by (apply not_true_is_false; unfold two, between; intros Ht; bsplit; lia).
    assert (three b0 b1 b2 = false) as ->; [|by rewrite Hr].
    apply not_true_is_false. unfold three, between, cont. intros Ht. bsplit.
    repeat match goal with H : (_ || _) = true |- _ => apply orb_true_iff in H as [H|H] end; bsplit; lia.
Qed.

Lemma segments_ok l : byte_range l → Forall seg_ok (segments l).
Proof.
  induction l as [l IH] using (induction_ltof1 _ (@length Z)). unfold ltof in IH. destruct l as [|b l]; [done|].
  destruct (segments_cons b l) as (seg & rest & E & -> & Hs). rewrite E in IH |- *. intros [Hr Hr']%Forall_app.
  constructor; [split; [done|apply Hs]|]. apply IH; [|done].
  rewrite length_app. destruct Hs as [[[c ->]|[? _]] _]; simpl; lia.
Qed.

(** Every character of a string is read back from its escape. *)
Lemma str_body_ascii b l : 0 <= b < 0x80 → str_body (escape_ascii b ++ l) = push [b] (str_body l).
Proof.
  intros Hb. assert (b ∈ (Z.of_nat <$> seq 0 128)) as Hin.
  { apply list_elem_of_fmap. exists (Z.to_nat b). split; [lia|]. apply elem_of_seq. lia. }
  clear Hb. cbv [seq fmap list_fmap] in Hin.
  repeat (apply elem_of_cons in Hin as [->|Hin]; [reflexivity|]). by apply not_elem_of_nil in Hin.
Qed.

Lemma str_body_high seg l : Forall (λ b, 0x80 <= b) seg → str_body (seg ++ l) = push seg (str_body l).
Proof.
  induction 1 as [|b seg Hb Hs IH]; [by rewrite push_nil|]. cbn [app str_body].
  rewrite (proj2 (Z.eqb_neq b 34)), (proj2 (Z.ltb_ge b 32)), (proj2 (Z.eqb_neq b 92)) by lia. cbn [negb].
  by rewrite IH, push_push.
Qed.

Lemma str_body_seg seg l : seg_ok seg → str_body (escape_seg seg ++ l) = push (clean_seg seg) (str_body l).
Proof.
  intros [Hr Hs]. destruct Hs as [[b ->]|[Hlen Hhigh]].
  - unfold clean_seg. cbn [escape_seg valid_seg]. destruct (Z.ltb_spec b 0x80); [|reflexivity].
    apply str_body_ascii. inversion Hr. bsplit. lia.
  - replace (clean_seg seg) with seg by (by destruct seg as [|? [|? ?]]; simpl in Hlen; [lia..|]).
    destruct seg as [|b0 [|b1 seg]]; simpl in Hlen; [lia..|]. unfold escape_seg.
    case_bool_decide as E; [rewrite E; reflexivity|]. case_bool_decide as E'; [rewrite E'; reflexivity|].
    by apply str_body_high.
Qed.

Definition utf8_bytes (s : list Z) : Prop := byte_range s ∧ forallb valid_seg (segments s) = true.

Lemma str_body_quote segs rest :
  Forall seg_ok segs → str_body (mjoin (escape_seg <$> segs) ++ 34 :: rest) = Some (mjoin (clean_seg <$> segs), rest).
Proof.
  induction 1 as [|seg segs Hseg Hsegs IH]; [done|].
  rewrite !fmap_cons. simpl mjoin. rewrite <-app_assoc, str_body_seg by done. by rewrite IH.
Qed.

Lemma clean_rune seg : rune seg = true → clean_seg seg = seg.
Proof. intros Hr. unfold clean_seg. destruct seg as [|b [|? ?]]; [done| |done]. cbn [rune valid_seg] in *. by rewrite Hr. Qed.

Lemma segments_runes_join segs : Forall (λ seg, rune seg = true) segs → segments (mjoin segs) = segs.
Proof. induction 1 as [|seg segs Hr _ IH]; [done|]. simpl. by rewrite segments_rune, IH. Qed.

Lemma sanitize_idem s : sanitize (sanitize s) = sanitize s.
Proof.
  assert (Forall (λ seg, rune seg = true) (clean_seg <$> segments s)) as Hr.
  { apply Forall_fmap. pose proof (segments_runes s) as Hs. revert Hs. apply Forall_impl. intros seg Hs. simpl.
    unfold clean_seg. destruct (valid_seg seg); [by apply Hs|done]. }
  unfold sanitize at 1. unfold sanitize at 1. rewrite segments_runes_join by done. unfold sanitize. f_equal.
  induction Hr as [|seg segs Hseg _ IH]; [done|]. rewrite fmap_cons, clean_rune by done. by f_equal.
Qed.

Lemma sanitize_valid s : utf8_bytes s → sanitize s = s.
Proof.
  intros [_ Hv]. unfold sanitize. rewrite <-(segments_join s) at 2. f_equal. revert Hv.
  induction (segments s) as [|seg segs IH]; [done|]. cbn [forallb]. intros [Hv Hvs]%andb_true_iff.
  rewrite fmap_cons. unfold clean_seg at 1. rewrite Hv. f_equal. by apply IH.
Qed.

(** A quoted string is read back, its bytes that are not UTF-8 replaced. *)
Lemma str_lit_quote s rest :
  byte_range s → str_lit (mjoin (escape_seg <$> segments s) ++ 34 :: rest) = Some (sanitize s, rest).
Proof. intros Hs%segments_ok. unfold str_lit. rewrite str_body_quote by done. fold (sanitize s). by rewrite sanitize_idem. Qed.

(** ** Integers are read back *)

Lemma digits_app acc l k : digits acc (l ++ k) = digits acc l ≫= λ a, digits a k.
Proof. revert acc. induction l as [|b l IH]; intros acc; [done|]. simpl. destruct (digit_value b); [apply IH|done]. Qed.

Lemma digit_value_digit d : 0 <= d < 10 → digit_value (48 + d) = Some d.
Proof. intros Hd. unfold digit_value, between. rewrite !(proj2 (Z.leb_le _ _)) by lia. simpl. f_equal. lia. Qed.

Lemma dec_digits fuel n : 0 <= n → n < 10 ^ Z.of_nat fuel → digits 0 (dec fuel n) = Some n.
Proof.
  revert n. induction fuel as [|fuel IH]; intros n H0 Hn; [simpl in Hn; simpl; f_equal; lia|].
  rewrite Nat2Z.inj_succ, Z.pow_succ_r in Hn by lia. cbn [dec].
  destruct (Z.ltb_spec n 10); [cbn [digits]; rewrite digit_value_digit by lia; simpl; f_equal; lia|].
  pose proof (Z.div_pos n 10). pose proof (Z.mod_pos_bound n 10). pose proof (Z.div_mod n 10).
  rewrite digits_app, IH; [|lia|apply Z.div_lt_upper_bound; lia]. cbn [mbind option_bind digits].
  rewrite digit_value_digit by lia. f_equal. lia.
Qed.

Lemma decimal_digits n : 0 <= n → digits 0 (decimal n) = Some n.
Proof.
  intros Hn. apply dec_digits; [done|]. rewrite Nat2Z.inj_succ, Z2Nat.id by apply Z.log2_nonneg.
  destruct (Z.eq_dec n 0) as [->|Hne]; [done|].
  pose proof (Z.log2_spec n ltac:(lia)) as [_ Hlt]. eapply Z.lt_le_trans; [exact Hlt|].
  apply Z.pow_le_mono_l. lia.
Qed.

(** Its bytes are digits, the first one only zero for zero. *)
Lemma dec_shape fuel n :
  0 <= n → Forall (λ b, is_digit b = true) (dec fuel n) ∧
  (n < 10 ^ Z.of_nat fuel → n ≠ 0 → ∃ d ds, dec fuel n = (48 + d) :: ds ∧ 0 < d < 10).
Proof.
  assert (∀ d, 0 <= d < 10 → is_digit (48 + d) = true) as Hd.
  { intros d Hd. unfold is_digit, between. rewrite !(proj2 (Z.leb_le _ _)) by lia. done. }
  revert n. induction fuel as [|fuel IH]; intros n H0; cbn [dec]; [split; [done|simpl; lia]|].
  pose proof (Z.div_pos n 10). pose proof (Z.mod_pos_bound n 10).
  destruct (Z.ltb_spec n 10).
  - split; [constructor; [apply Hd; lia|done]|]. intros _ Hne. exists n, []. split; [done|lia].
  - destruct (IH (n / 10)) as [Hf Hh]; [lia|]. split; [apply Forall_app; split; [done|constructor; [apply Hd; lia|done]]|].
    intros Hlt _. rewrite Nat2Z.inj_succ, Z.pow_succ_r in Hlt by lia.
    destruct Hh as (d & ds & -> & Hdr); [apply Z.div_lt_upper_bound; lia| |].
    { assert (10 <= n) as Hten by done. apply (Z.div_le_mono 10 n 10) in Hten; [|lia]. rewrite Z.div_same in Hten by lia. lia. }
    exists d, (ds ++ [48 + n mod 10]). done.
Qed.

Lemma decimal_shape n :
  0 <= n → Forall (λ b, is_digit b = true) (decimal n) ∧
  (n = 0 ∧ decimal n = [48] ∨ ∃ d ds, decimal n = (48 + d) :: ds ∧ 0 < d < 10).
Proof.
  intros Hn. unfold decimal. destruct (dec_shape (S (Z.to_nat (Z.log2 n))) n Hn) as [Hf Hh]. split; [done|].
  destruct (Z.eq_dec n 0) as [->|Hne]; [by left|right]. apply Hh; [|done].
  rewrite Nat2Z.inj_succ, Z2Nat.id by apply Z.log2_nonneg.
  pose proof (Z.log2_spec n ltac:(lia)) as [_ Hlt]. eapply Z.lt_le_trans; [exact Hlt|]. apply Z.pow_le_mono_l. lia.
Qed.

(** What may follow a value: the end, or no byte a number could go on with. *)
Definition ends (l : list Z) : Prop :=
  match l with [] => True | b :: _ => b = 44 ∨ b = 93 ∨ b = 125 end.

Lemma span_digits_app ds rest :
  Forall (λ b, is_digit b = true) ds → ends rest → span_digits (ds ++ rest) = (ds, rest).
Proof.
  induction 1 as [|b ds Hb Hds IH]; intros He; cbn [app span_digits].
  - destruct rest as [|b rest]; [done|]. cbn [span_digits]. by destruct He as [->|[->| ->]].
  - by rewrite Hb, IH.
Qed.

Lemma number_int_lit z rest : ends rest → number (int_lit z ++ rest) = Some (int_lit z, rest).
Proof.
  intros He.
  assert (fraction rest = Some ([], rest) ∧ exponent rest = Some ([], rest)) as [Hfr Hex].
  { destruct rest as [|b rest]; [done|]. by destruct He as [->|[->| ->]]. }
  assert (∀ n, 0 <= n → ∃ b l', decimal n = b :: l' ∧ b ≠ 45 ∧ integer (b :: l' ++ rest) = Some (decimal n, rest)) as Hdec.
  { intros n Hn. destruct (decimal_shape n Hn) as [Hf [[-> E]|(d & ds & E & Hd)]]; rewrite E in Hf |- *.
    - by exists 48, [].
    - exists (48 + d), ds. inversion Hf as [|? ? Hb]. split_and!; [done|lia|]. unfold integer. rewrite Hb.
      rewrite (proj2 (Z.eqb_neq _ 48)) by lia.
      change ((48 + d) :: ds ++ rest) with (((48 + d) :: ds) ++ rest). by rewrite span_digits_app. }
  unfold int_lit. destruct (Z.ltb_spec z 0).
  - destruct (Hdec (- z)) as (b & l' & E & Hb45 & Hint); [lia|]. unfold number. cbn [app minus_sign Z.eqb Pos.eqb].
    rewrite E in Hint |- *. cbn [app]. rewrite Hint. cbn [mbind option_bind]. rewrite Hfr. cbn [mbind option_bind].
    rewrite Hex. cbn [mbind option_bind]. by rewrite app_nil_r.
  - destruct (Hdec z) as (b & l' & E & Hb45 & Hint); [lia|]. unfold number.
    rewrite E in Hint |- *. cbn [app minus_sign]. rewrite (proj2 (Z.eqb_neq b 45)) by done. cbn [app].
    rewrite Hint. cbn [mbind option_bind]. rewrite Hfr. cbn [mbind option_bind].
    rewrite Hex. cbn [mbind option_bind]. by rewrite app_nil_r.
Qed.

Lemma Atoi_int_lit z : min_int64 <= z <= max_int64 → Atoi (string_of (int_lit z)) = Some z.
Proof.
  intros Hz. assert (int64_ok z = true) as Hok by (unfold int64_ok; apply andb_true_iff; split; apply Z.leb_le; lia).
  assert (∀ n, 0 <= n → byte_range (decimal n)) as Hbytes.
  { intros n Hn. destruct (decimal_shape n Hn) as [Hf _]. revert Hf. apply Forall_impl.
    unfold is_digit, between. intros b Hb. bsplit. lia. }
  unfold Atoi, int_lit. destruct (Z.ltb_spec z 0).
  - rewrite bytes_of_string_of by (constructor; [lia|apply Hbytes; lia]). simpl.
    pose proof (decimal_digits (- z) ltac:(lia)) as E.
    destruct (decimal (- z)) as [|b l] eqn:Ed; [by destruct (decimal_shape (- z)) as [_ [[? E2]|(d & ds & E2 & _)]]; [lia|congruence..]|].
    rewrite E. cbv iota. by rewrite Z.opp_involutive, Hok.
  - rewrite bytes_of_string_of by (apply Hbytes; lia).
    pose proof (decimal_digits z ltac:(lia)) as E.
    destruct (decimal_shape z) as [Hf [[-> ->]|(d & ds & Ed & Hd)]]; [lia|reflexivity|].
    rewrite Ed in E |- *. rewrite (proj2 (Z.eqb_neq _ 45)), (proj2 (Z.eqb_neq _ 43)) by lia. rewrite E. cbv iota. by rewrite Hok.
Qed.

(** ** Values are read back *)

(** Neither white space nor the end of an array. *)
Definition starts (l : list Z) : Prop :=
  match l with [] => False | b :: _ => is_ws b = false ∧ b ≠ 93 end.

(** No control characters, in particular no end of line. *)
Definition visible (l : list Z) : Prop := Forall (λ b, 32 <= b) l.

Lemma visible_app k l : visible (k ++ l) ↔ visible k ∧ visible l.
Proof. apply Forall_app. Qed.
Lemma visible_cons b l : visible (b :: l) ↔ 32 <= b ∧ visible l.
Proof. apply Forall_cons_iff. Qed.
Lemma visible_closed l : forallb (λ b, 32 <=? b) l = true → visible l.
Proof. intros Hl. apply Forall_forall. intros b Hb. rewrite forallb_forall in Hl. by apply Z.leb_le, Hl. Qed.

(** The text [l] is read as the value [j], whatever follows it, as long as it
    nests at most [h] levels deep below the limit. *)
Record reads (h : Z) (l : list Z) (j : json) : Prop := {
  rd_starts : starts l;
  rd_line : visible l;
  rd_value : ∀ fuel depth rest, (3 * length l < fuel)%nat → depth + h <= maxNestingDepth → ends rest →
    value fuel depth (l ++ rest) = Some (j, rest);
}.

Lemma reads_weaken h h' l j : h <= h' → reads h l j → reads h' l j.
Proof. intros Hh [Hs Hl Hv]. split; [done..|]. intros fuel depth rest ? ?. apply Hv; [done|lia]. Qed.

Lemma starts_skip l rest : starts l → skip_ws (l ++ rest) = l ++ rest.
Proof. destruct l as [|b l]; [done|]. intros [Hb _]. cbn [app skip_ws]. by rewrite Hb. Qed.

(** A literal: its first byte is that of no string, array or object. *)
Lemma reads_literal l j :
  starts l → visible l → match l with b :: _ => b ≠ 34 ∧ b ≠ 91 ∧ b ≠ 123 | [] => True end →
  (∀ rest, ends rest → literal (l ++ rest) = Some (j, rest)) → reads 0 l j.
Proof.
  intros Hs Hvis Hb Hl. split; [done..|]. intros [|fuel] depth rest Hf _ He; [lia|]. cbn [value].
  rewrite starts_skip by done. specialize (Hl rest He). destruct l as [|b l]; [done|]. destruct Hb as (H1 & H2 & H3).
  cbn [app] in *. by rewrite (proj2 (Z.eqb_neq b 34)), (proj2 (Z.eqb_neq b 91)), (proj2 (Z.eqb_neq b 123)) by done.
Qed.

Lemma reads_null : reads 0 word_null JNull.
Proof. apply reads_literal; [done|by apply visible_closed|done..]. Qed.

Lemma reads_bool b : reads 0 (bool_lit b) (JBool b).
Proof. destruct b; (apply reads_literal; [done|by apply visible_closed|done..]). Qed.

Lemma reads_int z : reads 0 (int_lit z) (JNum (int_lit z)).
Proof.
  assert (∃ b l, int_lit z = b :: l ∧ (b = 45 ∨ is_digit b = true)) as (b & l & E & Hb).
  { unfold int_lit. destruct (Z.ltb_spec z 0) as [|Hz]; [eauto|].
    destruct (decimal_shape z Hz) as [Hf [[_ ->]|(d & ds & E & _)]]; [eauto|]. rewrite E in Hf. inversion Hf. eauto. }
  assert (visible (int_lit z)) as Hvis.
  { assert (∀ n, 0 <= n → visible (decimal n)) as Hn.
    { intros n Hn. destruct (decimal_shape n Hn) as [Hf _]. revert Hf. apply Forall_impl.
      unfold is_digit, between. intros c Hc. bsplit. lia. }
    unfold int_lit. destruct (Z.ltb_spec z 0); [apply visible_cons; split; [lia|]|]; apply Hn; lia. }
  assert (b = 45 ∨ 48 <= b <= 57) as Hr.
  { destruct Hb as [|Hb]; [by left|right]. unfold is_digit, between in Hb. bsplit. lia. }
  apply reads_literal; [| |rewrite ?E..]; [rewrite E|done| |].
  - split; [|lia]. unfold is_ws. rewrite !(proj2 (Z.eqb_neq b _)) by lia. done.
  - lia.
  - intros rest He. rewrite <-E. pose proof (number_int_lit z rest He) as Hn. unfold literal.
    rewrite Hn. rewrite E. cbn [app expect word_true word_false word_null].
    rewrite !(proj2 (Z.eqb_neq _ b)) by lia. done.
Qed.

(** A string literal that is read as [s], whatever follows it. *)
Definition reads_key (lit s : list Z) : Prop :=
  visible lit ∧ ∃ body, lit = 34 :: body ∧ ∀ rest, str_lit (body ++ rest) = Some (s, rest).

Lemma escape_seg_visible seg : seg_ok seg → visible (escape_seg seg).
Proof.
  intros [Hr Hs]. destruct Hs as [[b ->]|[Hlen Hhigh]].
  - cbn [escape_seg]. destruct (Z.ltb_spec b 0x80); [|by apply visible_closed].
    assert (b ∈ (Z.of_nat <$> seq 0 128)) as Hin.
    { inversion Hr. bsplit. apply list_elem_of_fmap. exists (Z.to_nat b). split; [lia|]. apply elem_of_seq. lia. }
    cbv [seq fmap list_fmap] in Hin.
    repeat (apply elem_of_cons in Hin as [->|Hin]; [by apply visible_closed|]). by apply not_elem_of_nil in Hin.
  - destruct seg as [|b0 [|b1 seg]]; simpl in Hlen; [lia..|]. unfold escape_seg.
    case_bool_decide; [by apply visible_closed|]. case_bool_decide; [by apply visible_closed|].
    revert Hhigh. apply Forall_impl. lia.
Qed.

Lemma quote_visible s : byte_range s → visible (quote s).
Proof.
  intros Hs%segments_ok. unfold quote. apply visible_cons. split; [lia|]. apply visible_app. split; [|by apply visible_closed].
  induction Hs as [|seg segs Hseg _ IH]; [constructor|]. rewrite fmap_cons. simpl mjoin. apply visible_app.
  split; [by apply escape_seg_visible|exact IH].
Qed.

Lemma reads_key_quote s : byte_range s → reads_key (quote s) (sanitize s).
Proof.
  intros Hs. split; [by apply quote_visible|]. eexists. split; [reflexivity|]. intros rest.
  rewrite <-app_assoc. by apply str_lit_quote.
Qed.

Lemma reads_str_lit lit s : reads_key lit s → reads 0 lit (JStr s).
Proof.
  intros (Hv & body & -> & Hr). split; [done|done|]. intros [|fuel] depth rest Hf _ He; [lia|].
  cbn [app value skip_ws is_ws Z.eqb Pos.eqb orb]. by rewrite Hr.
Qed.

Lemma reads_str s : byte_range s → reads 0 (quote s) (JStr (sanitize s)).
Proof. intros Hs. by apply reads_str_lit, reads_key_quote. Qed.

Lemma join_visible ls : Forall visible ls → visible (join ls).
Proof.
  induction 1 as [|l ls Hl Hls IH]; [constructor|]. destruct ls as [|l' ls]; [done|].
  apply visible_app. split; [done|]. apply visible_cons. split; [lia|exact IH].
Qed.

Lemma elements_join h ls js fuel depth rest :
  Forall2 (reads h) ls js → ls ≠ [] → (3 * length (join ls) + 1 < fuel)%nat → depth + h <= maxNestingDepth →
  elements fuel depth (join ls ++ 93 :: rest) = Some (js, rest).
Proof.
  intros Hl. revert fuel. induction Hl as [|l j ls js Hj Hl IH]; [done|]. intros fuel _ Hf Hd.
  destruct fuel as [|fuel]; [lia|]. cbn [elements]. destruct ls as [|l' ls].
  - inversion Hl. subst. cbn [join] in *. rewrite (rd_value _ _ _ Hj) by (done || (simpl; lia)). reflexivity.
  - change (join (l :: l' :: ls)) with (l ++ 44 :: join (l' :: ls)) in *. rewrite length_app in Hf. cbn [length] in Hf.
    rewrite <-app_assoc, (rd_value _ _ _ Hj) by (simpl; lia). cbn [app skip_ws is_ws Z.eqb Pos.eqb orb].
    by rewrite IH by (done || lia).
Qed.

Lemma join_starts ls rest : ls ≠ [] → Forall starts ls → starts (join ls ++ rest).
Proof. destruct ls as [|[|b l] [|l' ls]]; try done; intros _ Hs; inversion Hs; try done. Qed.

Lemma starts_not_bracket l : starts l → match skip_ws l with 93 :: _ => False | _ => True end.
Proof.
  intros Hs. rewrite <-(app_nil_r l), starts_skip, app_nil_r by done. destruct l as [|b l]; [done|].
  destruct Hs as [_ Hb]. repeat case_match; done.
Qed.

Lemma reads_array h ls js : Forall2 (reads h) ls js → 0 <= h → reads (h + 1) (array_lit ls) (JArr js).
Proof.
  intros Hl Hh. split; [done| |].
  { apply visible_cons. split; [lia|]. apply visible_app. split; [|by apply visible_closed]. apply join_visible.
    clear -Hl. induction Hl as [|l j ls js [] _ IH]; by constructor. }
  intros [|fuel] depth rest Hf Hd He; [lia|]. unfold array_lit in *. cbn [length] in Hf.
  rewrite length_app in Hf. cbn [length] in Hf. cbn [app value skip_ws is_ws Z.eqb Pos.eqb orb].
  rewrite (proj2 (Z.leb_gt _ _)) by lia. rewrite <-app_assoc. cbn [app].
  destruct ls as [|l ls]; [by inversion Hl|].
  assert (starts (join (l :: ls) ++ 93 :: rest)) as Hs.
  { apply join_starts; [done|]. clear -Hl. induction Hl as [|x y k js [? _ _]]; by constructor. }
  apply starts_not_bracket in Hs. rewrite (elements_join h (l :: ls) js) by (done || lia).
  destruct (skip_ws _) as [|b k]; [done|]. repeat case_match; done.
Qed.

(** A member of an object: the literal of a key, and a value. *)
Definition reads_member (h : Z) (m : list Z * list Z) (f : list Z * json) : Prop :=
  reads_key m.1 f.1 ∧ reads h m.2 f.2.

Lemma members_join h ms fs fuel depth rest :
  Forall2 (reads_member h) ms fs → ms ≠ [] → (3 * length (join (member_lit <$> ms)) + 1 < fuel)%nat →
  depth + h <= maxNestingDepth →
  members fuel depth (join (member_lit <$> ms) ++ 125 :: rest) = Some (fs, rest).
Proof.
  intros Hl. revert fuel.
  assert (∀ m f fuel follow, reads_member h m f → (3 * length (member_lit m) < fuel)%nat → depth + h <= maxNestingDepth →
    ends follow → members (S fuel) depth (member_lit m ++ follow)
    = match skip_ws follow with
      | b :: l => if b =? 125 then Some ([f], l)
                  else if b =? 44 then
                    match members fuel depth l with Some (ms, rest) => Some (f :: ms, rest) | None => None end
                  else None
      | [] => None
      end) as Hone.
  { intros [k v] [k' j] fuel follow [(_ & body & E & Hk) Hv] Hf Hd He. simpl in E, Hk, Hv. subst k.
    unfold member_lit in *. cbn [fst snd] in *. cbn [members app skip_ws is_ws Z.eqb Pos.eqb orb negb].
    rewrite <-!app_assoc. cbn [app]. rewrite Hk. cbn [skip_ws is_ws Z.eqb Pos.eqb orb negb].
    rewrite (rd_value _ _ _ Hv); [done| |done|done].
    cbn [length] in Hf. rewrite !length_app in Hf. cbn [length] in Hf. lia. }
  induction Hl as [|m f ms fs Hm Hl IH]; [done|]. intros fuel _ Hf Hd.
  destruct fuel as [|fuel]; [lia|]. destruct ms as [|m' ms].
  - inversion Hl. subst. cbn [fmap list_fmap join] in *. by rewrite (Hone m f); [|done|lia|done|simpl; lia].
  - change (join (member_lit <$> m :: m' :: ms)) with (member_lit m ++ 44 :: join (member_lit <$> m' :: ms)) in *.
    rewrite length_app in Hf. cbn [length] in Hf. rewrite <-app_assoc.
    rewrite (Hone m f); [|done|lia|done|simpl; lia]. cbn [app skip_ws is_ws Z.eqb Pos.eqb orb].
    by rewrite IH by (done || lia).
Qed.

Lemma reads_object h ms fs : Forall2 (reads_member h) ms fs → 0 <= h → reads (h + 1) (object_lit ms) (JObj fs).
Proof.
  intros Hl Hh. split; [done| |].
  { apply visible_cons. split; [lia|]. apply visible_app. split; [|by apply visible_closed]. apply join_visible.
    clear -Hl. induction Hl as [|m f ms fs [[Hk _] [_ Hv _]] _ IH]; [constructor|]. constructor; [|exact IH].
    apply visible_app. split; [done|]. apply visible_cons. split; [lia|done]. }
  intros [|fuel] depth rest Hf Hd He; [lia|]. unfold object_lit in *. cbn [length] in Hf.
  rewrite length_app in Hf. cbn [length] in Hf. cbn [app value skip_ws is_ws Z.eqb Pos.eqb orb].
  rewrite (proj2 (Z.leb_gt _ _)) by lia. rewrite <-app_assoc. cbn [app].
  destruct ms as [|m ms]; [by inversion Hl|].
  rewrite (members_join h (m :: ms) fs) by (done || lia).
  assert (∃ t, join (member_lit <$> m :: ms) = 34 :: t) as [t ->].
  { inversion Hl as [|? ? ? ? [(_ & body & E & _) _]]. destruct m as [k v]. simpl in E. subst k. destruct ms; by eexists. }
  done.
Qed.

(** What is read as a value with nothing after it is parsed. *)
Lemma reads_parse h d l j : reads h l j → d + h <= maxNestingDepth → parse_at d l = Some j.
Proof.
  intros Hr Hh. unfold parse_at, parse_fuel. pose proof (rd_value _ _ _ Hr (S (3 * length l)) d [] ltac:(lia) ltac:(lia) I) as E.
  rewrite app_nil_r in E. by rewrite E.
Qed.

(** ** Bytes *)

Definition ascii_bytes (l : list Z) : Prop := Forall (λ b, 0 <= b < 0x80) l.

Lemma ascii_closed l : forallb (λ b, (0 <=? b) && (b <? 0x80)) l = true → ascii_bytes l.
Proof.
  intros Hl. apply Forall_forall. intros b Hb. rewrite forallb_forall in Hl. specialize (Hl b Hb). bsplit. lia.
Qed.

Lemma ascii_range l : ascii_bytes l → byte_range l.
Proof. apply Forall_impl. intros b Hb. lia. Qed.

Lemma ascii_utf8 l : ascii_bytes l → utf8_bytes l.
Proof.
  intros Hl. split; [by apply ascii_range|]. induction Hl as [|b l Hb Hl IH]; [done|].
  cbn [segments]. rewrite (proj2 (Z.ltb_lt b 0x80)) by lia. cbn [forallb valid_seg].
  by rewrite (proj2 (Z.ltb_lt b 0x80)), IH by lia.
Qed.

Lemma range_app k l : byte_range (k ++ l) ↔ byte_range k ∧ byte_range l.
Proof. apply Forall_app. Qed.
Lemma range_cons b l : byte_range (b :: l) ↔ 0 <= b < 256 ∧ byte_range l.
Proof. apply Forall_cons_iff. Qed.

Lemma hex_digit_visible d : 0 <= d < 16 → 32 <= hex_digit d < 128.
Proof. intros Hd. unfold hex_digit. case_match; bsplit; lia. Qed.

Lemma escape_range b : 0 <= b < 256 → byte_range [92; 117; 48; 48; hex_digit (b / 16); hex_digit (b mod 16)].
Proof.
  intros Hb. pose proof (hex_digit_visible (b / 16) ltac:(split; [apply Z.div_pos; lia|apply Z.div_lt_upper_bound; lia])).
  pose proof (hex_digit_visible (b mod 16) ltac:(apply Z.mod_pos_bound; lia)). repeat constructor; lia.
Qed.

Lemma quote_range s : byte_range s → byte_range (quote s).
Proof.
  intros Hs%segments_ok. unfold quote. apply range_cons. split; [lia|]. apply range_app. split; [|repeat constructor; lia].
  induction Hs as [|seg segs [Hseg _] _ IH]; [constructor|]. rewrite fmap_cons. simpl mjoin. apply range_app. split; [|exact IH].
  assert (∀ l, ascii_bytes l → byte_range l) as Ha by apply ascii_range.
  unfold escape_seg. repeat case_match; try (by apply Ha, ascii_closed); try done.
  unfold escape_ascii. inversion Hseg as [|? ? Hb]. repeat case_match; try (by apply Ha, ascii_closed); try by apply escape_range.
  all: repeat constructor; lia.
Qed.

Lemma int_lit_ascii z : ascii_bytes (int_lit z).
Proof.
  assert (∀ n, 0 <= n → ascii_bytes (decimal n)) as Hn.
  { intros n Hn. destruct (decimal_shape n Hn) as [Hf _]. revert Hf. apply Forall_impl.
    unfold is_digit, between. intros c Hc. bsplit. lia. }
  unfold int_lit. destruct (Z.ltb_spec z 0); [constructor; [lia|]|]; apply Hn; lia.
Qed.

Lemma join_range ls : Forall byte_range ls → byte_range (join ls).
Proof.
  induction 1 as [|l ls Hl Hls IH]; [constructor|]. destruct ls as [|l' ls]; [done|].
  apply range_app. split; [done|]. apply range_cons. split; [lia|exact IH].
Qed.

Lemma array_lit_range ls : Forall byte_range ls → byte_range (array_lit ls).
Proof.
  intros Hl%join_range. apply range_cons. split; [lia|]. apply range_app. split; [done|]. repeat constructor; lia.
Qed.

Lemma object_lit_range ms : Forall (λ m, byte_range m.1 ∧ byte_range m.2) ms → byte_range (object_lit ms).
Proof.
  intros Hm. apply range_cons. split; [lia|]. apply range_app. split; [|repeat constructor; lia]. apply join_range.
  induction Hm as [|m ms [Hk Hv] _ IH]; [constructor|]. constructor; [|exact IH]. apply range_app. split; [done|].
  apply range_cons. split; [lia|done].
Qed.
