(* ===== verification/Scanner.v ===== *)
(** The scanner of [encoding/json] ([scanner.go]) as the state machine it is,
    one byte a step, and [Decoder.readValue], which runs it over a stream to
    find the end of the next value or the byte that cannot follow.  The parser
    of [Json] and the scanner agree: [value_scan]. *)
From stdpp Require Import base tactics list numbers.
From Stdlib Require Import ZArith Lia.
From S2P Require Import Prelude GoStd Json.

Open Scope Z_scope.

(** ** The machine *)

Inductive pstate : Type := ParseObjectKey | ParseObjectValue | ParseArrayValue.

(** [InStringEscU n] has read a u and still wants [n] hexadecimal digits;
    [InLit w] is within one of the words true, false and null and wants [w]. *)
Inductive sstate : Type :=
| BeginValueOrEmpty | BeginValue | BeginStringOrEmpty | BeginString | EndValue
| InString | InStringEsc | InStringEscU (n : nat)
| Neg | S1 | S0 | Dot | Dot0 | E | ESign | E0
| InLit (w : list Z).

(** What a byte does: on to another state and stack, the value ended before it,
    a bracket closed with it, or an error. *)
Inductive scanned : Type :=
| Next (st : sstate) (stack : list pstate)
| End
| Closed (stack : list pstate)
| Bad.

Definition push_state (p : pstate) (st : sstate) (stack : list pstate) : scanned :=
  if Z.of_nat (length (p :: stack)) <=? maxNestingDepth then Next st (p :: stack) else Bad.

Definition step_begin_value (stack : list pstate) (c : Z) : scanned :=
  if is_ws c then Next BeginValue stack
  else if c =? 123 then push_state ParseObjectKey BeginStringOrEmpty stack
  else if c =? 91 then push_state ParseArrayValue BeginValueOrEmpty stack
  else if c =? 34 then Next InString stack
  else if c =? 45 then Next Neg stack
  else if c =? 48 then Next S0 stack
  else if c =? 116 then Next (InLit [114; 117; 101]) stack
  else if c =? 102 then Next (InLit [97; 108; 115; 101]) stack
  else if c =? 110 then Next (InLit [117; 108; 108]) stack
  else if is_digit c then Next S1 stack
  else Bad.

Definition step_begin_string (stack : list pstate) (c : Z) : scanned :=
  if is_ws c then Next BeginString stack else if c =? 34 then Next InString stack else Bad.

Definition step_end_value (stack : list pstate) (c : Z) : scanned :=
  match stack with
  | [] => End
  | p :: stack' =>
    if is_ws c then Next EndValue stack
    else match p with
    | ParseObjectKey => if c =? 58 then Next BeginValue (ParseObjectValue :: stack') else Bad
    | ParseObjectValue =>
      if c =? 44 then Next BeginString (ParseObjectKey :: stack')
      else if c =? 125 then Closed stack' else Bad
    | ParseArrayValue =>
      if c =? 44 then Next BeginValue stack else if c =? 93 then Closed stack' else Bad
    end
  end.

Definition step_exponent (stack : list pstate) (c : Z) : scanned :=
  if (c =? 101) || (c =? 69) then Next E stack else step_end_value stack c.

Definition scan_step (st : sstate) (stack : list pstate) (c : Z) : scanned :=
  match st with
  | BeginValueOrEmpty =>
    if is_ws c then Next BeginValueOrEmpty stack
    else if c =? 93 then step_end_value stack c else step_begin_value stack c
  | BeginValue => step_begin_value stack c
  | BeginStringOrEmpty =>
    if is_ws c then Next BeginStringOrEmpty stack
    else if c =? 125 then step_end_value (ParseObjectValue :: tail stack) c else step_begin_string stack c
  | BeginString => step_begin_string stack c
  | EndValue => step_end_value stack c
  | InString =>
    if c =? 34 then Next EndValue stack else if c =? 92 then Next InStringEsc stack
    else if c <? 32 then Bad else Next InString stack
  | InStringEsc =>
    if c =? 117 then Next (InStringEscU 4) stack
    else match short_escape c with Some _ => Next InString stack | None => Bad end
  | InStringEscU n =>
    match hex_value c with
    | Some _ => Next (if (n <=? 1)%nat then InString else InStringEscU (n - 1)) stack
    | None => Bad
    end
  | Neg => if c =? 48 then Next S0 stack else if is_digit c then Next S1 stack else Bad
  | S1 => if is_digit c then Next S1 stack else if c =? 46 then Next Dot stack else step_exponent stack c
  | S0 => if c =? 46 then Next Dot stack else step_exponent stack c
  | Dot => if is_digit c then Next Dot0 stack else Bad
  | Dot0 => if is_digit c then Next Dot0 stack else step_exponent stack c
  | E => if (c =? 43) || (c =? 45) then Next ESign stack else if is_digit c then Next E0 stack else Bad
  | ESign => if is_digit c then Next E0 stack else Bad
  | E0 => if is_digit c then Next E0 stack else step_end_value stack c
  | InLit w =>
    match w with
    | [] => Bad
    | a :: w => if c =? a then Next (if decide (w = []) then EndValue else InLit w) stack else Bad
    end
  end.

(** The loop of [readValue] over the bytes there are: what follows the value,
    what begins with the offending byte, or that they scan_all out, in the middle of
    a value or where a space would end it. *)
Inductive scan_end : Type :=
| Complete (rest : list Z)
| Invalid (rest : list Z)
| Starved (complete : bool).

Fixpoint scan_all (st : sstate) (stack : list pstate) (l : list Z) : scan_end :=
  match l with
  | [] => Starved match scan_step st stack 32 with End => true | _ => false end
  | c :: l' =>
    match scan_step st stack c with
    | Next st stack => scan_all st stack l'
    | End => Complete l
    | Closed [] => Complete l'
    | Closed stack => scan_all EndValue stack l'
    | Bad => Invalid l
    end
  end.

(** ** The scanner follows the parser *)

Definition stuck (r : scan_end) : Prop := r = Starved false ∨ ∃ rest, r = Invalid rest.

(** A value ended, with [rest] to follow. *)
Definition after (stack : list pstate) (rest : list Z) (r : scan_end) : Prop :=
  r = scan_all EndValue stack rest ∨ (stack = [] ∧ r = Complete rest).

Definition closed (stack : list pstate) (rest : list Z) : scan_end :=
  match stack with [] => Complete rest | _ => scan_all EndValue stack rest end.

Lemma closed_after stack rest : after stack rest (closed stack rest).
Proof. destruct stack; [by right|by left]. Qed.

Lemma after_inner p stack rest r : after (p :: stack) rest r → r = scan_all EndValue (p :: stack) rest.
Proof. by intros [?|[? _]]. Qed.

Lemma stuck_starved : stuck (Starved false).
Proof. by left. Qed.
Lemma stuck_invalid rest : stuck (Invalid rest).
Proof. right. by eexists. Qed.
#[local] Hint Resolve stuck_starved stuck_invalid : core.

(** Two states that do the same with the next byte. *)
Lemma run_same st st' k l :
  scan_step st k 32 = scan_step st' k 32 →
  (∀ c, head l = Some c → scan_step st k c = scan_step st' k c) → scan_all st k l = scan_all st' k l.
Proof. intros Hs Hc. destruct l as [|c l]; simpl; [by rewrite Hs|]. by rewrite (Hc c). Qed.

(** States that skip white space. *)
Definition skips (st : sstate) (k : list pstate) : Prop :=
  ∀ c, is_ws c = true → scan_step st k c = Next st k.

Lemma run_skip st k l : skips st k → scan_all st k l = scan_all st k (skip_ws l).
Proof.
  intros Hs. induction l as [|c l IH]; simpl; [done|].
  destruct (is_ws c) eqn:Hc; [by rewrite (Hs c Hc)|done].
Qed.

Lemma skips_value k : skips BeginValue k.
Proof. intros c Hc. simpl. unfold step_begin_value. by rewrite Hc. Qed.
Lemma skips_value_or_empty k : skips BeginValueOrEmpty k.
Proof. intros c Hc. simpl. by rewrite Hc. Qed.
Lemma skips_string k : skips BeginString k.
Proof. intros c Hc. simpl. unfold step_begin_string. by rewrite Hc. Qed.
Lemma skips_string_or_empty k : skips BeginStringOrEmpty k.
Proof. intros c Hc. simpl. by rewrite Hc. Qed.
Lemma skips_end p k : skips EndValue (p :: k).
Proof. intros c Hc. simpl. by rewrite Hc. Qed.

Lemma skip_ws_stops l c l' : skip_ws l = c :: l' → is_ws c = false.
Proof. induction l as [|b l IH]; simpl; [done|]. destruct (is_ws b) eqn:Hb; [done|]. by intros [= <- <-]. Qed.

Lemma skip_ws_length l : (length (skip_ws l) <= length l)%nat.
Proof. induction l as [|b l IH]; simpl; [lia|]. destruct (is_ws b); simpl; lia. Qed.

(** Strings *)
Lemma short_escape_u : short_escape 117 = None.
Proof. reflexivity. Qed.

Lemma run_hex4 k h1 h2 h3 h4 l :
  match hex4 h1 h2 h3 h4 with
  | Some _ => scan_all (InStringEscU 4) k (h1 :: h2 :: h3 :: h4 :: l) = scan_all InString k l
  | None => stuck (scan_all (InStringEscU 4) k (h1 :: h2 :: h3 :: h4 :: l))
  end.
Proof.
  unfold hex4. simpl. destruct (hex_value h1); [|by auto]. simpl.
  destruct (hex_value h2); [|by auto]. simpl. destruct (hex_value h3); [|by auto]. simpl.
  destruct (hex_value h4); by auto.
Qed.

Lemma run_hex_short k l n : (length l < n)%nat → stuck (scan_all (InStringEscU n) k l).
Proof.
  revert n. induction l as [|h l IH]; intros n Hn; simpl in *; [auto|].
  destruct (hex_value h); [|by auto].
  destruct (Nat.leb_spec n 1); [lia|]. apply IH. lia.
Qed.

Definition string_agrees (k : list pstate) (l : list Z) (r : option (list Z * list Z)) : Prop :=
  match r with Some (_, rest) => scan_all InString k l = scan_all EndValue k rest | None => stuck (scan_all InString k l) end.

Lemma agrees_push k l l' pre r :
  scan_all InString k l = scan_all InString k l' → string_agrees k l' r → string_agrees k l (push pre r).
Proof. intros He. unfold string_agrees, push. rewrite He. by destruct r as [[??]|]. Qed.

Lemma str_body_scan k l : string_agrees k l (str_body l).
Proof.
  remember (length l) as n eqn:Hn. revert l Hn. induction (lt_wf n) as [n _ IH]. intros l ->.
  assert (∀ l', (length l' < length l)%nat → string_agrees k l' (str_body l')) as IH' by (intros; by eapply IH).
  clear IH. destruct l as [|b l]; cbn [str_body]; [by left|].
  destruct (b =? 34) eqn:Hq.
  { simpl. by rewrite Hq. }
  destruct (b <? 32) eqn:Hc.
  { simpl. rewrite Hq, Hc. destruct (Z.eqb_spec b 92); [lia|]. auto. }
  destruct (b =? 92) eqn:Hb; cbn [negb].
  2:{ apply agrees_push with (l' := l); [|apply IH'; simpl; lia]. simpl. by rewrite Hq, Hb, Hc. }
  destruct l as [|e l]; [simpl; rewrite Hq, Hb; by left|].
  assert (scan_all InString k (b :: e :: l) = scan_all InStringEsc k (e :: l)) as Hesc by (cbn [scan_all scan_step]; by rewrite Hq, Hb).
  destruct (e =? 117) eqn:He; cbn [negb].
  2:{ destruct (short_escape e) as [c|] eqn:Hs.
      - apply agrees_push with (l' := l); [|apply IH'; simpl; lia]. rewrite Hesc. cbn [scan_all scan_step]. by rewrite He, Hs.
      - unfold string_agrees. rewrite Hesc. cbn [scan_all scan_step]. rewrite He, Hs. auto. }
  assert (scan_all InString k (b :: e :: l) = scan_all (InStringEscU 4) k l) as Hu
    by (rewrite Hesc; cbn [scan_all scan_step]; by rewrite He).
  destruct l as [|h1 [|h2 [|h3 [|h4 l]]]];
    try (unfold string_agrees; rewrite Hu; apply run_hex_short; simpl; lia).
  pose proof (run_hex4 k h1 h2 h3 h4 l) as Hh. destruct (hex4 h1 h2 h3 h4) as [r|]; [|unfold string_agrees; by rewrite Hu].
  rewrite Hh in Hu.
  assert (∀ pre, string_agrees k (b :: e :: h1 :: h2 :: h3 :: h4 :: l) (push pre (str_body l))) as Hplain.
  { intros pre. apply agrees_push with (l' := l); [done|apply IH'; simpl; lia]. }
  destruct (surrogate r); cbn [negb]; [|apply Hplain].
  destruct l as [|b1 [|b2 [|g1 [|g2 [|g3 [|g4 l]]]]]]; try apply Hplain.
  destruct ((b1 =? 92) && (b2 =? 117)) eqn:Hbu; [|apply Hplain].
  pose proof (run_hex4 k g1 g2 g3 g4 l) as Hg. destruct (hex4 g1 g2 g3 g4) as [r1|]; [|apply Hplain].
  cbn [mbind option_bind]. destruct (surrogate_pair r r1); [|apply Hplain].
  apply agrees_push with (l' := l); [|apply IH'; simpl; lia].
  rewrite Hu. apply andb_true_iff in Hbu as [Hb1 Hb2]. rewrite <-Hg. cbn [scan_all scan_step].
  destruct (Z.eqb_spec b1 34); [lia|]. rewrite Hb1. cbn [scan_all scan_step]. by rewrite Hb2.
Qed.

Lemma str_lit_scan k l : string_agrees k l (str_lit l).
Proof. pose proof (str_body_scan k l) as Hs. unfold str_lit, string_agrees in *. by destruct (str_body l) as [[??]|]. Qed.

Lemma str_body_length l s rest : str_body l = Some (s, rest) → (length rest < length l)%nat.
Proof.
  remember (length l) as n eqn:Hn. revert l s rest Hn. induction (lt_wf n) as [n _ IH]. intros l s rest ->.
  assert (∀ l' pre, (length l' < length l)%nat → push pre (str_body l') = Some (s, rest) → (length rest < length l)%nat) as IH'.
  { intros l' pre Hl. unfold push. destruct (str_body l') as [[s' rest']|] eqn:Hs; [|done]. intros [= <- <-].
    eapply IH in Hs; [|done..]. lia. }
  clear IH. destruct l as [|b l]; cbn [str_body]; [done|]. simpl in IH'.
  repeat case_match; try done; try (intros Hp; eapply IH' in Hp; [simpl in *; done|subst; simpl; lia]).
  intros [= <- <-]. simpl. lia.
Qed.

Lemma str_lit_length l s rest : str_lit l = Some (s, rest) → (length rest < length l)%nat.
Proof.
  unfold str_lit. destruct (str_body l) as [[s' r]|] eqn:Hs; [|done]. intros [= <- <-].
  by eapply str_body_length.
Qed.

(** Numbers *)
Lemma step_end_ws k : match step_end_value k 32 with End => k = [] | Next EndValue k' => k' = k | _ => False end.
Proof. by destruct k. Qed.

Lemma run_digits st k l ds rest :
  (∀ c, is_digit c = true → scan_step st k c = Next st k) → span_digits l = (ds, rest) →
  scan_all st k l = scan_all st k rest ∧ (length ds + length rest = length l)%nat ∧
  (∀ c, head rest = Some c → is_digit c = false).
Proof.
  intros Hd. revert ds. induction l as [|b l IH]; simpl; intros ds.
  - by intros [= <- <-].
  - destruct (is_digit b) eqn:Hb.
    + destruct (span_digits l) as [ds' rest'] eqn:Hs. intros [= <- <-].
      destruct (IH _ eq_refl) as (Hr & Hn & Hh). rewrite (Hd b Hb). split_and!; [done|simpl; lia|done].
    + intros [= <- <-]. split_and!; [simpl; by rewrite ?Hb|done|]. by intros c [= <-].
Qed.

(** From a digit on to the last of its digits. *)
Lemma run_span st st' k l :
  (∀ c, is_digit c = true → scan_step st k c = Next st' k ∧ scan_step st' k c = Next st' k) →
  scan_step st k 32 = Bad → (∀ c, head l = Some c → is_digit c = false → scan_step st k c = Bad) →
  match span_digits l with
  | ([], _) => stuck (scan_all st k l)
  | (_, rest) =>
    scan_all st k l = scan_all st' k rest ∧ (length rest < length l)%nat ∧ (∀ c, head rest = Some c → is_digit c = false)
  end.
Proof.
  intros Hd Hs Hn. destruct l as [|b l]; simpl.
  - rewrite Hs. auto.
  - destruct (is_digit b) eqn:Hb; [|rewrite (Hn b) by done; auto]. clear Hs.
    destruct (span_digits l) as [ds rest] eqn:Hs. rewrite (proj1 (Hd b Hb)).
    edestruct (run_digits st') as (? & ? & ?); [by intros c Hc; apply Hd|done|]. split_and!; [done|simpl; lia|done].
Qed.

(** A state that only an exponent keeps from ending the value. *)
Definition ends_or (step : list pstate → Z → scanned) (st : sstate) (k : list pstate) (l : list Z) : Prop :=
  scan_step st k 32 = step k 32 ∧ ∀ c, head l = Some c → scan_step st k c = step k c.

Lemma run_ends st k l : ends_or step_end_value st k l → scan_all st k l = scan_all EndValue k l.
Proof. intros [Hs Hc]. by apply run_same. Qed.

Definition scans_to (st : sstate) (k : list pstate) (l : list Z) (r : option (list Z * list Z)) : Prop :=
  match r with
  | Some (_, rest) => scan_all st k l = scan_all EndValue k rest ∧ (length rest <= length l)%nat
  | None => stuck (scan_all st k l)
  end.

Lemma exponent_digits st k l :
  (∀ c, is_digit c = true → scan_step st k c = Next E0 k) →
  scan_step st k 32 = Bad → (∀ c, head l = Some c → is_digit c = false → scan_step st k c = Bad) →
  ∀ pre, scans_to st k l match span_digits l with ([], _) => None | (ds, rest) => Some (pre ++ ds, rest) end.
Proof.
  intros Hd Hs Hn pre. pose proof (run_span st E0 k l) as Hspan. destruct (span_digits l) as [ds rest].
  destruct ds as [|d ds]; simpl.
  - apply Hspan; [|done..]. intros c Hc. split; [by apply Hd|]. simpl. by rewrite Hc.
  - destruct Hspan as (Hr & Hl & Hh); [|done..|].
    { intros c Hc. split; [by apply Hd|]. simpl. by rewrite Hc. }
    split; [|lia]. rewrite Hr. apply run_ends. split; [done|]. intros c Hc. simpl. by rewrite (Hh c Hc).
Qed.

Lemma scans_to_cons st st' k c l r :
  scan_step st k c = Next st' k → scans_to st' k l r → scans_to st k (c :: l) r.
Proof.
  unfold scans_to. simpl. intros ->. destruct r as [[lit rest]|]; [|done]. intros [? ?]. split; [done|]. lia.
Qed.

Lemma exponent_scan st k l : ends_or step_exponent st k l → scans_to st k l (exponent l).
Proof.
  intros [Hs Hc]. unfold exponent. destruct l as [|e l].
  { split; [|done]. apply run_ends. by split. }
  specialize (Hc e eq_refl). unfold step_exponent in Hc. destruct ((e =? 101) || (e =? 69)) eqn:He.
  2:{ split; [|done]. apply run_ends. split; [by rewrite Hs|]. by intros c [= <-]. }
  apply (scans_to_cons st E); [done|]. destruct l as [|s l].
  { simpl. auto. }
  destruct ((s =? 43) || (s =? 45)) eqn:Hsg.
  - apply (scans_to_cons E ESign); [by simpl; rewrite Hsg|].
    apply (exponent_digits ESign k l) with (pre := [e; s]); [..|done|].
    + intros c Hd. simpl. by rewrite Hd.
    + intros c _ Hd. simpl. by rewrite Hd.
  - apply (exponent_digits E k (s :: l)) with (pre := [e]); [..|done|].
    + intros c Hd. simpl. rewrite Hd. destruct ((c =? 43) || (c =? 45)) eqn:Hc'; [|done].
      unfold is_digit, between in Hd. lia.
    + intros c [= <-] Hd. simpl. by rewrite Hsg, Hd.
Qed.

(** The point and the digits after it, up to the exponent. *)
Lemma fraction_scan st k l :
  ends_or (λ k c, if c =? 46 then Next Dot k else step_exponent k c) st k l →
  match fraction l with
  | Some (_, rest) =>
    ∃ st', scan_all st k l = scan_all st' k rest ∧ ends_or step_exponent st' k rest ∧ (length rest <= length l)%nat
  | None => stuck (scan_all st k l)
  end.
Proof.
  intros [Hs Hc]. assert (fraction l = match l with
    | c :: l => if c =? 46 then match span_digits l with ([], _) => None | (ds, rest) => Some (46 :: ds, rest) end
                else Some ([], c :: l) | [] => Some ([], []) end) as ->.
  { unfold fraction. destruct l as [|c l]; [done|]. destruct (Z.eqb_spec c 46) as [->|Hn]; [done|].
    by repeat (case_match; try done). }
  destruct l as [|c l]; [by exists st|]. specialize (Hc c eq_refl). destruct (c =? 46).
  2:{ exists st. split; [done|]. split; [|done]. split; [done|]. by intros ? [= <-]. }
  assert (scan_all st k (c :: l) = scan_all Dot k l) as -> by (simpl; by rewrite Hc).
  pose proof (run_span Dot Dot0 k l) as Hspan. destruct (span_digits l) as [[|d ds] rest].
  - apply Hspan; [|done|]; [intros b Hb|intros b _ Hb]; simpl; by rewrite Hb.
  - destruct Hspan as (Hr & Hl & Hh); [|done|intros b _ Hb; simpl; by rewrite Hb|].
    { intros b Hb. simpl. by rewrite Hb. }
    exists Dot0. split; [done|]. split; [|simpl; lia]. split; [done|]. intros b Hb. simpl. by rewrite (Hh b Hb).
Qed.

(** A state that takes the digits of the integer part. *)
Lemma integer_scan st k l :
  (∀ c, is_digit c = true → scan_step st k c = Next (if c =? 48 then S0 else S1) k) →
  scan_step st k 32 = Bad ∨ l ≠ [] → (∀ c, head l = Some c → is_digit c = false → scan_step st k c = Bad) →
  match integer l with
  | Some (_, rest) =>
    ∃ st', scan_all st k l = scan_all st' k rest ∧ (length rest < length l)%nat ∧
      ends_or (λ k c, if c =? 46 then Next Dot k else step_exponent k c) st' k rest
  | None => stuck (scan_all st k l)
  end.
Proof.
  intros Hd Hs Hn. destruct l as [|b l]; simpl; [destruct Hs as [->|?]; [auto|done]|]. clear Hs.
  destruct (is_digit b) eqn:Hb; [|rewrite (Hn b) by done; auto]. rewrite (Hd b Hb).
  destruct (b =? 48).
  { exists S0. split; [done|]. split; [simpl; lia|]. by split. }
  destruct (span_digits l) as [ds rest] eqn:Hs.
  destruct (run_digits S1 k l ds rest) as (Hr & Hl & Hh); [by intros c Hc; simpl; rewrite Hc|done|].
  exists S1. split; [done|]. split; [simpl; lia|]. split; [done|]. intros c Hc. simpl. by rewrite (Hh c Hc).
Qed.

Definition scans_past (st : sstate) (k : list pstate) (l : list Z) (r : option (list Z * list Z)) : Prop :=
  match r with
  | Some (_, rest) => scan_all st k l = scan_all EndValue k rest ∧ (length rest < length l)%nat
  | None => stuck (scan_all st k l)
  end.

(** The rest of a number after its sign. *)
Lemma unsigned_scan st k l sign :
  (∀ c, is_digit c = true → scan_step st k c = Next (if c =? 48 then S0 else S1) k) →
  scan_step st k 32 = Bad ∨ l ≠ [] → (∀ c, head l = Some c → is_digit c = false → scan_step st k c = Bad) →
  scans_past st k l ('(int, l) ← integer l; '(frac, l) ← fraction l; '(ex, l) ← exponent l;
                     Some (sign ++ int ++ frac ++ ex, l)).
Proof.
  intros Hd Hs Hn. pose proof (integer_scan st k l Hd Hs Hn) as Hi.
  destruct (integer l) as [[int l1]|]; [|exact Hi]. destruct Hi as (st1 & Hr1 & Hl1 & He1). cbn [mbind option_bind].
  pose proof (fraction_scan st1 k l1 He1) as Hf.
  destruct (fraction l1) as [[frac l2]|]; [|simpl; by rewrite Hr1]. destruct Hf as (st2 & Hr2 & He2 & Hl2). cbn [mbind option_bind].
  pose proof (exponent_scan st2 k l2 He2) as Hx.
  destruct (exponent l2) as [[ex l3]|]; simpl in *; rewrite Hr1, Hr2; [|done]. destruct Hx as [Hr3 Hl3].
  split; [done|]. lia.
Qed.

Lemma number_scan k b l :
  is_digit b || (b =? 45) = true → scans_past BeginValue k (b :: l) (number (b :: l)).
Proof.
  intros Hb. unfold number. cbn [minus_sign]. destruct (Z.eqb_spec b 45) as [->|Hm].
  - pose proof (unsigned_scan Neg k l [45]) as Hu. revert Hu.
    set (r := _ ← _; _). intros Hu.
    assert (scan_all BeginValue k (45 :: l) = scan_all Neg k l) as Hr by reflexivity.
    assert (scans_past Neg k l r) as Hp.
    { apply Hu; [|by left|].
      - intros c Hc. simpl. destruct (c =? 48); [done|by rewrite Hc].
      - intros c _ Hc. simpl. rewrite Hc. destruct (Z.eqb_spec c 48) as [->|]; done. }
    unfold scans_past in *. rewrite Hr. destruct r as [[??]|]; [|done]. destruct Hp. split; [done|simpl; lia].
  - rewrite orb_false_r in Hb. apply (unsigned_scan BeginValue k (b :: l) []); [|by right|].
    + intros c Hc. unfold is_digit, between in Hc. simpl. unfold step_begin_value, is_ws, is_digit, between.
      repeat match goal with |- context [?x =? ?y] => destruct (Z.eqb_spec x y); [try lia; try done|] end.
      simpl. rewrite (proj2 (andb_true_iff _ _)); [done|]. bsplit. lia.
    + intros c [= <-]. congruence.
Qed.

(** Words *)
Lemma word_scan k w l :
  w ≠ [] →
  match expect w l with
  | Some rest => scan_all (InLit w) k l = scan_all EndValue k rest ∧ (length rest + length w = length l)%nat
  | None => stuck (scan_all (InLit w) k l)
  end.
Proof.
  revert l. induction w as [|a w IH]; intros l Hw; [done|]. destruct l as [|c l].
  { cbn [expect scan_all scan_step]. destruct (32 =? a); auto. }
  cbn [expect scan_all scan_step]. rewrite Z.eqb_sym. destruct (c =? a); [|auto].
  destruct (decide (w = [])) as [->|Hn]; [simpl; split; [done|lia]|].
  specialize (IH l Hn). destruct (expect w l); [|done]. destruct IH. split; [done|simpl; lia].
Qed.

Definition scans_value (k : list pstate) (l : list Z) {A} (r : option (A * list Z)) : Prop :=
  match r with
  | Some (_, rest) => after k rest (scan_all BeginValue k l) ∧ (length rest < length l)%nat
  | None => stuck (scan_all BeginValue k l)
  end.

Lemma literal_scan k b l :
  is_ws b = false → b ≠ 34 → b ≠ 91 → b ≠ 123 → scans_value k (b :: l) (literal (b :: l)).
Proof.
  intros Hw H1 H2 H3.
  assert (∀ w j (r : option (json * list Z)), w ≠ [] →
    scan_all BeginValue k (b :: l) = scan_all (InLit w) k l →
    r = match expect w l with Some rest => Some (j, rest) | None => None end → scans_value k (b :: l) r) as Hword.
  { intros w j r Hn Hr ->. pose proof (word_scan k w l Hn) as Hs. unfold scans_value. rewrite Hr.
    destruct (expect w l); [|done]. destruct Hs. split; [by left|]. simpl. destruct w; [done|]. simpl in *. lia. }
  destruct (Z.eqb_spec b 116) as [->|Ht].
  { apply (Hword [114; 117; 101] (JBool true)); [done..|]. unfold literal. simpl. by repeat case_match. }
  destruct (Z.eqb_spec b 102) as [->|Hf].
  { apply (Hword [97; 108; 115; 101] (JBool false)); [done..|]. unfold literal. simpl. by repeat case_match. }
  destruct (Z.eqb_spec b 110) as [->|Hn].
  { apply (Hword [117; 108; 108] JNull); [done..|]. unfold literal. simpl. by repeat case_match. }
  assert (literal (b :: l) = match number (b :: l) with Some (lit, rest) => Some (JNum lit, rest) | None => None end) as ->.
  { unfold literal, word_true, word_false, word_null. cbn [expect].
    by rewrite (proj2 (Z.eqb_neq 116 b)), (proj2 (Z.eqb_neq 102 b)), (proj2 (Z.eqb_neq 110 b)) by lia. }
  destruct (is_digit b || (b =? 45)) eqn:Hd.
  - pose proof (number_scan k b l Hd) as Hs. unfold scans_past, scans_value in *.
    destruct (number (b :: l)) as [[lit rest]|]; [|done]. destruct Hs. split; [by left|done].
  - apply orb_false_iff in Hd as [Hd H4]. apply Z.eqb_neq in H4.
    assert (number (b :: l) = None) as ->.
    { unfold number. simpl. rewrite (proj2 (Z.eqb_neq b 45)) by done. simpl. by rewrite Hd. }
    assert (b ≠ 48) by (intros ->; done).
    simpl. unfold step_begin_value. rewrite Hw, Hd, !(proj2 (Z.eqb_neq _ _)) by done. auto.
Qed.

(** Values *)
Definition scans_elements (k : list pstate) (l : list Z) (r : option (list json * list Z)) : Prop :=
  match r with
  | Some (_, rest) => scan_all BeginValue (ParseArrayValue :: k) l = closed k rest ∧ (length rest < length l)%nat
  | None => stuck (scan_all BeginValue (ParseArrayValue :: k) l)
  end.
Definition scans_members (k : list pstate) (l : list Z) (r : option (list (list Z * json) * list Z)) : Prop :=
  match r with
  | Some (_, rest) => scan_all BeginString (ParseObjectKey :: k) l = closed k rest ∧ (length rest < length l)%nat
  | None => stuck (scan_all BeginString (ParseObjectKey :: k) l)
  end.

(** After a value within brackets: white space and one byte. *)
Lemma run_end p k l :
  scan_all EndValue (p :: k) l =
  match skip_ws l with
  | [] => Starved false
  | c :: l' =>
    match step_end_value (p :: k) c with
    | Next st k' => scan_all st k' l'
    | End => Complete (c :: l')
    | Closed k' => closed k' l'
    | Bad => Invalid (c :: l')
    end
  end.
Proof.
  rewrite (run_skip _ _ _ (skips_end p k)). destruct (skip_ws l) as [|c l']; [done|].
  cbn [scan_all scan_step]. destruct (step_end_value (p :: k) c) as [| |[|? ?]|]; done.
Qed.

Lemma end_array k c :
  is_ws c = false → step_end_value (ParseArrayValue :: k) c =
    if c =? 93 then Closed k else if c =? 44 then Next BeginValue (ParseArrayValue :: k) else Bad.
Proof. intros Hw. simpl. rewrite Hw. destruct (Z.eqb_spec c 44) as [->|]; done. Qed.

Lemma end_member k c :
  is_ws c = false → step_end_value (ParseObjectValue :: k) c =
    if c =? 125 then Closed k else if c =? 44 then Next BeginString (ParseObjectKey :: k) else Bad.
Proof. intros Hw. simpl. rewrite Hw. destruct (Z.eqb_spec c 44) as [->|]; done. Qed.

Lemma end_key k c :
  is_ws c = false → step_end_value (ParseObjectKey :: k) c =
    if c =? 58 then Next BeginValue (ParseObjectValue :: k) else Bad.
Proof. intros Hw. simpl. by rewrite Hw. Qed.

(** The first byte within brackets, as the parser looks at it. *)
Lemma bracket_93 {A} (f : list Z → A) (d : A) l :
  match l with 93 :: rest => f rest | _ => d end = match l with c :: rest => if c =? 93 then f rest else d | [] => d end.
Proof. destruct l as [|c l]; [done|]. destruct (Z.eqb_spec c 93) as [->|]; [done|]. by repeat case_match. Qed.
Lemma bracket_125 {A} (f : list Z → A) (d : A) l :
  match l with 125 :: rest => f rest | _ => d end = match l with c :: rest => if c =? 125 then f rest else d | [] => d end.
Proof. destruct l as [|c l]; [done|]. destruct (Z.eqb_spec c 125) as [->|]; [done|]. by repeat case_match. Qed.

Lemma array_not_empty k l :
  match l with c :: _ => is_ws c = false ∧ c ≠ 93 | [] => True end → scan_all BeginValueOrEmpty k l = scan_all BeginValue k l.
Proof. destruct l as [|c l]; [done|]. intros [Hw Hn]. simpl. by rewrite Hw, (proj2 (Z.eqb_neq c 93)). Qed.
Lemma object_not_empty k l :
  match l with c :: _ => is_ws c = false ∧ c ≠ 125 | [] => True end → scan_all BeginStringOrEmpty k l = scan_all BeginString k l.
Proof. destruct l as [|c l]; [done|]. intros [Hw Hn]. simpl. by rewrite Hw, (proj2 (Z.eqb_neq c 125)). Qed.

Section parser.
Variable fuel : nat.
Hypothesis value_ok : ∀ k l, (3 * length l < fuel)%nat → scans_value k l (value fuel (Z.of_nat (length k)) l).
Hypothesis elements_ok : ∀ k l, (3 * length l + 1 < fuel)%nat →
  scans_elements k l (elements fuel (Z.of_nat (length k) + 1) l).
Hypothesis members_ok : ∀ k l, (3 * length l + 1 < fuel)%nat →
  scans_members k l (members fuel (Z.of_nat (length k) + 1) l).

Lemma inner_scan p k l :
  (3 * length l < fuel)%nat →
  match value fuel (Z.of_nat (length k) + 1) l with
  | Some (_, rest) => scan_all BeginValue (p :: k) l = scan_all EndValue (p :: k) rest ∧ (length rest < length l)%nat
  | None => stuck (scan_all BeginValue (p :: k) l)
  end.
Proof.
  intros Hf. pose proof (value_ok (p :: k) l Hf) as Hv.
  replace (Z.of_nat (length (p :: k))) with (Z.of_nat (length k) + 1) in Hv by (simpl length; lia).
  unfold scans_value in Hv. destruct (value _ _ l) as [[j rest]|]; [|done]. destruct Hv as [Hv ?].
  split; [by apply after_inner|done].
Qed.

Lemma elements_scan_S k l :
  (3 * length l + 1 < S fuel)%nat → scans_elements k l (elements (S fuel) (Z.of_nat (length k) + 1) l).
Proof.
  intros Hf. cbn [elements]. pose proof (inner_scan ParseArrayValue k l ltac:(lia)) as Hv.
  unfold scans_elements. destruct (value _ _ l) as [[j l1]|]; [|done]. destruct Hv as [Hr Hl].
  rewrite Hr, run_end. pose proof (skip_ws_length l1) as Hl1.
  destruct (skip_ws l1) as [|c l2] eqn:Hs; [auto|]. rewrite end_array by (by eapply skip_ws_stops). simpl in Hl1.
  destruct (c =? 93); [split; [done|lia]|]. destruct (c =? 44); [|auto].
  pose proof (elements_ok k l2 ltac:(lia)) as He. unfold scans_elements in He.
  destruct (elements _ _ l2) as [[js rest]|]; [|done]. destruct He. split; [done|lia].
Qed.

Lemma members_scan_S k l :
  (3 * length l + 1 < S fuel)%nat → scans_members k l (members (S fuel) (Z.of_nat (length k) + 1) l).
Proof.
  intros Hf. cbn [members]. unfold scans_members. rewrite (run_skip _ _ l (skips_string _)).
  pose proof (skip_ws_length l) as Hl. destruct (skip_ws l) as [|b l1] eqn:Hs; [auto|].
  pose proof (skip_ws_stops _ _ _ Hs) as Hw. simpl in Hl. cbn [scan_all scan_step]. unfold step_begin_string. rewrite Hw.
  destruct (b =? 34); cbn [negb]; [|auto].
  pose proof (str_lit_scan (ParseObjectKey :: k) l1) as Hk. unfold string_agrees in Hk.
  destruct (str_lit l1) as [[key l2]|] eqn:Hlit; [|done]. apply str_lit_length in Hlit.
  rewrite Hk, run_end. pose proof (skip_ws_length l2) as Hl2.
  destruct (skip_ws l2) as [|c l3] eqn:Hs2; [auto|]. rewrite end_key by (by eapply skip_ws_stops). simpl in Hl2.
  destruct (c =? 58); cbn [negb]; [|auto].
  pose proof (inner_scan ParseObjectValue k l3 ltac:(lia)) as Hv.
  destruct (value _ _ l3) as [[j l4]|]; [|done]. destruct Hv as [Hr Hl4]. rewrite Hr, run_end.
  pose proof (skip_ws_length l4) as Hl5.
  destruct (skip_ws l4) as [|d l5] eqn:Hs4; [auto|]. rewrite end_member by (by eapply skip_ws_stops). simpl in Hl5.
  destruct (d =? 125); [split; [done|lia]|]. destruct (d =? 44); [|auto].
  pose proof (members_ok k l5 ltac:(lia)) as He. unfold scans_members in He.
  destruct (members _ _ l5) as [[ms rest]|]; [|done]. destruct He. split; [done|lia].
Qed.

Lemma value_scan_S k l :
  (3 * length l < S fuel)%nat → scans_value k l (value (S fuel) (Z.of_nat (length k)) l).
Proof.
  intros Hf. cbn [value]. unfold scans_value. rewrite (run_skip _ _ l (skips_value _)).
  pose proof (skip_ws_length l) as Hl. destruct (skip_ws l) as [|b l1] eqn:Hs; [auto|].
  pose proof (skip_ws_stops _ _ _ Hs) as Hw. simpl in Hl.
  destruct (Z.eqb_spec b 34) as [->|H1].
  { pose proof (str_lit_scan k l1) as Hk. unfold string_agrees in Hk. change (scan_all BeginValue k (34 :: l1)) with (scan_all InString k l1).
    destruct (str_lit l1) as [[s rest]|] eqn:Hlit; [|done]. apply str_lit_length in Hlit. split; [by left|lia]. }
  assert (∀ p st, push_state p st k = if maxNestingDepth <=? Z.of_nat (length k) then Bad else Next st (p :: k)) as Hpush.
  { intros p st. unfold push_state. simpl length.
    destruct (Z.leb_spec (Z.of_nat (S (length k))) maxNestingDepth), (Z.leb_spec maxNestingDepth (Z.of_nat (length k))); done || lia. }
  destruct (Z.eqb_spec b 91) as [->|H2].
  { change (scan_all BeginValue k (91 :: l1)) with (match push_state ParseArrayValue BeginValueOrEmpty k with
      | Next st k => scan_all st k l1 | End => Complete (91 :: l1) | Closed [] => Complete l1 | Closed k => scan_all EndValue k l1
      | Bad => Invalid (91 :: l1) end).
    rewrite Hpush. destruct (maxNestingDepth <=? _); [auto|]. rewrite (run_skip _ _ l1 (skips_value_or_empty _)), bracket_93.
    pose proof (elements_ok k l1 ltac:(lia)) as He. unfold scans_elements in He.
    rewrite (run_skip _ _ l1 (skips_value _)) in He. pose proof (skip_ws_length l1) as Hl1.
    destruct (skip_ws l1) as [|c l2] eqn:Hs1; [|pose proof (skip_ws_stops _ _ _ Hs1) as Hc; simpl in Hl1; destruct (Z.eqb_spec c 93) as [->|Hn]].
    2:{ split; [|lia]. change (scan_all _ _ (93 :: l2)) with (closed k l2). apply closed_after. }
    all: rewrite array_not_empty by done; destruct (elements _ _ l1) as [[js rest]|]; [|done];
      destruct He as [-> ?]; split; [apply closed_after|lia]. }
  destruct (Z.eqb_spec b 123) as [->|H3]; cycle 1.
  { pose proof (literal_scan k b l1 Hw H1 H2 H3) as Hv. unfold scans_value in Hv.
    destruct (literal (b :: l1)) as [[j rest]|]; [|done]. destruct Hv. split; [done|simpl in *; lia]. }
  change (scan_all BeginValue k (123 :: l1)) with (match push_state ParseObjectKey BeginStringOrEmpty k with
    | Next st k => scan_all st k l1 | End => Complete (123 :: l1) | Closed [] => Complete l1 | Closed k => scan_all EndValue k l1
    | Bad => Invalid (123 :: l1) end).
  rewrite Hpush. destruct (maxNestingDepth <=? _); [auto|]. rewrite (run_skip _ _ l1 (skips_string_or_empty _)), bracket_125.
  pose proof (members_ok k l1 ltac:(lia)) as He. unfold scans_members in He.
  rewrite (run_skip _ _ l1 (skips_string _)) in He. pose proof (skip_ws_length l1) as Hl1.
  destruct (skip_ws l1) as [|c l2] eqn:Hs1; [|pose proof (skip_ws_stops _ _ _ Hs1) as Hc; simpl in Hl1; destruct (Z.eqb_spec c 125) as [->|Hn]].
  2:{ split; [|lia]. change (scan_all _ _ (125 :: l2)) with (closed k l2). apply closed_after. }
  all: rewrite object_not_empty by done; destruct (members _ _ l1) as [[ms rest]|]; [|done];
    destruct He as [-> ?]; split; [apply closed_after|lia].
Qed.
End parser.

Lemma parser_scan fuel :
  (∀ k l, (3 * length l < fuel)%nat → scans_value k l (value fuel (Z.of_nat (length k)) l)) ∧
  (∀ k l, (3 * length l + 1 < fuel)%nat → scans_elements k l (elements fuel (Z.of_nat (length k) + 1) l)) ∧
  (∀ k l, (3 * length l + 1 < fuel)%nat → scans_members k l (members fuel (Z.of_nat (length k) + 1) l)).
Proof.
  induction fuel as [|fuel (Hv & He & Hm)]; [split_and!; intros; lia|].
  split_and!; intros k l Hf; [by apply value_scan_S|by apply elements_scan_S|by apply members_scan_S].
Qed.

(** The scanner ends a value exactly where the parser does, and gets stuck
    exactly when it fails. *)
Lemma value_scan l :
  match value (parse_fuel l) 0 l with
  | Some (_, rest) => (scan_all BeginValue [] l = Complete rest ∨ rest = [] ∧ scan_all BeginValue [] l = Starved true) ∧
                      (length rest < length l)%nat
  | None => stuck (scan_all BeginValue [] l)
  end.
Proof.
  destruct (parser_scan (parse_fuel l)) as [Hv _]. specialize (Hv [] l ltac:(unfold parse_fuel; lia)).
  unfold scans_value in Hv. simpl length in Hv. change (Z.of_nat 0) with 0 in Hv.
  destruct (value (parse_fuel l) 0 l) as [[j rest]|]; [|done]. destruct Hv as [[Hr|[_ Hr]] Hl]; (split; [|done]); [|by left].
  destruct rest; [by right|by left].
Qed.
