(* ===== verification/Compact.v ===== *)
(** Compaction of [encoding/json]: what the encoder makes of a
    [json.RawMessage], and that a decoder reads the same value from it. *)
From stdpp Require Import base tactics list numbers.
From Stdlib Require Import ZArith Lia.
From S2P Require Import Prelude GoStd Json.

Open Scope Z_scope.

(** [appendCompact] with HTML escaping: white space between the tokens is
    dropped, and the characters of strings that are dangerous in HTML or
    JavaScript are escaped; [str]: inside a string. *)
Fixpoint compact_from (str : bool) (l : list Z) : list Z :=
  match l with
  | [] => []
  | b :: l =>
    if negb str then
      if is_ws b then compact_from false l else b :: compact_from (b =? 34) l
    else if b =? 92 then
      match l with [] => [b] | e :: l => b :: e :: compact_from true l end
    else if b =? 34 then b :: compact_from false l
    else if (b =? 60) || (b =? 62) || (b =? 38) then
      [92; 117; 48; 48; hex_digit (b / 16); hex_digit (b mod 16)] ++ compact_from true l
    else
      match l with
      | b1 :: b2 :: l' =>
        if (b =? 0xE2) && (b1 =? 0x80) && ((b2 =? 0xA8) || (b2 =? 0xA9))
        then [92; 117; 50; 48; 50; hex_digit (b2 mod 16)] ++ compact_from true l'
        else b :: compact_from true l
      | _ => b :: compact_from true l
      end
  end.

Definition compact (l : list Z) : option (list Z) :=
  match parse l with Some _ => Some (compact_from false l) | None => None end.

(** ** Strings *)

(** The second half of a surrogate pair, as [str_body] looks for it. *)
Definition pair_ahead (r : Z) (l : list Z) : option (Z * list Z) :=
  match l with
  | b1 :: b2 :: g1 :: g2 :: g3 :: g4 :: l' =>
    match (if (b1 =? 92) && (b2 =? 117) then hex4 g1 g2 g3 g4 ≫= surrogate_pair r else None) with
    | Some r2 => Some (r2, l')
    | None => None
    end
  | _ => None
  end.

Lemma str_body_surrogate h1 h2 h3 h4 r l :
  hex4 h1 h2 h3 h4 = Some r → surrogate r = true →
  str_body (92 :: 117 :: h1 :: h2 :: h3 :: h4 :: l)
  = match pair_ahead r l with
    | Some (r2, l') => push (encode_rune r2) (str_body l')
    | None => push replacement (str_body l)
    end.
Proof.
  intros Hh Hr. cbn [str_body Z.eqb Pos.eqb negb Z.ltb Z.compare Pos.compare Pos.compare_cont]. rewrite Hh, Hr. cbn [negb].
  unfold pair_ahead. do 6 (destruct l as [|? l]; [done|]). by case_match.
Qed.

Lemma str_body_rune h1 h2 h3 h4 r l :
  hex4 h1 h2 h3 h4 = Some r → surrogate r = false →
  str_body (92 :: 117 :: h1 :: h2 :: h3 :: h4 :: l) = push (encode_rune r) (str_body l).
Proof.
  intros Hh Hr. cbn [str_body Z.eqb Pos.eqb negb Z.ltb Z.compare Pos.compare Pos.compare_cont]. by rewrite Hh, Hr.
Qed.

Lemma push_Some pre r s rest : push pre r = Some (s, rest) → ∃ s', r = Some (s', rest) ∧ s = pre ++ s'.
Proof. destruct r as [[s' rest']|]; [|done]. intros [= <- <-]. eauto. Qed.

(** A byte that compaction leaves alone. *)
Definition plain (b : Z) : Prop := is_ws b = false ∧ b ≠ 34 ∧ 32 <= b.

Lemma hex_value_plain b d :
  hex_value b = Some d → b ≠ 92 ∧ b ≠ 34 ∧ (b =? 60) || (b =? 62) || (b =? 38) = false ∧ b ≠ 0xE2 ∧ 32 <= b.
Proof.
  unfold hex_value, between. intros H.
  assert (48 <= b <= 57 ∨ 97 <= b <= 102 ∨ 65 <= b <= 70) as Hb.
  { branch_in H; bsplit; lia. }
  rewrite !orb_false_iff, !Z.eqb_neq. lia.
Qed.

Lemma compact_true_other b l :
  b ≠ 92 → b ≠ 34 → (b =? 60) || (b =? 62) || (b =? 38) = false → b ≠ 0xE2 →
  compact_from true (b :: l) = b :: compact_from true l.
Proof.
  intros H1 H2 H3 H4. cbn [compact_from negb].
  rewrite (proj2 (Z.eqb_neq b 92)), (proj2 (Z.eqb_neq b 34)), H3, (proj2 (Z.eqb_neq b 0xE2)) by done.
  by destruct l as [|? [|? l]].
Qed.

Lemma compact_true_escape e l : compact_from true (92 :: e :: l) = 92 :: e :: compact_from true l.
Proof. done. Qed.

Lemma hex4_Some a b c d r :
  hex4 a b c d = Some r →
  ∃ x y z w, hex_value a = Some x ∧ hex_value b = Some y ∧ hex_value c = Some z ∧ hex_value d = Some w.
Proof.
  unfold hex4. destruct (hex_value a), (hex_value b), (hex_value c), (hex_value d); try done. eauto 10.
Qed.

Lemma compact_true_hex4 h1 h2 h3 h4 r l :
  hex4 h1 h2 h3 h4 = Some r →
  compact_from true (92 :: 117 :: h1 :: h2 :: h3 :: h4 :: l) = 92 :: 117 :: h1 :: h2 :: h3 :: h4 :: compact_from true l.
Proof.
  intros (x & y & z & w & H1 & H2 & H3 & H4)%hex4_Some.
  apply hex_value_plain in H1 as (? & ? & ? & ? & _), H2 as (? & ? & ? & ? & _),
    H3 as (? & ? & ? & ? & _), H4 as (? & ? & ? & ? & _).
  by rewrite compact_true_escape, !compact_true_other.
Qed.

(** The compaction of a string's body is read like the body. *)
Record same_body (l s rest out : list Z) : Prop := {
  sb_visible : visible out;
  sb_split : compact_from true l = out ++ compact_from false rest;
  sb_read : ∀ r', str_body (out ++ r') = Some (s, r');
  sb_ahead : ∀ r, pair_ahead r l = None → ∀ r', pair_ahead r (out ++ r') = None;
}.

Lemma pair_ahead_head r b l : b ≠ 92 → pair_ahead r (b :: l) = None.
Proof.
  intros Hb. unfold pair_ahead. do 5 (destruct l as [|? l]; [done|]). by rewrite (proj2 (Z.eqb_neq b 92)).
Qed.

Lemma pair_ahead_escape r e l : e ≠ 117 → pair_ahead r (92 :: e :: l) = None.
Proof.
  intros He. unfold pair_ahead. do 4 (destruct l as [|? l]; [done|]). by rewrite (proj2 (Z.eqb_neq e 117)).
Qed.

Lemma pair_ahead_hex r h1 h2 h3 h4 c l :
  hex4 h1 h2 h3 h4 = Some c → between 0xDC00 c 0xDFFF = false → pair_ahead r (92 :: 117 :: h1 :: h2 :: h3 :: h4 :: l) = None.
Proof.
  intros Hh Hc. unfold pair_ahead. rewrite Hh. cbn [Z.eqb Pos.eqb andb mbind option_bind]. unfold surrogate_pair.
  by rewrite Hc, andb_false_r.
Qed.

Lemma same_body_html b l s rest out :
  (b = 60 ∨ b = 62 ∨ b = 38) → same_body l s rest out →
  same_body (b :: l) (b :: s) rest ([92; 117; 48; 48; hex_digit (b / 16); hex_digit (b mod 16)] ++ out).
Proof.
  intros Hb [Hv Hs Hr Ha].
  assert (hex4 48 48 (hex_digit (b / 16)) (hex_digit (b mod 16)) = Some b ∧ surrogate b = false ∧ encode_rune b = [b] ∧
    between 0xDC00 b 0xDFFF = false ∧
    compact_from true (b :: l) = [92; 117; 48; 48; hex_digit (b / 16); hex_digit (b mod 16)] ++ compact_from true l)
    as (Hh & Hsu & He & Hl & Hc) by (destruct Hb as [->|[->| ->]]; split_and!; reflexivity).
  split; [apply visible_app; split; [destruct Hb as [->|[->| ->]]; by apply visible_closed|done]|..].
  - rewrite Hc, Hs. done.
  - intros r'. cbn [app]. by rewrite (str_body_rune _ _ _ _ _ _ Hh Hsu), Hr, He.
  - intros r _ r'. cbn [app]. by apply (pair_ahead_hex _ _ _ _ _ _ _ Hh).
Qed.

Lemma same_body_separator b2 l s rest out :
  (b2 = 0xA8 ∨ b2 = 0xA9) → same_body l s rest out →
  same_body (0xE2 :: 0x80 :: b2 :: l) (0xE2 :: 0x80 :: b2 :: s) rest ([92; 117; 50; 48; 50; hex_digit (b2 mod 16)] ++ out).
Proof.
  intros Hb [Hv Hs Hr Ha].
  split; [apply visible_app; split; [destruct Hb as [->| ->]; by apply visible_closed|done]|..].
  - replace (compact_from true (0xE2 :: 0x80 :: b2 :: l))
      with ([92; 117; 50; 48; 50; hex_digit (b2 mod 16)] ++ compact_from true l) by (by destruct Hb as [->| ->]).
    by rewrite Hs.
  - intros r'. cbn [app].
    destruct Hb as [->| ->];
      [change (hex_digit _) with 56; rewrite (str_body_rune 50 48 50 56 0x2028 _ eq_refl eq_refl)
      |change (hex_digit _) with 57; rewrite (str_body_rune 50 48 50 57 0x2029 _ eq_refl eq_refl)];
      rewrite Hr; reflexivity.
  - intros r _ r'. cbn [app]. 
    destruct Hb as [->| ->]; [apply (pair_ahead_hex _ _ _ _ _ 0x2028)|apply (pair_ahead_hex _ _ _ _ _ 0x2029)]; done.
Qed.

Lemma same_body_byte b l s rest out :
  b ≠ 34 → (b <? 32) = false → b ≠ 92 → compact_from true (b :: l) = b :: compact_from true l →
  same_body l s rest out → same_body (b :: l) (b :: s) rest (b :: out).
Proof.
  intros H1 H2 H3 Hc [Hv Hs Hr Ha]. split; [apply visible_cons; bsplit; done|..].
  - by rewrite Hc, Hs.
  - intros r'. cbn [app str_body]. rewrite (proj2 (Z.eqb_neq b 34)), H2, (proj2 (Z.eqb_neq b 92)) by done. cbn [negb].
    by rewrite Hr.
  - intros r _ r'. by apply pair_ahead_head.
Qed.

Lemma visible_hex4 h1 h2 h3 h4 c l :
  hex4 h1 h2 h3 h4 = Some c → visible l → visible (92 :: 117 :: h1 :: h2 :: h3 :: h4 :: l).
Proof.
  intros (x & y & z & w & H1 & H2 & H3 & H4)%hex4_Some Hl.
  apply hex_value_plain in H1 as (_ & _ & _ & _ & ?), H2 as (_ & _ & _ & _ & ?),
    H3 as (_ & _ & _ & _ & ?), H4 as (_ & _ & _ & _ & ?).
  rewrite !visible_cons. split_and!; done || lia.
Qed.

Lemma same_body_hex h1 h2 h3 h4 l c s rest s' out :
  hex4 h1 h2 h3 h4 = Some c → same_body l s rest out →
  (∀ r', str_body (92 :: 117 :: h1 :: h2 :: h3 :: h4 :: out ++ r') = Some (s', r')) →
  same_body (92 :: 117 :: h1 :: h2 :: h3 :: h4 :: l) s' rest (92 :: 117 :: h1 :: h2 :: h3 :: h4 :: out).
Proof.
  intros Hh [Hv Hs Hr Ha] Hn. split; [by apply visible_hex4 with c| |done|].
  - by rewrite (compact_true_hex4 _ _ _ _ _ _ Hh), Hs.
  - intros r Hp r'. revert Hp. unfold pair_ahead. cbn [app]. rewrite Hh. cbn [Z.eqb Pos.eqb andb mbind option_bind].
    by destruct (surrogate_pair r c).
Qed.

Lemma str_body_compact l s rest : str_body l = Some (s, rest) → ∃ out, same_body l s rest out.
Proof.
  revert s. induction l as [l IH] using (induction_ltof1 _ (@length Z)). unfold ltof in IH. intros s.
  destruct l as [|b l]; [done|]. cbn [str_body]. destruct (Z.eqb_spec b 34) as [->|H34].
  { intros [= <- <-]. exists [34]. split; [by apply visible_closed|done|done|]. intros r _ r'. by apply pair_ahead_head. }
  destruct (b <? 32) eqn:H32; [done|]. destruct (Z.eqb_spec b 92) as [->|H92]; cbn [negb].
  2: { intros (s' & E & ->)%push_Some.
       destruct (IH l ltac:(simpl; lia) s' E) as [out Hout].
       destruct ((b =? 60) || (b =? 62) || (b =? 38)) eqn:Hh.
       { eexists. apply same_body_html; [|exact Hout]. rewrite !orb_true_iff, !Z.eqb_eq in Hh. tauto. }
       assert (compact_from true (b :: l) = b :: compact_from true l →
         ∃ out, same_body (b :: l) ([b] ++ s') rest out) as Hplain.
       { intros Hc. exists (b :: out). by apply same_body_byte. }
       destruct l as [|b1 [|b2 l]]; [apply Hplain..|]; [cbn [compact_from negb];
         by rewrite (proj2 (Z.eqb_neq b 92)), (proj2 (Z.eqb_neq b 34)), Hh by done..|].
       destruct ((b =? 0xE2) && (b1 =? 0x80) && ((b2 =? 0xA8) || (b2 =? 0xA9))) eqn:Hs.
       2: { apply Hplain. cbn [compact_from negb].
            by rewrite (proj2 (Z.eqb_neq b 92)), (proj2 (Z.eqb_neq b 34)), Hh, Hs by done. }
       apply andb_true_iff in Hs as [[->%Z.eqb_eq ->%Z.eqb_eq]%andb_true_iff Hb2].
       assert (b2 = 0xA8 ∨ b2 = 0xA9) as Hb by (rewrite orb_true_iff, !Z.eqb_eq in Hb2; tauto).
       assert (∃ s2, s' = 0x80 :: b2 :: s2 ∧ str_body l = Some (s2, rest)) as (s2 & -> & E2).
       { destruct Hb as [->| ->]; cbn [str_body Z.eqb Pos.eqb Z.ltb Z.compare Pos.compare Pos.compare_cont negb] in E;
           apply push_Some in E as (s1 & (s2 & E2 & ->)%push_Some & ->); eauto. }
       destruct (IH l ltac:(simpl; lia) s2 E2) as [out2 Hout2]. eexists. by apply same_body_separator. }
  destruct l as [|e l]; [done|]. destruct (Z.eqb_spec e 117) as [->|H117]; cbn [negb].
  2: { destruct (short_escape e) as [c|] eqn:Ec; [|done]. intros (s' & E & ->)%push_Some.
       destruct (IH l ltac:(simpl; lia) s' E) as [out [Hv Hs Hr Ha]]. exists (92 :: e :: out). split.
       - rewrite !visible_cons. split_and!; [done| |done]. revert Ec. unfold short_escape. intros Ec.
         destruct ((e =? 34) || _) eqn:E1; [rewrite !orb_true_iff, !Z.eqb_eq in E1; lia|]. branch_in Ec; bsplit; lia.
       - by rewrite compact_true_escape, Hs.
       - intros r'. cbn [app str_body Z.eqb Pos.eqb Z.ltb Z.compare Pos.compare Pos.compare_cont negb].
         rewrite (proj2 (Z.eqb_neq e 117)) by done. cbn [negb]. by rewrite Ec, Hr.
       - intros r _ r'. by apply pair_ahead_escape. }
  destruct l as [|h1 [|h2 [|h3 [|h4 l]]]]; [done..|]. destruct (hex4 h1 h2 h3 h4) as [r|] eqn:Hh; [|done].
  destruct (surrogate r) eqn:Hr; cbn [negb].
  2: { intros (s' & E & ->)%push_Some. destruct (IH l ltac:(simpl; lia) s' E) as [out Hout]. eexists.
       apply (same_body_hex _ _ _ _ _ _ _ _ _ _ Hh Hout). intros r'.
       by rewrite (str_body_rune _ _ _ _ _ _ Hh Hr), (sb_read _ _ _ _ Hout). }
  intros E.
  assert (match pair_ahead r l with
          | Some (r2, l') => push (encode_rune r2) (str_body l')
          | None => push replacement (str_body l)
          end = Some (s, rest)) as E'.
  { rewrite <-E. unfold pair_ahead. do 6 (destruct l as [|? l]; [done|]). by case_match. }
  clear E. destruct (pair_ahead r l) as [[r2 l']|] eqn:Hp.
  - unfold pair_ahead in Hp. do 6 (destruct l as [|? l]; [done|]).
    destruct ((_ =? 92) && _) eqn:Hb; [|done]. apply andb_true_iff in Hb as [->%Z.eqb_eq ->%Z.eqb_eq].
    match type of Hp with context [hex4 ?a ?b ?c ?d] => destruct (hex4 a b c d) as [c0|] eqn:Hh2; [|done] end. cbn [mbind option_bind] in Hp.
    destruct (surrogate_pair r c0) as [r2'|] eqn:Hsp; [|done]. injection Hp as <- <-.
    apply push_Some in E' as (s' & E & ->). destruct (IH l ltac:(simpl; lia) s' E) as [out Hout]. 
    exists (92 :: 117 :: h1 :: h2 :: h3 :: h4 :: 92 :: 117 :: z1 :: z2 :: z3 :: z4 :: out). split.
    + apply (visible_hex4 _ _ _ _ _ _ Hh), (visible_hex4 _ _ _ _ _ _ Hh2), (sb_visible _ _ _ _ Hout).
    + rewrite (compact_true_hex4 _ _ _ _ _ _ Hh), (compact_true_hex4 _ _ _ _ _ _ Hh2), (sb_split _ _ _ _ Hout).
      rewrite !app_comm_cons. reflexivity.
    + intros r'. cbn [app]. rewrite (str_body_surrogate _ _ _ _ _ _ Hh Hr). unfold pair_ahead. rewrite Hh2.
      cbn [Z.eqb Pos.eqb andb mbind option_bind]. by rewrite Hsp, (sb_read _ _ _ _ Hout).
    + intros r0 Hp r'. revert Hp. unfold pair_ahead. cbn [app]. rewrite Hh. cbn [Z.eqb Pos.eqb andb mbind option_bind].
      by destruct (surrogate_pair r0 r).
  - apply push_Some in E' as (s' & E & ->). destruct (IH l ltac:(simpl; lia) s' E) as [out Hout]. eexists.
    apply (same_body_hex _ _ _ _ _ _ _ _ _ _ Hh Hout). intros r'.
    rewrite (str_body_surrogate _ _ _ _ _ _ Hh Hr), (sb_ahead _ _ _ _ Hout r Hp). by rewrite (sb_read _ _ _ _ Hout).
Qed.

(** ** Numbers and other literals *)

Lemma compact_false_plain l rest : Forall plain l → compact_from false (l ++ rest) = l ++ compact_from false rest.
Proof.
  induction 1 as [|b l (Hw & Hq & _) Hl IH]; [done|]. cbn [app compact_from negb]. rewrite Hw, (proj2 (Z.eqb_neq b 34)) by done.
  by rewrite IH.
Qed.

Lemma compact_false_skip l : compact_from false (skip_ws l) = compact_from false l.
Proof. induction l as [|b l IH]; [done|]. cbn [skip_ws]. destruct (is_ws b) eqn:E; [|done]. rewrite IH. cbn [compact_from negb]. by rewrite E. Qed.

Lemma is_digit_range b : is_digit b = true ↔ 48 <= b <= 57.
Proof. unfold is_digit, between. rewrite andb_true_iff, !Z.leb_le. lia. Qed.

(** What may follow a number that has ended. *)
Definition stops (dot exp : bool) (l : list Z) : Prop :=
  match l with
  | [] => True
  | b :: _ => is_digit b = false ∧ (dot = true → b ≠ 46) ∧ (exp = true → b ≠ 101 ∧ b ≠ 69)
  end.

Lemma ends_stops dot exp l : ends l → stops dot exp l.
Proof. destruct l as [|b l]; [done|]. intros [->|[->| ->]]; (split; [done|]; split; intros _; done). Qed.

Lemma span_digits_read l ds rest :
  span_digits l = (ds, rest) →
  l = ds ++ rest ∧ Forall (λ b, is_digit b = true) ds ∧ stops false false rest ∧
  ∀ r', stops false false r' → span_digits (ds ++ r') = (ds, r').
Proof.
  revert ds. induction l as [|b l IH]; intros ds; cbn [span_digits].
  - intros [= <- <-]. split_and!; [done..|]. intros [|b r']; [done|]. intros (Hb & _). cbn [app span_digits]. by rewrite Hb.
  - destruct (is_digit b) eqn:Hb.
    + destruct (span_digits l) as [ds' rest']. intros [= <- <-]. destruct (IH ds' eq_refl) as (-> & Hd & Hs & Hr).
      split_and!; [done|by constructor|done|]. intros r' Hr'. cbn [app span_digits]. by rewrite Hb, Hr.
    + intros [= <- <-]. split_and!; [done|done|by split_and!|]. intros [|c r']; [done|]. intros (Hc & _).
      cbn [app span_digits]. by rewrite Hc.
Qed.

Lemma stops_weaken dot exp l : stops dot exp l → stops false false l.
Proof. destruct l as [|b l]; [done|]. intros (? & _ & _). by split_and!. Qed.

Lemma digits_plain ds : Forall (λ b, is_digit b = true) ds → Forall plain ds.
Proof.
  apply Forall_impl. intros b Hb%is_digit_range. split; [|split; lia]. unfold is_ws. by rewrite !(proj2 (Z.eqb_neq b _)) by lia.
Qed.

Lemma fraction_read l frac rest :
  fraction l = Some (frac, rest) →
  l = frac ++ rest ∧ Forall plain frac ∧ (frac = [] ∨ ∃ k, frac = 46 :: k) ∧
  ∀ r', stops true false r' → fraction (frac ++ r') = Some (frac, r').
Proof.
  intros Hf.
  assert (frac = [] ∧ l = rest ∨ ∃ l' ds, l = 46 :: l' ∧ frac = 46 :: ds ∧ ds ≠ [] ∧ span_digits l' = (ds, rest)) as Hc.
  { unfold fraction in Hf. repeat case_match; simplify_eq; (by left) || (right; by eauto 10). }
  destruct Hc as [[-> ->]|(l' & ds & -> & -> & Hne & E)].
  - split_and!; [done|done|by left|]. intros [|b r']; [done|]. intros (_ & Hb & _). cbn [app]. specialize (Hb eq_refl).
    unfold fraction. repeat case_match; simplify_eq; done.
  - destruct (span_digits_read _ _ _ E) as (-> & Hd & _ & Hr). split_and!; [done| |right; by eauto|].
    + constructor; [done|]. by apply digits_plain.
    + intros r' Hr'. cbn [app fraction]. rewrite Hr by (by eapply stops_weaken). by destruct ds.
Qed.

Lemma exponent_read l ex rest :
  exponent l = Some (ex, rest) →
  l = ex ++ rest ∧ Forall plain ex ∧ (ex = [] ∨ ∃ e k, ex = e :: k ∧ (e = 101 ∨ e = 69)) ∧
  ∀ r', stops false true r' → exponent (ex ++ r') = Some (ex, r').
Proof.
  destruct l as [|e l]; [intros [= <- <-]|cbn [exponent]; destruct ((e =? 101) || (e =? 69)) eqn:He; [|intros [= <- <-]]].
  1, 3: split_and!; [done|done|by left|]; intros [|b r']; [done|]; intros (_ & _ & Hb); destruct (Hb eq_refl);
    cbn [app exponent]; by rewrite (proj2 (Z.eqb_neq b 101)), (proj2 (Z.eqb_neq b 69)) by done.
  set (sign := match l with s :: l'' => if (s =? 43) || (s =? 45) then ([s], l'') else ([], l) | [] => ([], l) end).
  assert (l = sign.1 ++ sign.2 ∧ (sign.1 = [] ∨ sign.1 = [43] ∨ sign.1 = [45])) as [El Hsg].
  { unfold sign. destruct l as [|s l]; [split; [done|by left]|]. destruct ((s =? 43) || (s =? 45)) eqn:Hs; [|split; [done|by left]].
    split; [done|]. rewrite orb_true_iff, !Z.eqb_eq in Hs. destruct Hs as [->| ->]; auto. }
  destruct sign as [sg l']. cbn [fst snd] in *. destruct (span_digits l') as [ds rest'] eqn:E.
  destruct ds as [|d ds]; [done|]. intros [= <- <-]. subst l.
  destruct (span_digits_read _ _ _ E) as (-> & Hd & _ & Hr).
  assert (e = 101 ∨ e = 69) as He2 by (rewrite orb_true_iff, !Z.eqb_eq in He; tauto).
  assert (is_digit d = true) as Hd0 by (by inversion Hd).
  split_and!.
  - cbn [app]. by rewrite <-app_assoc.
  - constructor; [by destruct He2 as [->| ->]|]. apply Forall_app. split; [|by apply digits_plain].
    destruct Hsg as [->|[->| ->]]; repeat constructor; done.
  - right. eauto.
  - intros r' Hr'. pose proof (Hr r' (stops_weaken _ _ _ Hr')) as Hsp. cbn [app exponent]. rewrite He.
    apply is_digit_range in Hd0.
    destruct Hsg as [->|[->| ->]]; cbn [app Z.eqb Pos.eqb orb] in *;
      [rewrite (proj2 (Z.eqb_neq d 43)), (proj2 (Z.eqb_neq d 45)) by lia; cbn [orb]|..]; by rewrite Hsp.
Qed.

Lemma integer_read l int rest :
  integer l = Some (int, rest) →
  l = int ++ rest ∧ Forall plain int ∧ (∃ b k, int = b :: k ∧ is_digit b = true) ∧
  ∀ r', stops false false r' → integer (int ++ r') = Some (int, r').
Proof.
  destruct l as [|b l]; [done|]. cbn [integer]. destruct (is_digit b) eqn:Hb; [|done].
  destruct (Z.eqb_spec b 48) as [->|Hne].
  - intros [= <- <-]. split_and!; [done|repeat constructor; done|eauto|done].
  - destruct (span_digits (b :: l)) as [ds r0] eqn:E. intros [= <- <-].
    destruct (span_digits_read _ _ _ E) as (El & Hd & _ & Hr). destruct ds as [|b' k].
    { exfalso. cbn [span_digits] in E. rewrite Hb in E. by destruct (span_digits l). }
    injection El as <- El. split_and!; [by rewrite El|by apply digits_plain|eauto|].
    intros r' Hr'. specialize (Hr r' Hr'). cbn [app integer] in *. rewrite Hb, (proj2 (Z.eqb_neq b 48)) by done. by rewrite Hr.
Qed.

(** A literal of the value [j] before [rest], read whatever ends it. *)
Record literal_ok (l : list Z) (j : json) (rest lit : list Z) : Prop := {
  lo_split : l = lit ++ rest;
  lo_plain : Forall plain lit;
  lo_head : match lit with b :: _ => is_ws b = false ∧ b ≠ 34 ∧ b ≠ 91 ∧ b ≠ 93 ∧ b ≠ 123 | [] => False end;
  lo_read : ∀ r', ends r' → literal (lit ++ r') = Some (j, r');
}.

Lemma number_read l lit rest :
  number l = Some (lit, rest) →
  l = lit ++ rest ∧ Forall plain lit ∧ (∃ b k, lit = b :: k ∧ (b = 45 ∨ is_digit b = true)) ∧
  ∀ r', ends r' → number (lit ++ r') = Some (lit, r').
Proof.
  unfold number. destruct (minus_sign l) as [sg k] eqn:Es.
  assert (l = sg ++ k ∧ (sg = [] ∨ sg = [45])) as [-> Hsg].
  { destruct l as [|s l]; cbn [minus_sign] in Es; [injection Es as <- <-; auto|].
    destruct (Z.eqb_spec s 45) as [->|]; injection Es as <- <-; auto. }
  clear Es.
  destruct (integer k) as [[int l1]|] eqn:Ei; cbn [mbind option_bind]; [|done].
  destruct (fraction l1) as [[frac l2]|] eqn:Ef; cbn [mbind option_bind]; [|done].
  destruct (exponent l2) as [[ex l3]|] eqn:Ee; cbn [mbind option_bind]; [|done]. intros [= <- <-].
  apply integer_read in Ei as (-> & Hpi & (b & k & -> & Hb) & Hi).
  apply fraction_read in Ef as (-> & Hpf & Hsf & Hf). apply exponent_read in Ee as (-> & Hpe & Hse & He).
  split_and!.
  - by rewrite <-!app_assoc.
  - rewrite !Forall_app. split_and!; try done. destruct Hsg as [->| ->]; repeat constructor; done.
  - destruct Hsg as [->| ->]; eauto.
  - intros r' Hr'.
    assert (stops true false (ex ++ r')) as Hse'.
    { destruct Hse as [->|(e & k' & -> & He')]; [by apply ends_stops|]. by destruct He' as [->| ->]. }
    assert (stops false false (frac ++ ex ++ r')) as Hsf'.
    { destruct Hsf as [->|(k' & ->)]; [by eapply stops_weaken, Hse'|done]. }
    specialize (Hi _ Hsf'). specialize (Hf _ Hse'). specialize (He r' (ends_stops _ _ _ Hr')).
    assert (b ≠ 45) as Hb45 by (apply is_digit_range in Hb; lia).
    assert (minus_sign ((sg ++ (b :: k) ++ frac ++ ex) ++ r') = (sg, (b :: k) ++ frac ++ ex ++ r')) as E.
    { rewrite <-!app_assoc. destruct Hsg as [->| ->]; [|done]. cbn [app minus_sign].
      by rewrite (proj2 (Z.eqb_neq b 45)) by done. }
    cbn [app] in E, Hi |- *. rewrite E, Hi. cbn [mbind option_bind]. rewrite Hf. cbn [mbind option_bind]. by rewrite He.
Qed.

Lemma expect_Some word l rest : expect word l = Some rest → l = word ++ rest.
Proof.
  revert l. induction word as [|a word IH]; intros l; cbn [expect]; [by intros [= ->]|].
  destruct l as [|b l]; [done|]. destruct (Z.eqb_spec a b) as [->|]; [|done]. intros E. by rewrite (IH l E).
Qed.

Lemma literal_read l j rest : literal l = Some (j, rest) → ∃ lit, literal_ok l j rest lit.
Proof.
  assert (∀ j word, (word, j) ∈ [(word_true, JBool true); (word_false, JBool false); (word_null, JNull)] →
    l = word ++ rest → literal_ok l j rest word) as Hword.
  { intros j' word Hin ->. unfold word_true, word_false, word_null in Hin.
    repeat (apply elem_of_cons in Hin as [[= -> ->]|Hin]; [by split; [done|repeat constructor; done|..]|]).
    by apply not_elem_of_nil in Hin. }
  unfold literal at 1.
  destruct (expect word_true l) as [r|] eqn:E1.
  { intros [= <- <-]. apply expect_Some in E1. exists word_true. apply Hword; [rewrite !elem_of_cons; auto|done]. }
  destruct (expect word_false l) as [r|] eqn:E2.
  { intros [= <- <-]. apply expect_Some in E2. exists word_false. apply Hword; [rewrite !elem_of_cons; auto|done]. }
  destruct (expect word_null l) as [r|] eqn:E3.
  { intros [= <- <-]. apply expect_Some in E3. exists word_null. apply Hword; [rewrite !elem_of_cons; auto|done]. }
  destruct (number l) as [[lit r]|] eqn:E; [|done]. intros [= <- <-].
  destruct (number_read _ _ _ E) as (-> & Hp & (b & k & -> & Hb) & Hr). exists (b :: k).
  assert (b = 45 ∨ 48 <= b <= 57) as Hb' by (rewrite is_digit_range in Hb; done).
  split; [done|done| |].
  - split; [|lia]. by inversion Hp as [|? ? [Hw _]].
  - intros r' Hr'. specialize (Hr r' Hr'). unfold literal. rewrite Hr.
    cbn [app expect word_true word_false word_null]. by rewrite !(proj2 (Z.eqb_neq _ b)) by lia.
Qed.

(** ** Values *)

Lemma reads_of_literal l j rest lit : literal_ok l j rest lit → reads 0 lit j.
Proof.
  intros [_ Hp Hh Hr]. destruct lit as [|b k]; [done|]. destruct Hh as (H1 & H2 & H3 & H4 & H5).
  apply reads_literal; [done| |done..].
  clear -Hp. induction Hp as [|c l (_ & _ & Hc) _ IH]; by constructor.
Qed.

(** A string literal before [rest], and the literal compaction makes of it. *)
Lemma str_lit_compact l s rest :
  str_lit l = Some (s, rest) →
  ∃ out, compact_from true l = out ++ compact_from false rest ∧ reads_key (34 :: out) s.
Proof.
  unfold str_lit. destruct (str_body l) as [[s' r]|] eqn:E; [|done]. intros [= <- <-].
  destruct (str_body_compact _ _ _ E) as [out [Hv Hs Hr _]]. exists out. split; [done|].
  split; [apply visible_cons; split; [lia|done]|]. exists out. split; [done|]. intros r'. unfold str_lit. by rewrite Hr.
Qed.

Lemma compact_false_token b l : is_ws b = false → b ≠ 34 → compact_from false (b :: l) = b :: compact_from false l.
Proof. intros Hw Hb. cbn [compact_from negb]. by rewrite Hw, (proj2 (Z.eqb_neq b 34)). Qed.

Lemma skip_ws_head l b k : skip_ws l = b :: k → compact_from false l = compact_from false (b :: k).
Proof. intros <-. by rewrite compact_false_skip. Qed.

(** What the decoder reads, it reads again after compaction. *)
Definition value_kept (fuel : nat) : Prop := ∀ d l j rest,
  d <= maxNestingDepth → value fuel d l = Some (j, rest) →
  ∃ out, compact_from false l = out ++ compact_from false rest ∧ reads (maxNestingDepth - d) out j.
Definition elements_kept (fuel : nat) : Prop := ∀ d l js rest,
  d <= maxNestingDepth → elements fuel d l = Some (js, rest) →
  ∃ outs, outs ≠ [] ∧ compact_from false l = join outs ++ 93 :: compact_from false rest ∧ Forall2 (reads (maxNestingDepth - d)) outs js.
Definition members_kept (fuel : nat) : Prop := ∀ d l fs rest,
  d <= maxNestingDepth → members fuel d l = Some (fs, rest) →
  ∃ ms, ms ≠ [] ∧ compact_from false l = join (member_lit <$> ms) ++ 125 :: compact_from false rest ∧
    Forall2 (reads_member (maxNestingDepth - d)) ms fs.

Lemma compact_value_S fuel : elements_kept fuel → members_kept fuel → value_kept (S fuel).
Proof.
  intros He Hm d l j rest Hd. cbn [value]. destruct (skip_ws l) as [|b k] eqn:Es; [done|].
  rewrite (skip_ws_head _ _ _ Es).
  destruct (Z.eqb_spec b 34) as [->|H34].
  { destruct (str_lit k) as [[s r]|] eqn:E; [|done]. intros [= <- <-].
    destruct (str_lit_compact _ _ _ E) as (out & Hs & Hr). exists (34 :: out). split; [cbn [compact_from negb]; simpl; by rewrite Hs|].
    apply (reads_weaken 0); [lia|]. by apply reads_str_lit. }
  destruct (Z.eqb_spec b 91) as [->|H91].
  { destruct (Z.leb_spec maxNestingDepth d); [done|]. rewrite compact_false_token by done. intros Hv.
    assert ((∃ r, skip_ws k = 93 :: r ∧ j = JArr [] ∧ rest = r) ∨
            ∃ js, elements fuel (d + 1) k = Some (js, rest) ∧ j = JArr js) as [(r & Ek & -> & ->)|(js & E & ->)].
    { revert Hv. repeat case_match; intros; simplify_eq; eauto. }
    - exists [91; 93]. rewrite (skip_ws_head _ _ _ Ek), compact_false_token by done. split; [done|].
      apply (reads_weaken 1); [lia|]. apply (reads_array 0 [] []); [constructor|done].
    - apply He in E as (outs & _ & Hs & Hr); [|lia]. exists (array_lit outs). unfold array_lit.
      rewrite Hs. split; [cbn [app]; by rewrite <-app_assoc|].
      replace (maxNestingDepth - d) with ((maxNestingDepth - (d + 1)) + 1) by lia. apply reads_array; [done|lia]. }
  destruct (Z.eqb_spec b 123) as [->|H123].
  { destruct (Z.leb_spec maxNestingDepth d); [done|]. rewrite compact_false_token by done. intros Hv.
    assert ((∃ r, skip_ws k = 125 :: r ∧ j = JObj [] ∧ rest = r) ∨
            ∃ fs, members fuel (d + 1) k = Some (fs, rest) ∧ j = JObj fs) as [(r & Ek & -> & ->)|(fs & E & ->)].
    { revert Hv. repeat case_match; intros; simplify_eq; eauto. }
    - exists [123; 125]. rewrite (skip_ws_head _ _ _ Ek), compact_false_token by done. split; [done|].
      apply (reads_weaken 1); [lia|]. apply (reads_object 0 [] []); [constructor|done].
    - apply Hm in E as (ms & _ & Hs & Hr); [|lia]. exists (object_lit ms). unfold object_lit.
      rewrite Hs. split; [cbn [app]; by rewrite <-app_assoc|].
      replace (maxNestingDepth - d) with ((maxNestingDepth - (d + 1)) + 1) by lia. apply reads_object; [done|lia]. }
  intros Hl. destruct (literal_read _ _ _ Hl) as [lit Hok]. exists lit. rewrite (lo_split _ _ _ _ Hok).
  split; [apply compact_false_plain, Hok|]. apply (reads_weaken 0); [lia|]. by eapply reads_of_literal.
Qed.

Lemma compact_elements_S fuel : value_kept fuel → elements_kept fuel → elements_kept (S fuel).
Proof.
  intros Hv He d l js rest Hd. cbn [elements]. destruct (value fuel d l) as [[j k]|] eqn:E; [|done].
  apply Hv in E as (out & Hs & Hr); [|done]. destruct (skip_ws k) as [|b r] eqn:Ek; [done|].
  rewrite Hs, (skip_ws_head _ _ _ Ek).
  destruct (Z.eqb_spec b 93) as [->|_].
  { intros [= <- <-]. exists [out]. split_and!; [done|by rewrite compact_false_token by done|by constructor]. }
  destruct (Z.eqb_spec b 44) as [->|_]; [|done].
  destruct (elements fuel d r) as [[js' r']|] eqn:Er; [|done]. intros [= <- <-].
  apply He in Er as (outs & Hne & Hs' & Hr'); [|done]. exists (out :: outs). split_and!; [done| |by constructor].
  rewrite compact_false_token, Hs' by done. destruct outs as [|o outs]; [done|]. cbn [join]. by rewrite <-app_assoc.
Qed.

Lemma compact_members_S fuel : value_kept fuel → members_kept fuel → members_kept (S fuel).
Proof.
  intros Hv Hm d l fs rest Hd. cbn [members]. destruct (skip_ws l) as [|b k] eqn:Es; [done|].
  rewrite (skip_ws_head _ _ _ Es). destruct (Z.eqb_spec b 34) as [->|]; [|done]. cbn [negb].
  destruct (str_lit k) as [[key k1]|] eqn:El; [|done].
  destruct (str_lit_compact _ _ _ El) as (lit & Hlit & Hkey). change (compact_from false (34 :: k)) with (34 :: compact_from true k).
  rewrite Hlit. destruct (skip_ws k1) as [|c k2] eqn:Ec; [done|]. destruct (Z.eqb_spec c 58) as [->|]; [|done]. cbn [negb].
  destruct (value fuel d k2) as [[j k3]|] eqn:E; [|done].
  apply Hv in E as (out & Hs & Hr); [|done]. rewrite (skip_ws_head _ _ _ Ec), compact_false_token, Hs by done.
  assert (reads_member (maxNestingDepth - d) (34 :: lit, out) (key, j)) as Hmem by done.
  destruct (skip_ws k3) as [|b r] eqn:Ek; [done|]. rewrite (skip_ws_head _ _ _ Ek).
  destruct (Z.eqb_spec b 125) as [->|_].
  { intros [= <- <-]. exists [(34 :: lit, out)]. split_and!; [done| |by constructor].
    rewrite compact_false_token by done. unfold member_lit. cbn [fmap list_fmap join fst snd app]. by rewrite <-app_assoc. }
  destruct (Z.eqb_spec b 44) as [->|_]; [|done].
  destruct (members fuel d r) as [[fs' r']|] eqn:Er; [|done]. intros [= <- <-].
  apply Hm in Er as (ms & Hne & Hs' & Hr'); [|done]. exists ((34 :: lit, out) :: ms).
  split_and!; [done| |by constructor]. rewrite compact_false_token, Hs' by done.
  destruct ms as [|m ms]; [done|]. change (member_lit <$> (34 :: lit, out) :: m :: ms)
    with ((34 :: lit ++ 58 :: out) :: (member_lit <$> m :: ms)).
  change (join (?a :: (member_lit <$> m :: ms))) with (a ++ 44 :: join (member_lit <$> m :: ms)).
  cbn [app]. by rewrite <-!app_assoc.
Qed.

Lemma compact_kept fuel : value_kept fuel ∧ elements_kept fuel ∧ members_kept fuel.
Proof.
  induction fuel as [|fuel (Hv & He & Hm)]; [done|].
  split_and!; [by apply compact_value_S|by apply compact_elements_S|by apply compact_members_S].
Qed.

(** The compacted text of a value is read as the value. *)
Lemma compact_reads l out : compact l = Some out → ∃ j, parse l = Some j ∧ reads maxNestingDepth out j.
Proof.
  unfold compact. destruct (parse l) as [j|] eqn:Ep; [|done]. intros [= <-]. exists j. split; [done|].
  unfold parse, parse_at in Ep. destruct (value (parse_fuel l) 0 l) as [[j' rest]|] eqn:Ev; [|done].
  destruct (skip_ws rest) eqn:Es; [|done]. injection Ep as ->.
  apply (proj1 (compact_kept _)) in Ev as (out & Hs & Hr); [|done].
  rewrite Hs, <-compact_false_skip, Es, app_nil_r. exact Hr.
Qed.

Lemma compact_from_range l : byte_range l → ∀ str, byte_range (compact_from str l).
Proof.
  induction l as [l IH] using (induction_ltof1 _ (@length Z)). unfold ltof in IH. destruct l as [|b l]; [done|].
  intros [Hb Hl]%range_cons str. cbn [compact_from].
  assert (∀ str, byte_range (compact_from str l)) as IHl by (apply IH; [simpl; lia|done]).
  assert (∀ str, byte_range (b :: compact_from str l)) as Hcons by (intros; by apply range_cons).
  destruct (negb str); [destruct (is_ws b); [apply IHl|apply Hcons]|].
  destruct (b =? 92).
  { destruct l as [|e l]; [by apply range_cons|]. apply range_cons in Hl as [He Hl]. rewrite !range_cons.
    split; [done|]. split; [done|]. apply IH; [simpl; lia|done]. }
  destruct (b =? 34); [apply Hcons|]. destruct (_ || _).
  { rewrite range_app. split; [by apply escape_range|apply IHl]. }
  destruct l as [|b1 [|b2 l]]; [apply Hcons..|]. destruct (_ && _); [|apply Hcons].
  apply range_cons in Hl as [_ [Hb2 Hl]%range_cons]. rewrite range_app. split; [|apply IH; [simpl; lia|done]].
  pose proof (hex_digit_visible (b2 mod 16) ltac:(apply Z.mod_pos_bound; lia)). repeat constructor; lia.
Qed.

Lemma compact_range l out : byte_range l → compact l = Some out → byte_range out.
Proof. unfold compact. intros Hl. destruct (parse l); [|done]. intros [= <-]. by apply compact_from_range. Qed.
