(* ===== verification/GoTime.v ===== *)
(** Package [time] of Go's standard library, as far as the program formats
    and parses times: the calendar, and RFC 3339 with fractions of a second.
    A time is its nanoseconds since 1970 in UTC; the location of a [time.Time]
    is UTC throughout. *)
From stdpp Require Import base tactics list strings numbers.
From Stdlib Require Import ZArith Lia.
From S2P Require Import Prelude GoStd Json.

Open Scope Z_scope.

(** ** The calendar

    Years are counted from March, so that leap days come last; an era is the
    400 years after which the calendar repeats. *)
Definition era_days : Z := 146097.

Definition year_of_era (doe : Z) : Z := (doe - doe / 1460 + doe / 36524 - doe / 146096) / 365.
Definition day_of_year (doe : Z) : Z :=
  let yoe := year_of_era doe in doe - (365 * yoe + yoe / 4 - yoe / 100).
Definition month_of (doy : Z) : Z := let mp := (5 * doy + 2) / 153 in if mp <? 10 then mp + 3 else mp - 9.
Definition day_of (doy : Z) : Z := doy - (153 * ((5 * doy + 2) / 153) + 2) / 5 + 1.

Record date := mkDate { d_year : Z; d_month : Z; d_day : Z }.

(** The date of a day, and the day of a date, both counted from 1970-01-01. *)
Definition date_of_days (days : Z) : date :=
  let z := days + 719468 in
  let doe := z mod era_days in
  let m := month_of (day_of_year doe) in
  mkDate (year_of_era doe + z / era_days * 400 + (if m <=? 2 then 1 else 0)) m (day_of (day_of_year doe)).

Definition days_of_date (d : date) : Z :=
  let y := if d_month d <=? 2 then d_year d - 1 else d_year d in
  let yoe := y mod 400 in
  let doy := (153 * (if 2 <? d_month d then d_month d - 3 else d_month d + 9) + 2) / 5 + d_day d - 1 in
  y / 400 * era_days + (yoe * 365 + yoe / 4 - yoe / 100 + doy) - 719468.

Definition is_leap (y : Z) : bool := (y mod 4 =? 0) && (negb (y mod 100 =? 0) || (y mod 400 =? 0)).
Definition days_in (m y : Z) : Z :=
  if m =? 2 then (if is_leap y then 29 else 28)
  else if (m =? 4) || (m =? 6) || (m =? 9) || (m =? 11) then 30 else 31.

(** ** Formatting, [time.Time.MarshalJSON] without its quotes *)

(** A number in [w] digits. *)
Fixpoint pad (w : nat) (n : Z) : list Z :=
  match w with O => [] | S w => pad w (n / 10) ++ [48 + n mod 10] end.

Fixpoint strip_zeros (l : list Z) : list Z :=
  match l with
  | [] => []
  | b :: l => match strip_zeros l with
              | [] => if b =? 48 then [] else [b]
              | l' => b :: l'
              end
  end.

Definition fraction_lit (ns : Z) : list Z := if ns =? 0 then [] else 46 :: strip_zeros (pad 9 ns).

(** [None] is the error for a year of more or less than four digits. *)
Definition format_time (t : Z) : option (list Z) :=
  let secs := t / 1000000000 in
  let d := date_of_days (secs / 86400) in
  let tod := secs mod 86400 in
  if (0 <=? d_year d) && (d_year d <=? 9999) then
    Some (pad 4 (d_year d) ++ 45 :: pad 2 (d_month d) ++ 45 :: pad 2 (d_day d) ++ 84 ::
          pad 2 (tod / 3600) ++ 58 :: pad 2 (tod / 60 mod 60) ++ 58 :: pad 2 (tod mod 60) ++
          fraction_lit (t mod 1000000000) ++ [90])
  else None.

(** [Format(time.RFC3339)]: any year, and no fraction of a second. *)
Definition year_lit (y : Z) : list Z :=
  (if y <? 0 then [45] else []) ++ (if Z.abs y <? 10000 then pad 4 (Z.abs y) else decimal (Z.abs y)).
Definition Format_RFC3339 (t : Z) : list Z :=
  let secs := t / 1000000000 in
  let d := date_of_days (secs / 86400) in
  let tod := secs mod 86400 in
  year_lit (d_year d) ++ 45 :: pad 2 (d_month d) ++ 45 :: pad 2 (d_day d) ++ 84 ::
    pad 2 (tod / 3600) ++ 58 :: pad 2 (tod / 60 mod 60) ++ 58 :: pad 2 (tod mod 60) ++ [90].

(** ** Parsing, [time.Parse] with the layouts RFC3339 and RFC3339Nano

    The fields have two digits but for the hour, which may have one; the
    fraction may come after a comma. *)
Fixpoint digits_n (w : nat) (acc : Z) (l : list Z) : option (Z * list Z) :=
  match w, l with
  | O, _ => Some (acc, l)
  | S w, b :: l => d ← digit_value b; digits_n w (acc * 10 + d) l
  | S _, [] => None
  end.

Definition hour_field (l : list Z) : option (Z * list Z) :=
  match digits_n 2 0 l with Some r => Some r | None => digits_n 1 0 l end.

(** The first nine digits of the fraction count. *)
Definition nanos (ds : list Z) : Z := default 0 (digits 0 (take 9 (ds ++ replicate 9 48))).

Definition fraction_field (l : list Z) : Z * list Z :=
  match l with
  | c :: l' =>
    if (c =? 46) || (c =? 44) then
      match span_digits l' with ([], _) => (0, l) | (ds, rest) => (nanos ds, rest) end
    else (0, l)
  | [] => (0, l)
  end.

(** The offset from UTC in seconds. *)
Definition zone_field (l : list Z) : option (Z * list Z) :=
  match l with
  | 90 :: l => Some (0, l)
  | sign :: l =>
    '(hr, l) ← digits_n 2 0 l;
    l ← expect [58] l;
    '(mm, l) ← digits_n 2 0 l;
    if (24 <? hr) || (60 <? mm) then None
    else if sign =? 43 then Some ((hr * 60 + mm) * 60, l)
    else if sign =? 45 then Some (- ((hr * 60 + mm) * 60), l)
    else None
  | [] => None
  end.

Definition parse_time (l : list Z) : option Z :=
  '(year, l) ← digits_n 4 0 l;
  l ← expect [45] l;
  '(month, l) ← digits_n 2 0 l;
  l ← expect [45] l;
  '(day, l) ← digits_n 2 0 l;
  l ← expect [84] l;
  '(hour, l) ← hour_field l;
  l ← expect [58] l;
  '(min, l) ← digits_n 2 0 l;
  l ← expect [58] l;
  '(sec, l) ← digits_n 2 0 l;
  let '(nsec, l) := fraction_field l in
  '(offset, l) ← zone_field l;
  match l with
  | [] =>
    if (1 <=? month) && (month <=? 12) && (hour <? 24) && (min <? 60) && (sec <? 60)
       && (1 <=? day) && (day <=? days_in month year)
    then Some ((days_of_date (mkDate year month day) * 86400 + hour * 3600 + min * 60 + sec - offset) * 1000000000 + nsec)
    else None
  | _ => None
  end.

(** [time.Parse(time.RFC3339, _)], or with the layout RFC3339Nano: a fraction
    of a second may follow the seconds in both; [None] is the error. *)
Definition time_Parse (s : string) : option Z := parse_time (bytes_of s).

(** The zero value of a [time.Time]: the first instant of the year 1. *)
Definition zero_time : Z := -62135596800 * 1000000000.

(** ** The calendar is its own inverse *)

(** A property of the numbers from [z] on, checked one by one. *)
Fixpoint all_from (f : Z → bool) (n : nat) (z : Z) : bool :=
  match n with O => true | S n => f z && all_from f n (z + 1) end.

Lemma all_from_spec f n z k : all_from f n z = true → z <= k < z + Z.of_nat n → f k = true.
Proof.
  revert z. induction n as [|n IH]; intros z; [lia|]. cbn [all_from]. intros [Hz Hn]%andb_true_iff Hk.
  destruct (Z.eq_dec k z) as [->|]; [done|]. apply (IH (z + 1)); [done|lia].
Qed.

Lemma year_of_era_range doe :
  0 <= doe < era_days → 0 <= year_of_era doe < 400 ∧ 0 <= day_of_year doe <= 365.
Proof.
  unfold era_days, day_of_year. cbv zeta. intros Hd.
  enough (∃ y, y = year_of_era doe ∧ 0 <= y < 400 ∧ 365 * y + y / 4 - y / 100 <= doe <= 365 * y + y / 4 - y / 100 + 365)
    as (y & <- & ? & ?) by lia.
  exists (year_of_era doe). split; [done|]. unfold year_of_era.
  assert (doe / 36524 = 0 ∨ doe / 36524 = 1 ∨ doe / 36524 = 2 ∨ doe / 36524 = 3 ∨ doe / 36524 = 4) as Hc
    by (Z.to_euclidean_division_equations; lia).
  assert (doe / 146096 = 0 ∨ doe / 146096 = 1) as Hq by (Z.to_euclidean_division_equations; lia).
  destruct Hc as [E|[E|[E|[E|E]]]], Hq as [F|F]; rewrite E, F; Z.to_euclidean_division_equations; lia.
Qed.

(** A year has a 366th day only if it ends in a leap day. *)
Definition year_start (y : Z) : Z := 365 * y + y / 4 - y / 100.
Definition last_day_ok (y : Z) : bool := is_leap (y + 1) || negb (year_of_era (year_start y + 365) =? y).

Lemma last_day_leap doe :
  0 <= doe < era_days → day_of_year doe = 365 → is_leap (year_of_era doe + 1) = true.
Proof.
  intros Hd Hl. destruct (year_of_era_range doe Hd) as [Hy _].
  assert (last_day_ok (year_of_era doe) = true) as Hok.
  { apply (all_from_spec last_day_ok 400 0); [vm_compute; reflexivity|lia]. }
  unfold last_day_ok in Hok. apply orb_true_iff in Hok as [|Hok]; [done|]. exfalso.
  apply negb_true_iff, Z.eqb_neq in Hok. apply Hok. f_equal. unfold day_of_year in Hl. cbv zeta in Hl.
  unfold year_start. lia.
Qed.

(** The months of a year counted from March. *)
Definition doy_ok (doy : Z) : bool :=
  let m := month_of doy in
  let d := day_of doy in
  (1 <=? m) && (m <=? 12) && (1 <=? d) && (d <=? 31)
  && ((doy =? 365) && (m =? 2) && (d =? 29) || (d <=? days_in m 1))
  && ((153 * (if 2 <? m then m - 3 else m + 9) + 2) / 5 + d - 1 =? doy).

Lemma doy_ok_all doy : 0 <= doy <= 365 → doy_ok doy = true.
Proof. intros Hd. apply (all_from_spec doy_ok 366 0); [vm_compute; reflexivity|lia]. Qed.

Lemma days_in_common m y : days_in m 1 <= days_in m y.
Proof. unfold days_in. repeat case_match; simplify_eq; lia. Qed.

Definition era_day_ok (doe : Z) : bool :=
  let yoe := year_of_era doe in
  let doy := day_of_year doe in
  let m := month_of doy in
  let d := day_of doy in
  (0 <=? yoe) && (yoe <? 400) && (1 <=? m) && (m <=? 12) && (1 <=? d) && (d <=? 99)
  && (d <=? days_in m (yoe + if m <=? 2 then 1 else 0))
  && (yoe * 365 + yoe / 4 - yoe / 100 + ((153 * (if 2 <? m then m - 3 else m + 9) + 2) / 5 + d - 1) =? doe).

Lemma era_days_ok doe : 0 <= doe < era_days → era_day_ok doe = true.
Proof.
  intros Hd. destruct (year_of_era_range doe Hd) as [Hy Hdoy]. pose proof (last_day_leap doe Hd) as Hleap.
  pose proof (doy_ok_all _ Hdoy) as Hok. unfold era_day_ok. cbv zeta.
  assert (day_of_year doe + (365 * year_of_era doe + year_of_era doe / 4 - year_of_era doe / 100) = doe) as E
    by (unfold day_of_year; lia).
  revert Hleap Hok E. generalize (year_of_era doe) (day_of_year doe) Hy. clear Hy Hdoy. intros y doy Hy.
  unfold doy_ok. cbv zeta. set (m := month_of doy). set (d := day_of doy).
  set (o := (153 * _ + 2) / 5). intros Hleap Hok E.
  apply andb_true_iff in Hok as [[[[[Hm1 Hm2]%andb_true_iff Hd1]%andb_true_iff Hd2]%andb_true_iff Hin]%andb_true_iff Hdoy].
  bsplit. rewrite !andb_true_iff, !Z.leb_le, Z.ltb_lt, Z.eqb_eq. split_and!; try lia.
  apply orb_true_iff in Hin as [Hin|Hin]; bsplit.
  - replace m with 2 by lia. simpl. unfold days_in. simpl. rewrite Hleap by done. lia.
  - etrans; [exact Hin|]. apply days_in_common.
Qed.

Lemma is_leap_era y e : is_leap (y + e * 400) = is_leap y.
Proof.
  unfold is_leap. replace (y + e * 400) with (y + (e * 100) * 4) at 1 by lia. rewrite Z_mod_plus_full.
  replace (y + e * 400) with (y + (e * 4) * 100) at 1 by lia. rewrite Z_mod_plus_full. by rewrite Z_mod_plus_full.
Qed.

Lemma days_in_era m y e : days_in m (y + e * 400) = days_in m y.
Proof. unfold days_in. by rewrite is_leap_era. Qed.

Record date_ok (d : date) : Prop := {
  do_month : 1 <= d_month d <= 12;
  do_day : 1 <= d_day d <= 99;
  do_in : d_day d <= days_in (d_month d) (d_year d);
}.

Lemma date_of_days_ok days : date_ok (date_of_days days) ∧ days_of_date (date_of_days days) = days.
Proof.
  pose proof (Z.mod_pos_bound (days + 719468) era_days eq_refl) as Hb.
  pose proof (Z.div_mod (days + 719468) era_days ltac:(done)) as Hdm.
  pose proof (era_days_ok _ Hb) as Hok. unfold date_of_days. cbv zeta. revert Hok.
  set (doe := (days + 719468) mod era_days) in *. set (era := (days + 719468) / era_days) in *. clearbody doe era.
  unfold era_day_ok. cbv zeta. set (yoe := year_of_era doe). set (doy := day_of_year doe).
  set (m := month_of doy). set (d := day_of doy). clearbody yoe doy m d. intros Hok. bsplit.
  set (jf := if m <=? 2 then 1 else 0) in *.
  split.
  - split; simpl; [lia|lia|]. replace (yoe + era * 400 + jf) with (yoe + jf + era * 400) by lia. by rewrite days_in_era.
  - unfold days_of_date. cbn [d_year d_month d_day].
    replace (if m <=? 2 then yoe + era * 400 + jf - 1 else yoe + era * 400 + jf) with (yoe + era * 400)
      by (unfold jf; destruct (m <=? 2); lia).
    rewrite Z_mod_plus_full, Z.mod_small by lia. rewrite Z.div_add by lia. rewrite (Z.div_small yoe) by lia.
    unfold era_days in *. lia.
Qed.

(** ** Times are read back *)

Lemma length_pad w n : length (pad w n) = w.
Proof. revert n. induction w as [|w IH]; intros n; [done|]. simpl. rewrite length_app, IH. simpl. lia. Qed.

Lemma pad_digits w n : Forall (λ b, is_digit b = true) (pad w n).
Proof.
  revert n. induction w as [|w IH]; intros n; [done|]. simpl. apply Forall_app. split; [apply IH|].
  constructor; [|done]. pose proof (Z.mod_pos_bound n 10). unfold is_digit, between.
  rewrite !(proj2 (Z.leb_le _ _)) by lia. done.
Qed.

Lemma digits_pad w n : 0 <= n < 10 ^ Z.of_nat w → digits 0 (pad w n) = Some n.
Proof.
  revert n. induction w as [|w IH]; intros n Hn; [simpl in *; f_equal; lia|].
  rewrite Nat2Z.inj_succ, Z.pow_succ_r in Hn by lia. cbn [pad].
  pose proof (Z.div_pos n 10). pose proof (Z.mod_pos_bound n 10). pose proof (Z.div_mod n 10).
  rewrite digits_app, IH; [|split; [lia|apply Z.div_lt_upper_bound; lia]]. cbn [mbind option_bind digits].
  rewrite digit_value_digit by lia. f_equal. lia.
Qed.

Lemma digits_n_app ds acc n rest : digits acc ds = Some n → digits_n (length ds) acc (ds ++ rest) = Some (n, rest).
Proof.
  revert acc. induction ds as [|b ds IH]; intros acc; cbn [digits length digits_n app]; [by intros [= ->]|].
  destruct (digit_value b); [|done]. apply IH.
Qed.

Lemma digits_n_pad w n rest : 0 <= n < 10 ^ Z.of_nat w → digits_n w 0 (pad w n ++ rest) = Some (n, rest).
Proof. intros Hn. rewrite <-(length_pad w n) at 1. by apply digits_n_app, digits_pad. Qed.

Lemma strip_zeros_spec l : ∃ k, l = strip_zeros l ++ replicate k 48.
Proof.
  induction l as [|b l [k IH]]; [by exists 0%nat|]. cbn [strip_zeros].
  destruct (strip_zeros l) as [|c s] eqn:E.
  - destruct (Z.eqb_spec b 48) as [->|]; [exists (S k); by rewrite IH|exists k; by rewrite IH].
  - exists k. by rewrite IH.
Qed.

Lemma nanos_strip ns : 0 <= ns < 1000000000 → nanos (strip_zeros (pad 9 ns)) = ns.
Proof.
  intros Hn. destruct (strip_zeros_spec (pad 9 ns)) as [k E]. unfold nanos.
  pose proof (length_pad 9 ns) as Hl. rewrite E, length_app, length_replicate in Hl.
  replace (replicate 9 48) with (replicate k 48 ++ replicate (9 - k) 48)
    by (rewrite <-replicate_add; f_equal; lia).
  rewrite app_assoc, <-E, <-(length_pad 9 ns) at 1. rewrite take_app_length, digits_pad; [done|]. done.
Qed.

Lemma fraction_field_lit ns rest :
  0 <= ns < 1000000000 → match rest with [] => True | b :: _ => is_digit b = false ∧ b ≠ 46 ∧ b ≠ 44 end →
  fraction_field (fraction_lit ns ++ rest) = (ns, rest).
Proof.
  intros Hn Hr. unfold fraction_lit. destruct (Z.eqb_spec ns 0) as [->|Hne].
  - destruct rest as [|b rest]; [done|]. destruct Hr as (_ & H1 & H2). cbn [app fraction_field].
    by rewrite (proj2 (Z.eqb_neq b 46)), (proj2 (Z.eqb_neq b 44)) by done.
  - cbn [app fraction_field Z.eqb Pos.eqb orb].
    assert (span_digits (strip_zeros (pad 9 ns) ++ rest) = (strip_zeros (pad 9 ns), rest)) as ->.
    { pose proof (pad_digits 9 ns) as Hd. destruct (strip_zeros_spec (pad 9 ns)) as [k E]. rewrite E in Hd.
      apply Forall_app in Hd as [Hd _]. revert Hd. clear E. generalize (strip_zeros (pad 9 ns)). intros ds Hd. induction Hd as [|b l Hb Hl IH]; cbn [app span_digits]; [|by rewrite Hb, IH].
      destruct rest as [|b rest]; [done|]. cbn [span_digits]. by rewrite (proj1 Hr). }
    pose proof (nanos_strip ns Hn) as E. destruct (strip_zeros (pad 9 ns)) as [|b l] eqn:Es; [|by rewrite E].
    exfalso. apply Hne. rewrite <-E. reflexivity.
Qed.

Lemma strip_zeros_digits l : Forall (λ b, is_digit b = true) l → Forall (λ b, is_digit b = true) (strip_zeros l).
Proof. intros Hl. destruct (strip_zeros_spec l) as [k E]. rewrite E in Hl. by apply Forall_app in Hl as [? _]. Qed.

Lemma digits_ascii l : Forall (λ b, is_digit b = true) l → ascii_bytes l.
Proof. apply Forall_impl. unfold is_digit, between. intros b Hb. bsplit. lia. Qed.

Lemma format_time_ascii t l : format_time t = Some l → ascii_bytes l.
Proof.
  unfold format_time. cbv zeta. destruct (_ && _); [|done]. intros E%(inj Some). subst l.
  assert (∀ w n, ascii_bytes (pad w n)) as Hp by (intros; apply digits_ascii, pad_digits).
  assert (∀ b k, 0 <= b < 0x80 → ascii_bytes k → ascii_bytes (b :: k)) as Hc by (intros; by constructor).
  assert (∀ k k', ascii_bytes k → ascii_bytes k' → ascii_bytes (k ++ k')) as Ha by (intros; by apply Forall_app).
  assert (ascii_bytes (fraction_lit (t mod 1000000000))) as Hf.
  { unfold fraction_lit. destruct (_ =? 0); [constructor|]. apply Hc; [lia|]. apply digits_ascii, strip_zeros_digits, pad_digits. }
  repeat first [apply Ha; [apply Hp|]|apply Hc; [lia|]|apply Ha; [exact Hf|]]. constructor.
Qed.

#[local] Arguments pad : simpl never.
#[local] Arguments digits_n : simpl never.

(** What is formatted is parsed to the same nanosecond. *)
Lemma parse_format_time t l : format_time t = Some l → parse_time l = Some t.
Proof.
  unfold format_time. cbv zeta. set (secs := t / 1000000000). set (tod := secs mod 86400).
  destruct (date_of_days_ok (secs / 86400)) as [[Hm Hd Hin] Hdays]. set (d := date_of_days (secs / 86400)) in *. clearbody d.
  pose proof (Z.mod_pos_bound secs 86400 eq_refl) as Htod. fold tod in Htod.
  pose proof (Z.mod_pos_bound t 1000000000 eq_refl) as Hns.
  assert (0 <= tod / 3600 < 24) as Hh by (split; [apply Z.div_pos; lia|apply Z.div_lt_upper_bound; lia]).
  pose proof (Z.mod_pos_bound (tod / 60) 60 eq_refl) as Hmi. pose proof (Z.mod_pos_bound tod 60 eq_refl) as Hs.
  destruct (_ && _) eqn:Hy; [|done]. bsplit. intros E%(inj Some). subst l. unfold parse_time.
  rewrite digits_n_pad by (change (10 ^ Z.of_nat 4) with 10000 || change (10 ^ Z.of_nat 2) with 100; lia). cbn [mbind option_bind app expect Z.eqb Pos.eqb].
  rewrite digits_n_pad by (change (10 ^ Z.of_nat 4) with 10000 || change (10 ^ Z.of_nat 2) with 100; lia). cbn [mbind option_bind app expect Z.eqb Pos.eqb].
  rewrite digits_n_pad by (change (10 ^ Z.of_nat 4) with 10000 || change (10 ^ Z.of_nat 2) with 100; lia). cbn [mbind option_bind app expect Z.eqb Pos.eqb].
  unfold hour_field. rewrite digits_n_pad by (change (10 ^ Z.of_nat 4) with 10000 || change (10 ^ Z.of_nat 2) with 100; lia). cbn [mbind option_bind app expect Z.eqb Pos.eqb].
  rewrite digits_n_pad by (change (10 ^ Z.of_nat 4) with 10000 || change (10 ^ Z.of_nat 2) with 100; lia). cbn [mbind option_bind app expect Z.eqb Pos.eqb].
  rewrite digits_n_pad by (change (10 ^ Z.of_nat 4) with 10000 || change (10 ^ Z.of_nat 2) with 100; lia). cbn [mbind option_bind app expect Z.eqb Pos.eqb].
  rewrite fraction_field_lit by done. cbn [zone_field mbind option_bind].
  rewrite !(proj2 (Z.leb_le _ _)), !(proj2 (Z.ltb_lt _ _)) by lia. cbn [andb]. f_equal.
  replace (mkDate (d_year d) (d_month d) (d_day d)) with d by (by destruct d). rewrite Hdays, Z.sub_0_r.
  assert (tod = tod / 3600 * 3600 + tod / 60 mod 60 * 60 + tod mod 60) as Etod.
  { pose proof (Z.div_mod tod 60 ltac:(lia)). pose proof (Z.div_mod (tod / 60) 60 ltac:(lia)) as E.
    rewrite Z.div_div in E by lia. change (60 * 60) with 3600 in E. lia. }
  pose proof (Z.div_mod secs 86400 ltac:(lia)) as E1. fold tod in E1.
  pose proof (Z.div_mod t 1000000000 ltac:(lia)) as E2. fold secs in E2. lia.
Qed.
