(* ===== verification/GoCrypto.v ===== *)
(** [crypto/sha256] and [crypto/hmac] of Go's standard library, as executable
    definitions; [GoAes] has [crypto/aes]. *)
From stdpp Require Import base tactics list strings numbers.
From Stdlib Require Import ZArith Lia.
From S2P Require Import Prelude GoStd.

Open Scope Z_scope.

(** ** SHA-256 (FIPS 180-4) on 32-bit words kept in [0, 2^32) *)
Module Sha256.

Definition w32 (z : Z) : Z := Z.land z (2 ^ 32 - 1).
Definition add32 (a b : Z) : Z := w32 (a + b).
Definition rotr (x : Z) (n : Z) : Z := Z.lor (Z.shiftr x n) (w32 (Z.shiftl x (32 - n))).
Definition not32 (x : Z) : Z := Z.lxor x (2 ^ 32 - 1).

Definition Ch x y z := Z.lxor (Z.land x y) (Z.land (not32 x) z).
Definition Maj x y z := Z.lxor (Z.lxor (Z.land x y) (Z.land x z)) (Z.land y z).
Definition Sigma0 x := Z.lxor (Z.lxor (rotr x 2) (rotr x 13)) (rotr x 22).
Definition Sigma1 x := Z.lxor (Z.lxor (rotr x 6) (rotr x 11)) (rotr x 25).
Definition sigma0 x := Z.lxor (Z.lxor (rotr x 7) (rotr x 18)) (Z.shiftr x 3).
Definition sigma1 x := Z.lxor (Z.lxor (rotr x 17) (rotr x 19)) (Z.shiftr x 10).

(** The constants: the first 32 bits of the fractional parts of the cube roots
    of the first 64 primes, and of the square roots of the first eight. *)
Definition primes : list Z :=
  filter (λ p, forallb (λ d, negb (p mod d =? 0)) (seqZ 2 (p - 2)) = true) (seqZ 2 310).

Definition cbrt (n : Z) : Z :=
  foldl (λ r b, let r' := r + 2 ^ b in if r' ^ 3 <=? n then r' else r) 0 (reverse (seqZ 0 36)).

Definition K : list Z := Eval vm_compute in (λ p, w32 (cbrt (p * 2 ^ 96))) <$> primes.
Definition H0 : list Z := Eval vm_compute in (λ p, w32 (Z.sqrt (p * 2 ^ 64))) <$> take 8 primes.

Definition be_bytes (n : nat) (z : Z) : list Z :=
  (λ i, Z.land (Z.shiftr z (8 * Z.of_nat i)) 255) <$> reverse (seq 0 n).

(** The message, a 1 bit, zeros up to 56 modulo 64 bytes, the bit length. *)
Definition pad (l : list Z) : list Z :=
  let n := length l in
  l ++ [0x80] ++ replicate (Z.to_nat ((55 - Z.of_nat n) mod 64)) 0 ++ be_bytes 8 (8 * Z.of_nat n).

Fixpoint words (l : list Z) : list Z :=
  match l with
  | a :: b :: c :: d :: l =>
    Z.lor (Z.shiftl a 24) (Z.lor (Z.shiftl b 16) (Z.lor (Z.shiftl c 8) d)) :: words l
  | _ => []
  end.

(** The message schedule, newest word first. *)
Fixpoint schedule (n : nat) (rw : list Z) : list Z :=
  match n with
  | O => rw
  | S n =>
    let at_ i := nth i rw 0 in
    schedule n (add32 (add32 (sigma1 (at_ 1%nat)) (at_ 6%nat)) (add32 (sigma0 (at_ 14%nat)) (at_ 15%nat)) :: rw)
  end.

Definition round (st : list Z) (kw : Z * Z) : list Z :=
  match st with
  | [a; b; c; d; e; f; g; h] =>
    let t1 := add32 (add32 h (Sigma1 e)) (add32 (Ch e f g) (add32 kw.1 kw.2)) in
    let t2 := add32 (Sigma0 a) (Maj a b c) in
    [add32 t1 t2; a; b; c; add32 d t1; e; f; g]
  | _ => st
  end.

Definition block (h : list Z) (ws : list Z) : list Z :=
  let sched := reverse (schedule 48 (reverse ws)) in
  zip_with add32 h (foldl round h (zip K sched)).

Fixpoint blocks (n : nat) (h ws : list Z) : list Z :=
  match n with
  | O => h
  | S n => blocks n (block h (take 16 ws)) (drop 16 ws)
  end.

Definition digest (l : list Z) : list Z :=
  let p := words (pad l) in
  mjoin (be_bytes 4 <$> blocks (length p / 16) H0 p).

Lemma length_round st kw : length (round st kw) = length st.
Proof. unfold round. by repeat case_match. Qed.

Lemma length_foldl_round kws st : length (foldl round st kws) = length st.
Proof.
  revert st. induction kws as [|kw kws IH]; intros st; simpl; [done|].
  by rewrite IH, length_round.
Qed.

Lemma length_blocks n h ws : length (blocks n h ws) = length h.
Proof.
  revert h ws. induction n as [|n IH]; intros h ws; simpl; [done|].
  rewrite IH. unfold block. rewrite length_zip_with, length_foldl_round. lia.
Qed.

Lemma length_be_bytes n z : length (be_bytes n z) = n.
Proof. unfold be_bytes. by rewrite length_fmap, length_reverse, length_seq. Qed.

Lemma be_bytes_range n z : Forall (λ b, 0 <= b < 256) (be_bytes n z).
Proof.
  unfold be_bytes. apply Forall_fmap, Forall_true. intros i. simpl.
  change 255 with (Z.ones 8). rewrite Z.land_ones by lia. apply Z.mod_pos_bound. lia.
Qed.

Lemma length_digest l : length (digest l) = 32%nat.
Proof.
  unfold digest.
  set (h := blocks _ _ _). assert (length h = 8%nat) as Hh by apply length_blocks.
  do 8 (destruct h as [|? h]; [done|]). destruct h; done.
Qed.

Lemma digest_range l : Forall (λ b, 0 <= b < 256) (digest l).
Proof.
  unfold digest. apply Forall_join, Forall_fmap, Forall_true.
  intros w. apply be_bytes_range.
Qed.
End Sha256.

(** ** [hmac.New(sha256.New, key)], [Write(msg)], [Sum(nil)] *)
Definition hmac_block (key : list Z) : list Z :=
  let k := if (64 <? length key)%nat then Sha256.digest key else key in
  k ++ replicate (64 - length k) 0.

Definition hmac_sha256 (key msg : string) : string :=
  let k := hmac_block (bytes_of key) in
  let inner := Sha256.digest ((Z.lxor 0x36 <$> k) ++ bytes_of msg) in
  string_of (Sha256.digest ((Z.lxor 0x5c <$> k) ++ inner)).

Lemma length_hmac_sha256 key msg : String.length (hmac_sha256 key msg) = 32%nat.
Proof. unfold hmac_sha256. by rewrite length_string_of, Sha256.length_digest. Qed.

(** [hmac.Equal]: equality of byte strings in constant time. *)
Definition hmac_Equal (a b : string) : bool := bool_decide (a = b).

(** FIPS 180-4 and RFC 4231 test vectors. *)
Example sha256_abc :
  EncodeToString (string_of (Sha256.digest (bytes_of "abc")))
  = "ba7816bf8f01cfea414140de5dae2223b00361a396177a9cb410ff61f20015ad"%string.
Proof. vm_compute. reflexivity. Qed.

Example hmac_rfc4231_2 :
  EncodeToString (hmac_sha256 "Jefe" "what do ya want for nothing?")
  = "5bdcc146bf60754e6a042426089575c75a003f089d2739839dec58b964ec3843"%string.
Proof. vm_compute. reflexivity. Qed.
