(* ===== verification/GoAes.v ===== *)
(** [crypto/aes] and [crypto/cipher]'s GCM mode, which [internal/crypto] seals
    the signing secrets with: the block cipher of FIPS 197 on lists of bytes,
    its counter mode and the authentication tag of NIST SP 800-38D.  The test
    vectors of both standards evaluate.  [gcm_open_seal] and [gcm_open_sealed]
    are the two halves of what the program relies on: opening returns a text
    exactly for what sealing that text gives. *)
From stdpp Require Import base tactics list strings numbers.
From Stdlib Require Import ZArith Lia.
From S2P Require Import Prelude GoStd GoCrypto.

Open Scope Z_scope.

(** ** The block cipher *)
Module Aes.

(** Multiplication by x, and of two bytes, modulo x^8 + x^4 + x^3 + x + 1. *)
Definition xtime (b : Z) : Z :=
  let d := Z.shiftl b 1 in if Z.testbit b 7 then Z.lxor (Z.land d 255) 0x1b else d.

Fixpoint gmul (n : nat) (a b : Z) : Z :=
  match n with
  | O => 0
  | S n => Z.lxor (if Z.odd b then a else 0) (gmul n (xtime a) (Z.shiftr b 1))
  end.
Definition mul : Z → Z → Z := gmul 8.

(** The substitution of a byte: its inverse, x^254, under an affine map. *)
Definition inverse (x : Z) : Z := Nat.iter 127 (mul (mul x x)) 1.
Definition rotl8 (x : Z) (n : Z) : Z := Z.land (Z.lor (Z.shiftl x n) (Z.shiftr x (8 - n))) 255.
Definition substitute (x : Z) : Z :=
  let b := inverse x in
  foldl (λ acc n, Z.lxor acc (rotl8 b n)) (Z.lxor b 0x63) (seqZ 1 4).
Definition sbox : list Z := Eval vm_compute in substitute <$> seqZ 0 256.

Definition sub (b : Z) : Z := nth (Z.to_nat b) sbox 0.

(** The key schedule on 32-bit words, newest first: [n] words from the [i]th on. *)
Definition sub_word (w : Z) : Z := foldl (λ acc b, Z.lor (Z.shiftl acc 8) (sub b)) 0 (Sha256.be_bytes 4 w).
Definition rot_word (w : Z) : Z := Sha256.rotr w 24.
Definition rcon (j : nat) : Z := Z.shiftl (Nat.iter (j - 1) xtime 1) 24.

Fixpoint expand (nk n i : nat) (rw : list Z) : list Z :=
  match n with
  | O => rw
  | S n =>
    let temp := nth 0 rw 0 in
    let temp := if Nat.eqb (i mod nk) 0 then Z.lxor (sub_word (rot_word temp)) (rcon (i / nk))
                else if Nat.ltb 6 nk && Nat.eqb (i mod nk) 4 then sub_word temp else temp in
    expand nk n (S i) (Z.lxor (nth (nk - 1) rw 0) temp :: rw)
  end.

Definition rounds (key : list Z) : nat := (length key / 4 + 6)%nat.
Definition schedule (key : list Z) : list Z :=
  let nk := (length key / 4)%nat in
  reverse (expand nk (4 * (rounds key + 1) - nk) nk (reverse (Sha256.words key))).

(** The state is its sixteen bytes, column by column. *)
Definition add_round_key (ws : list Z) (r : nat) (st : list Z) : list Z :=
  zip_with Z.lxor st (mjoin ((λ i, Sha256.be_bytes 4 (nth i ws 0)) <$> seq (4 * r) 4)).
Definition sub_bytes (st : list Z) : list Z := sub <$> st.
Definition shift_rows (st : list Z) : list Z := (λ i, nth ((5 * i) mod 16) st 0) <$> seq 0 16.
Fixpoint mix_columns (st : list Z) : list Z :=
  match st with
  | a :: b :: c :: d :: st =>
    let col w x y z := Z.lxor (Z.lxor (mul w 2) (mul x 3)) (Z.lxor y z) in
    col a b c d :: col b c d a :: col c d a b :: col d a b c :: mix_columns st
  | _ => []
  end.

Definition round (ws : list Z) (st : list Z) (r : nat) : list Z :=
  add_round_key ws r (mix_columns (shift_rows (sub_bytes st))).

Definition encrypt (ws : list Z) (nr : nat) (block : list Z) : list Z :=
  add_round_key ws nr (shift_rows (sub_bytes (foldl (round ws) (add_round_key ws 0 block) (seq 1 (nr - 1))))).

Definition byte (b : Z) : Prop := 0 <= b < 256.

Lemma lxor_byte a b : byte a → byte b → byte (Z.lxor a b).
Proof.
  unfold byte. intros Ha Hb. rewrite <-(Z.mod_small a 256), <-(Z.mod_small b 256) by done.
  change 256 with (2 ^ 8). rewrite <-!Z.land_ones by lia.
  assert (Z.lxor (Z.land a (Z.ones 8)) (Z.land b (Z.ones 8)) = Z.land (Z.lxor a b) (Z.ones 8)) as ->.
  { apply Z.bits_inj'. intros n Hn. rewrite Z.lxor_spec, !Z.land_spec, Z.lxor_spec.
    by destruct (Z.testbit a n), (Z.testbit b n), (Z.testbit (Z.ones 8) n). }
  rewrite Z.land_ones by lia. apply Z.mod_pos_bound. lia.
Qed.

Lemma zip_lxor_bytes l k : Forall byte l → Forall byte k → Forall byte (zip_with Z.lxor l k).
Proof.
  intros Hl. revert k. induction Hl as [|a l Ha _ IH]; intros k Hk; [constructor|].
  destruct Hk as [|b k Hb Hk]; simpl; constructor; [by apply lxor_byte|by apply IH].
Qed.

Lemma nth_byte i l : Forall byte l → byte (nth i l 0).
Proof. intros Hl. revert i. induction Hl; intros [|i]; simpl; try done; unfold byte; lia. Qed.

Lemma sub_byte b : byte (sub b).
Proof.
  apply nth_byte. unfold byte. apply (bool_decide_unpack (Forall (λ b, 0 <= b < 256) sbox)). by vm_compute.
Qed.

Lemma round_key_bytes ws r : Forall byte (mjoin ((λ i, Sha256.be_bytes 4 (nth i ws 0)) <$> seq (4 * r) 4)).
Proof. apply Forall_join, Forall_fmap, Forall_true. intros i. apply Sha256.be_bytes_range. Qed.

Lemma length_encrypt ws nr block : length (encrypt ws nr block) = 16%nat.
Proof. reflexivity. Qed.

Lemma encrypt_bytes ws nr block : Forall byte (encrypt ws nr block).
Proof.
  apply zip_lxor_bytes; [|apply round_key_bytes]. apply Forall_fmap, Forall_true. intros i.
  apply nth_byte, Forall_fmap, Forall_true. apply sub_byte.
Qed.

End Aes.

(** ** Galois/counter mode *)

Definition be_num (l : list Z) : Z := foldl (λ acc b, Z.lor (Z.shiftl acc 8) b) 0 l.

(** Multiplication in GF(2^128) of blocks as numbers, most significant bit first. *)
Fixpoint gf_mul (n : nat) (x v : Z) : Z :=
  match n with
  | O => 0
  | S n =>
    Z.lxor (if Z.testbit x (Z.of_nat n) then v else 0)
      (gf_mul n x (let v' := Z.shiftr v 1 in if Z.odd v then Z.lxor v' (Z.shiftl 0xE1 120) else v'))
  end.

(** The hash of the ciphertext, padded to blocks, and of its length in bits;
    there is no additional data. *)
Fixpoint ghash_blocks (n : nat) (h acc : Z) (l : list Z) : Z :=
  match n with
  | O => acc
  | S n =>
    let b := take 16 l in
    ghash_blocks n h (gf_mul 128 (Z.lxor acc (be_num (b ++ replicate (16 - length b) 0))) h) (drop 16 l)
  end.
Definition ghash (h : Z) (ct : list Z) : Z :=
  let acc := ghash_blocks ((length ct + 15) / 16) h 0 ct in
  gf_mul 128 (Z.lxor acc (8 * Z.of_nat (length ct))) h.

(** The keystream: the encrypted values of the counter, the last four bytes of
    a block. *)
Section gcm.
Variable cipher : list Z → list Z.

Definition counter_block (nonce : list Z) (i : Z) : list Z := nonce ++ Sha256.be_bytes 4 i.
Definition keystream (nonce : list Z) (n : nat) : list Z :=
  mjoin ((λ i, cipher (counter_block nonce (2 + Z.of_nat i))) <$> seq 0 n).
Definition gcm_xor (nonce text : list Z) : list Z :=
  zip_with Z.lxor text (keystream nonce ((length text + 15) / 16)).
Definition gcm_tag (nonce ct : list Z) : list Z :=
  zip_with Z.lxor (cipher (counter_block nonce 1)) (Sha256.be_bytes 16 (ghash (be_num (cipher (replicate 16 0))) ct)).

(** [gcm.Seal] appends the tag, [gcm.Open] checks it first. *)
Definition gcm_TagSize : nat := 16.
Definition seal (nonce text : list Z) : list Z :=
  let ct := gcm_xor nonce text in ct ++ gcm_tag nonce ct.
Definition open (nonce l : list Z) : option (list Z) :=
  if (length l <? gcm_TagSize)%nat then None
  else
    let ct := take (length l - gcm_TagSize) l in
    if bool_decide (drop (length l - gcm_TagSize) l = gcm_tag nonce ct) then Some (gcm_xor nonce ct) else None.

Hypothesis cipher_length : ∀ block, length (cipher block) = 16%nat.
Hypothesis cipher_bytes : ∀ block, Forall Aes.byte (cipher block).

Lemma length_keystream nonce n : length (keystream nonce n) = (n * 16)%nat.
Proof.
  rewrite <-(length_seq n 0) at 2. unfold keystream.
  induction (seq 0 n) as [|i l IH]; [done|]. csimpl. by rewrite length_app, cipher_length, IH.
Qed.

Lemma keystream_covers nonce (text : list Z) : (length text <= length (keystream nonce ((length text + 15) / 16)))%nat.
Proof. rewrite length_keystream. pose proof (Nat.div_mod_eq (length text + 15) 16). pose proof (Nat.mod_upper_bound (length text + 15) 16). lia. Qed.

Lemma length_gcm_xor nonce text : length (gcm_xor nonce text) = length text.
Proof. unfold gcm_xor. rewrite length_zip_with. pose proof (keystream_covers nonce text). lia. Qed.

Lemma zip_lxor_involutive (l k : list Z) :
  (length l <= length k)%nat → zip_with Z.lxor (zip_with Z.lxor l k) k = l.
Proof.
  revert k. induction l as [|a l IH]; intros [|b k] Hk; simpl in *; try done; [lia|].
  rewrite Z.lxor_assoc, Z.lxor_nilpotent, Z.lxor_0_r, IH; [done|lia].
Qed.

(** Counter mode undoes itself. *)
Lemma gcm_xor_involutive nonce text : gcm_xor nonce (gcm_xor nonce text) = text.
Proof.
  unfold gcm_xor at 1. rewrite length_gcm_xor. unfold gcm_xor.
  apply zip_lxor_involutive, keystream_covers.
Qed.

Lemma gcm_xor_bytes nonce text : Forall Aes.byte text → Forall Aes.byte (gcm_xor nonce text).
Proof.
  intros Ht. apply Aes.zip_lxor_bytes; [done|]. unfold keystream.
  apply Forall_join, Forall_fmap, Forall_true. intros i. apply cipher_bytes.
Qed.

Lemma length_gcm_tag nonce ct : length (gcm_tag nonce ct) = 16%nat.
Proof. unfold gcm_tag. by rewrite length_zip_with, cipher_length, Sha256.length_be_bytes. Qed.

Lemma gcm_tag_bytes nonce ct : Forall Aes.byte (gcm_tag nonce ct).
Proof. apply Aes.zip_lxor_bytes; [apply cipher_bytes|apply Sha256.be_bytes_range]. Qed.

Lemma seal_bytes nonce text : Forall Aes.byte text → Forall Aes.byte (seal nonce text).
Proof. intros Ht. apply Forall_app. split; [by apply gcm_xor_bytes|apply gcm_tag_bytes]. Qed.

Lemma open_bytes nonce l text : Forall Aes.byte l → open nonce l = Some text → Forall Aes.byte text.
Proof.
  unfold open. intros Hl Ho. repeat case_match; try done. injection Ho as <-.
  by apply gcm_xor_bytes, Forall_take.
Qed.

(** Opening returns a text exactly for what sealing it gives. *)
Lemma open_iff_seal nonce l text : open nonce l = Some text ↔ l = seal nonce text.
Proof.
  unfold open, seal. split.
  - destruct (Nat.ltb_spec (length l) gcm_TagSize); [done|].
    case_bool_decide as Ht; [|done]. intros [= <-]. by rewrite gcm_xor_involutive, <-Ht, take_drop.
  - set (ct := gcm_xor nonce text). intros ->. rewrite length_app, length_gcm_tag.
    rewrite (proj2 (Nat.ltb_ge _ _)) by (unfold gcm_TagSize; lia).
    replace (length ct + 16 - gcm_TagSize)%nat with (length ct) by (unfold gcm_TagSize; lia).
    rewrite take_app_length, drop_app_length, bool_decide_eq_true_2 by done.
    unfold ct. by rewrite gcm_xor_involutive.
Qed.
End gcm.

Definition aes_cipher (key : string) : list Z → list Z :=
  let k := bytes_of key in
  let ws := Aes.schedule k in
  Aes.encrypt ws (Aes.rounds k).

(** [aes.NewCipher] accepts the three AES key sizes; [NonceSize] of
    [cipher.NewGCM] is 12 and its tag 16 bytes long. *)
Definition aes_NewCipher (key : string) : bool :=
  bool_decide (String.length key ∈ [16; 24; 32]%nat).
Definition gcm_NonceSize : nat := 12.

(** [gcm.Seal(nonce, nonce, plaintext, nil)] without the nonce, and
    [gcm.Open(nil, nonce, ciphertext, nil)]; texts are shorter than 64 GB. *)
Definition gcm_seal (key nonce plaintext : string) : string :=
  string_of (seal (aes_cipher key) (bytes_of nonce) (bytes_of plaintext)).
Definition gcm_open (key nonce ciphertext : string) : option string :=
  string_of <$> open (aes_cipher key) (bytes_of nonce) (bytes_of ciphertext).

Lemma aes_cipher_length key block : length (aes_cipher key block) = 16%nat.
Proof.
  unfold aes_cipher. generalize (Aes.schedule (bytes_of key)), (Aes.rounds (bytes_of key)).
  intros. apply Aes.length_encrypt.
Qed.
Lemma aes_cipher_bytes key block : Forall Aes.byte (aes_cipher key block).
Proof.
  unfold aes_cipher. generalize (Aes.schedule (bytes_of key)), (Aes.rounds (bytes_of key)).
  intros. apply Aes.encrypt_bytes.
Qed.

(** What is sealed can be opened. *)
Lemma gcm_open_seal key nonce text : gcm_open key nonce (gcm_seal key nonce text) = Some text.
Proof.
  pose proof (aes_cipher_length key) as Hl. pose proof (aes_cipher_bytes key) as Hb.
  unfold gcm_open, gcm_seal. rewrite bytes_of_string_of.
  - rewrite (proj2 (open_iff_seal _ Hl _ _ _) eq_refl). cbn. by rewrite string_of_bytes_of.
  - apply seal_bytes, bytes_of_range. exact Hb.
Qed.

(** What can be opened was sealed: no other text passes the check of the tag. *)
Lemma gcm_open_sealed key nonce ciphertext text :
  gcm_open key nonce ciphertext = Some text → ciphertext = gcm_seal key nonce text.
Proof.
  pose proof (aes_cipher_length key) as Hl. pose proof (aes_cipher_bytes key) as Hb.
  unfold gcm_open, gcm_seal. intros (t & Ho & ->)%fmap_Some.
  rewrite bytes_of_string_of by (eapply (open_bytes _ Hb); [apply bytes_of_range|exact Ho]).
  apply (open_iff_seal _ Hl) in Ho. by rewrite <-Ho, string_of_bytes_of.
Qed.

(** FIPS 197, appendix C, and the test cases 13 to 15 of the GCM
    specification. *)
Definition hex_text (s : string) : string := default "" (DecodeString s).

Example aes128_fips197 :
  EncodeToString (string_of (aes_cipher (hex_text "000102030405060708090a0b0c0d0e0f")
                               (bytes_of (hex_text "00112233445566778899aabbccddeeff"))))
  = "69c4e0d86a7b0430d8cdb78070b4c55a"%string.
Proof. vm_compute. reflexivity. Qed.

Example aes192_fips197 :
  EncodeToString (string_of (aes_cipher (hex_text "000102030405060708090a0b0c0d0e0f1011121314151617")
                               (bytes_of (hex_text "00112233445566778899aabbccddeeff"))))
  = "dda97ca4864cdfe06eaf70a0ec0d7191"%string.
Proof. vm_compute. reflexivity. Qed.

Example aes256_fips197 :
  EncodeToString (string_of (aes_cipher (hex_text "000102030405060708090a0b0c0d0e0f101112131415161718191a1b1c1d1e1f")
                               (bytes_of (hex_text "00112233445566778899aabbccddeeff"))))
  = "8ea2b7ca516745bfeafc49904b496089"%string.
Proof. vm_compute. reflexivity. Qed.

Example gcm_case_13 :
  EncodeToString (gcm_seal (string_of (replicate 32 0)) (string_of (replicate 12 0)) "")
  = "530f8afbc74536b9a963b4f1c4cb738b"%string.
Proof. vm_compute. reflexivity. Qed.

Example gcm_case_14 :
  EncodeToString (gcm_seal (string_of (replicate 32 0)) (string_of (replicate 12 0)) (string_of (replicate 16 0)))
  = "cea7403d4d606b6e074ec5d3baf39d18d0d1c8a799996bf0265b98b5d48ab919"%string.
Proof. vm_compute. reflexivity. Qed.

Example gcm_case_15 :
  EncodeToString (gcm_seal (hex_text "feffe9928665731c6d6a8f9467308308feffe9928665731c6d6a8f9467308308")
    (hex_text "cafebabefacedbaddecaf888")
    (hex_text ("d9313225f88406e5a55909c5aff5269a86a7a9531534f7da2e4c303d8a318a72"
               +:+ "1c3c0c95956809532fcf0e2449a6b525b16aedf5aa0de657ba637b391aafd255")))
  = ("522dc1f099567d07f47f37a32a84427d643a8cdcbfe5c0c97598a2bd2555d1aa"
     +:+ "8cb08e48590dbb3da7b08b1056828838c5f61e6393ba7a0abcc9f662898015ad"
     +:+ "b094dac5d93471bdec1a502270e3cc6c")%string.
Proof. vm_compute. reflexivity. Qed.
