(* ===== verification/Model.v ===== *)
(** Package [internal/model]: the shared data of the program, the error
    values its packages return, and the validation of search requests
    ([internal/model/search.go]). *)
From stdpp Require Import base tactics list gmap strings numbers.
From Stdlib Require Import ZArith Lia.
From S2P Require Import Prelude GoStd GoTime.

Open Scope Z_scope.

(** ** Scalars

    A [uuid.UUID] is its 128-bit big-endian value, a [time.Time] the number
    of nanoseconds since the Unix epoch, a [time.Duration] nanoseconds. *)
Abbreviation UUID := Z (only parsing).
Abbreviation Time := Z (only parsing).

Definition Nanosecond : Z := 1.
Definition Millisecond : Z := 1000000.
Definition Second : Z := 1000000000.
Definition Minute : Z := 60 * Second.
Definition Hour : Z := 60 * Minute.
Definition Day : Z := 24 * Hour.

(** ** Errors

    The sentinel errors of the packages, the errors of the drivers and
    [fmt.Errorf("%w: %w", a, b)] as [Wrap a b]. *)
Inductive goerr : Type :=
| ErrHookExists | ErrInvalidUUID
| ErrInvalidSignature
| ErrMissingSigningSecret | ErrMissingDestination | ErrInvalidRetryCount | ErrInvalidReqSecond
| ErrEncryption | ErrDecryption
| ErrNoHooksToWork | ErrRateLimited
| ErrRedis | ErrRedisTimeout | ErrRedisNotConfigured
| ErrMissingType | ErrMissingLookup | ErrIDTooLong | ErrNoProviders | ErrNoStatuses
| ErrResponseCodeRange | ErrDatePairRequired | ErrInvalidTime | ErrDateOrder
| ErrSearchTooLong | ErrEventTypeTooLong
| ErrInvalidToken | ErrInvalidCredentials | ErrTokenNotFound | ErrTokenKeyMissing | ErrTokenExpired
| ErrNoRows                        (* pgx.ErrNoRows *)
| RedisNil                         (* redis.Nil *)
| DeadlineExceeded                 (* context.DeadlineExceeded *)
| PgError (msg : string)           (* *pgconn.PgError *)
| ErrOther (msg : string)          (* any other error of a library *)
| Wrap (a b : goerr).

#[export] Instance goerr_eq_dec : EqDecision goerr.
Proof. solve_decision. Defined.

(** [errors.Is] *)
Fixpoint errors_Is (e target : goerr) : bool :=
  bool_decide (e = target)
  || match e with Wrap a b => errors_Is a target || errors_Is b target | _ => false end.

(** [errors.As(err, &config.ErrPg)] *)
Fixpoint errors_As_Pg (e : goerr) : bool :=
  match e with PgError _ => true | Wrap a b => errors_As_Pg a || errors_As_Pg b | _ => false end.

(** [err.Error()] *)
Fixpoint Error (e : goerr) : string :=
  match e with
  | ErrHookExists => "webhook already exists"
  | ErrInvalidUUID => "invalid uuid received"
  | ErrInvalidSignature => "invalid webhook signature"
  | ErrMissingSigningSecret => "error field is empty: signing_secret"
  | ErrMissingDestination => "error missing field: destination_url"
  | ErrInvalidRetryCount => "error field is invalid: retry_count must be between 0 and 20"
  | ErrInvalidReqSecond => "error field is invalid: max_req_second must be between 0 and 1000"
  | ErrEncryption => "error encrypting provider signing key"
  | ErrDecryption => "error decrypting provider signing key"
  | ErrNoHooksToWork => "[Worker] no webhooks to work at the moment"
  | ErrRateLimited => "[Worker] rate limited"
  | ErrRedis => "[limiter] redis error occurred"
  | ErrRedisTimeout => "[limiter] redis timeout occurred"
  | ErrRedisNotConfigured => "[limiter] redis client not configured"
  | ErrMissingType => "search type must be either lookup or filter"
  | ErrMissingLookup => "either webhook id or event id must be provided"
  | ErrIDTooLong => "webhook id and event id must be 255 characters or fewer"
  | ErrNoProviders => "at least one provider must be selected"
  | ErrNoStatuses => "at least one delivery status must be selected"
  | ErrResponseCodeRange => "response code must be between 100 and 511"
  | ErrDatePairRequired => "both from time and to time must be set together"
  | ErrInvalidTime => "from time or to time is not a valid ISO 8601 datetime"
  | ErrDateOrder => "to time must be after from time"
  | ErrSearchTooLong => "payload search must be 255 characters or fewer"
  | ErrEventTypeTooLong => "event type must be 255 characters or fewer"
  | ErrInvalidToken => "[Auth] invalid token"
  | ErrInvalidCredentials => "[Auth] invalid email or password"
  | ErrTokenNotFound => "[Auth] token not found"
  | ErrTokenKeyMissing => "[Auth] missing key in token claims"
  | ErrTokenExpired => "token is expired"
  | ErrNoRows => "no rows in result set"
  | RedisNil => "redis: nil"
  | DeadlineExceeded => "context deadline exceeded"
  | PgError msg => msg
  | ErrOther msg => msg
  | Wrap a b => Error a +:+ ": " +:+ Error b
  end%string.

Abbreviation result A := (res goerr A).

(** ** delivery.go

    The [delivery_status] column is an enumeration of the database schema;
    a scanned [Webhook] holds one of its values.  Go code names the values by
    strings, of which the zero value [""] is none. *)
Inductive DeliveryStatus : Type :=
| Queued | Processing | Delivered | Retrying | Failed | Replaying.

#[export] Instance DeliveryStatus_eq_dec : EqDecision DeliveryStatus.
Proof. solve_decision. Defined.

Definition status_text (s : DeliveryStatus) : string :=
  match s with
  | Queued => "queued" | Processing => "processing" | Delivered => "delivered"
  | Retrying => "retrying" | Failed => "failed" | Replaying => "replaying"
  end%string.

Definition DeliveryStatusDelivered : string := "delivered".
Definition DeliveryStatusFailed : string := "failed".

(** Input of the enumeration type: the error of an unknown label is [None]. *)
Definition status_in (s : string) : option DeliveryStatus :=
  if bool_decide (s = "queued"%string) then Some Queued
  else if bool_decide (s = "processing"%string) then Some Processing
  else if bool_decide (s = "delivered"%string) then Some Delivered
  else if bool_decide (s = "retrying"%string) then Some Retrying
  else if bool_decide (s = "failed"%string) then Some Failed
  else if bool_decide (s = "replaying"%string) then Some Replaying
  else None.

Lemma status_in_text s : status_in (status_text s) = Some s.
Proof. by destruct s. Qed.

Lemma status_in_Some t s : status_in t = Some s → t = status_text s.
Proof.
  unfold status_in. intros H.
  repeat (case_bool_decide; [by injection H as <-|]). done.
Qed.

(** ** provider.go *)
Definition Github : string := "Github".
Definition Stripe : string := "Stripe".
Definition Shopify : string := "Shopify".

Record Provider := mkProvider {
  p_ID : UUID;
  p_Name : string;
  p_SigningSecret : string;
  p_DestinationURL : string;
  p_MaxRetries : Z;
  p_MaxReqSecond : Z;
  p_IsConfigured : bool;
  p_CreatedAt : Time;
}.

#[export] Instance Provider_eq_dec : EqDecision Provider.
Proof. solve_decision. Defined.

(** ** webhook.go *)
Record CreateWebhookParams := mkParams {
  cp_ProviderID : UUID;
  cp_Provider : string;
  cp_EventID : option string;
  cp_EventType : string;
  cp_Headers : string;
  cp_Payload : string;
  cp_ForwardedTo : string;
  cp_ReceivedAt : Time;
}.

Record Webhook := mkWebhook {
  wh_ID : UUID;
  wh_ProviderID : UUID;
  wh_Provider : string;
  wh_EventID : option string;
  wh_EventType : string;
  wh_Headers : string;
  wh_Payload : string;
  wh_DeliveryStatus : DeliveryStatus;
  wh_ForwardedTo : string;
  wh_ResponseCode : option Z;
  wh_RetryCount : Z;
  wh_NextRetryAt : option Time;
  wh_LastError : option string;
  wh_ReceivedAt : Time;
  wh_UpdatedAt : Time;
  wh_CreatedAt : Time;
}.

#[export] Instance Webhook_eq_dec : EqDecision Webhook.
Proof. solve_decision. Defined.

(** ** stat.go *)
Record Stats := mkStats {
  st_Delivered : Z; st_Failed : Z; st_Retrying : Z; st_Queued : Z;
}.

(** ** search.go *)
Definition MaxStringSearchLength : Z := 255.
Definition LookUp : string := "lookup".
Definition Filter : string := "filter".

Record SearchRequest := mkSearch {
  sr_Type : string;
  sr_WebhookID : option string;
  sr_EventID : option string;
  sr_Providers : list string;
  sr_EventType : option string;
  sr_DeliveryStatuses : list string;
  sr_ResponseCode : option Z;
  sr_FromTime : option string;
  sr_ToTime : option string;
  sr_PayloadSearch : option string;
  sr_HasRetries : bool;
  sr_HasError : bool;
  sr_Offset : Z;
  sr_Limit : Z;
}.

Record LookupOpts := mkLookup {
  lo_WebhookID : option string;
  lo_EventID : option string;
  lo_Offset : Z;
  lo_Limit : Z;
}.

Record FilterOpts := mkFilter {
  fo_Providers : list string;
  fo_EventType : option string;
  fo_DeliveryStatuses : list string;
  fo_ResponseCode : option Z;
  fo_FromTime : option Time;
  fo_ToTime : option Time;
  fo_PayloadSearch : option string;
  fo_HasRetries : bool;
  fo_HasError : bool;
  fo_Offset : Z;
  fo_Limit : Z;
}.

Record SearchResponse := mkResponse { resp_Events : list Webhook; resp_HasMore : bool }.

Definition derefStr (s : option string) : string := default ""%string s.

Definition validateLookup (p : SearchRequest) : result unit :=
  let id := TrimSpace (derefStr (sr_WebhookID p)) in
  let evID := TrimSpace (derefStr (sr_EventID p)) in
  if bool_decide (id = ""%string) && bool_decide (evID = ""%string) then Err ErrMissingLookup
  else if (255 <? RuneCountInString id) || (255 <? RuneCountInString evID) then Err ErrIDTooLong
  else Ok tt.

Definition validateFilter (p : SearchRequest) : result unit :=
  if (length (sr_Providers p) =? 0)%nat then Err ErrNoProviders
  else if (length (sr_DeliveryStatuses p) =? 0)%nat then Err ErrNoStatuses
  else if match sr_ResponseCode p with
          | Some c => (c <? 100) || (511 <? c)
          | None => false
          end then Err ErrResponseCodeRange
  else if match sr_FromTime p, sr_ToTime p with
          | Some _, None | None, Some _ => true
          | _, _ => false
          end then Err ErrDatePairRequired
  else
    let rest :=
      if match sr_PayloadSearch p with
         | Some s => MaxStringSearchLength <? RuneCountInString s
         | None => false
         end then Err ErrSearchTooLong
      else if match sr_EventType p with
              | Some s => MaxStringSearchLength <? RuneCountInString s
              | None => false
              end then Err ErrEventTypeTooLong
      else Ok tt in
    match sr_FromTime p, sr_ToTime p with
    | Some f, Some t =>
      match time_Parse f with
      | None => Err ErrInvalidTime
      | Some fromTime =>
        match time_Parse t with
        | None => Err ErrInvalidTime
        | Some toTime => if negb (fromTime <? toTime) then Err ErrDateOrder else rest
        end
      end
    | _, _ => rest
    end.

Definition Validate (p : SearchRequest) : result unit :=
  if bool_decide (sr_Type p = LookUp) then validateLookup p
  else if bool_decide (sr_Type p = Filter) then validateFilter p
  else Err ErrMissingType.

(** What a valid request is, field by field. *)
Definition short (s : option string) : Prop :=
  ∀ t, s = Some t → RuneCountInString t <= MaxStringSearchLength.

Record valid_lookup (p : SearchRequest) : Prop := {
  vl_some : TrimSpace (derefStr (sr_WebhookID p)) ≠ ""%string
            ∨ TrimSpace (derefStr (sr_EventID p)) ≠ ""%string;
  vl_webhook : RuneCountInString (TrimSpace (derefStr (sr_WebhookID p))) <= 255;
  vl_event : RuneCountInString (TrimSpace (derefStr (sr_EventID p))) <= 255;
}.

Record valid_filter (p : SearchRequest) : Prop := {
  vf_providers : sr_Providers p ≠ [];
  vf_statuses : sr_DeliveryStatuses p ≠ [];
  vf_code : ∀ c, sr_ResponseCode p = Some c → 100 <= c <= 511;
  vf_times : (sr_FromTime p = None ∧ sr_ToTime p = None) ∨
             (∃ f t tf tt, sr_FromTime p = Some f ∧ sr_ToTime p = Some t ∧
                time_Parse f = Some tf ∧ time_Parse t = Some tt ∧ tf < tt);
  vf_payload : short (sr_PayloadSearch p);
  vf_type : short (sr_EventType p);
}.

Definition valid_request (p : SearchRequest) : Prop :=
  (sr_Type p = LookUp ∧ valid_lookup p) ∨ (sr_Type p = Filter ∧ valid_filter p).

Lemma validateLookup_ok p : validateLookup p = Ok tt ↔ valid_lookup p.
Proof.
  unfold validateLookup. split.
  - intros Hv. repeat (case_match; simplify_eq). bsplit. split; [|lia..].
    match goal with E : (_ && _)%bool = false |- _ => apply andb_false_iff in E as [E|E] end;
      bsplit; auto.
  - intros [Hs Hw He].
    rewrite (proj2 (andb_false_iff _ _)) by (destruct Hs; [left|right]; by apply bool_decide_eq_false_2).
    by rewrite (proj2 (orb_false_iff _ _)) by (split; apply Z.ltb_ge; lia).
Qed.

Lemma too_long s : match s with
                   | Some s => MaxStringSearchLength <? RuneCountInString s
                   | None => false
                   end = false ↔ short s.
Proof.
  unfold short. destruct s as [s|]; [|naive_solver].
  rewrite Z.ltb_ge. naive_solver.
Qed.

Lemma validateFilter_ok p : validateFilter p = Ok tt ↔ valid_filter p.
Proof.
  unfold validateFilter. split.
  - intros Hv.
    destruct (length (sr_Providers p) =? 0)%nat eqn:E1; [done|].
    destruct (length (sr_DeliveryStatuses p) =? 0)%nat eqn:E2; [done|].
    apply Nat.eqb_neq in E1, E2.
    split.
    + intros E. by rewrite E in E1.
    + intros E. by rewrite E in E2.
    + intros c Hc. rewrite Hc in Hv. case_match; [done|]. bsplit; lia.
    + destruct (sr_FromTime p), (sr_ToTime p); branch_in Hv; bsplit; eauto 12.
    + apply too_long. branch_in Hv.
    + apply too_long. branch_in Hv.
  - intros [Hp Hs Hc Ht Hl Hy].
    apply too_long in Hl, Hy. rewrite Hl, Hy.
    destruct (sr_Providers p), (sr_DeliveryStatuses p); [done..|]. simpl.
    destruct (sr_ResponseCode p) as [c|].
    + specialize (Hc c eq_refl).
      rewrite (proj2 (orb_false_iff _ _)) by (rewrite !Z.ltb_ge; lia).
      destruct Ht as [[-> ->]|(f & t & tf & tt' & -> & -> & -> & -> & Hlt)]; [done|].
      by rewrite (proj2 (Z.ltb_lt _ _) Hlt).
    + destruct Ht as [[-> ->]|(f & t & tf & tt' & -> & -> & -> & -> & Hlt)]; [done|].
      by rewrite (proj2 (Z.ltb_lt _ _) Hlt).
Qed.

