(* ===== verification/Codecs.v ===== *)
(** [encoding/json] on the types the program serialises: [model.Provider] in
    the Redis cache, the headers of a request in the [headers] column, and the
    batches of [model.Webhook] on the event stream.  An encoder writes the
    fields in the order of the struct, under the names of their tags; the
    decoder follows [Unmarshal]: unknown members are skipped, names compare
    without case, [null] leaves a field as it is and a value of another type
    is an error. *)
From stdpp Require Import base tactics list gmap strings numbers sorting.
From Stdlib Require Import ZArith Lia.
From S2P Require Import Prelude GoStd Json Compact GoTime Model.

Open Scope Z_scope.

(** ** github.com/google/uuid: [uuid.Parse] and [UUID.String] *)
Class UuidLib := { uuid_Parse : string → option UUID; uuid_String : UUID → string }.

Definition uuid_ok (u : UUID) : Prop := 0 <= u < 2 ^ 128.

Class UuidLibOk `{UuidLib} : Prop := {
  uuid_Parse_String : ∀ u, uuid_ok u → uuid_Parse (uuid_String u) = Some u;
  uuid_String_utf8 : ∀ u, utf8_valid (uuid_String u) = true;
}.

(** ** Interfaces: what [json.Marshal] and [json.Unmarshal] do to a type *)
Class ToJson (A : Type) := { Marshal : A → result string }.
Class FromJson (A : Type) := { Unmarshal : string → option A }.
#[global] Arguments Marshal : simpl never.
#[global] Arguments Unmarshal : simpl never.

Definition ErrMarshal : goerr := ErrOther "json: error calling MarshalJSON".

(** ** Encoders *)

Definition str_json (s : string) : list Z := quote (bytes_of s).
Definition time_json (t : Time) : option (list Z) := quote <$> format_time t.

(** A pointer: [null] or what it points to. *)
Definition opt_json {A} (f : A → option (list Z)) (o : option A) : option (list Z) :=
  match o with None => Some word_null | Some a => f a end.

Definition field (name : string) (v : option (list Z)) : option (list Z * list Z) := (str_json name,.) <$> v.

Definition object_json (fields : list (option (list Z * list Z))) : option (list Z) :=
  object_lit <$> mapM id fields.

Definition text_of (l : option (list Z)) : result string :=
  match l with Some l => Ok (string_of l) | None => Err ErrMarshal end.

(** [json.RawMessage]; a column of type JSONB never scans into a nil one. *)
Definition raw_json (s : string) : option (list Z) := compact (bytes_of s).

(** [strings.Compare], which orders the keys of a map. *)
Fixpoint bytes_leb (a b : list Z) : bool :=
  match a, b with
  | [], _ => true
  | _, [] => false
  | x :: a, y :: b => (x <? y) || ((x =? y) && bytes_leb a b)
  end.
Definition key_le {A} (a b : string * A) : Prop := bytes_leb (bytes_of a.1) (bytes_of b.1) = true.
#[export] Instance key_le_dec {A} : RelDecision (@key_le A).
Proof. intros a b. unfold key_le. apply _. Defined.

Definition strings_json (l : list string) : list Z := array_lit (str_json <$> l).
Definition header_members (h : Header) : list (string * list string) := merge_sort key_le (map_to_list h).
Definition header_json (h : Header) : list Z :=
  object_lit ((λ kv, (str_json kv.1, strings_json kv.2)) <$> header_members h).
Definition header_text (h : Header) : string := string_of (header_json h).

Definition stats_json (s : Stats) : option (list Z) := object_json
  [field "delivered" (Some (int_lit (st_Delivered s))); field "failed" (Some (int_lit (st_Failed s)));
   field "retrying" (Some (int_lit (st_Retrying s))); field "queued" (Some (int_lit (st_Queued s)))].
#[export] Instance stats_to_json : ToJson Stats := {| Marshal s := text_of (stats_json s) |}.

#[export] Instance header_to_json : ToJson Header := {| Marshal h := Ok (header_text h) |}.

Section encoders.
Context `{UuidLib}.

Definition uuid_json (u : UUID) : list Z := str_json (uuid_String u).

Definition provider_json (p : Provider) : option (list Z) := object_json
  [field "id" (Some (uuid_json (p_ID p)));
   field "name" (Some (str_json (p_Name p)));
   field "signing_secret" (Some (str_json (p_SigningSecret p)));
   field "destination_url" (Some (str_json (p_DestinationURL p)));
   field "max_retries" (Some (int_lit (p_MaxRetries p)));
   field "max_req_second" (Some (int_lit (p_MaxReqSecond p)));
   field "is_configured" (Some (bool_lit (p_IsConfigured p)));
   field "created_at" (time_json (p_CreatedAt p))].

Definition webhook_json (w : Webhook) : option (list Z) := object_json
  [field "id" (Some (uuid_json (wh_ID w)));
   field "provider_id" (Some (uuid_json (wh_ProviderID w)));
   field "provider" (Some (str_json (wh_Provider w)));
   field "event_id" (opt_json (Some ∘ str_json) (wh_EventID w));
   field "event_type" (Some (str_json (wh_EventType w)));
   field "headers" (raw_json (wh_Headers w));
   field "payload" (raw_json (wh_Payload w));
   field "delivery_status" (Some (str_json (status_text (wh_DeliveryStatus w))));
   field "forwarded_to" (Some (str_json (wh_ForwardedTo w)));
   field "response_code" (opt_json (Some ∘ int_lit) (wh_ResponseCode w));
   field "retry_count" (Some (int_lit (wh_RetryCount w)));
   field "next_retry_at" (opt_json time_json (wh_NextRetryAt w));
   field "last_error" (opt_json (Some ∘ str_json) (wh_LastError w));
   field "received_at" (time_json (wh_ReceivedAt w));
   field "updated_at" (time_json (wh_UpdatedAt w));
   field "created_at" (time_json (wh_CreatedAt w))].

(** The slices of events are made, never nil. *)
Definition batch_json (batch : list Webhook) : option (list Z) := array_lit <$> mapM webhook_json batch.

(** The repository appends to a slice that starts as nil. *)
Definition providers_json (provs : list Provider) : option (list Z) :=
  match provs with [] => Some word_null | _ => array_lit <$> mapM provider_json provs end.

Definition search_response_json (r : SearchResponse) : option (list Z) := object_json
  [field "events" (batch_json (resp_Events r)); field "has_more" (Some (bool_lit (resp_HasMore r)))].

#[export] Instance providers_to_json : ToJson (list Provider) := {| Marshal p := text_of (providers_json p) |}.
#[export] Instance search_response_to_json : ToJson SearchResponse := {| Marshal r := text_of (search_response_json r) |}.
#[export] Instance provider_to_json : ToJson Provider := {| Marshal p := text_of (provider_json p) |}.
#[export] Instance batch_to_json : ToJson (list Webhook) := {| Marshal b := text_of (batch_json b) |}.

End encoders.

(** ** Decoders *)

(** [foldName]: the letters without case, and the two other runes that fold to
    letters. *)
Definition fold_seg (seg : list Z) : list Z :=
  match seg with
  | [b] => [if between 97 b 122 then b - 32 else b]
  | _ => if bool_decide (seg = [0xC5; 0xBF]) then [83]
         else if bool_decide (seg = [0xE2; 0x84; 0xAA]) then [75] else seg
  end.
Definition fold_name (k : list Z) : list Z := mjoin (fold_seg <$> segments k).
Definition named (k : list Z) (name : string) : bool := bool_decide (fold_name k = fold_name (bytes_of name)).

(** A value for a field that holds [old]. *)
Definition string_value (j : json) (old : string) : option string :=
  match j with JStr s => Some (string_of s) | JNull => Some old | _ => None end.
Definition int_value (j : json) (old : Z) : option Z :=
  match j with JNum lit => Atoi (string_of lit) | JNull => Some old | _ => None end.
Definition bool_value (j : json) (old : bool) : option bool :=
  match j with JBool b => Some b | JNull => Some old | _ => None end.
Definition time_value (j : json) (old : Time) : option Time :=
  match j with JStr s => parse_time s | JNull => Some old | _ => None end.
Definition uuid_value `{UuidLib} (j : json) (old : UUID) : option UUID :=
  match j with JStr s => uuid_Parse (string_of s) | JNull => Some old | _ => None end.
Definition strings_value (j : json) : option (list string) :=
  match j with
  | JArr js => mapM (λ j, string_value j "") js
  | JNull => Some []
  | _ => None
  end.

(** The members of an object, one after the other. *)
Fixpoint members_value {A} (set : list Z → json → A → option A) (ms : list (list Z * json)) (a : A) : option A :=
  match ms with
  | [] => Some a
  | (k, j) :: ms => a ← set k j a; members_value set ms a
  end.
Definition object_value {A} (set : list Z → json → A → option A) (zero : A) (j : json) : option A :=
  match j with JObj ms => members_value set ms zero | JNull => Some zero | _ => None end.

Definition header_set (k : list Z) (j : json) (h : Header) : option Header :=
  vs ← strings_value j; Some (<[string_of k := vs]> h).
#[export] Instance header_from_json : FromJson Header :=
  {| Unmarshal s := parse (bytes_of s) ≫= object_value header_set ∅ |}.

Section decoders.
Context `{UuidLib}.

Definition provider_set (k : list Z) (j : json) (p : Provider) : option Provider :=
  let '(mkProvider id name sec des ret req conf crt) := p in
  if named k "id" then (λ v, mkProvider v name sec des ret req conf crt) <$> uuid_value j id
  else if named k "name" then (λ v, mkProvider id v sec des ret req conf crt) <$> string_value j name
  else if named k "signing_secret" then (λ v, mkProvider id name v des ret req conf crt) <$> string_value j sec
  else if named k "destination_url" then (λ v, mkProvider id name sec v ret req conf crt) <$> string_value j des
  else if named k "max_retries" then (λ v, mkProvider id name sec des v req conf crt) <$> int_value j ret
  else if named k "max_req_second" then (λ v, mkProvider id name sec des ret v conf crt) <$> int_value j req
  else if named k "is_configured" then (λ v, mkProvider id name sec des ret req v crt) <$> bool_value j conf
  else if named k "created_at" then (λ v, mkProvider id name sec des ret req conf v) <$> time_value j crt
  else Some p.

Definition zero_provider : Provider := mkProvider 0 "" "" "" 0 0 false zero_time.

#[export] Instance provider_from_json : FromJson Provider :=
  {| Unmarshal s := parse (bytes_of s) ≫= object_value provider_set zero_provider |}.

End decoders.

(** ** What is encoded is decoded *)

Lemma text_of_returns l : text_of l ≠ Panic.
Proof. by destruct l. Qed.

Lemma utf8_bytes_of s : utf8_valid s = true → utf8_bytes (bytes_of s).
Proof. intros Hs. split; [apply bytes_of_range|exact Hs]. Qed.

(** The bytes [l] are read as the value [j]. *)
Definition encodes (h : Z) (l : list Z) (j : json) : Prop := byte_range l ∧ reads h l j.

Lemma encodes_weaken h h' l j : h <= h' → encodes h l j → encodes h' l j.
Proof. intros Hh [Hb Hr]. split; [done|]. by eapply reads_weaken. Qed.

Lemma encodes_ascii s : ascii_bytes s → encodes 0 (quote s) (JStr s).
Proof.
  intros Hs. split; [by apply quote_range, ascii_range|]. pose proof (reads_str s (ascii_range s Hs)) as Hr.
  by rewrite sanitize_valid in Hr by by apply ascii_utf8.
Qed.

(** A string as it is read: its bytes, but for those that are not UTF-8. *)
Definition text_read (s : string) : json := JStr (sanitize (bytes_of s)).

Lemma text_read_utf8 s : utf8_valid s = true → text_read s = JStr (bytes_of s).
Proof. intros Hs%utf8_bytes_of. unfold text_read. by rewrite sanitize_valid. Qed.

Lemma encodes_str s : encodes 0 (str_json s) (text_read s).
Proof. split; [apply quote_range, bytes_of_range|apply reads_str, bytes_of_range]. Qed.

Lemma encodes_utf8 s : utf8_valid s = true → encodes 0 (str_json s) (JStr (bytes_of s)).
Proof. intros Hs. rewrite <-text_read_utf8 by done. apply encodes_str. Qed.

Lemma encodes_int z : encodes 0 (int_lit z) (JNum (int_lit z)).
Proof. split; [apply ascii_range, int_lit_ascii|apply reads_int]. Qed.

Lemma encodes_bool b : encodes 0 (bool_lit b) (JBool b).
Proof. split; [destruct b; repeat constructor; lia|apply reads_bool]. Qed.

Lemma encodes_null : encodes 0 word_null JNull.
Proof. split; [repeat constructor; lia|apply reads_null]. Qed.

Lemma encodes_time t l : time_json t = Some l → ∃ s, encodes 0 l (JStr s) ∧ parse_time s = Some t.
Proof.
  unfold time_json. destruct (format_time t) as [s|] eqn:E; [|done]. intros [= <-]. exists s.
  split; [|by apply parse_format_time]. apply format_time_ascii in E.
  by apply encodes_ascii.
Qed.

Lemma encodes_raw s l : raw_json s = Some l → ∃ j, parse (bytes_of s) = Some j ∧ encodes maxNestingDepth l j.
Proof.
  intros E. destruct (compact_reads _ _ E) as (j & Hj & Hr). exists j. split; [done|]. split; [|done].
  eapply compact_range; [apply bytes_of_range|exact E].
Qed.

Lemma encodes_array h ls js : Forall2 (encodes h) ls js → 0 <= h → encodes (h + 1) (array_lit ls) (JArr js).
Proof.
  intros Hl Hh. split.
  - apply array_lit_range. induction Hl as [|l j ls js [? _] _ IH]; by constructor.
  - apply reads_array; [|done]. induction Hl as [|l j ls js [_ ?] _ IH]; by constructor.
Qed.

(** A field of a struct and the member it is read as. *)
Definition encodes_field (h : Z) (f : option (list Z * list Z)) (m : list Z * json) : Prop :=
  ∃ name l, f = field name (Some l) ∧ m.1 = bytes_of name ∧ utf8_valid name = true ∧ encodes h l m.2.

Lemma encodes_field_intro h name l j :
  utf8_valid name = true → encodes h l j → encodes_field h (field name (Some l)) (bytes_of name, j).
Proof. intros Hn Hr. by exists name, l. Qed.

Lemma encodes_members h (ms : list (string * list Z)) fs :
  Forall2 (λ m f, f.1 = bytes_of m.1 ∧ utf8_valid m.1 = true ∧ encodes h m.2 f.2) ms fs → 0 <= h →
  encodes (h + 1) (object_lit ((λ m, (str_json m.1, m.2)) <$> ms)) (JObj fs).
Proof.
  intros Hl Hh. split.
  - apply object_lit_range. induction Hl as [|m f ms fs (_ & _ & [? _]) _ IH]; [constructor|].
    constructor; [|exact IH]. split; [apply quote_range, bytes_of_range|done].
  - apply reads_object; [|done]. induction Hl as [|m f ms fs (E & Hu & [_ ?]) _ IH]; [constructor|].
    constructor; [|exact IH]. split; [|done]. rewrite E.
    pose proof (reads_key_quote (bytes_of m.1) (bytes_of_range _)) as Hk. by rewrite sanitize_valid in Hk by by apply utf8_bytes_of.
Qed.

Lemma encodes_object h fs ms :
  Forall2 (encodes_field h) fs ms → 0 <= h → ∃ l, object_json fs = Some l ∧ encodes (h + 1) l (JObj ms).
Proof.
  intros Hf Hh.
  assert (∃ lits, mapM id fs = Some ((λ m : string * list Z, (str_json m.1, m.2)) <$> lits) ∧
    Forall2 (λ m f, f.1 = bytes_of m.1 ∧ utf8_valid m.1 = true ∧ encodes h m.2 f.2) lits ms) as (lits & E & Hl).
  { induction Hf as [|f m fs ms (name & l & -> & Em & Hu & Hm) _ (lits & E & IH)]; [by exists []|].
    exists ((name, l) :: lits). split; [simpl; by rewrite E|by constructor]. }
  unfold object_json. rewrite E. eexists. split; [reflexivity|]. by apply encodes_members.
Qed.

(** The text of an encoding and what is read from it. *)
Lemma encodes_text h l j : encodes h l j → h <= maxNestingDepth → parse (bytes_of (string_of l)) = Some j.
Proof. intros [Hb Hr] Hh. rewrite bytes_of_string_of by done. by eapply reads_parse. Qed.

(** *** Headers *)

Definition header_utf8 (h : Header) : Prop :=
  ∀ k vs, h !! k = Some vs → utf8_valid k = true ∧ Forall (λ v, utf8_valid v = true) vs.

Lemma encodes_strings l : Forall (λ v, utf8_valid v = true) l → encodes 1 (strings_json l) (JArr (JStr ∘ bytes_of <$> l)).
Proof.
  intros Hl. apply (encodes_array 0); [|done]. induction Hl as [|v l Hv _ IH]; [constructor|].
  constructor; [by apply encodes_utf8|exact IH].
Qed.

Lemma strings_value_strings l : strings_value (JArr (JStr ∘ bytes_of <$> l)) = Some l.
Proof.
  apply mapM_Some_2, Forall2_fmap_l, Forall_Forall2_diag, Forall_true. intros v. cbn. by rewrite string_of_bytes_of.
Qed.

Definition header_member (kv : string * list string) : list Z * json :=
  (bytes_of kv.1, JArr (JStr ∘ bytes_of <$> kv.2)).

Lemma members_value_header l (h : Header) :
  NoDup l.*1 → (∀ k, k ∈ l.*1 → h !! k = None) →
  members_value header_set (header_member <$> l) h = Some (list_to_map l ∪ h).
Proof.
  revert h. induction l as [|[k vs] l IH]; intros h Hnd Hh; [cbn; f_equal; symmetry; apply (left_id_L ∅ (∪))|].
  inversion_clear Hnd as [|? ? Hk Hnd'].
  change (header_member <$> (k, vs) :: l) with ((bytes_of k, JArr (JStr ∘ bytes_of <$> vs)) :: (header_member <$> l)).
  cbn [members_value].
  assert (header_set (bytes_of k) (JArr (JStr ∘ bytes_of <$> vs)) h = Some (<[k := vs]> h)) as ->.
  { unfold header_set. by rewrite strings_value_strings, string_of_bytes_of. }
  cbn [mbind option_bind]. rewrite IH; [|done|].
  - f_equal. cbn [list_to_map foldr uncurry curry fst snd]. rewrite <-insert_union_l. symmetry. apply insert_union_r.
    by apply not_elem_of_list_to_map_1.
  - intros k' Hk'. rewrite lookup_insert_ne by (by intros ->). apply Hh. by right.
Qed.

(** Headers of valid strings are read back as they were. *)
Lemma Unmarshal_header h : header_utf8 h → Unmarshal (header_text h) = Some h.
Proof.
  intros Hh. set (l := header_members h).
  assert (l ≡ₚ map_to_list h) as Hl by apply merge_sort_Permutation.
  assert (encodes 2 (header_json h) (JObj (header_member <$> l))) as He.
  { unfold header_json. fold l.
    replace ((λ kv, (str_json kv.1, strings_json kv.2)) <$> l)
      with ((λ m : string * list Z, (str_json m.1, m.2)) <$> ((λ kv, (kv.1, strings_json kv.2)) <$> l))
      by (by rewrite <-list_fmap_compose).
    apply (encodes_members 1); [|done]. rewrite Forall2_fmap. apply Forall_Forall2_diag. apply Forall_forall.
    intros [k vs] Hin. rewrite Hl in Hin. apply elem_of_map_to_list in Hin.
    destruct (Hh k vs Hin). split_and!; [done..|by apply encodes_strings]. }
  unfold Unmarshal, header_from_json, header_text. rewrite (encodes_text _ _ _ He) by done. cbn [mbind option_bind object_value].
  rewrite members_value_header.
  - rewrite (right_id_L ∅ (∪)). f_equal. rewrite (list_to_map_proper l (map_to_list h)); [apply list_to_map_to_list| |done].
    rewrite Hl. apply NoDup_fst_map_to_list.
  - rewrite Hl. apply NoDup_fst_map_to_list.
  - intros k _. apply lookup_empty.
Qed.

(** *** Providers *)

Section provider.
Context `{UuidLib, !UuidLibOk}.

Ltac compute_names :=
  repeat match goal with
         | |- context [named (bytes_of ?a) ?b] =>
           let v := eval vm_compute in (named (bytes_of a) b) in change (named (bytes_of a) b) with v
         end;
  cbv iota.

Lemma encodes_uuid u : encodes 0 (uuid_json u) (JStr (bytes_of (uuid_String u))).
Proof. apply encodes_utf8, uuid_String_utf8. Qed.

(** What a row of the table holds. *)
Record provider_text (p : Provider) : Prop := {
  pt_id : uuid_ok (p_ID p);
  pt_utf8 : forallb utf8_valid [p_Name p; p_SigningSecret p; p_DestinationURL p] = true;
  pt_retries : min_int64 <= p_MaxRetries p <= max_int64;
  pt_rate : min_int64 <= p_MaxReqSecond p <= max_int64;
}.

(** A provider that is serialised is read back as it was. *)
Lemma Unmarshal_provider p t : provider_text p → Marshal p = Ok t → Unmarshal t = Some p.
Proof.
  intros [Hid Hu Hr Hq]. cbn [forallb] in Hu. rewrite !andb_true_iff in Hu. destruct Hu as (Hn & Hs & Hd & _).
  unfold Marshal, provider_to_json. intros Hm.
  destruct (time_json (p_CreatedAt p)) as [tl|] eqn:Et; [|by unfold provider_json in Hm; rewrite Et in Hm].
  destruct (encodes_time _ _ Et) as (ts & Hts & Hparse).
  destruct (encodes_object 0
    [field "id" (Some (uuid_json (p_ID p)));
     field "name" (Some (str_json (p_Name p)));
     field "signing_secret" (Some (str_json (p_SigningSecret p)));
     field "destination_url" (Some (str_json (p_DestinationURL p)));
     field "max_retries" (Some (int_lit (p_MaxRetries p)));
     field "max_req_second" (Some (int_lit (p_MaxReqSecond p)));
     field "is_configured" (Some (bool_lit (p_IsConfigured p)));
     field "created_at" (Some tl)]
    [(bytes_of "id", JStr (bytes_of (uuid_String (p_ID p))));
     (bytes_of "name", JStr (bytes_of (p_Name p)));
     (bytes_of "signing_secret", JStr (bytes_of (p_SigningSecret p)));
     (bytes_of "destination_url", JStr (bytes_of (p_DestinationURL p)));
     (bytes_of "max_retries", JNum (int_lit (p_MaxRetries p)));
     (bytes_of "max_req_second", JNum (int_lit (p_MaxReqSecond p)));
     (bytes_of "is_configured", JBool (p_IsConfigured p));
     (bytes_of "created_at", JStr ts)]) as (l & El & Hl); [|done|].
  { repeat (constructor; [apply encodes_field_intro; [done|]|]); [..|constructor];
      auto using encodes_utf8, encodes_int, encodes_bool, encodes_uuid. }
  unfold provider_json in Hm. rewrite Et, El in Hm. injection Hm as <-.
  unfold Unmarshal, provider_from_json. rewrite (encodes_text _ _ _ Hl) by done. cbn [mbind option_bind object_value].
  clear El Hl l Et. destruct p as [id name sec des ret req conf crt].
  cbn [p_ID p_Name p_SigningSecret p_DestinationURL p_MaxRetries p_MaxReqSecond p_IsConfigured p_CreatedAt] in *.
  assert (uuid_value (JStr (bytes_of (uuid_String id))) 0 = Some id) as E1
    by (cbn; by rewrite string_of_bytes_of, uuid_Parse_String).
  assert (∀ s old, string_value (JStr (bytes_of s)) old = Some s) as E2 by (intros; cbn; by rewrite string_of_bytes_of).
  assert (∀ z old, min_int64 <= z <= max_int64 → int_value (JNum (int_lit z)) old = Some z) as E3
    by (intros; by apply Atoi_int_lit).
  cbn [members_value]. unfold provider_set, zero_provider. compute_names.
  rewrite E1. cbn [fmap option_fmap option_map mbind option_bind].
  do 3 (rewrite E2; cbn [fmap option_fmap option_map mbind option_bind]).
  do 2 (rewrite E3 by done; cbn [fmap option_fmap option_map mbind option_bind]).
  cbn [bool_value time_value fmap option_fmap option_map mbind option_bind]. by rewrite Hparse.
Qed.
End provider.

(** *** Batches of events *)

(** The value a reader of the batch finds: the fields by name, and the headers
    and the payload as the values their texts are. *)
Section webhook.
Context `{UuidLib}.

Definition time_text (t : Time) : option json := JStr <$> format_time t.
Definition text_value (s : string) : option json := Some (text_read s).
Definition number_value (z : Z) : option json := Some (JNum (int_lit z)).
Definition pointer_value {A} (f : A → option json) (o : option A) : option json :=
  match o with None => Some JNull | Some a => f a end.

Definition webhook_fields (w : Webhook) : list (string * option json) :=
  [("id", text_value (uuid_String (wh_ID w)));
   ("provider_id", text_value (uuid_String (wh_ProviderID w)));
   ("provider", text_value (wh_Provider w));
   ("event_id", pointer_value text_value (wh_EventID w));
   ("event_type", text_value (wh_EventType w));
   ("headers", parse (bytes_of (wh_Headers w)));
   ("payload", parse (bytes_of (wh_Payload w)));
   ("delivery_status", text_value (status_text (wh_DeliveryStatus w)));
   ("forwarded_to", text_value (wh_ForwardedTo w));
   ("response_code", pointer_value number_value (wh_ResponseCode w));
   ("retry_count", number_value (wh_RetryCount w));
   ("next_retry_at", pointer_value time_text (wh_NextRetryAt w));
   ("last_error", pointer_value text_value (wh_LastError w));
   ("received_at", time_text (wh_ReceivedAt w));
   ("updated_at", time_text (wh_UpdatedAt w));
   ("created_at", time_text (wh_CreatedAt w))]%string.

Definition named_value (f : string * option json) : option (list Z * json) := (bytes_of f.1,.) <$> f.2.
Definition webhook_value (w : Webhook) : option json := JObj <$> mapM named_value (webhook_fields w).
Definition batch_value (batch : list Webhook) : option json := JArr <$> mapM webhook_value batch.

(** An encoding that exists if and only if the value does. *)
Definition encodes_opt (h : Z) (l : option (list Z)) (j : option json) : Prop :=
  match l, j with Some l, Some j => encodes h l j | None, None => True | _, _ => False end.

Lemma encodes_opt_weaken h h' l j : h <= h' → encodes_opt h l j → encodes_opt h' l j.
Proof. intros Hh. destruct l, j; try done. by apply encodes_weaken. Qed.

Lemma encodes_opt_object h (fs : list (string * option (list Z))) (ms : list (string * option json)) :
  Forall2 (λ f m, f.1 = m.1 ∧ utf8_valid f.1 = true ∧ encodes_opt h f.2 m.2) fs ms → 0 <= h →
  encodes_opt (h + 1) (object_json ((λ f, field f.1 f.2) <$> fs)) (JObj <$> mapM named_value ms).
Proof.
  intros Hf Hh.
  assert (match mapM named_value ms with
          | Some vs => Forall2 (encodes_field h) ((λ f, field f.1 f.2) <$> fs) vs
          | None => mapM id ((λ f, field f.1 f.2) <$> fs) = None
          end) as Hm.
  { induction Hf as [|[n l] [n' j] fs ms (E & Hu & Ho) _ IH]; [by constructor|]. cbn [fst snd] in *. subst n'.
    change (mapM named_value ((n, j) :: ms)) with (y ← named_value (n, j); k ← mapM named_value ms; Some (y :: k)).
    change (mapM id ((λ f, field f.1 f.2) <$> (n, l) :: fs))
      with (y ← field n l; k ← mapM id ((λ f : string * option (list Z), field f.1 f.2) <$> fs); Some (y :: k)).
    destruct l as [l|], j as [j|]; try done. change (named_value (n, Some j)) with (Some (bytes_of n, j)).
    cbn [mbind option_bind].
    destruct (mapM named_value ms) as [vs|]; cbn [mbind option_bind].
    - constructor; [by apply encodes_field_intro|exact IH].
    - by rewrite IH. }
  destruct (mapM named_value ms) as [vs|].
  - destruct (encodes_object h _ _ Hm Hh) as (l & -> & Hl). exact Hl.
  - unfold object_json. by rewrite Hm.
Qed.

Lemma encodes_opt_str s : encodes_opt maxNestingDepth (Some (str_json s)) (text_value s).
Proof. apply (encodes_weaken 0); [done|]. apply encodes_str. Qed.

Lemma encodes_opt_int z : encodes_opt maxNestingDepth (Some (int_lit z)) (number_value z).
Proof. apply (encodes_weaken 0); [done|]. apply encodes_int. Qed.

Lemma encodes_opt_time t : encodes_opt maxNestingDepth (time_json t) (time_text t).
Proof.
  unfold time_json, time_text. destruct (format_time t) as [s|] eqn:E; [|done]. apply format_time_ascii in E.
  apply (encodes_weaken 0); [done|]. by apply encodes_ascii.
Qed.

Lemma encodes_opt_raw s : encodes_opt maxNestingDepth (raw_json s) (parse (bytes_of s)).
Proof.
  destruct (raw_json s) as [l|] eqn:E.
  - destruct (encodes_raw _ _ E) as (j & -> & Hj). exact Hj.
  - unfold raw_json, compact in E. by destruct (parse (bytes_of s)).
Qed.

Lemma encodes_opt_pointer {A} (f : A → option (list Z)) (g : A → option json) (o : option A) :
  (∀ a, o = Some a → encodes_opt maxNestingDepth (f a) (g a)) →
  encodes_opt maxNestingDepth (opt_json f o) (pointer_value g o).
Proof.
  intros Ho. destruct o as [a|]; [by apply Ho|]. apply (encodes_weaken 0); [done|]. apply encodes_null.
Qed.

Lemma encodes_webhook w : encodes_opt (maxNestingDepth + 1) (webhook_json w) (webhook_value w).
Proof.
  apply (encodes_opt_object maxNestingDepth
    [("id", Some (uuid_json (wh_ID w)));
     ("provider_id", Some (uuid_json (wh_ProviderID w)));
     ("provider", Some (str_json (wh_Provider w)));
     ("event_id", opt_json (Some ∘ str_json) (wh_EventID w));
     ("event_type", Some (str_json (wh_EventType w)));
     ("headers", raw_json (wh_Headers w));
     ("payload", raw_json (wh_Payload w));
     ("delivery_status", Some (str_json (status_text (wh_DeliveryStatus w))));
     ("forwarded_to", Some (str_json (wh_ForwardedTo w)));
     ("response_code", opt_json (Some ∘ int_lit) (wh_ResponseCode w));
     ("retry_count", Some (int_lit (wh_RetryCount w)));
     ("next_retry_at", opt_json time_json (wh_NextRetryAt w));
     ("last_error", opt_json (Some ∘ str_json) (wh_LastError w));
     ("received_at", time_json (wh_ReceivedAt w));
     ("updated_at", time_json (wh_UpdatedAt w));
     ("created_at", time_json (wh_CreatedAt w))]%string (webhook_fields w)); [|done].
  assert (∀ (n : string) l j, utf8_valid n = true → encodes_opt maxNestingDepth l j →
    (λ (f : string * option (list Z)) (m : string * option json),
      f.1 = m.1 ∧ utf8_valid f.1 = true ∧ encodes_opt maxNestingDepth f.2 m.2) (n, l) (n, j)) as Hi by done.
  unfold webhook_fields. repeat (constructor; [apply Hi; [done|]|]); [..|constructor];
    first [apply encodes_opt_str|apply encodes_opt_int|apply encodes_opt_time|apply encodes_opt_raw
          |apply encodes_opt_pointer; intros a _;
             first [apply encodes_opt_str|apply encodes_opt_int|apply encodes_opt_time]].
Qed.

Lemma encodes_batch batch : encodes_opt (maxNestingDepth + 2) (batch_json batch) (batch_value batch).
Proof.
  unfold batch_json, batch_value.
  assert (match mapM webhook_json batch, mapM webhook_value batch with
          | Some ls, Some js => Forall2 (encodes (maxNestingDepth + 1)) ls js
          | None, None => True
          | _, _ => False
          end) as Hm.
  { induction batch as [|w batch IH]; [constructor|]. pose proof (encodes_webhook w) as He.
    change (mapM webhook_json (w :: batch)) with (y ← webhook_json w; k ← mapM webhook_json batch; Some (y :: k)).
    change (mapM webhook_value (w :: batch)) with (y ← webhook_value w; k ← mapM webhook_value batch; Some (y :: k)).
    destruct (webhook_json w), (webhook_value w); try done. cbn [mbind option_bind].
    destruct (mapM webhook_json batch), (mapM webhook_value batch); try done. by constructor. }
  destruct (mapM webhook_json batch), (mapM webhook_value batch); try done.
  apply (encodes_array (maxNestingDepth + 1)); done.
Qed.

(** The text of a batch: one line, of the batch's value. *)
Lemma Marshal_batch batch t :
  Marshal batch = Ok t →
  ∃ j, batch_value batch = Some j ∧ visible (bytes_of t) ∧ (2 ≤ length (bytes_of t))%nat ∧
    reads (maxNestingDepth + 2) (bytes_of t) j.
Proof.
  unfold Marshal, batch_to_json. pose proof (encodes_batch batch) as He.
  assert (∀ l, batch_json batch = Some l → (2 ≤ length l)%nat) as Hlen.
  { unfold batch_json. destruct (mapM webhook_json batch); [|done]. intros ? [= <-]. unfold array_lit.
    cbn [length]. rewrite length_app. simpl. lia. }
  destruct (batch_json batch) as [l|]; [|done]. intros [= <-]. destruct (batch_value batch) as [j|]; [|done].
  destruct He as [Hb Hr]. exists j. rewrite bytes_of_string_of by done.
  split_and!; [done|apply Hr|by apply Hlen|done].
Qed.

(** A batch is written if and only if it has a value. *)
Lemma Marshal_batch_ok batch : (∃ t, Marshal batch = Ok t) ↔ batch_value batch ≠ None.
Proof.
  unfold Marshal, batch_to_json. pose proof (encodes_batch batch) as He.
  destruct (batch_json batch), (batch_value batch); try done; split; [done|by eauto|by intros [? ?]|done].
Qed.

End webhook.
