(* ===== verification/Helpers.v ===== *)
(** [internal/helpers/helpers.go]: the decoding of request bodies.  A body is
    read through [http.MaxBytesReader] by [json.Decoder.Decode], which finds
    the end of a value with the scanner and then fills a struct from it;
    [DecodeBodyJSON] turns each of its errors into a reply and asks for a
    second value to see that there is none. *)
From stdpp Require Import base tactics list gmap strings numbers pretty.
From Stdlib Require Import ZArith Lia.
From S2P Require Import Prelude GoStd Json Scanner GoTime Model Codecs.

Open Scope Z_scope.

(** ** Replies: the status and the bytes of the body.  [None] is a handler that
    panics. *)
Record Reply := mkReply { rp_status : Z; rp_body : string }.

Definition Json (rBody : string) : Reply := mkReply 200 rBody.
Definition http_Error (msg : string) (code : Z) : Reply := mkReply code (msg +:+ string_of [10]).
Definition header_only (code : Z) : Reply := mkReply code "".

(** The value a handler answers with, or [failed] if it cannot be encoded. *)
Definition reply `{ToJson A} (a : A) (failed : goerr → Reply) : option Reply :=
  match Marshal a with Ok rBody => Some (Json rBody) | Err err => Some (failed err) | Panic => None end.

(** ** [strconv.Quote], for the name of an unknown field

    Which runes beyond ASCII are printable is a table of package strconv. *)
Class Unicode := { IsPrint : Z → bool }.

Definition rune_of (seg : list Z) : Z :=
  match seg with
  | [a; b] => (a - 0xC0) * 64 + (b - 0x80)
  | [a; b; c] => ((a - 0xE0) * 64 + (b - 0x80)) * 64 + (c - 0x80)
  | [a; b; c; d] => (((a - 0xF0) * 64 + (b - 0x80)) * 64 + (c - 0x80)) * 64 + (d - 0x80)
  | _ => hd 0 seg
  end.

Definition hex_digits (n : nat) (z : Z) : list Z :=
  (λ i, hex_digit (Z.shiftr z (4 * Z.of_nat i) mod 16)) <$> reverse (seq 0 n).

Definition quote_ascii (b : Z) : list Z :=
  if (b =? 34) || (b =? 92) then [92; b]
  else if between 32 b 126 then [b]
  else if between 7 b 13 then [92; nth (Z.to_nat (b - 7)) [97; 98; 116; 110; 118; 102; 114] 0]
  else [92; 120] ++ hex_digits 2 b.

Definition quote_seg `{Unicode} (seg : list Z) : list Z :=
  match seg with
  | [b] => if b <? 0x80 then quote_ascii b else [92; 120] ++ hex_digits 2 b
  | _ =>
    let r := rune_of seg in
    if IsPrint r then seg
    else if r <? 0x10000 then [92; 117] ++ hex_digits 4 r else [92; 85] ++ hex_digits 8 r
  end.

Definition Quote `{Unicode} (s : list Z) : string :=
  string_of (34 :: mjoin (quote_seg <$> segments s) ++ [34]).

(** ** json.Decoder

    The errors [Decode] can return, as [DecodeBodyJSON] tells them apart. *)
Inductive DecodeError : Type :=
| SyntaxError (offset : Z)
| UnexpectedEOF
| UnmarshalTypeError (field : string) (offset : Z)
| UnknownField (key : list Z)
| EOF
| MaxBytesError (limit : Z)
| OtherDecodeError (msg : string).
#[export] Instance decode_error_dec : EqDecision DecodeError.
Proof. solve_decision. Defined.

(** What can be read of a body, and the error after it; bodies arrive whole. *)
Definition MaxBytesReader (limit : Z) (body : string) : list Z * DecodeError :=
  if limit <? len body then (take (Z.to_nat limit) (bytes_of body), MaxBytesError limit)
  else (bytes_of body, EOF).

Definition zlen (l : list Z) : Z := Z.of_nat (length l).

(** [readValue] where the reader ends with [err]: what follows the value, or the
    error. *)
Definition readValue (l : list Z) (err : DecodeError) : list Z + DecodeError :=
  match scan_all BeginValue [] l with
  | Complete rest => inl rest
  | Invalid rest => inr (SyntaxError (zlen l - zlen rest + 1))
  | Starved complete =>
    if decide (err = EOF)
    then if complete then inl [] else inr match skip_ws l with [] => EOF | _ => UnexpectedEOF end
    else inr err
  end.

(** A struct: its zero value, and for the name of a member the tag of its field
    and how a value is stored there, which fails for a value of another type. *)
Class Struct (A : Type) := {
  zero_struct : A;
  struct_field : list Z → option (string * (json → A → option A));
}.

(** The members of an object as [Json.members] reads them, each with the number
    of bytes that follow the place an error of its value names: the end of a
    literal, the opening bracket of an array or object. *)
Definition anchor (l rest : list Z) : Z :=
  match skip_ws l with b :: l' => if (b =? 91) || (b =? 123) then zlen l' else zlen rest | [] => 0 end.

Fixpoint spans (fuel : nat) (depth : Z) (l : list Z) : option (list (list Z * json * Z) * list Z) :=
  match fuel with
  | O => None
  | S fuel =>
    match skip_ws l with
    | b :: l =>
      if negb (b =? 34) then None else
      match str_lit l with
      | None => None
      | Some (k, l) =>
        match skip_ws l with
        | c :: l =>
          if negb (c =? 58) then None else
          match value fuel depth l with
          | None => None
          | Some (j, l') =>
            match skip_ws l' with
            | b :: rest =>
              if b =? 125 then Some ([(k, j, anchor l l')], rest)
              else if b =? 44 then
                match spans fuel depth rest with Some (ms, rest) => Some ((k, j, anchor l l') :: ms, rest) | None => None end
              else None
            | [] => None
            end
          end
        | [] => None
        end
      end
    | [] => None
    end
  end.

Definition object_spans (l : list Z) : list (list Z * json * Z) :=
  match skip_ws l with
  | _ :: l1 => match spans (pred (parse_fuel l)) 1 l1 with Some (ms, _) => ms | None => [] end
  | [] => []
  end.

(** ** The replies of DecodeBodyJSON *)

Record malformedRequest := mkMalformed { mr_Status : Z; mr_Message : string }.

(** [%q] of the name of a field, which needs no escapes. *)
Definition quoted (s : string) : string := string_of ([34] ++ bytes_of s ++ [34]).

Definition MaxBodyBytes : Z := 1048576.

Definition media_type (contentType : string) : string :=
  string_of (lower <$> bytes_of (TrimSpace (hd ""%string (Split contentType 59)))).

Definition malformed `{Unicode} (err : DecodeError) : malformedRequest :=
  match err with
  | SyntaxError offset =>
    mkMalformed 400 ("Request body contains badly-formed JSON (at position " +:+ pretty offset +:+ ")")
  | UnexpectedEOF => mkMalformed 400 "Request body contains badly-formed JSON"
  | UnmarshalTypeError field offset =>
    mkMalformed 400 ("Request body contains an invalid value for the " +:+ quoted field
                     +:+ " field (at position " +:+ pretty offset +:+ ")")
  | UnknownField key => mkMalformed 400 ("Request body contains unknown field " +:+ Quote key)
  | EOF => mkMalformed 400 "Request body must not be empty"
  | MaxBytesError limit =>
    mkMalformed 413 ("Request body must not be larger than " +:+ pretty limit +:+ " bytes")
  | OtherDecodeError msg => mkMalformed 400 msg
  end.


Section decode.
Context {A : Type} `{Struct A}.

(** [d.saveError]: the first error is the one reported. *)
Definition save (saved : option DecodeError) (e : DecodeError) : option DecodeError :=
  match saved with Some _ => saved | None => Some e end.

(** The members of an object of [n] bytes in all; [strict] is
    [DisallowUnknownFields]. *)
Fixpoint fill (strict : bool) (n : Z) (ms : list (list Z * json * Z)) (a : A) (saved : option DecodeError)
    : A * option DecodeError :=
  match ms with
  | [] => (a, saved)
  | (k, j, back) :: ms =>
    match struct_field k with
    | None => fill strict n ms a (if strict then save saved (UnknownField k) else saved)
    | Some (name, set) =>
      match set j a with
      | Some a => fill strict n ms a saved
      | None => fill strict n ms a (save saved (UnmarshalTypeError name (n - back)))
      end
    end
  end.

Definition unmarshal (strict : bool) (l : list Z) (j : json) (rest : list Z) : A * option DecodeError :=
  match j with
  | JNull => (zero_struct, None)
  | JObj _ => fill strict (zlen l) (object_spans l) zero_struct None
  | _ => (zero_struct, Some (UnmarshalTypeError "" (zlen l - anchor l rest)))
  end.

(** [Decode]: the struct and what follows the value.  A scanner out of step
    with the parser would panic. *)
Definition Decode (strict : bool) (l : list Z) (err : DecodeError) : res DecodeError (A * list Z) :=
  match readValue l err with
  | inr e => Err e
  | inl rest =>
    match value (parse_fuel l) 0 l with
    | None => Panic
    | Some (j, rest') =>
      match unmarshal strict l j rest' with
      | (a, None) => Ok (a, rest)
      | (_, Some e) => Err e
      end
    end
  end.

(** ** DecodeBodyJSON *)
Context `{Unicode}.

(** The second [Decode] is only asked whether it meets the end of the body. *)
Definition DecodeBodyJSON (contentType body : string) : res malformedRequest A :=
  if negb (bool_decide (contentType = ""%string))
     && negb (bool_decide (media_type contentType = "application/json"%string))
  then Err (mkMalformed 415 "Content-Type header is not application/json")
  else
    let '(l, err) := MaxBytesReader MaxBodyBytes body in
    match Decode true l err with
    | Panic => Panic
    | Err e => Err (malformed e)
    | Ok (a, rest) =>
      if decide (readValue rest err = inr EOF) then Ok a
      else Err (mkMalformed 400 "Request body must only contain a single JSON object")
    end.

(** ** What is accepted *)

Definition struct_set (strict : bool) (k : list Z) (j : json) (a : A) : option A :=
  match struct_field k with
  | None => if strict then None else Some a
  | Some (_, set) => set j a
  end.

Lemma fill_saved strict n ms a e : ∃ a', fill strict n ms a (Some e) = (a', Some e).
Proof.
  revert a. induction ms as [|[[k j] back] ms IH]; intros a; simpl; [by eexists|].
  destruct (struct_field k) as [[name set]|]; [destruct (set j a); apply IH|]. destruct strict; apply IH.
Qed.

(** A struct is filled without error exactly if each member in turn fits. *)
Lemma fill_members strict n ms a a' :
  fill strict n ms a None = (a', None) ↔ members_value (struct_set strict) (fst <$> ms) a = Some a'.
Proof.
  revert a. induction ms as [|[[k j] back] ms IH]; intros a; simpl; [split; by intros [= ->]|].
  assert (∀ e, fill strict n ms a (Some e) = (a', None) ↔ @None A = Some a') as Herr.
  { intros e. split; [|done]. destruct (fill_saved strict n ms a e) as [a2 ->]. done. }
  assert (struct_set strict k j a = match struct_field k with
    | None => if strict then None else Some a | Some (_, set) => set j a end) as -> by done.
  destruct (struct_field k) as [[name set]|]; [destruct (set j a)|destruct strict];
    cbn [mbind option_bind]; first [apply IH|apply Herr].
Qed.
End decode.

Lemma spans_members fuel depth l :
  members fuel depth l = match spans fuel depth l with Some (ms, rest) => Some (fst <$> ms, rest) | None => None end.
Proof.
  revert l. induction fuel as [|fuel IH]; intros l; [done|]. cbn [spans members].
  destruct (skip_ws l) as [|b l1]; [done|]. destruct (negb (b =? 34)); [done|].
  destruct (str_lit l1) as [[k l2]|]; [|done]. destruct (skip_ws l2) as [|c l3]; [done|].
  destruct (negb (c =? 58)); [done|]. destruct (value fuel depth l3) as [[j l4]|]; [|done].
  destruct (skip_ws l4) as [|d l5]; [done|]. destruct (d =? 125); [done|]. destruct (d =? 44); [|done].
  rewrite IH. by destruct (spans fuel depth l5) as [[ms rest]|].
Qed.

(** The spans of an object are its members. *)
Lemma object_spans_members l ms rest :
  value (parse_fuel l) 0 l = Some (JObj ms, rest) → fst <$> object_spans l = ms.
Proof.
  unfold object_spans, parse_fuel. cbn [value pred]. destruct (skip_ws l) as [|b l1]; [done|].
  destruct (b =? 34); [by case_match; [destruct (p)|]; intros|].
  destruct (b =? 91); [intros Hv; repeat (case_match; try done)|].
  destruct (b =? 123).
  - change (maxNestingDepth <=? 0) with false. cbv iota. rewrite bracket_125.
    rewrite spans_members. destruct (skip_ws l1) as [|c l2] eqn:Hs.
    + destruct (spans _ _ l1) as [[ms' r]|]; [|done]. by intros [= <- _].
    + destruct (Z.eqb_spec c 125) as [->|Hc].
      * intros [= <- _]. destruct (3 * length l)%nat; [done|]. cbn [spans]. by rewrite Hs.
      * destruct (spans _ _ l1) as [[ms' r]|]; [|done]. by intros [= <- _].
  - unfold literal. intros Hv. repeat (case_match; try done).
Qed.

(** [readValue] over a whole body: the reader's error shows only where the
    scanner has not seen the end of a value. *)
Lemma readValue_EOF l :
  match value (parse_fuel l) 0 l with
  | Some (_, rest) => readValue l EOF = inl rest
  | None => ∃ e, readValue l EOF = inr e ∧ (e = EOF → skip_ws l = [])
  end.
Proof.
  pose proof (value_scan l) as Hv. unfold readValue. destruct (value (parse_fuel l) 0 l) as [[j rest]|].
  - destruct Hv as [[->|[-> ->]] _]; [done|]. by rewrite decide_True.
  - destruct Hv as [->|[rest ->]]; [|by eexists].
    rewrite decide_True by done. eexists. split; [done|]. by destruct (skip_ws l).
Qed.

(** Only white space reads as the end of the body. *)
Lemma readValue_nothing l : readValue l EOF = inr EOF ↔ skip_ws l = [].
Proof.
  pose proof (readValue_EOF l) as Hv. split.
  - intros Hr. rewrite Hr in Hv. destruct (value (parse_fuel l) 0 l) as [[j rest]|]; [done|].
    destruct Hv as (e & [= <-] & He). by apply He.
  - intros Hs. unfold readValue. rewrite (run_skip _ _ _ (skips_value [])), Hs. cbn [scan_all scan_step]. cbn.
    by rewrite decide_True.
Qed.

(** A body over the limit is never accepted: after the limit comes an error. *)
Lemma readValue_MaxBytes l limit : readValue l (MaxBytesError limit) ≠ inr EOF.
Proof. unfold readValue. destruct (scan_all BeginValue [] l); [done..|]. by rewrite decide_False. Qed.

(** The decoder and the scanner never get out of step. *)
Lemma Decode_returns {A} `{Struct A} strict l err : Decode strict l err ≠ Panic.
Proof.
  unfold Decode, readValue. pose proof (value_scan l) as Hv.
  destruct (value (parse_fuel l) 0 l) as [[j rest]|].
  - destruct Hv as [[->|[-> ->]] _]; repeat (case_match; try done).
  - destruct Hv as [->|[rest ->]]; [|done]. by repeat (case_match; try done).
Qed.

(** The error of the reader is the only one about the size of the body. *)
Lemma readValue_size l err limit : readValue l err = inr (MaxBytesError limit) → err = MaxBytesError limit.
Proof.
  unfold readValue. destruct (scan_all BeginValue [] l) as [|rest|complete]; [done..|].
  case_decide; [destruct complete; [done|by destruct (skip_ws l)]|by intros [= ->]].
Qed.

Lemma fill_size {A} `{Struct A} strict n ms a saved a' limit :
  fill strict n ms a saved = (a', Some (MaxBytesError limit)) → saved = Some (MaxBytesError limit).
Proof.
  revert a saved. induction ms as [|[[k j] back] ms IH]; intros a saved; simpl; [by intros [= _ ->]|].
  destruct (struct_field k) as [[name set]|]; [destruct (set j a)|destruct strict]; intros Hf%IH; try done;
    unfold save in Hf; by destruct saved.
Qed.

Lemma Decode_MaxBytes {A} `{Struct A} strict l err limit :
  Decode (A := A) strict l err = Err (MaxBytesError limit) → err = MaxBytesError limit.
Proof.
  unfold Decode. destruct (readValue l err) as [rest|e] eqn:Hr; [|intros [= ->]; by eapply readValue_size].
  destruct (value _ 0 l) as [[j r]|]; [|done]. destruct (unmarshal strict l j r) as [a [e|]] eqn:Hu; [|done].
  intros [= ->]. exfalso. unfold unmarshal in Hu. destruct j; try done. by apply fill_size in Hu.
Qed.

(** A decoded struct is what its members make of the zero value. *)
Lemma unmarshal_Ok {A} `{Struct A} strict l j rest a :
  value (parse_fuel l) 0 l = Some (j, rest) →
  unmarshal strict l j rest = (a, None) ↔ object_value (struct_set strict) zero_struct j = Some a.
Proof.
  intros Hv. destruct j as [|b|lit|s|js|ms]; simpl; try done.
  - split; by intros [= ->].
  - rewrite fill_members. by rewrite (object_spans_members _ _ _ Hv).
Qed.

Lemma Decode_EOF {A} `{Struct A} strict l a rest :
  Decode strict l EOF = Ok (a, rest) ↔
  ∃ j, value (parse_fuel l) 0 l = Some (j, rest) ∧ object_value (struct_set strict) zero_struct j = Some a.
Proof.
  unfold Decode. pose proof (readValue_EOF l) as Hr. destruct (value (parse_fuel l) 0 l) as [[j r]|] eqn:Hv.
  - rewrite Hr. pose proof (unmarshal_Ok strict l j r) as Hu. destruct (unmarshal strict l j r) as [a' [e|]] eqn:E.
    + split; [done|]. intros (j' & [= <- <-] & Ho). by apply (Hu a) in Ho.
    + split.
      * intros [= <- <-]. exists j. split; [done|]. by apply Hu.
      * intros (j' & [= <- <-] & Ho). apply (Hu a) in Ho; [|done]. by injection Ho as ->.
  - destruct Hr as (e & -> & _). split; [done|]. by intros (j & ? & _).
Qed.

(** [DecodeBodyJSON] accepts exactly the bodies, declared as JSON or not at all,
    that are within the limit, parse as one value and fit the struct. *)
Lemma DecodeBodyJSON_Ok {A} `{Struct A, Unicode} contentType body a :
  DecodeBodyJSON contentType body = Ok a ↔
  (contentType = ""%string ∨ media_type contentType = "application/json"%string) ∧
  len body <= MaxBodyBytes ∧
  ∃ j, parse (bytes_of body) = Some j ∧ object_value (struct_set true) zero_struct j = Some a.
Proof.
  unfold DecodeBodyJSON. destruct (negb _ && negb _) eqn:Hct.
  { split; [done|]. intros [Hc _]. apply andb_true_iff in Hct as [H1 H2].
    apply negb_true_iff, bool_decide_eq_false in H1, H2. tauto. }
  assert (contentType = ""%string ∨ media_type contentType = "application/json"%string) as Hc.
  { apply andb_false_iff in Hct as [H1|H1]; apply negb_false_iff, bool_decide_eq_true in H1; tauto. }
  clear Hct.
  unfold MaxBytesReader. destruct (Z.ltb_spec MaxBodyBytes (len body)) as [Hl|Hl].
  { split; [|lia]. destruct (Decode _ _ _) as [[a' rest]|e|]; [|done..].
    rewrite decide_False; [done|apply readValue_MaxBytes]. }
  set (l := bytes_of body). transitivity (∃ rest, Decode true l EOF = Ok (a, rest) ∧ skip_ws rest = []).
  - destruct (Decode true l EOF) as [[a' rest]|e|].
    + case_decide as Hd; rewrite readValue_nothing in Hd; (split; [|intros (r & [= -> ->] & Hr)]); try done.
      intros [= ->]. by exists rest.
    + split; [done|]. by intros (? & ? & _).
    + split; [done|]. by intros (? & ? & _).
  - unfold parse, parse_at. split.
    + intros (rest & (j & Hv & Ho)%Decode_EOF & Hr). split_and!; [done..|]. exists j. by rewrite Hv, Hr.
    + intros (_ & _ & j & Hp & Ho). destruct (value (parse_fuel l) 0 l) as [[j' rest]|] eqn:Hv; [|done].
      destruct (skip_ws rest) eqn:Hr; [|done]. injection Hp as ->. exists rest. split; [|done].
      apply Decode_EOF. by exists j.
Qed.

Lemma DecodeBodyJSON_returns {A} `{Struct A, Unicode} contentType body : DecodeBodyJSON contentType body ≠ Panic.
Proof.
  unfold DecodeBodyJSON. destruct (negb _ && negb _); [done|]. destruct (MaxBytesReader _ _) as [l err].
  pose proof (Decode_returns true l err). destruct (Decode true l err) as [[a rest]|e|]; [|done..].
  by destruct (decide (readValue rest err = inr EOF)).
Qed.

(** A refusal: 415 for another content type and nothing else, 413 only over
    the limit. *)
Lemma DecodeBodyJSON_Err {A} `{Struct A, Unicode} contentType body err :
  DecodeBodyJSON (A := A) contentType body = Err err →
  (mr_Status err = 415 ↔ ¬ (contentType = ""%string ∨ media_type contentType = "application/json"%string)) ∧
  mr_Status err ∈ [400; 413; 415] ∧ (mr_Status err = 413 → MaxBodyBytes < len body).
Proof.
  unfold DecodeBodyJSON. destruct (negb _ && negb _) eqn:Hct.
  { apply andb_true_iff in Hct as [H1 H2]. apply negb_true_iff, bool_decide_eq_false in H1, H2.
    intros [= <-]. cbn [mr_Status]. split_and!; [tauto|set_solver|done]. }
  assert (contentType = ""%string ∨ media_type contentType = "application/json"%string) as Hc.
  { apply andb_false_iff in Hct as [H1|H1]; apply negb_false_iff, bool_decide_eq_true in H1; tauto. }
  clear Hct. destruct (MaxBytesReader MaxBodyBytes body) as [l e] eqn:Hm.
  assert (∀ m, m = err → (mr_Status m = 400 ∨ mr_Status m = 413 ∧ MaxBodyBytes < len body) →
    (mr_Status err = 415 ↔ ¬ (contentType = ""%string ∨ media_type contentType = "application/json"%string)) ∧
    mr_Status err ∈ [400; 413; 415] ∧ (mr_Status err = 413 → MaxBodyBytes < len body)) as Hdone.
  { intros m <- [Hs|[Hs Hl]]; rewrite Hs; (split_and!; [split; [done|tauto]|set_solver|done]). }
  destruct (Decode true l e) as [[a rest]|d|] eqn:Hd; [|intros [= Hr]|done].
  - destruct (decide _); [done|]. intros [= Hr]. by eapply Hdone; [exact Hr|left].
  - eapply Hdone; [exact Hr|]. destruct d; try (by left). right. split; [done|].
    apply Decode_MaxBytes in Hd as ->. unfold MaxBytesReader in Hm.
    destruct (Z.ltb_spec MaxBodyBytes (len body)); [done|]. congruence.
Qed.
