(* ===== verification/World.v ===== *)
(** The state the components share and the outside world they call.

    [World] holds the PostgreSQL tables (schema of [migrations/]), the Redis
    data, the SSE hub, the worker signal channel, the requests sent to
    destinations, the process configuration, a clock and a script of what
    the outside world does next.  Every call to PostgreSQL, Redis, a
    destination or the random source consumes one [EnvStep] of that script:
    how much time passes, whether the call fails, and what it yields.  A
    theorem about all worlds is therefore a theorem about every pattern of
    failures and delays. *)
From stdpp Require Import base tactics list gmap strings numbers.
From Stdlib Require Import ZArith Lia.
From S2P Require Import Prelude GoStd Model Codecs.

Open Scope Z_scope.

(** ** Configuration, [internal/config/envs.go] *)
Record Config := mkConfig {
  DBType : string;
  DBUser : string;
  DBPassword : string;
  DBHost : string;
  DBPort : Z;
  DBName : string;
  RedisURL : string;
  UserEmail : string;
  UserPassword : string;
  LogLevel : Z;
  JWTSecret : string;
  MasterKey : string;
  IsDevelopment : bool;
}.

(** ** HTTP messages exchanged with a destination *)
Record Request := mkRequest { q_url : string; q_payload : string; q_header : Header }.
Record Response := mkResp { StatusCode : Z; Status : string; RetryAfter : string }.

(** ** What the outside world does at one call *)
Record EnvStep := mkStep {
  es_dt : N;                       (* nanoseconds that pass *)
  es_fault : option goerr;         (* the error the call returns, if it fails *)
  es_resp : Response;              (* the response of a destination *)
  es_uuid : UUID;                  (* gen_random_uuid() *)
  es_rand : string;                (* bytes of crypto/rand *)
  es_locked : gset UUID;           (* rows locked by concurrent transactions *)
}.

Definition quiet : EnvStep := mkStep 0 None (mkResp 200 "200 OK" "") 0 "" ∅.

(** ** Tables *)
Record RefreshRow := mkRefresh { rt_id : UUID; rt_expires : Time; rt_created : Time }.

Record DB := mkDB {
  providers : gmap UUID Provider;
  webhook_events : gmap UUID Webhook;
  refresh_tokens : gmap string RefreshRow;
}.

Definition set_events (f : gmap UUID Webhook → gmap UUID Webhook) (db : DB) : DB :=
  mkDB (providers db) (f (webhook_events db)) (refresh_tokens db).
Definition set_providers (f : gmap UUID Provider → gmap UUID Provider) (db : DB) : DB :=
  mkDB (f (providers db)) (webhook_events db) (refresh_tokens db).
Definition set_tokens (f : gmap string RefreshRow → gmap string RefreshRow) (db : DB) : DB :=
  mkDB (providers db) (webhook_events db) (f (refresh_tokens db)).

(** Timestamps are stored with microsecond resolution. *)
Definition pg_time (t : Time) : Time := t / 1000 * 1000.

Lemma pg_time_le t : pg_time t <= t.
Proof. unfold pg_time. pose proof (Z.mul_div_le t 1000 ltac:(lia)). lia. Qed.

Lemma pg_time_mono t u : t <= u → pg_time t <= pg_time u.
Proof. unfold pg_time. intros. pose proof (Z.div_le_mono t u 1000). lia. Qed.

(** ** Redis: the key-value pairs and the hashes of the rate limiter.

    A bucket's level and its time of the last leak, in seconds, are doubles, in
    units of 2^-1074; when it expires is in milliseconds of the server's clock. *)
Record Bucket := mkBucket { b_level : Z; b_last_leak : Z; b_expires : Z }.
Record Redis := mkRedis { kv : gmap string string; buckets : gmap string Bucket }.

(** ** The SSE hub, the fields of [events.Service] *)
Record Hub := mkHub {
  buffer : list Webhook;
  broadcast : list Webhook;                   (* the channel's queue *)
  subscribers : gmap nat (list (list Webhook)); (* each channel's queue *)
  closed : gset nat;                          (* closed channels *)
  next_chan : nat;
  dropped : Z;
}.

Record World := mkWorld {
  w_now : Time;
  w_env : list EnvStep;
  w_cfg : Config;
  w_db : DB;
  w_redis : Redis;
  w_limiter : bool;       (* limiter.rdb is set *)
  w_batch : Z * Z;        (* QueueWorkerBatch, RetryWorkerBatch *)
  w_hub : Hub;
  w_signal : nat;         (* tokens in Pool.signal *)
  w_sent : list Request;  (* requests sent to destinations, oldest first *)
}.

Definition set_db (f : DB → DB) (w : World) : World :=
  mkWorld (w_now w) (w_env w) (w_cfg w) (f (w_db w)) (w_redis w) (w_limiter w) (w_batch w) (w_hub w) (w_signal w) (w_sent w).
Definition set_redis (f : Redis → Redis) (w : World) : World :=
  mkWorld (w_now w) (w_env w) (w_cfg w) (w_db w) (f (w_redis w)) (w_limiter w) (w_batch w) (w_hub w) (w_signal w) (w_sent w).
Definition set_hub (f : Hub → Hub) (w : World) : World :=
  mkWorld (w_now w) (w_env w) (w_cfg w) (w_db w) (w_redis w) (w_limiter w) (w_batch w) (f (w_hub w)) (w_signal w) (w_sent w).
Definition set_signal (f : nat → nat) (w : World) : World :=
  mkWorld (w_now w) (w_env w) (w_cfg w) (w_db w) (w_redis w) (w_limiter w) (w_batch w) (w_hub w) (f (w_signal w)) (w_sent w).
Definition set_sent (f : list Request → list Request) (w : World) : World :=
  mkWorld (w_now w) (w_env w) (w_cfg w) (w_db w) (w_redis w) (w_limiter w) (w_batch w) (w_hub w) (w_signal w) (f (w_sent w)).
Definition set_batch (f : Z * Z → Z * Z) (w : World) : World :=
  mkWorld (w_now w) (w_env w) (w_cfg w) (w_db w) (w_redis w) (w_limiter w) (f (w_batch w)) (w_hub w) (w_signal w) (w_sent w).
Definition set_env (f : list EnvStep → list EnvStep) (w : World) : World :=
  mkWorld (w_now w) (f (w_env w)) (w_cfg w) (w_db w) (w_redis w) (w_limiter w) (w_batch w) (w_hub w) (w_signal w) (w_sent w).
Definition set_limiter (f : bool → bool) (w : World) : World :=
  mkWorld (w_now w) (w_env w) (w_cfg w) (w_db w) (w_redis w) (f (w_limiter w)) (w_batch w) (w_hub w) (w_signal w) (w_sent w).
Definition set_cfg (f : Config → Config) (w : World) : World :=
  mkWorld (w_now w) (w_env w) (f (w_cfg w)) (w_db w) (w_redis w) (w_limiter w) (w_batch w) (w_hub w) (w_signal w) (w_sent w).
Definition advance (e : EnvStep) (es : list EnvStep) (w : World) : World :=
  mkWorld (w_now w + Z.of_N (es_dt e)) es (w_cfg w) (w_db w) (w_redis w) (w_limiter w) (w_batch w) (w_hub w) (w_signal w) (w_sent w).

(** Time that passes while nothing happens. *)
Definition pass (d : N) (w : World) : World :=
  mkWorld (w_now w + Z.of_N d) (w_env w) (w_cfg w) (w_db w) (w_redis w) (w_limiter w) (w_batch w) (w_hub w) (w_signal w) (w_sent w).

Abbreviation M A := (ST World A).

(** ** Calls to the outside world *)

Definition ext : M EnvStep := λ w,
  match w_env w with
  | [] => (quiet, w)
  | e :: es => (e, advance e es w)
  end.

(** [time.Now()] *)
Definition time_Now : M Time := st_gets w_now.

(** One SQL statement: it fails and changes nothing, or runs atomically. *)
Definition db_stmt {A} (f : EnvStep → Time → DB → result A * DB) : M (result A) := λ w,
  let '(e, w1) := ext w in
  match es_fault e with
  | Some err => (Err err, w1)
  | None => let '(r, db') := f e (w_now w1) (w_db w1) in (r, set_db (λ _, db') w1)
  end.

(** One Redis command or script. *)
Definition redis_cmd {A} (f : Time → Redis → result A * Redis) : M (result A) := λ w,
  let '(e, w1) := ext w in
  match es_fault e with
  | Some err => (Err err, w1)
  | None => let '(r, rd') := f (w_now w1) (w_redis w1) in (r, set_redis (λ _, rd') w1)
  end.

(** ** What a call leaves unchanged *)

Lemma ext_db w : w_db (ext w).2 = w_db w.
Proof. unfold ext. by destruct (w_env w). Qed.
Lemma ext_redis w : w_redis (ext w).2 = w_redis w.
Proof. unfold ext. by destruct (w_env w). Qed.
Lemma ext_hub w : w_hub (ext w).2 = w_hub w.
Proof. unfold ext. by destruct (w_env w). Qed.
Lemma ext_signal w : w_signal (ext w).2 = w_signal w.
Proof. unfold ext. by destruct (w_env w). Qed.
Lemma ext_sent w : w_sent (ext w).2 = w_sent w.
Proof. unfold ext. by destruct (w_env w). Qed.
Lemma ext_cfg w : w_cfg (ext w).2 = w_cfg w.
Proof. unfold ext. by destruct (w_env w). Qed.
Lemma ext_batch w : w_batch (ext w).2 = w_batch w.
Proof. unfold ext. by destruct (w_env w). Qed.
Lemma ext_limiter w : w_limiter (ext w).2 = w_limiter w.
Proof. unfold ext. by destruct (w_env w). Qed.
Lemma ext_now w : w_now w <= w_now (ext w).2.
Proof. unfold ext. destruct (w_env w); simpl; lia. Qed.

#[export] Hint Rewrite ext_db ext_redis ext_hub ext_signal ext_sent ext_cfg ext_batch ext_limiter : world.

(** The two outcomes of a statement. *)
Lemma db_stmt_cases {A} (f : EnvStep → Time → DB → result A * DB) w :
  (∃ err, db_stmt f w = (Err err, (ext w).2)) ∨
  (∃ e now, w_now w <= now ∧
     db_stmt f w = ((f e now (w_db w)).1, set_db (λ _, (f e now (w_db w)).2) (ext w).2)).
Proof.
  unfold db_stmt. destruct (ext w) as [e w1] eqn:E.
  destruct (es_fault e); [by eauto|]. right. exists e, (w_now w1).
  simpl. replace (w_db w1) with (w_db w) by (by rewrite <-(ext_db w), E).
  pose proof (ext_now w) as Hn. rewrite E in Hn. simpl in Hn.
  by destruct (f e (w_now w1) (w_db w)).
Qed.

Lemma redis_cmd_cases {A} (f : Time → Redis → result A * Redis) w :
  (∃ err, redis_cmd f w = (Err err, (ext w).2)) ∨
  (∃ now, w_now w <= now ∧
     redis_cmd f w = ((f now (w_redis w)).1, set_redis (λ _, (f now (w_redis w)).2) (ext w).2)).
Proof.
  unfold redis_cmd. destruct (ext w) as [e w1] eqn:E.
  destruct (es_fault e); [by eauto|]. right. exists (w_now w1).
  simpl. replace (w_redis w1) with (w_redis w) by (by rewrite <-(ext_redis w), E).
  pose proof (ext_now w) as Hn. rewrite E in Hn. simpl in Hn.
  by destruct (f (w_now w1) (w_redis w)).
Qed.

(** ** Worlds in which no call fails *)
Definition reliable (w : World) : Prop := Forall (λ e, es_fault e = None) (w_env w).

Lemma reliable_ext w : reliable w → reliable (ext w).2 ∧ es_fault (ext w).1 = None.
Proof.
  unfold reliable, ext. intros Hw. destruct (w_env w) as [|e es] eqn:E; simpl; [by rewrite E|].
  by inversion Hw.
Qed.

Lemma reliable_set_db f w : reliable (set_db f w) ↔ reliable w.
Proof. done. Qed.
Lemma reliable_set_redis f w : reliable (set_redis f w) ↔ reliable w.
Proof. done. Qed.
Lemma reliable_set_hub f w : reliable (set_hub f w) ↔ reliable w.
Proof. done. Qed.

Lemma db_stmt_reliable {A} (f : EnvStep → Time → DB → result A * DB) w :
  reliable w →
  db_stmt f w = ((f (ext w).1 (w_now (ext w).2) (w_db w)).1,
                 set_db (λ _, (f (ext w).1 (w_now (ext w).2) (w_db w)).2) (ext w).2).
Proof.
  intros Hw. destruct (reliable_ext w Hw) as [_ Hf]. unfold db_stmt.
  rewrite <-(ext_db w). destruct (ext w) as [e w1]. simpl in *. rewrite Hf.
  by destruct (f e (w_now w1) (w_db w1)).
Qed.

Lemma redis_cmd_reliable {A} (f : Time → Redis → result A * Redis) w :
  reliable w →
  redis_cmd f w = ((f (w_now (ext w).2) (w_redis w)).1,
                   set_redis (λ _, (f (w_now (ext w).2) (w_redis w)).2) (ext w).2).
Proof.
  intros Hw. destruct (reliable_ext w Hw) as [_ Hf]. unfold redis_cmd.
  rewrite <-(ext_redis w). destruct (ext w) as [e w1]. simpl in *. rewrite Hf.
  by destruct (f (w_now w1) (w_redis w1)).
Qed.

(** ** Computations that only read

    [same_state w w']: at most the clock and the script have moved. *)
Record same_state (w w' : World) : Prop := {
  same_db : w_db w' = w_db w;
  same_redis : w_redis w' = w_redis w;
  same_cfg : w_cfg w' = w_cfg w;
  same_limiter : w_limiter w' = w_limiter w;
  same_batch : w_batch w' = w_batch w;
  same_hub : w_hub w' = w_hub w;
  same_signal : w_signal w' = w_signal w;
  same_sent : w_sent w' = w_sent w;
  same_now : w_now w <= w_now w';
  same_env : w_env w' `suffix_of` w_env w;
}.

#[export] Instance same_state_preorder : PreOrder same_state.
Proof.
  split.
  - intros w. by split.
  - intros w1 w2 w3 [] []. split; solve [congruence|lia|by etrans].
Qed.

Lemma suffix_ext w : w_env (ext w).2 `suffix_of` w_env w.
Proof. unfold ext. destruct (w_env w) as [|e es] eqn:E; simpl; [by rewrite E|]. by apply suffix_cons_r. Qed.

Definition read_only {A} (m : M A) : Prop := ∀ w, same_state w (m w).2.

Lemma read_only_ret {A} (a : A) : read_only (st_ret a).
Proof. intros w. reflexivity. Qed.
Lemma read_only_gets {A} (f : World → A) : read_only (st_gets f).
Proof. intros w. reflexivity. Qed.
Lemma read_only_bind {A B} (m : M A) (k : A → M B) :
  read_only m → (∀ a, read_only (k a)) → read_only (st_bind m k).
Proof. intros Hm Hk w. rewrite st_bind_run. etrans; [apply Hm|apply Hk]. Qed.
Lemma read_only_bind_res {A B} (m : M (result A)) (k : A → M (result B)) :
  read_only m → (∀ a, read_only (k a)) → read_only (st_bind_res m k).
Proof.
  intros Hm Hk. apply read_only_bind; [done|]. intros [a|e|]; auto using read_only_ret.
Qed.
Lemma read_only_ext : read_only ext.
Proof. intros w. split; autorewrite with world; try done; [apply ext_now|apply suffix_ext]. Qed.
Lemma read_only_db_stmt {A} (f : EnvStep → Time → DB → result A * DB) :
  (∀ e now db, (f e now db).2 = db) → read_only (db_stmt f).
Proof.
  intros Hf w. destruct (db_stmt_cases f w) as [(err & ->)|(e & now & _ & ->)]; simpl.
  - apply read_only_ext.
  - rewrite Hf. etrans; [apply read_only_ext|]. split; simpl; autorewrite with world; done.
Qed.
Lemma read_only_redis_cmd {A} (f : Time → Redis → result A * Redis) :
  (∀ now rd, (f now rd).2 = rd) → read_only (redis_cmd f).
Proof.
  intros Hf w. destruct (redis_cmd_cases f w) as [(err & ->)|(now & _ & ->)]; simpl.
  - apply read_only_ext.
  - rewrite Hf. etrans; [apply read_only_ext|]. split; simpl; autorewrite with world; done.
Qed.
Lemma read_only_if {A} (b : bool) (m n : M A) : read_only m → read_only n → read_only (if b then m else n).
Proof. by destruct b. Qed.

#[export] Hint Resolve read_only_ret read_only_gets read_only_bind read_only_bind_res read_only_ext
  read_only_db_stmt read_only_redis_cmd read_only_if : world.

(** A property of every step that is left holds of the steps left later. *)
Lemma same_state_env (P : EnvStep → Prop) w w' : same_state w w' → Forall P (w_env w) → Forall P (w_env w').
Proof. intros Hs. destruct (same_env _ _ Hs) as [h ->]. by intros [_ ?]%Forall_app. Qed.

Lemma same_state_reliable w w' : same_state w w' → reliable w → reliable w'.
Proof. apply same_state_env. Qed.

(** ** Computations that keep a property of the tables and the cached values *)
Abbreviation KV := (gmap string string).

Definition keeps (I : DB → KV → Prop) {A} (m : M A) : Prop :=
  ∀ w, I (w_db w) (kv (w_redis w)) → I (w_db (m w).2) (kv (w_redis (m w).2)).

Lemma keeps_same I {A} (m : M A) :
  (∀ w, w_db (m w).2 = w_db w ∧ kv (w_redis (m w).2) = kv (w_redis w)) → keeps I m.
Proof. intros Hm w Hw. destruct (Hm w) as [-> ->]. exact Hw. Qed.
Lemma keeps_read_only I {A} (m : M A) : read_only m → keeps I m.
Proof. intros Hm. apply keeps_same. intros w. by rewrite (same_db _ _ (Hm w)), (same_redis _ _ (Hm w)). Qed.
Lemma keeps_bind I {A B} (m : M A) (k : A → M B) : keeps I m → (∀ a, keeps I (k a)) → keeps I (st_bind m k).
Proof. intros Hm Hk w Hw. rewrite st_bind_run. by apply Hk, Hm. Qed.
Lemma keeps_bind_res I {A B} (m : M (result A)) (k : A → M (result B)) :
  keeps I m → (∀ a, keeps I (k a)) → keeps I (st_bind_res m k).
Proof. intros Hm Hk. apply keeps_bind; [done|]. intros [a|e|]; [done|by intros w..]. Qed.
Lemma keeps_db_stmt I {A} (f : EnvStep → Time → DB → result A * DB) :
  (∀ e now db c, I db c → I (f e now db).2 c) → keeps I (db_stmt f).
Proof.
  intros Hf w Hw. destruct (db_stmt_cases f w) as [(err & ->)|(e & now & _ & ->)]; simpl; rewrite ?ext_db, ext_redis; auto.
Qed.
Lemma keeps_redis_cmd I {A} (f : Time → Redis → result A * Redis) :
  (∀ now rd, kv (f now rd).2 = kv rd) → keeps I (redis_cmd f).
Proof.
  intros Hf w Hw. destruct (redis_cmd_cases f w) as [(err & ->)|(now & _ & ->)]; simpl; by rewrite ext_db, ?Hf, ?ext_redis.
Qed.
Lemma keeps_modify I (f : World → World) :
  (∀ w, w_db (f w) = w_db w ∧ w_redis (f w) = w_redis w) → keeps I (st_modify f).
Proof. intros Hf. apply keeps_same. intros w. simpl. by destruct (Hf w) as [-> ->]. Qed.

(** Runs the case analysis on the next call of a computation. *)
Ltac step_db :=
  match goal with
  | |- context [db_stmt ?f ?w] =>
    let err := fresh "err" in let e := fresh "e" in let now := fresh "now" in
    let Hnow := fresh "Hnow" in let E := fresh "E" in
    destruct (db_stmt_cases f w) as [(err & E)|(e & now & Hnow & E)]; rewrite E; clear E
  end.
Ltac step_redis :=
  match goal with
  | |- context [redis_cmd ?f ?w] =>
    let err := fresh "err" in let now := fresh "now" in
    let Hnow := fresh "Hnow" in let E := fresh "E" in
    destruct (redis_cmd_cases f w) as [(err & E)|(now & Hnow & E)]; rewrite E; clear E
  end.
