(* ===== verification/Schema.v ===== *)
(** The SQL fragment the repositories use on the tables of [migrations/]:
    [UPDATE ... WHERE] with the [updated_at] trigger, [DELETE ... WHERE],
    ordered selection, and the constraints the schema enforces. *)
From stdpp Require Import base tactics list gmap strings numbers.
From Stdlib Require Import ZArith Lia.
From S2P Require Import Prelude GoStd GoCrypto Model Codecs World.

Open Scope Z_scope.

(** Behaviour of the database server the statements rely on: the text of a
    JSONB value after input ([None] is an input error) and the [ILIKE]
    operator of [payload::text ILIKE '%' || pattern || '%']. *)
Class Postgres := {
  jsonb_in : string → option string;
  ilike : string → string → bool;
}.

(** The text a JSONB column returns is the text of the same value. *)
Class PostgresOk `{Postgres} : Prop := {
  jsonb_idem : ∀ s t, jsonb_in s = Some t → jsonb_in t = Some t
}.

(** The text parameters the server accepts in a UTF-8 database: valid UTF-8
    without NUL. *)
Definition text_ok (s : string) : bool := utf8_valid s && forallb (λ b, negb (b =? 0)) (bytes_of s).
Definition ErrEncoding : goerr := PgError "invalid byte sequence for encoding UTF8".

(** The values an INT column holds. *)
Definition int4_ok (n : Z) : bool := (-2147483648 <=? n) && (n <=? max_int32).

(** ** Rows *)

Definition set_status (s : DeliveryStatus) (w : Webhook) : Webhook :=
  mkWebhook (wh_ID w) (wh_ProviderID w) (wh_Provider w) (wh_EventID w) (wh_EventType w)
    (wh_Headers w) (wh_Payload w) s (wh_ForwardedTo w) (wh_ResponseCode w) (wh_RetryCount w)
    (wh_NextRetryAt w) (wh_LastError w) (wh_ReceivedAt w) (wh_UpdatedAt w) (wh_CreatedAt w).

(** The trigger [trigger_set_updated_at]. *)
Definition set_updated_at (now : Time) (w : Webhook) : Webhook :=
  mkWebhook (wh_ID w) (wh_ProviderID w) (wh_Provider w) (wh_EventID w) (wh_EventType w)
    (wh_Headers w) (wh_Payload w) (wh_DeliveryStatus w) (wh_ForwardedTo w) (wh_ResponseCode w)
    (wh_RetryCount w) (wh_NextRetryAt w) (wh_LastError w) (wh_ReceivedAt w) (pg_time now)
    (wh_CreatedAt w).

(** What a delivery attempt may never change of a row. *)
Definition identity (w : Webhook) :=
  (wh_ID w, wh_ProviderID w, wh_Provider w, wh_EventID w, wh_EventType w,
   wh_Headers w, wh_Payload w, (wh_ReceivedAt w, wh_CreatedAt w)).

Definition keeps_identity (f : Webhook → Webhook) : Prop :=
  ∀ w, identity (f w) = identity w.

Lemma keeps_identity_status s : keeps_identity (set_status s).
Proof. done. Qed.
Lemma keeps_identity_updated now : keeps_identity (set_updated_at now).
Proof. done. Qed.
#[export] Hint Resolve keeps_identity_status keeps_identity_updated : vault.

(** ** Statements *)

(** [UPDATE webhook_events SET f WHERE P] *)
Definition sql_update (P : Webhook → bool) (f : Webhook → Webhook) (now : Time)
    (m : gmap UUID Webhook) : gmap UUID Webhook :=
  (λ w, if P w then set_updated_at now (f w) else w) <$> m.

(** [DELETE FROM webhook_events WHERE P] *)
Definition sql_delete (P : Webhook → bool) (m : gmap UUID Webhook) : gmap UUID Webhook :=
  filter (λ kv, P kv.2 = false) m.

(** [SELECT ... WHERE P ORDER BY leb LIMIT n] *)
Definition sql_select (P : Webhook → bool) (leb : Webhook → Webhook → bool) (n : nat)
    (m : gmap UUID Webhook) : list Webhook :=
  select_first leb n (filter (λ w, P w = true) (rows m)).

Definition sql_count (P : Webhook → bool) (m : gmap UUID Webhook) : Z :=
  Z.of_nat (length (filter (λ w, P w = true) (rows m))).

Lemma lookup_sql_update P f now m i :
  sql_update P f now m !! i
  = (λ w, if P w then set_updated_at now (f w) else w) <$> (m !! i).
Proof. unfold sql_update. apply lookup_fmap. Qed.

Lemma lookup_sql_delete P m i w :
  sql_delete P m !! i = Some w ↔ m !! i = Some w ∧ P w = false.
Proof. unfold sql_delete. by rewrite map_lookup_filter_Some. Qed.

Lemma elem_of_sql_select P leb n m w :
  w ∈ sql_select P leb n m → (∃ i, m !! i = Some w) ∧ P w = true.
Proof.
  intros Hw. apply elem_of_select_first in Hw.
  apply list_elem_of_filter in Hw as [HP Hw]. by apply elem_of_rows in Hw.
Qed.

Lemma length_sql_select P leb n m : (length (sql_select P leb n m) ≤ n)%nat.
Proof. unfold sql_select. rewrite length_select_first. lia. Qed.

(** A selection that is not full holds every matching row. *)
Lemma sql_select_complete P leb n m i w :
  m !! i = Some w → P w = true → (length (sql_select P leb n m) < n)%nat →
  w ∈ sql_select P leb n m.
Proof.
  intros Hi HP Hn. unfold sql_select in *. rewrite length_select_first in Hn.
  rewrite select_first_all by lia. apply list_elem_of_filter. split; [done|].
  apply elem_of_rows. eauto.
Qed.

Lemma NoDup_sql_select P leb n m :
  keyed wh_ID m → NoDup (wh_ID <$> sql_select P leb n m).
Proof.
  intros Hm. unfold sql_select, select_first.
  eapply sublist_NoDup; [|apply fmap_sublist, sublist_take].
  rewrite sort_by_Permutation.
  eapply sublist_NoDup; [by apply (NoDup_rows wh_ID m)|].
  apply fmap_sublist, sublist_filter.
Qed.

(** ** Constraints of the schema *)

(** [CREATE UNIQUE INDEX idx_provider_event_id]: NULLs never conflict. *)
Definition unique_events (m : gmap UUID Webhook) : Prop :=
  ∀ i j a b, m !! i = Some a → m !! j = Some b →
    wh_ProviderID a = wh_ProviderID b → wh_EventID a = wh_EventID b →
    is_Some (wh_EventID a) → i = j.

Record db_ok (db : DB) : Prop := {
  ok_events : keyed wh_ID (webhook_events db);
  ok_providers : keyed p_ID (providers db);
  ok_unique : unique_events (webhook_events db);
  ok_names : ∀ i j p q, providers db !! i = Some p → providers db !! j = Some q →
               p_Name p = p_Name q → i = j;
  ok_fk : ∀ i w, webhook_events db !! i = Some w →
            is_Some (providers db !! wh_ProviderID w);
}.

(** Every column update and every deletion keeps the constraints. *)
Lemma db_ok_update P f now db :
  keeps_identity f → db_ok db → db_ok (set_events (sql_update P f now) db).
Proof.
  intros Hf [Hk Hp Hu Hn Hr].
  assert (∀ i w', sql_update P f now (webhook_events db) !! i = Some w' →
            ∃ w, webhook_events db !! i = Some w ∧ identity w' = identity w) as Hback.
  { intros i w'. rewrite lookup_sql_update.
    destruct (webhook_events db !! i) as [w|]; [|done]. simpl. intros [= <-].
    exists w. split; [done|]. case_match; [|done].
    rewrite keeps_identity_updated. apply Hf. }
  unfold identity in Hback. split; simpl; try done.
  - intros i w' Hw'. apply Hback in Hw' as (w & Hw & [=]). rewrite <-(Hk i w Hw). congruence.
  - intros i j a b Ha Hb Hab He Hs.
    apply Hback in Ha as (a' & Ha & [=]). apply Hback in Hb as (b' & Hb & [=]).
    apply (Hu i j a' b'); congruence.
  - intros i w' Hw'. apply Hback in Hw' as (w & Hw & [=]).
    replace (wh_ProviderID w') with (wh_ProviderID w) by congruence. eauto.
Qed.

Lemma db_ok_delete P db : db_ok db → db_ok (set_events (sql_delete P) db).
Proof.
  intros [Hk Hp Hu Hn Hr]. split; simpl; try done.
  - by apply keyed_filter.
  - intros i j a b Ha%lookup_sql_delete Hb%lookup_sql_delete. destruct Ha, Hb. eauto.
  - intros i w Hw%lookup_sql_delete. destruct Hw. eauto.
Qed.

#[export] Hint Resolve db_ok_update db_ok_delete : vault.

(** ** Orders *)

Definition oldest_received (a b : Webhook) : bool :=
  (wh_ReceivedAt a <? wh_ReceivedAt b)
  || (wh_ReceivedAt a =? wh_ReceivedAt b) && (wh_ID a <=? wh_ID b).

Definition received_only (a b : Webhook) : bool := wh_ReceivedAt a <=? wh_ReceivedAt b.
Definition newest_created (a b : Webhook) : bool := wh_CreatedAt b <=? wh_CreatedAt a.

(** [ORDER BY next_retry_at ASC, id ASC]: PostgreSQL sorts NULLs last. *)
Definition soonest_retry (a b : Webhook) : bool :=
  match wh_NextRetryAt a, wh_NextRetryAt b with
  | Some s, Some t => (s <? t) || (s =? t) && (wh_ID a <=? wh_ID b)
  | Some _, None => true
  | None, Some _ => false
  | None, None => wh_ID a <=? wh_ID b
  end.

Ltac order_solver :=
  intros; unfold leb_rel, oldest_received, received_only, newest_created, soonest_retry in *;
  repeat case_match; simplify_eq/=; lia.

#[export] Instance oldest_received_trans : Transitive (leb_rel oldest_received).
Proof. intros a b c ??. order_solver. Qed.
#[export] Instance oldest_received_total : Total (leb_rel oldest_received).
Proof. intros a b. order_solver. Qed.
#[export] Instance received_only_trans : Transitive (leb_rel received_only).
Proof. intros a b c ??. order_solver. Qed.
#[export] Instance received_only_total : Total (leb_rel received_only).
Proof. intros a b. order_solver. Qed.
#[export] Instance newest_created_trans : Transitive (leb_rel newest_created).
Proof. intros a b c ??. order_solver. Qed.
#[export] Instance newest_created_total : Total (leb_rel newest_created).
Proof. intros a b. order_solver. Qed.
#[export] Instance soonest_retry_trans : Transitive (leb_rel soonest_retry).
Proof. intros a b c ??. order_solver. Qed.
#[export] Instance soonest_retry_total : Total (leb_rel soonest_retry).
Proof. intros a b. order_solver. Qed.
