(* ===== verification/External.v ===== *)
(** Interfaces of the libraries the program calls and this repository does
    not contain: [github.com/stripe/stripe-go] here, [github.com/google/uuid]
    in [Codecs], the database server in [Schema].  Each law is documented
    behaviour of the library.  The module [Concrete] gives executable instances
    that satisfy the laws; the examples of the other files run on them. *)
From stdpp Require Import base tactics list gmap strings numbers countable.
From Stdlib Require Import ZArith Lia Ascii.
From S2P Require Import Prelude GoStd GoCrypto Json Model Codecs World Schema.

Open Scope Z_scope.

(** ** github.com/stripe/stripe-go, [webhook.ConstructEvent] *)
Record StripeEvent := mkStripeEvent { ev_ID : string; ev_Type : string }.

Class StripeLib := {
  ConstructEvent : Time → string → string → string → result StripeEvent (* now, payload, header, secret *)
}.

(** The header is a comma-separated list of items, one of which is a [v1]
    signature in hexadecimal of the timestamped payload. *)
Definition stripe_signed (payload header secret : string) : Prop :=
  ∃ t s : string, ("v1=" +:+ s)%string ∈ Split header 44 ∧
    DecodeString s = Some (hmac_sha256 secret (t +:+ "." +:+ payload)).

Class StripeLibOk `{StripeLib} : Prop := {
  ConstructEvent_signed : ∀ now payload header secret ev,
    ConstructEvent now payload header secret = Ok ev → stripe_signed payload header secret;
  ConstructEvent_returns : ∀ now payload header secret, ConstructEvent now payload header secret ≠ Panic;
}.

(** ** Executable instances *)
Module Concrete.

(** A database whose JSONB output is its input. *)
Definition postgres : Postgres := {| jsonb_in := Some; ilike _ _ := true |}.
Lemma postgres_ok : @PostgresOk postgres.
Proof. split. by intros s t [= <-]. Qed.

(** Identifiers written in decimal. *)
Definition uuidlib : UuidLib :=
  {| uuid_Parse s := digits 0 (bytes_of s); uuid_String u := string_of (int_lit u) |}.
Lemma uuidlib_ok : @UuidLibOk uuidlib.
Proof.
  split.
  - intros u [Hu _]. simpl. rewrite bytes_of_string_of by apply ascii_range, int_lit_ascii.
    unfold int_lit. rewrite (proj2 (Z.ltb_ge u 0)) by done. by apply decimal_digits.
  - intros u. unfold utf8_valid. simpl. rewrite bytes_of_string_of by apply ascii_range, int_lit_ascii.
    apply ascii_utf8, int_lit_ascii.
Qed.


(** Verification of a header [v1=...] over the payload with timestamp 0; the
    event is named by the payload. *)
Definition stripelib : StripeLib := {|
  ConstructEvent now payload header secret :=
    match Split header 44 with
    | [item] =>
      if bool_decide (item = ("v1=" +:+ EncodeToString (hmac_sha256 secret ("0" +:+ "." +:+ payload)))%string)
      then Ok (mkStripeEvent payload "charge.succeeded") else Err (ErrOther "no valid signature")
    | _ => Err (ErrOther "no valid signature")
    end
|}.

Lemma stripelib_ok : @StripeLibOk stripelib.
Proof.
  split; [|intros now payload header secret; simpl; by repeat case_match].
  intros now payload header secret ev. simpl. intros Hev. branch_in Hev. bsplit. subst.
  exists "0"%string. eexists. split.
  - match goal with E : Split header 44 = _ |- _ => rewrite E end. by apply list_elem_of_singleton.
  - apply DecodeString_EncodeToString.
Qed.
End Concrete.
