(* ===== verification/EventsRepo.v ===== *)
(** [internal/events/repository.go]: the statements on [webhook_events] that
    receive, replay, list, count and search webhook events. *)
From stdpp Require Import base tactics list gmap strings numbers.
From Stdlib Require Import ZArith Lia.
From S2P Require Import Prelude GoStd GoCrypto Model Codecs World Schema.

Open Scope Z_scope.

(** [id::text] *)
Definition uuid_text (u : UUID) : string :=
  let h := hex_encode (Sha256.be_bytes 16 u) in
  string_of (take 8 h ++ [45] ++ take 4 (drop 8 h) ++ [45] ++ take 4 (drop 12 h)
             ++ [45] ++ take 4 (drop 16 h) ++ [45] ++ drop 20 h).

Example uuid_text_example :
  uuid_text 0x123e4567e89b12d3a456426614174000 = "123e4567-e89b-12d3-a456-426614174000"%string.
Proof. reflexivity. Qed.

(** ** Statements *)

Definition same_key (provID : UUID) (ev : option string) (w : Webhook) : bool :=
  bool_decide (wh_ProviderID w = provID) && bool_decide (wh_EventID w = ev) && bool_decide (is_Some ev).

Definition new_row (id : UUID) (now : Time) (h b : string) (p : CreateWebhookParams) : Webhook :=
  mkWebhook id (cp_ProviderID p) (cp_Provider p) (cp_EventID p) (cp_EventType p) h b
    Queued (cp_ForwardedTo p) None 0 None None (pg_time (cp_ReceivedAt p)) (pg_time now) (pg_time now).

Section repo.
Context `{Postgres}.

(** [INSERT ... ON CONFLICT (provider_id, event_id) DO NOTHING RETURNING ...];
    no returned row is [pgx.ErrNoRows]. *)
Definition insert_stmt (p : CreateWebhookParams) (e : EnvStep) (now : Time) (db : DB) : result Webhook * DB :=
  if negb (forallb text_ok (cp_Provider p :: cp_EventType p :: cp_ForwardedTo p :: option_list (cp_EventID p)))
  then (Err ErrEncoding, db)
  else match jsonb_in (cp_Headers p), jsonb_in (cp_Payload p) with
  | Some h, Some b =>
    if existsb (same_key (cp_ProviderID p) (cp_EventID p)) (rows (webhook_events db))
    then (Err ErrNoRows, db)
    else match webhook_events db !! es_uuid e, providers db !! cp_ProviderID p with
         | Some _, _ => (Err (PgError "duplicate key value violates unique constraint"), db)
         | None, None => (Err (PgError "insert violates foreign key constraint"), db)
         | None, Some _ =>
           let row := new_row (es_uuid e) now h b p in
           (Ok row, set_events (insert (es_uuid e) row) db)
         end
  | _, _ => (Err (PgError "invalid input syntax for type json"), db)
  end.

(** [UPDATE webhook_events SET delivery_status = 'replaying' WHERE id = $1] *)
Definition replay_stmt (id : UUID) (e : EnvStep) (now : Time) (db : DB) : result unit * DB :=
  (Ok tt, set_events (sql_update (λ w, bool_decide (wh_ID w = id)) (set_status Replaying) now) db).

Definition exists_stmt (provID : UUID) (evID : string) (e : EnvStep) (now : Time) (db : DB) : result bool * DB :=
  (if text_ok evID then Ok (existsb (same_key provID (Some evID)) (rows (webhook_events db))) else Err ErrEncoding, db).

Definition get_all_stmt (createdAt : option Time) (e : EnvStep) (now : Time) (db : DB) : result (list Webhook) * DB :=
  (Ok match createdAt with
      | Some c => sql_select (λ w, wh_CreatedAt w <? pg_time c) newest_created 5 (webhook_events db)
      | None => sql_select (λ _, true) newest_created 25 (webhook_events db)
      end, db).

Definition count_status (s : DeliveryStatus) (now : Time) (m : gmap UUID Webhook) : Z :=
  sql_count (λ w, bool_decide (wh_DeliveryStatus w = s) && (pg_time now - 7 * Day <? wh_CreatedAt w)) m.

Definition stats_stmt (e : EnvStep) (now : Time) (db : DB) : result Stats * DB :=
  let m := webhook_events db in
  (Ok (mkStats (count_status Delivered now m) (count_status Failed now m)
               (count_status Retrying now m) (count_status Queued now m)), db).

(** [SELECT ... WHERE conditions ORDER BY created_at DESC LIMIT l OFFSET o]:
    an empty condition list is a syntax error of the statement, a negative
    limit or offset an error of its execution. *)
Definition select_page (conds : list (Webhook → bool)) (combine : list (Webhook → bool) → Webhook → bool)
    (lim off : Z) (db : DB) : result (list Webhook) * DB :=
  if (length conds =? 0)%nat then (Err (PgError "syntax error"), db)
  else if lim <? 0 then (Err (PgError "LIMIT must not be negative"), db)
  else if off <? 0 then (Err (PgError "OFFSET must not be negative"), db)
  else (Ok (take (Z.to_nat lim) (drop (Z.to_nat off)
              (sort_by newest_created (filter (λ w, combine conds w = true) (rows (webhook_events db)))))), db).

Definition any_of (conds : list (Webhook → bool)) (w : Webhook) : bool := existsb (λ c, c w) conds.
Definition all_of (conds : list (Webhook → bool)) (w : Webhook) : bool := forallb (λ c, c w) conds.

(** ** Operations *)

Definition getAll (createdAt : option Time) : M (result (list Webhook)) := db_stmt (get_all_stmt createdAt).

Definition getStats : M (result Stats) := db_stmt stats_stmt.

Definition InsertWebhook (p : CreateWebhookParams) : M (result Webhook) :=
  let* r := db_stmt (insert_stmt p) in
  st_ret match r with
         | Err e => if errors_Is e ErrNoRows then Err ErrHookExists else Err e
         | _ => r
         end.

Definition replayEvent (id : UUID) : M (result unit) := db_stmt (replay_stmt id).

Definition Exists (provID : UUID) (evID : string) : M (result bool) := db_stmt (exists_stmt provID evID).

Definition nonempty (s : option string) : option string :=
  match s with Some s => if bool_decide (s = ""%string) then None else Some s | None => None end.

Definition cond {A} (o : option A) (f : A → Webhook → bool) : list (Webhook → bool) :=
  match o with Some a => [f a] | None => [] end.

Definition lookup_conds (opts : LookupOpts) : list (Webhook → bool) :=
  cond (nonempty (lo_WebhookID opts)) (λ id w, bool_decide (uuid_text (wh_ID w) = id))
  ++ cond (nonempty (lo_EventID opts)) (λ ev w, bool_decide (wh_EventID w = Some ev)).

Definition lookup_events (opts : LookupOpts) : M (result (list Webhook)) :=
  db_stmt (λ _ _ db,
    if negb (forallb text_ok (option_list (lo_WebhookID opts) ++ option_list (lo_EventID opts)))
    then (Err ErrEncoding, db)
    else select_page (lookup_conds opts) any_of (lo_Limit opts) (lo_Offset opts) db).

(** [delivery_status = ANY($n)] reads its argument as an array of the
    enumeration type: one unknown label is an input error. *)
Definition statuses_in (l : list string) : option (list DeliveryStatus) := mapM status_in l.

Definition filter_conds (opts : FilterOpts) (sts : list DeliveryStatus) : list (Webhook → bool) :=
  (if (0 <? length (fo_Providers opts))%nat
   then [λ w, bool_decide (wh_Provider w ∈ fo_Providers opts)] else [])
  ++ cond (nonempty (fo_EventType opts)) (λ t w, bool_decide (wh_EventType w = t))
  ++ (if (0 <? length (fo_DeliveryStatuses opts))%nat
      then [λ w, bool_decide (wh_DeliveryStatus w ∈ sts)] else [])
  ++ cond (fo_ResponseCode opts) (λ c w, bool_decide (wh_ResponseCode w = Some c))
  ++ match fo_FromTime opts, fo_ToTime opts with
     | Some f, Some t => [λ w, pg_time f <=? wh_CreatedAt w; λ w, wh_CreatedAt w <=? pg_time t]
     | _, _ => []
     end
  ++ cond (nonempty (fo_PayloadSearch opts)) (λ s w, ilike (wh_Payload w) s)
  ++ (if fo_HasRetries opts then [λ w, 0 <? wh_RetryCount w] else [])
  ++ (if fo_HasError opts then [λ w, bool_decide (is_Some (wh_LastError w))] else []).

Definition filter_events (opts : FilterOpts) : M (result (list Webhook)) :=
  db_stmt (λ _ _ db,
    if negb (forallb text_ok (fo_Providers opts ++ option_list (fo_EventType opts) ++ option_list (fo_PayloadSearch opts)))
    then (Err ErrEncoding, db)
    else match statuses_in (fo_DeliveryStatuses opts) with
    | None => (Err (PgError "invalid input value for enum delivery_status"), db)
    | Some sts => select_page (filter_conds opts sts) all_of (fo_Limit opts) (fo_Offset opts) db
    end).

(** ** Lemmas *)

Lemma same_key_spec provID ev w :
  same_key provID ev w = true ↔ wh_ProviderID w = provID ∧ wh_EventID w = ev ∧ is_Some ev.
Proof. unfold same_key. rewrite !andb_true_iff, !bool_decide_eq_true. naive_solver. Qed.

Lemma existsb_rows P (m : gmap UUID Webhook) :
  existsb P (rows m) = true ↔ ∃ i w, m !! i = Some w ∧ P w = true.
Proof.
  rewrite existsb_exists. setoid_rewrite <-list_elem_of_In. setoid_rewrite elem_of_rows.
  naive_solver.
Qed.

Lemma existsb_rows_false P (m : gmap UUID Webhook) :
  existsb P (rows m) = false ↔ ∀ i w, m !! i = Some w → P w = false.
Proof.
  rewrite <-not_true_iff_false, existsb_rows. split.
  - intros Hn i w Hw. apply not_true_iff_false. naive_solver.
  - intros Hf (i & w & Hw & HP). by rewrite (Hf i w Hw) in HP.
Qed.

(** What an insertion that succeeds leaves in the table. *)
Lemma insert_stmt_Ok p e now db row db' :
  insert_stmt p e now db = (Ok row, db') →
  ∃ h b, jsonb_in (cp_Headers p) = Some h ∧ jsonb_in (cp_Payload p) = Some b ∧
    row = new_row (es_uuid e) now h b p ∧
    db' = set_events (insert (es_uuid e) row) db ∧
    webhook_events db !! es_uuid e = None ∧
    is_Some (providers db !! cp_ProviderID p) ∧
    (∀ i w, webhook_events db !! i = Some w → same_key (cp_ProviderID p) (cp_EventID p) w = false) ∧
    forallb text_ok (cp_Provider p :: cp_EventType p :: cp_ForwardedTo p :: option_list (cp_EventID p)) = true.
Proof.
  unfold insert_stmt. intros Hr. destruct (forallb _ _) eqn:Et; [|done]. cbn [negb] in Hr. branch_in Hr.
  match goal with E : existsb _ _ = false |- _ => rewrite existsb_rows_false in E end.
  eauto 12.
Qed.

Lemma insert_stmt_not_Ok p e now db r db' :
  insert_stmt p e now db = (r, db') → (∀ row, r ≠ Ok row) → db' = db.
Proof. unfold insert_stmt. intros Hr Hn. branch_in Hr. by destruct (Hn _ eq_refl). Qed.

(** Insertion keeps the constraints of the schema, the unique index first. *)
Lemma insert_stmt_db_ok p e now db : db_ok db → db_ok (insert_stmt p e now db).2.
Proof.
  intros Hok. destruct (insert_stmt p e now db) as [r db'] eqn:E. simpl.
  destruct r as [row| |]; [|by rewrite (insert_stmt_not_Ok _ _ _ _ _ _ E)..].
  apply insert_stmt_Ok in E as (h & b & _ & _ & -> & -> & Hfresh & Hprov & Hnew & _).
  destruct Hok as [Hk Hp Hu Hn Hr].
  assert (∀ i w, webhook_events db !! i = Some w → wh_ProviderID w = cp_ProviderID p →
            wh_EventID w = cp_EventID p → ¬ is_Some (cp_EventID p)) as Hno.
  { intros i w Hw H1 H2 H3. specialize (Hnew i w Hw).
    by rewrite (proj2 (same_key_spec _ _ _)) in Hnew. }
  split; simpl; try done.
  - by apply keyed_insert.
  - intros i j a b' Ha Hb Hpp Hee Hss. rewrite lookup_insert in Ha, Hb.
    destruct (decide (es_uuid e = i)) as [<-|], (decide (es_uuid e = j)) as [<-|];
      simplify_eq/=; [done| | |by eauto].
    + destruct (Hno j b' Hb); congruence.
    + destruct (Hno i a Ha); congruence.
  - intros i w Hw. rewrite lookup_insert in Hw. case_decide; simplify_eq/=; eauto.
Qed.

Lemma replay_stmt_db_ok id e now db : db_ok db → db_ok (replay_stmt id e now db).2.
Proof. apply db_ok_update, keeps_identity_status. Qed.

(** A page is a contiguous part of the sorted matches. *)
Lemma select_page_Ok conds comb lim off db l db' :
  select_page conds comb lim off db = (Ok l, db') →
  0 <= lim ∧ 0 <= off ∧ db' = db ∧
  l = take (Z.to_nat lim) (drop (Z.to_nat off)
        (sort_by newest_created (filter (λ w, comb conds w = true) (rows (webhook_events db))))).
Proof. unfold select_page. intros Hr. branch_in Hr. bsplit. done. Qed.

Lemma select_page_db conds comb lim off db : (select_page conds comb lim off db).2 = db.
Proof. unfold select_page. by repeat case_match. Qed.

End repo.
