(* ===== verification/Crypto.v ===== *)
(** [internal/crypto/crypto.go]: encryption of the signing secrets at rest. *)
From stdpp Require Import base tactics list gmap strings numbers.
From Stdlib Require Import ZArith Lia.
From S2P Require Import Prelude GoStd GoCrypto GoAes Model Codecs World.

Open Scope Z_scope.

Definition ErrKeySize : goerr := ErrOther "crypto/aes: invalid key size".
Definition ErrHex : goerr := ErrOther "encoding/hex: invalid input".
Definition ErrOpen : goerr := ErrOther "cipher: message authentication failed".

(** The bytes [io.ReadFull(rand.Reader, nonce)] puts into a nonce. *)
Definition read_nonce (r : string) : string :=
  string_of (take gcm_NonceSize (bytes_of r ++ replicate gcm_NonceSize 0)).

Lemma length_read_nonce r : String.length (read_nonce r) = gcm_NonceSize.
Proof.
  unfold read_nonce. rewrite length_string_of, length_take, length_app, length_replicate.
  unfold gcm_NonceSize. lia.
Qed.

Definition EncryptSigningKey (plaintext : string) : M (result string) :=
  let* key := st_gets (MasterKey ∘ w_cfg) in
  if negb (aes_NewCipher key) then st_ret (Err (Wrap ErrEncryption ErrKeySize))
  else
    let* e := ext in
    match es_fault e with
    | Some readErr => st_ret (Err (Wrap ErrEncryption readErr))
    | None =>
      let nonce := read_nonce (es_rand e) in
      st_ret (Ok (EncodeToString (nonce +:+ gcm_seal key nonce plaintext)))
    end.

Definition DecryptSigningKey (key encoded : string) : result string :=
  if bool_decide (encoded = ""%string) then Ok ""%string
  else match DecodeString encoded with
  | None => Err (Wrap ErrDecryption ErrHex)
  | Some decoded =>
    if negb (aes_NewCipher key) then Err (Wrap ErrDecryption ErrKeySize)
    else match slice_to decoded gcm_NonceSize, slice_from decoded gcm_NonceSize with
    | Some nonce, Some ciphertext =>
      match gcm_open key nonce ciphertext with
      | Some data => Ok data
      | None => Err (Wrap ErrDecryption ErrOpen)
      end
    | _, _ => Panic
    end
  end.

(** An encryption that succeeds used a valid key and a fresh nonce. *)
Lemma EncryptSigningKey_Ok plaintext w enc w' :
  EncryptSigningKey plaintext w = (Ok enc, w') →
  ∃ nonce, String.length nonce = gcm_NonceSize ∧
    aes_NewCipher (MasterKey (w_cfg w)) = true ∧
    enc = EncodeToString (nonce +:+ gcm_seal (MasterKey (w_cfg w)) nonce plaintext) ∧
    w' = (ext w).2.
Proof.
  unfold EncryptSigningKey. rewrite st_bind_run. simpl. intros Hr.
  destruct (aes_NewCipher _) eqn:Hk; [|done]. simpl in Hr.
  rewrite st_bind_run in Hr. destruct (es_fault _); [done|].
  injection Hr as <- <-. eauto using length_read_nonce.
Qed.

Lemma EncryptSigningKey_world plaintext w :
  (EncryptSigningKey plaintext w).2 = w ∨ (EncryptSigningKey plaintext w).2 = (ext w).2.
Proof.
  unfold EncryptSigningKey. rewrite st_bind_run. simpl.
  destruct (aes_NewCipher _); simpl; [|by left]. right. rewrite st_bind_run.
  by destruct (es_fault _).
Qed.

(** Whatever decrypts is the hexadecimal form of a nonce and the sealed text. *)
Lemma Decrypt_only_sealed key encoded text :
  DecryptSigningKey key encoded = Ok text → encoded ≠ ""%string →
  ∃ nonce, String.length nonce = gcm_NonceSize ∧ DecodeString encoded = Some (nonce +:+ gcm_seal key nonce text).
Proof.
  unfold DecryptSigningKey. intros Hd He. rewrite bool_decide_eq_false_2 in Hd by done.
  destruct (DecodeString encoded) as [decoded|]; [|done]. destruct (aes_NewCipher key); [|done]. cbn [negb] in Hd.
  unfold slice_to, slice_from in Hd. destruct (Nat.leb_spec gcm_NonceSize (String.length decoded)) as [Hl|]; [|done].
  destruct (gcm_open _ _ _) as [data|] eqn:Ho; [|done]. injection Hd as ->. apply gcm_open_sealed in Ho.
  exists (string_of (take gcm_NonceSize (bytes_of decoded))). split.
  - rewrite length_string_of, length_take, length_bytes_of. lia.
  - rewrite <-Ho, <-string_of_app, take_drop. by rewrite string_of_bytes_of.
Qed.

Lemma Decrypt_encoded key nonce plaintext :
  aes_NewCipher key = true → String.length nonce = gcm_NonceSize →
  DecryptSigningKey key (EncodeToString (nonce +:+ gcm_seal key nonce plaintext)) = Ok plaintext.
Proof.
  intros Hk Hn. unfold DecryptSigningKey.
  rewrite bool_decide_eq_false_2.
  - rewrite DecodeString_EncodeToString, Hk. simpl.
    rewrite <-Hn, slice_to_app, slice_from_app, gcm_open_seal. done.
  - intros E. apply (f_equal String.length) in E.
    rewrite length_EncodeToString, length_append, Hn in E. done.
Qed.
