(* ===== verification/Providers.v ===== *)
(** [internal/cache] and [internal/providers]: the Redis cache of the
    providers, their table, and the service that configures them. *)
From stdpp Require Import base tactics list gmap strings numbers.
From Stdlib Require Import ZArith Lia.
From S2P Require Import Prelude GoStd GoCrypto Model Codecs World Schema External Crypto.

Open Scope Z_scope.

(** ** internal/cache/cache.go *)

Definition cache_GetBytes (key : string) : M (result string) :=
  redis_cmd (λ _ rd, (match kv rd !! key with Some v => Ok v | None => Err RedisNil end, rd)).

Definition cache_Set (key val : string) : M (result unit) :=
  redis_cmd (λ _ rd, (Ok tt, mkRedis (<[key := val]> (kv rd)) (buckets rd))).

Fixpoint mset (pairs : list string) (m : gmap string string) : gmap string string :=
  match pairs with
  | k :: v :: pairs => mset pairs (<[k := v]> m)
  | _ => m
  end.

Definition cache_Mset (pairs : list string) : M (result unit) :=
  if negb (Nat.even (length pairs)) then st_ret (Err (ErrOther "[Cache] odd number of arguments passed to Mset"))
  else redis_cmd (λ _ rd, (Ok tt, mkRedis (mset pairs (kv rd)) (buckets rd))).

(** ** Validation limits, providers/service.go *)
Definition maxRetryCount : Z := 20.
Definition maxReqSecond : Z := 1000.

Definition RedisProviderPrefix : string := "provider+".

(** ** providers/repository.go *)
Definition get_providers_stmt (e : EnvStep) (now : Time) (db : DB) : result (list Provider) * DB :=
  (Ok (rows (providers db)), db).

Definition configured (sec des : string) (maxRetry maxReqSec : Z) (p : Provider) : Provider :=
  mkProvider (p_ID p) (p_Name p) sec des maxRetry maxReqSec true (p_CreatedAt p).

Definition configure_stmt (id : UUID) (sec des : string) (maxRetry maxReqSec : Z)
    (e : EnvStep) (now : Time) (db : DB) : result Provider * DB :=
  if negb (forallb text_ok [sec; des]) then (Err ErrEncoding, db)
  else match providers db !! id with
  | None => (Err ErrNoRows, db)
  | Some p => let p' := configured sec des maxRetry maxReqSec p in
              (Ok p', set_providers (insert id p') db)
  end.

Definition repo_getAll : M (result (list Provider)) := db_stmt get_providers_stmt.

Definition repo_configure (id : UUID) (sec des : string) (maxRetry maxReqSec : Z) : M (result Provider) :=
  db_stmt (configure_stmt id sec des maxRetry maxReqSec).

Section cache.
Context `{UuidLib}.

Definition ErrJson : goerr := ErrOther "json: cannot unmarshal".

(** ** providers/cache.go *)

Definition Cache_Get (key : string) : M (result Provider) :=
  let? val := cache_GetBytes (RedisProviderPrefix +:+ key) in
  st_ret match Unmarshal val with Some p => Ok p | None => Err ErrJson end.

Definition serialize (val : Provider) : result string := Marshal val.

Definition Cache_Set (key : string) (val : Provider) : M (result unit) :=
  match serialize val with
  | Ok b => cache_Set (RedisProviderPrefix +:+ key) b
  | Err err => st_ret (Err err)
  | Panic => st_ret Panic
  end.

(** The loop that collects the arguments of [Mset]; [what] names the caller in
    its error. *)
Fixpoint kvPairs (what : string) (provs : list Provider) : result (list string) :=
  match provs with
  | [] => Ok []
  | val :: provs =>
    match serialize val with
    | Ok b => res_map (λ pairs, (RedisProviderPrefix +:+ p_Name val) :: b :: pairs) (kvPairs what provs)
    | Err err => Err (Wrap (ErrOther ("[Providers] error marshaling provider during cache " +:+ what)) err)
    | Panic => Panic
    end
  end.

Definition ErrNoProvidersFound : goerr := ErrOther "[Providers] no providers found in database".

Definition fill_cache (what : string) : M (result unit) :=
  let? provs := repo_getAll in
  match kvPairs what provs with
  | Err err => st_ret (Err err)
  | Panic => st_ret Panic
  | Ok pairs =>
    if (length pairs =? 0)%nat then st_ret (Err ErrNoProvidersFound)
    else cache_Mset pairs
  end.

Definition RefreshCache : M (result unit) := fill_cache "refresh".

(** [once] is the state of the package's [sync.Once]: later calls do nothing
    and return a nil error. *)
Definition InitProviderCache (once : bool) : M (result unit * bool) :=
  if once then st_ret (Ok tt, true)
  else let* r := fill_cache "insertion" in st_ret (r, true).

(** The cache holds every row of the table. *)
Definition coherent (w : World) : Prop :=
  ∀ i p, providers (w_db w) !! i = Some p →
    ∃ b, Marshal p = Ok b ∧ kv (w_redis w) !! (RedisProviderPrefix +:+ p_Name p) = Some b.

(** ** providers/service.go *)
Fixpoint decrypt_all (key : string) (provs : list Provider) : result (list Provider) :=
  match provs with
  | [] => Ok []
  | p :: provs =>
    if negb (p_IsConfigured p) then res_map (cons p) (decrypt_all key provs)
    else match DecryptSigningKey key (p_SigningSecret p) with
         | Ok dec =>
           res_map (cons (mkProvider (p_ID p) (p_Name p) dec (p_DestinationURL p) (p_MaxRetries p)
                            (p_MaxReqSecond p) (p_IsConfigured p) (p_CreatedAt p)))
                   (decrypt_all key provs)
         | Err e => Err e
         | Panic => Panic
         end
  end.

Definition GetAll : M (result (list Provider)) :=
  let? provs := repo_getAll in
  let* key := st_gets (MasterKey ∘ w_cfg) in
  st_ret (decrypt_all key provs).

Definition Configure (id sec des : string) (maxRetry maxReqSec : Z) : M (result Provider) :=
  match uuid_Parse id with
  | None => st_ret (Err (ErrOther "invalid UUID"))
  | Some uuidS =>
    let sec := TrimSpace sec in
    if len sec =? 0 then st_ret (Err ErrMissingSigningSecret)
    else if len des =? 0 then st_ret (Err ErrMissingDestination)
    else if (maxRetry <? 0) || (maxRetryCount <? maxRetry) then st_ret (Err ErrInvalidRetryCount)
    else if (maxReqSec <? 0) || (maxReqSecond <? maxReqSec) then st_ret (Err ErrInvalidReqSecond)
    else
      let? encKey := EncryptSigningKey sec in
      let? prov := repo_configure uuidS encKey des maxRetry maxReqSec in
      let? _ := Cache_Set (p_Name prov) prov in
      st_ret (Ok prov)
  end.

(** ** Lemmas *)

Lemma cache_GetBytes_spec key w :
  (∃ err, cache_GetBytes key w = (Err err, (ext w).2)) ∨
  cache_GetBytes key w
  = (match kv (w_redis w) !! key with Some v => Ok v | None => Err RedisNil end,
     set_redis (λ _, w_redis w) (ext w).2).
Proof. unfold cache_GetBytes. step_redis; eauto. Qed.

(** What a cache read that succeeds says. *)
Lemma Cache_Get_Ok key w p w' :
  Cache_Get key w = (Ok p, w') →
  ∃ v, kv (w_redis w) !! (RedisProviderPrefix +:+ key) = Some v ∧ Unmarshal v = Some p.
Proof.
  unfold Cache_Get, st_bind_res. rewrite st_bind_run.
  destruct (cache_GetBytes_spec (RedisProviderPrefix +:+ key) w) as [[err ->] | -> ]; [done|].
  simpl. destruct (kv (w_redis w) !! _) as [v|]; [|done]. simpl.
  destruct (Unmarshal v) eqn:Ev; [|done]. intros [= <- <-]. eauto.
Qed.

Lemma Cache_Get_read_only key : read_only (Cache_Get key).
Proof.
  unfold Cache_Get, cache_GetBytes. auto with world.
Qed.

(** Reading a provider the cache holds cannot end in a decoding error. *)
Lemma Cache_Get_cached `{!UuidLibOk} key w p b :
  provider_text p → Marshal p = Ok b → kv (w_redis w) !! (RedisProviderPrefix +:+ key) = Some b →
  (Cache_Get key w).1 = Ok p ∨ ∃ err, (Cache_Get key w).1 = Err err ∧ es_fault (ext w).1 = Some err.
Proof.
  intros Hp Hb Hk. unfold Cache_Get, cache_GetBytes, redis_cmd, st_bind_res. rewrite st_bind_run.
  destruct (ext w) as [e w1] eqn:E. simpl.
  replace (w_redis w1) with (w_redis w) by (by rewrite <-(ext_redis w), E).
  destruct (es_fault e) eqn:F; simpl; [eauto|]. rewrite Hk. simpl. left. by rewrite (Unmarshal_provider p b).
Qed.

Lemma configure_stmt_db_ok id sec des r q e now db :
  db_ok db → db_ok (configure_stmt id sec des r q e now db).2.
Proof.
  intros [Hk Hp Hu Hn Hr]. unfold configure_stmt.
  destruct (negb _); [by split|]. destruct (providers db !! id) as [p|] eqn:E; [|by split].
  split; simpl; try done.
  - apply keyed_insert; [|done]. simpl. eauto.
  - intros i j a b Ha Hb Hab. rewrite lookup_insert in Ha, Hb.
    destruct (decide (id = i)) as [<-|], (decide (id = j)) as [<-|]; simplify_eq/=; eauto.
  - intros i w Hw. rewrite lookup_insert. case_decide; [eauto|]. eauto.
Qed.

(** The keys of the pairs of a duplicate-free list of names are all set. *)
Lemma lookup_mset_ne pairs m k :
  (∀ i v, pairs !! (2 * i)%nat = Some v → v ≠ k) → mset pairs m !! k = m !! k.
Proof.
  revert m. induction pairs as [pairs IH] using (induction_ltof1 _ (@length string)).
  unfold ltof in IH. intros m Hne. destruct pairs as [|a [|b pairs]]; [done..|].
  simpl. rewrite IH; simpl; [|lia|].
  - apply lookup_insert_ne. exact (Hne 0%nat a eq_refl).
  - intros i v Hi. apply (Hne (S i) v). by replace (2 * S i)%nat with (S (S (2 * i))) by lia.
Qed.

Lemma serialize_returns p : serialize p ≠ Panic.
Proof. unfold serialize, Marshal, provider_to_json, text_of. by destruct (provider_json p). Qed.

Lemma kvPairs_returns what provs : kvPairs what provs ≠ Panic.
Proof.
  induction provs as [|p provs IH]; [done|]. cbn [kvPairs]. pose proof (serialize_returns p).
  destruct (serialize p); [|done..]. by destruct (kvPairs what provs).
Qed.

(** The pairs of a provider and those of the others. *)
Lemma kvPairs_cons what p provs pairs :
  kvPairs what (p :: provs) = Ok pairs →
  ∃ b rest, Marshal p = Ok b ∧ kvPairs what provs = Ok rest ∧ pairs = (RedisProviderPrefix +:+ p_Name p) :: b :: rest.
Proof.
  cbn [kvPairs]. unfold serialize. destruct (Marshal p) as [b| |]; [|done..].
  destruct (kvPairs what provs) as [rest| |]; [|done..]. intros [= <-]. eauto.
Qed.

Lemma kvPairs_keys what provs pairs i v :
  kvPairs what provs = Ok pairs → pairs !! (2 * i)%nat = Some v → ∃ p, p ∈ provs ∧ v = RedisProviderPrefix +:+ p_Name p.
Proof.
  revert pairs i. induction provs as [|p provs IH]; intros pairs i; [by intros [= <-]|].
  intros (b & rest & _ & Hr & ->)%kvPairs_cons. destruct i as [|i].
  - intros [= <-]. exists p. split; [left|done].
  - replace (2 * S i)%nat with (S (S (2 * i))) by lia. simpl. intros Hi.
    destruct (IH rest i Hr Hi) as (q & Hq & ->). exists q. split; [by right|done].
Qed.

Lemma mset_kvPairs what provs pairs m p :
  kvPairs what provs = Ok pairs → NoDup (p_Name <$> provs) → p ∈ provs →
  ∃ b, Marshal p = Ok b ∧ mset pairs m !! (RedisProviderPrefix +:+ p_Name p) = Some b.
Proof.
  revert pairs m. induction provs as [|q provs IH]; intros pairs m Hpr Hnd Hp; [by apply not_elem_of_nil in Hp|].
  change (NoDup (p_Name q :: (p_Name <$> provs))) in Hnd. inversion_clear Hnd as [|? ? Hq Hnd'].
  apply kvPairs_cons in Hpr as (b & rest & Hb & Hr & ->).
  apply elem_of_cons in Hp as [->|Hp]; [|by apply (IH rest)].
  exists b. split; [done|]. cbn [mset]. rewrite lookup_mset_ne; [apply lookup_insert_eq|].
  intros i v Hv ->. apply (kvPairs_keys _ _ _ _ _ Hr) in Hv as (p' & Hp' & E).
  apply Hq.
  apply list_elem_of_fmap. exists p'. split; [|done].
  apply (f_equal bytes_of) in E. rewrite !bytes_of_app in E. apply app_inv_head in E.
  by rewrite <-(string_of_bytes_of (p_Name q)), E, string_of_bytes_of.
Qed.

Lemma db_ok_names db : db_ok db → NoDup (p_Name <$> rows (providers db)).
Proof.
  intros [_ Hp _ Hn _].
  apply NoDup_fmap_2_strong.
  - intros p q Hpr Hqr Hpq. apply elem_of_rows in Hpr as [i Hi], Hqr as [j Hj].
    assert (i = j) by eauto. subst j. congruence.
  - eapply NoDup_fmap_1, (NoDup_rows p_ID). done.
Qed.

Lemma even_kvPairs what provs pairs : kvPairs what provs = Ok pairs → Nat.even (length pairs) = true.
Proof.
  revert pairs. induction provs as [|p provs IH]; intros pairs; [by intros [= <-]|].
  intros (b & rest & _ & Hr & ->)%kvPairs_cons. exact (IH rest Hr).
Qed.

(** A refresh that succeeds makes the cache hold every provider of the table. *)
Lemma fill_cache_Ok what w w' : db_ok (w_db w) → fill_cache what w = (Ok tt, w') → coherent w'.
Proof.
  intros Hok. unfold fill_cache, repo_getAll, st_bind_res. rewrite st_bind_run. step_db; [done|].
  cbn [get_providers_stmt fst snd]. destruct (kvPairs _ _) as [pairs| |] eqn:Hpr; [|done..].
  destruct (length _ =? 0)%nat; [done|].
  unfold cache_Mset. rewrite (even_kvPairs _ _ _ Hpr). cbn [negb]. step_redis; [done|]. cbn [fst snd]. intros [= <-] i p.
  simpl. autorewrite with world. simpl. autorewrite with world. intros Hp.
  apply (mset_kvPairs _ _ _ _ _ Hpr); [by apply db_ok_names|]. apply elem_of_rows. eauto.
Qed.

Lemma fill_cache_frame what w :
  w_db (fill_cache what w).2 = w_db w ∧ w_batch (fill_cache what w).2 = w_batch w ∧ w_cfg (fill_cache what w).2 = w_cfg w.
Proof.
  unfold fill_cache, repo_getAll, st_bind_res. rewrite st_bind_run. step_db; cbn [get_providers_stmt fst snd st_ret].
  { simpl. by autorewrite with world. }
  case_match; [|simpl; by autorewrite with world..]. case_match; [simpl; by autorewrite with world|]. unfold cache_Mset.
  case_match; [simpl; by autorewrite with world|]. step_redis; simpl; autorewrite with world; simpl; by autorewrite with world.
Qed.

End cache.

#[export] Hint Resolve Cache_Get_read_only : world.
