(* ===== verification/Auth.v ===== *)
(** [internal/auth] and [internal/api/handler/auth.go]: the tokens of the one
    user, their rotation, the cookies that carry them and the middleware that
    guards the protected routes. *)
From stdpp Require Import base tactics list gmap strings numbers.
From Stdlib Require Import ZArith Lia.
From S2P Require Import Prelude GoStd Json Model Codecs Helpers World.

Open Scope Z_scope.

(** ** Tokens *)

(** The claims the program puts into a token and reads back; [None] is an
    [email] claim that is missing or not a string. *)
Record Claims := mkClaims { c_sub : string; c_email : option string; c_exp : Z; c_iat : Z }.

#[export] Instance Claims_eq_dec : EqDecision Claims.
Proof. solve_decision. Defined.

(** github.com/golang-jwt/jwt: [SignedString] with HS256, and [Parse] with the
    valid methods restricted to HS256, at a time in seconds. *)
Class JwtLib := {
  jwt_Sign : string → Claims → string;
  jwt_Parse : string → Z → string → result Claims;
}.

(** Parsing a token signed with the same secret checks its expiry and returns
    its claims; a token depends on its claims only through what is signed.
    Whatever the token, parsing returns. *)
Class JwtLibOk `{JwtLib} : Prop := {
  jwt_Parse_Sign : ∀ secret now c,
    jwt_Parse secret now (jwt_Sign secret c) = if now <? c_exp c then Ok c else Err ErrTokenExpired;
  jwt_Parse_returns : ∀ secret now t, jwt_Parse secret now t ≠ Panic;
}.

Definition AccessTokenTTL : Z := 10.
Definition RefreshTokenTTL : Z := 24.

(** The durations [NewAuthService] computes. *)
Definition accessTokenTTL : Time := AccessTokenTTL * Minute.
Definition refreshTokenTTL : Time := RefreshTokenTTL * Hour.

Definition Unix (t : Time) : Z := t / Second.

(** ** refresh_token.go

    The column is a [VARCHAR(255) UNIQUE]; a token is ASCII. *)
Definition create_token_stmt (token : string) (exp iat : Time) (e : EnvStep) (now : Time) (db : DB)
    : result UUID * DB :=
  if 255 <? len token then (Err (PgError "value too long for type character varying(255)"), db)
  else match refresh_tokens db !! token with
       | Some _ => (Err (PgError "duplicate key value violates unique constraint"), db)
       | None => (Ok (es_uuid e), set_tokens (insert token (mkRefresh (es_uuid e) (pg_time exp) (pg_time iat))) db)
       end.

Definition delete_token_stmt (token : string) (e : EnvStep) (now : Time) (db : DB) : result unit * DB :=
  (Ok tt, set_tokens (delete token) db).

Definition token_exists_stmt (token : string) (e : EnvStep) (now : Time) (db : DB) : result bool * DB :=
  (Ok (bool_decide (is_Some (refresh_tokens db !! token))), db).

Definition token_Create (token : string) (exp iat : Time) : M (result UUID) := db_stmt (create_token_stmt token exp iat).
Definition token_Delete (token : string) : M (result unit) := db_stmt (delete_token_stmt token).
Definition token_Exists (token : string) : M (result bool) := db_stmt (token_exists_stmt token).

(** ** service.go *)
(** ** The body of a login *)
Record loginRequestBody := mkLogin { lb_Email : string; lb_Password : string }.
#[export] Instance login_struct : Struct loginRequestBody := {|
  zero_struct := mkLogin "" "";
  struct_field k :=
    if named k "email" then Some ("email"%string, λ j '(mkLogin e p), (λ v, mkLogin v p) <$> string_value j e)
    else if named k "password" then Some ("password"%string, λ j '(mkLogin e p), (λ v, mkLogin e v) <$> string_value j p)
    else None;
|}.

Section auth.
Context `{JwtLib}.

Definition GenerateAccessToken (secret email : string) (exp iat : Time) : string :=
  jwt_Sign secret (mkClaims ("access token | " +:+ email) (Some email) (Unix exp) (Unix iat)).

Definition GenerateRefreshToken (secret email : string) (exp iat : Time) : string :=
  jwt_Sign secret (mkClaims ("refresh token | " +:+ email) (Some email) (Unix exp) (Unix iat)).

(** [jwt.Parse] and the mapping of its errors, in both validations. *)
Definition parse_token (tokenStr : string) : M (result Claims) :=
  let* secret := st_gets (JWTSecret ∘ w_cfg) in
  let* now := time_Now in
  st_ret match jwt_Parse secret (Unix now) tokenStr with
         | Ok claims => Ok claims
         | Err err => if errors_Is err ErrTokenExpired then Err ErrTokenExpired else Err ErrInvalidToken
         | Panic => Panic
         end.

Definition ValidateAccessToken (tokenStr : string) : M (result Claims) := parse_token tokenStr.

Definition validateRefreshToken (tokenStr : string) : M (result Claims) :=
  let? exists_ := token_Exists tokenStr in
  if negb exists_ then st_ret (Err ErrTokenNotFound) else parse_token tokenStr.

(** What [Login] and [RefreshToken] end with: a new pair of tokens, of which
    the refresh token is stored. *)
Definition issue_tokens (email : string) : M (result (string * string)) :=
  let* secret := st_gets (JWTSecret ∘ w_cfg) in
  let* now := time_Now in
  let accessStr := GenerateAccessToken secret email (now + accessTokenTTL) now in
  let refreshStr := GenerateRefreshToken secret email (now + refreshTokenTTL) now in
  let? _ := token_Create refreshStr (now + refreshTokenTTL) now in
  st_ret (Ok (accessStr, refreshStr)).

Definition Login (email password : string) : M (result (string * string)) :=
  let* cfg := st_gets w_cfg in
  if negb (bool_decide (email = UserEmail cfg)) || negb (bool_decide (password = UserPassword cfg))
  then st_ret (Err ErrInvalidCredentials)
  else issue_tokens email.

Definition RefreshToken (token : string) : M (result (string * string)) :=
  let* v := validateRefreshToken token in
  match v with
  | Err err =>
    if errors_Is err ErrTokenNotFound then st_ret (Err ErrTokenNotFound)
    else let* _ := token_Delete token in st_ret (Err err)
  | Panic => st_ret Panic
  | Ok claims =>
    match c_email claims with
    | None => st_ret (Err ErrTokenKeyMissing)
    | Some email =>
      let? _ := token_Delete token in
      issue_tokens email
    end
  end.

Definition DeleteRefreshToken (tokenStr : string) : M (result unit) := token_Delete tokenStr.

(** ** cookie.go *)
Record Cookie := mkCookie {
  ck_Name : string; ck_Value : string; ck_MaxAge : Z; ck_HttpOnly : bool; ck_Secure : bool; ck_SameSiteLax : bool;
}.

Definition accessCookieName : string := "access_token".
Definition refreshCookieName : string := "refresh_token".

Definition NewAccessCookie (value : string) (maxAge : Z) (secure : bool) : Cookie :=
  mkCookie accessCookieName value maxAge true secure true.
Definition NewRefreshCookie (value : string) (maxAge : Z) (secure : bool) : Cookie :=
  mkCookie refreshCookieName value maxAge true secure true.
Definition ExpiredAccessCookie (secure : bool) : Cookie := NewAccessCookie "" (-1) secure.
Definition ExpiredRefreshCookie (secure : bool) : Cookie := NewRefreshCookie "" (-1) secure.

(** ** Requests with cookies; [r.Cookie] returns the first of a name. *)
Definition Cookies : Type := list (string * string).

Fixpoint find_cookie (name : string) (cs : Cookies) : option string :=
  match cs with
  | [] => None
  | (n, v) :: cs => if bool_decide (n = name) then Some v else find_cookie name cs
  end.

Record AuthResponse := mkAuthResp { ar_status : Z; ar_cookies : list Cookie }.
Definition plain (code : Z) : AuthResponse := mkAuthResp code [].

(** ** middleware.go: the next handler runs only behind a valid token. *)
Definition Jwt {A} (next : M A) (unauthorized : goerr → A) (crashed : A) (cs : Cookies) : M A :=
  match find_cookie accessCookieName cs with
  | None => st_ret (unauthorized (ErrOther "http: named cookie not present"))
  | Some token =>
    let* v := ValidateAccessToken token in
    match v with
    | Err err => st_ret (unauthorized err)
    | Panic => st_ret crashed
    | Ok _ => next
    end
  end.

(** ** handler/auth.go; [None] is a handler that panics. *)
Definition secondsPerMinute : Z := 60.
Definition secondsPerHour : Z := 60 * 60.

Definition session_cookies (accessT refreshT : string) (secure : bool) : list Cookie :=
  [NewAccessCookie accessT (AccessTokenTTL * secondsPerMinute) secure;
   NewRefreshCookie refreshT (RefreshTokenTTL * secondsPerHour) secure].

Definition login `{Unicode} (contentType body : string) : M (option AuthResponse) :=
  match DecodeBodyJSON (A := loginRequestBody) contentType body with
  | Err err => st_ret (Some (plain (mr_Status err)))
  | Panic => st_ret None
  | Ok (mkLogin email password) =>
    let* r := Login email password in
    match r with
    | Err err => if errors_Is err ErrInvalidCredentials then st_ret (Some (plain 401)) else st_ret (Some (plain 500))
    | Panic => st_ret None
    | Ok (accessT, refreshT) =>
      let* dev := st_gets (IsDevelopment ∘ w_cfg) in
      st_ret (Some (mkAuthResp 200 (session_cookies accessT refreshT (negb dev))))
    end
  end.

Definition logout (cs : Cookies) : M (option AuthResponse) :=
  match find_cookie "refresh_token" cs with
  | None => st_ret (Some (plain 400))
  | Some refreshT =>
    let* r := DeleteRefreshToken refreshT in
    match r with
    | Err _ => st_ret (Some (plain 500))
    | Panic => st_ret None
    | Ok _ =>
      let* dev := st_gets (IsDevelopment ∘ w_cfg) in
      st_ret (Some (mkAuthResp 200 [ExpiredAccessCookie (negb dev); ExpiredRefreshCookie (negb dev)]))
    end
  end.

Definition refreshToken (cs : Cookies) : M (option AuthResponse) :=
  match find_cookie "refresh_token" cs with
  | None => st_ret (Some (plain 400))
  | Some token =>
    let* r := RefreshToken token in
    match r with
    | Err err =>
      if errors_Is err ErrTokenExpired || errors_Is err ErrInvalidToken || errors_Is err ErrTokenNotFound
         || errors_Is err ErrTokenKeyMissing
      then st_ret (Some (plain 401)) else st_ret (Some (plain 500))
    | Panic => st_ret None
    | Ok (accessT, refreshT) =>
      let* dev := st_gets (IsDevelopment ∘ w_cfg) in
      st_ret (Some (mkAuthResp 200 (session_cookies accessT refreshT (negb dev))))
    end
  end.

Definition me (cs : Cookies) : M (option AuthResponse) :=
  match find_cookie "access_token" cs with
  | None => st_ret (Some (plain 401))
  | Some token =>
    let* v := ValidateAccessToken token in
    match v with
    | Err _ => st_ret (Some (plain 401))
    | Panic => st_ret None
    | Ok _ => st_ret (Some (plain 200))
    end
  end.

(** ** Lemmas *)

Lemma parse_token_state tokenStr w : (parse_token tokenStr w).2 = w.
Proof. reflexivity. Qed.

Lemma parse_token_signed `{!JwtLibOk} c w :
  (parse_token (jwt_Sign (JWTSecret (w_cfg w)) c) w).1
  = if Unix (w_now w) <? c_exp c then Ok c else Err ErrTokenExpired.
Proof.
  unfold parse_token. rewrite !st_bind_run. cbn [time_Now st_gets st_ret fst snd].
  change ((JWTSecret ∘ w_cfg) w) with (JWTSecret (w_cfg w)). rewrite jwt_Parse_Sign. by destruct (Unix _ <? _).
Qed.

(** What a pair of tokens is, and the row of the refresh token. *)
Lemma issue_tokens_Ok email w a r w' :
  issue_tokens email w = (Ok (a, r), w') →
  a = GenerateAccessToken (JWTSecret (w_cfg w)) email (w_now w + accessTokenTTL) (w_now w) ∧
  r = GenerateRefreshToken (JWTSecret (w_cfg w)) email (w_now w + refreshTokenTTL) (w_now w) ∧
  refresh_tokens (w_db w) !! r = None ∧ len r <= 255 ∧
  (∃ row, refresh_tokens (w_db w') = <[r := row]> (refresh_tokens (w_db w))) ∧
  w_cfg w' = w_cfg w ∧ w_now w <= w_now w' ∧ w_env w' `suffix_of` w_env w.
Proof.
  unfold issue_tokens. rewrite !st_bind_run. cbn [time_Now st_gets fst snd].
  unfold st_bind_res. rewrite st_bind_run. unfold token_Create. step_db; [done|].
  unfold create_token_stmt. destruct (255 <? _) eqn:El; [done|].
  destruct (refresh_tokens (w_db w) !! _) eqn:Er; [done|]. cbn [fst snd]. intros [= <- <- <-]. bsplit.
  simpl. autorewrite with world. simpl. split_and!; try done; [by eexists|apply ext_now|apply suffix_ext].
Qed.

Lemma token_Delete_reliable token w :
  reliable w →
  (token_Delete token w).1 = Ok tt ∧
  refresh_tokens (w_db (token_Delete token w).2) = delete token (refresh_tokens (w_db w)).
Proof. intros Hr. unfold token_Delete. by rewrite db_stmt_reliable. Qed.

(** A token that is not stored is refused and nothing is deleted. *)
Lemma RefreshToken_unknown token w :
  reliable w → refresh_tokens (w_db w) !! token = None →
  (RefreshToken token w).1 = Err ErrTokenNotFound ∧ same_state w (RefreshToken token w).2.
Proof.
  intros Hr Hn. unfold RefreshToken, validateRefreshToken, st_bind_res. rewrite !st_bind_run.
  unfold token_Exists. rewrite db_stmt_reliable by done. cbn [fst snd token_exists_stmt].
  rewrite Hn, bool_decide_eq_false_2 by (by intros []). cbn [negb st_ret fst snd]. split; [done|].
  pose proof (read_only_db_stmt (token_exists_stmt token) ltac:(done) w) as Hs.
  rewrite db_stmt_reliable in Hs by done. exact Hs.
Qed.

End auth.
