(* ===== verification/Hub.v ===== *)
(** [internal/events/service.go], the SSE hub: the broadcast channel, the
    buffer the flush loop batches, the subscriber channels and the counter
    of events cut from a batch. *)
From stdpp Require Import base tactics list gmap strings numbers.
From Stdlib Require Import ZArith Lia.
From S2P Require Import Prelude GoStd Model Codecs World.

Open Scope Z_scope.

Definition maxBatchSize : nat := 200.
Definition maxBufferSize : nat := Z.to_nat 10000.
Definition maxHooksPerChannel : nat := 100.

(** [NewEventService] *)
Definition NewEventService : Hub := mkHub [] [] ∅ ∅ 0 0.

(** A non-blocking send on a buffered channel of capacity [cap]. *)
Definition try_send {A} (cap : nat) (a : A) (ch : list A) : list A :=
  if (length ch <? cap)%nat then ch ++ [a] else ch.

Definition hub_Send (ev : Webhook) (h : Hub) : Hub :=
  mkHub (buffer h) (try_send maxBufferSize ev (broadcast h)) (subscribers h) (closed h) (next_chan h) (dropped h).

(** The [case event := <-s.broadcast] of [Start]'s loop. *)
Definition hub_receive (h : Hub) : Hub :=
  match broadcast h with
  | [] => h
  | ev :: rest => mkHub (buffer h ++ [ev]) rest (subscribers h) (closed h) (next_chan h) (dropped h)
  end.

Definition drainBroadcast (h : Hub) : Hub :=
  mkHub (buffer h ++ broadcast h) [] (subscribers h) (closed h) (next_chan h) (dropped h).

Definition excess (l : list Webhook) : nat := length l - maxBatchSize.

Definition flush (h : Hub) : Hub :=
  if (length (buffer h) =? 0)%nat then h
  else
    let batch := drop (excess (buffer h)) (buffer h) in
    mkHub [] (broadcast h) (try_send maxHooksPerChannel batch <$> subscribers h) (closed h) (next_chan h)
      (wrap64 (dropped h + Z.of_nat (excess (buffer h)))).

(** The [case <-ticker.C] of [Start]'s loop. *)
Definition hub_tick (h : Hub) : Hub := flush (drainBroadcast h).

Definition Subscribe (h : Hub) : nat * Hub :=
  (next_chan h,
   mkHub (buffer h) (broadcast h) (<[next_chan h := []]> (subscribers h)) (closed h) (S (next_chan h)) (dropped h)).

(** The closure [Subscribe] returns; closing a closed channel panics. *)
Definition unsub (ch : nat) (h : Hub) : result unit * Hub :=
  if bool_decide (ch ∈ closed h) then (Panic, h)
  else (Ok tt, mkHub (buffer h) (broadcast h) (delete ch (subscribers h)) ({[ch]} ∪ closed h) (next_chan h) (dropped h)).

Definition Dropped (h : Hub) : Z * Hub :=
  (dropped h, mkHub (buffer h) (broadcast h) (subscribers h) (closed h) (next_chan h) 0).

(** A subscriber takes a batch from its channel. *)
Definition hub_take (ch : nat) (h : Hub) : option (list Webhook) * Hub :=
  match subscribers h !! ch with
  | Some (batch :: rest) =>
    (Some batch, mkHub (buffer h) (broadcast h) (<[ch := rest]> (subscribers h)) (closed h) (next_chan h) (dropped h))
  | _ => (None, h)
  end.

(** [Send] on the world, called by the handlers and the workers. *)
Definition Send (ev : Webhook) : M unit := st_modify (set_hub (hub_Send ev)).

(** ** Histories

    Everything the hub's users can do, with the events accepted by the
    broadcast channel and the batches each subscriber has taken. *)
Inductive action : Type :=
| ASend (ev : Webhook)
| AReceive
| ATick
| ASubscribe
| AUnsubscribe (ch : nat)
| ATake (ch : nat)
| ADropped.

(** What an action does to the hub; only a channel that [Subscribe] returned
    can be unsubscribed. *)
Definition hub_act (a : action) (h : Hub) : Hub :=
  match a with
  | ASend ev => hub_Send ev h
  | AReceive => hub_receive h
  | ATick => hub_tick h
  | ASubscribe => (Subscribe h).2
  | AUnsubscribe ch => if (ch <? next_chan h)%nat then (unsub ch h).2 else h
  | ATake ch => (hub_take ch h).2
  | ADropped => (Dropped h).2
  end.

Record Hist := mkHist {
  h_hub : Hub;
  h_accepted : list Webhook;
  h_taken : gmap nat (list (list Webhook));
  h_batched : Z;   (* events put into batches so far *)
  h_cut : Z;       (* events cut from batches so far *)
  h_told : Z;      (* sum of what [Dropped] has returned *)
}.

Definition set_hist_hub (h : Hub) (s : Hist) : Hist :=
  mkHist h (h_accepted s) (h_taken s) (h_batched s) (h_cut s) (h_told s).

Definition act (a : action) (s : Hist) : Hist :=
  let h := h_hub s in
  match a with
  | ASend ev => mkHist (hub_Send ev h)
                  (if (length (broadcast h) <? maxBufferSize)%nat then h_accepted s ++ [ev] else h_accepted s)
                  (h_taken s) (h_batched s) (h_cut s) (h_told s)
  | AReceive => set_hist_hub (hub_receive h) s
  | ATick => let pending := buffer h ++ broadcast h in
             mkHist (hub_tick h) (h_accepted s) (h_taken s)
               (h_batched s + Z.of_nat (length (drop (excess pending) pending)))
               (h_cut s + Z.of_nat (excess pending)) (h_told s)
  | ASubscribe => mkHist (Subscribe h).2 (h_accepted s) (<[next_chan h := []]> (h_taken s))
                    (h_batched s) (h_cut s) (h_told s)
  | AUnsubscribe ch => if (ch <? next_chan h)%nat   (* a channel [Subscribe] returned *)
                       then set_hist_hub (unsub ch h).2 s else s
  | ATake ch => match (hub_take ch h).1 with
                | Some b => mkHist (hub_take ch h).2 (h_accepted s)
                              (<[ch := default [] (h_taken s !! ch) ++ [b]]> (h_taken s))
                              (h_batched s) (h_cut s) (h_told s)
                | None => s
                end
  | ADropped => mkHist (Dropped h).2 (h_accepted s) (h_taken s) (h_batched s) (h_cut s)
                  (h_told s + (Dropped h).1)
  end.

Definition start : Hist := mkHist NewEventService [] ∅ 0 0 0.
Definition runs (l : list action) : Hist := foldl (flip act) start l.

(** ** Lemmas *)

Lemma h_hub_act a s : h_hub (act a s) = hub_act a (h_hub s).
Proof.
  destruct a as [ev| | | |ch|ch|]; simpl; try done; [by case_match|].
  unfold hub_take. by destruct (subscribers (h_hub s) !! ch) as [[|b rest]|].
Qed.

Lemma runs_snoc l a : runs (l ++ [a]) = act a (runs l).
Proof. unfold runs. by rewrite foldl_app. Qed.

Lemma length_try_send {A} cap (a : A) ch : (length ch ≤ cap → length (try_send cap a ch) ≤ cap)%nat.
Proof.
  unfold try_send. case_match eqn:E; [|done]. apply Nat.ltb_lt in E. rewrite length_app. simpl. lia.
Qed.

Lemma excess_batch l : (length (drop (excess l) l) ≤ maxBatchSize)%nat.
Proof. rewrite length_drop. unfold excess. lia. Qed.

Lemma flush_buffer h : buffer (flush h) = [].
Proof.
  unfold flush. case_match eqn:E; [|done]. apply Nat.eqb_eq in E. by apply nil_length_inv.
Qed.

(** A batch offered to a channel is queued, or the channel was full. *)
Lemma lookup_flush h ch q :
  subscribers h !! ch = Some q → buffer h ≠ [] →
  subscribers (flush h) !! ch = Some (try_send maxHooksPerChannel (drop (excess (buffer h)) (buffer h)) q).
Proof.
  intros Hq Hb. unfold flush. rewrite (proj2 (Nat.eqb_neq _ _)).
  - simpl. by rewrite lookup_fmap, Hq.
  - by destruct (buffer h).
Qed.

(** What each subscriber has or will get, plus what is still pending, is a
    subsequence of what was accepted: nothing is invented, reordered or
    delivered twice. *)
Definition ordered (s : Hist) : Prop :=
  ∀ ch, mjoin (default [] (h_taken s !! ch) ++ default [] (subscribers (h_hub s) !! ch))
        ++ buffer (h_hub s) ++ broadcast (h_hub s) `sublist_of` h_accepted s.

(** Every channel id in use is below the next one. *)
Definition fresh_chans (s : Hist) : Prop :=
  ∀ ch, (next_chan (h_hub s) ≤ ch)%nat →
    h_taken s !! ch = None ∧ subscribers (h_hub s) !! ch = None ∧ ch ∉ closed (h_hub s).

(** No channel that can still be sent to is closed. *)
Definition open_chans (s : Hist) : Prop :=
  ∀ ch, is_Some (subscribers (h_hub s) !! ch) → ch ∉ closed (h_hub s).

Lemma ordered_flush h acc taken n cut told n' cut' told' :
  ordered (mkHist h acc taken n cut told) → ordered (mkHist (flush h) acc taken n' cut' told').
Proof.
  intros Ho ch. specialize (Ho ch). simpl in *. unfold flush.
  case_match; [exact Ho|]. simpl. rewrite lookup_fmap.
  destruct (subscribers h !! ch) as [q|]; simpl in *.
  - unfold try_send. case_match.
    + etrans; [|exact Ho]. rewrite app_assoc, !join_app. simpl. rewrite app_nil_r, <-!app_assoc.
      do 2 (apply sublist_app; [done|]). apply sublist_app; [apply sublist_drop|done].
    + etrans; [|exact Ho]. apply sublist_app; [done|]. by apply sublist_inserts_l.
  - etrans; [|exact Ho]. apply sublist_app; [done|]. by apply sublist_inserts_l.
Qed.

Lemma ordered_act a s : fresh_chans s → ordered s → ordered (act a s).
Proof.
  intros Hf Ho. destruct a as [ev| | | |ch0|ch0|]; simpl; try exact Ho.
  - intros ch. specialize (Ho ch). simpl. unfold try_send.
    case_match; [|exact Ho]. rewrite !app_assoc. apply sublist_app; [|done].
    by rewrite <-!app_assoc.
  - intros ch. specialize (Ho ch). simpl. unfold hub_receive.
    destruct (broadcast (h_hub s)) as [|ev rest] eqn:E; [by rewrite E in *|]. simpl.
    by rewrite <-(app_assoc (buffer _)).
  - apply (ordered_flush _ _ _ (h_batched s) (h_cut s) (h_told s)). intros ch. specialize (Ho ch). simpl. by rewrite app_nil_r.
  - intros ch. specialize (Ho ch). simpl. rewrite !lookup_insert. case_decide; [|exact Ho].
    simpl. etrans; [|exact Ho]. by apply sublist_inserts_l.
  - case_match; [|exact Ho]. unfold unsub. case_bool_decide; [exact Ho|]. intros ch. specialize (Ho ch). simpl in *.
    rewrite lookup_delete. case_decide; [|exact Ho]. simpl. etrans; [|exact Ho].
    rewrite app_nil_r, join_app, <-app_assoc. apply sublist_app; [done|]. by apply sublist_inserts_l.
  - unfold hub_take. destruct (subscribers (h_hub s) !! ch0) as [[|b rest]|] eqn:E; simpl; try exact Ho.
    intros ch. specialize (Ho ch). simpl. rewrite !lookup_insert. case_decide as Hc; [|exact Ho].
    subst. rewrite E in Ho. simpl in *. by rewrite <-(app_assoc (default _ _)).
Qed.

Lemma fresh_chans_act a s : fresh_chans s → fresh_chans (act a s).
Proof.
  intros Hf. destruct a as [ev| | | |ch0|ch0|]; simpl; try exact Hf.
  - intros ch Hch. specialize (Hf ch). simpl in *. unfold hub_receive in *.
    destruct (broadcast (h_hub s)); naive_solver.
  - intros ch Hch. unfold hub_tick, flush in *. simpl in *. case_match; simpl in *; [by apply Hf|].
    destruct (Hf ch Hch) as (? & Hs & ?). by rewrite lookup_fmap, Hs.
  - intros ch Hch. simpl in *. destruct (Hf ch) as (Ht & Hs & Hc); [lia|].
    by rewrite !lookup_insert_ne by lia.
  - case_match eqn:E; [|exact Hf]. apply Nat.ltb_lt in E.
    unfold unsub. case_bool_decide; [exact Hf|]. intros ch Hch. simpl in *.
    destruct (Hf ch Hch) as (Ht & Hs & Hc). rewrite lookup_delete_ne by lia.
    split_and!; [done..|]. assert (ch ≠ ch0) by lia. set_solver.
  - unfold hub_take. destruct (subscribers (h_hub s) !! ch0) as [[|b rest]|] eqn:E; simpl; try exact Hf.
    intros ch Hch. simpl in *. destruct (Hf ch Hch) as (Ht & Hs & Hc).
    assert (ch0 ≠ ch) by congruence. by rewrite !lookup_insert_ne.
Qed.

Lemma open_chans_act a s : fresh_chans s → open_chans s → open_chans (act a s).
Proof.
  intros Hf Ho. destruct a as [ev| | | |ch0|ch0|]; simpl; try exact Ho.
  - intros ch. specialize (Ho ch). simpl. unfold hub_receive. by destruct (broadcast (h_hub s)).
  - intros ch. specialize (Ho ch). simpl. unfold hub_tick, flush. simpl. case_match; [exact Ho|].
    simpl. by rewrite lookup_fmap, fmap_is_Some.
  - intros ch. simpl. rewrite lookup_insert. case_decide; [|apply Ho]. intros _.
    subst. apply (Hf (next_chan (h_hub s))). done.
  - case_match; [|exact Ho]. unfold unsub. case_bool_decide; [exact Ho|].
    intros ch. simpl. rewrite lookup_delete. case_decide; [by intros []|].
    intros Hs. specialize (Ho ch Hs). set_solver.
  - unfold hub_take. destruct (subscribers (h_hub s) !! ch0) as [[|b rest]|] eqn:E; simpl; try exact Ho.
    intros ch. simpl. rewrite lookup_insert. case_decide; [|apply Ho]. intros _.
    subst. apply Ho. by rewrite E.
Qed.

(** An invariant of [act] holds after every history. *)
Lemma runs_inv (I : Hist → Prop) l :
  I start → (∀ a s, I s → I (act a s)) → I (runs l).
Proof.
  intros H0 Hs. unfold runs. induction l as [|a l IH] using rev_ind; [done|].
  rewrite foldl_app. by apply Hs.
Qed.

Lemma runs_ok l : fresh_chans (runs l) ∧ ordered (runs l) ∧ open_chans (runs l).
Proof.
  apply (runs_inv (λ s, fresh_chans s ∧ ordered s ∧ open_chans s)).
  - split_and!; intros ch; simpl; rewrite ?lookup_empty; try done; by intros [].
  - intros a s (Hf & Ho & Hc).
    split_and!; auto using fresh_chans_act, ordered_act, open_chans_act.
Qed.

(** Every accepted event is pending, was put into a batch, or was cut from
    one; the cut ones are those [Dropped] reported or will report. *)
Definition accounted (s : Hist) : Prop :=
  Z.of_nat (length (h_accepted s))
    = Z.of_nat (length (buffer (h_hub s) ++ broadcast (h_hub s))) + h_batched s + h_cut s
  ∧ 0 <= h_batched s
  ∧ 0 <= h_cut s
  ∧ (Z.of_nat (length (h_accepted s)) <= max_int64 → h_told s + dropped (h_hub s) = h_cut s ∧ 0 <= h_told s ∧ 0 <= dropped (h_hub s)).

Lemma accounted_tick s : accounted s → accounted (act ATick s).
Proof.
  intros (Hl & Hb & Hc & Hd). unfold accounted. simpl.
  set (pending := buffer (h_hub s) ++ broadcast (h_hub s)) in *.
  assert (buffer (hub_tick (h_hub s)) = []) as -> by apply flush_buffer.
  assert (broadcast (hub_tick (h_hub s)) = []) as -> by (unfold hub_tick, flush; by case_match).
  pose proof (length_drop pending (excess pending)) as Hdrop.
  assert (excess pending ≤ length pending)%nat by (unfold excess; lia).
  split_and!; simpl; [lia..|]. intros Hmax. specialize (Hd Hmax). destruct Hd as (Hd & Ht & H0).
  unfold hub_tick, flush. simpl. fold pending.
  destruct (length pending =? 0)%nat eqn:E; simpl.
  - apply Nat.eqb_eq in E. lia.
  - rewrite wrap64_small by (unfold min_int64 in *; lia). lia.
Qed.

Lemma accounted_act a s : accounted s → accounted (act a s).
Proof.
  intros Ha. destruct a as [ev| | | |ch0|ch0|]; [|  |by apply accounted_tick| | | |];
    destruct Ha as (Hl & Hb & Hc & Hd); unfold accounted; simpl.
  - unfold try_send. rewrite length_app in *. case_match; simpl; rewrite ?length_app; simpl;
      split_and!; try lia.
  - unfold hub_receive. destruct (broadcast (h_hub s)) eqn:E; simpl; rewrite ?E in *; [done|].
    rewrite !length_app in *. simpl in *. split_and!; try done; lia.
  - done.
  - case_match; [|done]. unfold unsub. case_bool_decide; done.
  - unfold hub_take. destruct (subscribers (h_hub s) !! ch0) as [[|b rest]|]; done.
  - split_and!; try done. lia.
Qed.

Lemma runs_accounted l : accounted (runs l).
Proof. apply (runs_inv accounted); [|apply accounted_act]. unfold accounted. simpl. lia. Qed.

(** The capacities of the channels and the size of a batch. *)
Definition hub_bounded (h : Hub) : Prop :=
  (length (broadcast h) ≤ maxBufferSize)%nat ∧
  ∀ ch q, subscribers h !! ch = Some q →
    (length q ≤ maxHooksPerChannel)%nat ∧ Forall (λ b : list Webhook, length b ≤ maxBatchSize)%nat q.

Lemma hub_bounded_act a s : hub_bounded (h_hub s) → hub_bounded (h_hub (act a s)).
Proof.
  intros [Hb Hs]. destruct a as [ev| | | |ch0|ch0|]; simpl; try by split.
  - split; [by apply length_try_send|done].
  - unfold hub_receive. destruct (broadcast (h_hub s)) eqn:E; simpl; split; simpl; rewrite ?E in *; simpl in *; try done; lia.
  - unfold hub_tick, flush. simpl. case_match; [split; simpl; [lia|done]|]. split; simpl; [lia|].
    intros ch q. rewrite lookup_fmap. destruct (subscribers (h_hub s) !! ch) as [q0|] eqn:E; [|done].
    intros [= <-]. destruct (Hs ch q0 E) as [Hl HF]. split; [by apply length_try_send|].
    unfold try_send. case_match; [|done]. apply Forall_app; split; [done|]. constructor; [apply excess_batch|done].
  - split; [done|]. intros ch q. simpl. rewrite lookup_insert. case_decide; [|apply Hs].
    intros [= <-]. split; [simpl; lia|done].
  - case_match; [|by split]. unfold unsub. case_bool_decide; [by split|]. split; [done|]. simpl.
    intros ch q. rewrite lookup_delete. case_decide; [done|apply Hs].
  - unfold hub_take. destruct (subscribers (h_hub s) !! ch0) as [[|b rest]|] eqn:E; simpl; try by split.
    destruct (Hs ch0 _ E) as [Hl HF]. split; [done|]. intros ch q. simpl. rewrite lookup_insert.
    case_decide; [|apply Hs]. intros [= <-]. simpl in Hl. inversion_clear HF. split; [lia|done].
Qed.

Lemma runs_bounded l : hub_bounded (h_hub (runs l)).
Proof.
  apply (runs_inv (λ s, hub_bounded (h_hub s))); [|intros a s; apply hub_bounded_act].
  split; simpl; [lia|]. intros ch q. by rewrite lookup_empty.
Qed.
