(* ===== verification/Search.v ===== *)
(** [internal/events/service.go], the queries: listing, statistics, replay
    and search with pagination, on top of the repository. *)
From stdpp Require Import base tactics list gmap strings numbers.
From Stdlib Require Import ZArith Lia.
From S2P Require Import Prelude GoStd GoTime Model Codecs World Schema External EventsRepo.

Open Scope Z_scope.

Section service.
Context `{Postgres, UuidLib}.

Definition svc_GetAll (createdAt : option Time) : M (result (list Webhook)) := getAll createdAt.

Definition svc_GetStats : M (result Stats) :=
  let? stats := getStats in st_ret (Ok stats).

Definition svc_ReplayEvent (id : string) : M (result unit) :=
  match uuid_Parse id with
  | None => st_ret (Err ErrInvalidUUID)
  | Some uuidS => let? _ := replayEvent uuidS in st_ret (Ok tt)
  end.

(** The zero [time.Time] is the first instant of the year 1. *)
Definition convTime (iso : string) : Time := default zero_time (time_Parse iso).

Definition search_limit (opts : SearchRequest) : Z :=
  if sr_Limit opts <=? 0 then 25 else sr_Limit opts.

Definition lookup_opts (opts : SearchRequest) (reqLimit : Z) : LookupOpts :=
  mkLookup (sr_WebhookID opts) (sr_EventID opts) (sr_Offset opts) reqLimit.

Definition filter_opts (opts : SearchRequest) (reqLimit : Z) : FilterOpts :=
  mkFilter (sr_Providers opts) (sr_EventType opts) (sr_DeliveryStatuses opts) (sr_ResponseCode opts)
    (convTime <$> sr_FromTime opts) (convTime <$> sr_ToTime opts) (sr_PayloadSearch opts)
    (sr_HasRetries opts) (sr_HasError opts) (sr_Offset opts) reqLimit.

Definition Search (opts : SearchRequest) : M (result SearchResponse) :=
  let limit := search_limit opts in
  let reqLimit := wrap64 (limit + 1) in
  let? found1 := (if bool_decide (sr_Type opts = LookUp)
                  then lookup_events (lookup_opts opts reqLimit) else st_ret (Ok [])) in
  let? found2 := (if bool_decide (sr_Type opts = Filter)
                  then filter_events (filter_opts opts reqLimit) else st_ret (Ok [])) in
  let found := found1 ++ found2 in
  let hasMore := limit <? Z.of_nat (length found) in
  st_ret (Ok (mkResponse (if hasMore then take (Z.to_nat limit) found else found) hasMore)).

(** The rows a request selects, newest first. *)
Definition matches (opts : SearchRequest) (m : gmap UUID Webhook) : list Webhook :=
  let cond w :=
    if bool_decide (sr_Type opts = LookUp) then any_of (lookup_conds (lookup_opts opts 0)) w
    else match statuses_in (sr_DeliveryStatuses opts) with
         | Some sts => all_of (filter_conds (filter_opts opts 0) sts) w
         | None => false
         end in
  sort_by newest_created (filter (λ w, cond w = true) (rows m)).

(** [n] rows and one more tell whether there are more than [n]. *)
Lemma one_extra (limit off : nat) (l : list Webhook) :
  let found := take (S limit) (drop off l) in
  let more := (limit <? length found)%nat in
  (if more then take limit found else found) = take limit (drop off l)
  ∧ more = (off + limit <? length l)%nat.
Proof.
  simpl. rewrite length_take, length_drop. split.
  - case_match eqn:E.
    + rewrite take_take. f_equal. lia.
    + apply Nat.ltb_ge in E. rewrite !take_ge; [done|rewrite length_drop; lia..].
  - apply eq_bool_prop_intro. rewrite !Is_true_true, !Nat.ltb_lt. lia.
Qed.

Lemma one_extra_Z (limit off : Z) (l : list Webhook) :
  0 <= limit → 0 <= off →
  let found := take (Z.to_nat (limit + 1)) (drop (Z.to_nat off) l) in
  let more := limit <? Z.of_nat (length found) in
  (if more then take (Z.to_nat limit) found else found) = take (Z.to_nat limit) (drop (Z.to_nat off) l)
  ∧ more = (off + limit <? Z.of_nat (length l)).
Proof.
  intros Hl Ho. replace (Z.to_nat (limit + 1)) with (S (Z.to_nat limit)) by lia. cbv zeta.
  destruct (one_extra (Z.to_nat limit) (Z.to_nat off) l) as [E1 E2]. simpl in *.
  replace (limit <? _) with (Z.to_nat limit <? length (take (S (Z.to_nat limit)) (drop (Z.to_nat off) l)))%nat
    by (apply eq_bool_prop_intro; rewrite !Is_true_true, Nat.ltb_lt, Z.ltb_lt; lia).
  split; [exact E1|]. rewrite E2.
  apply eq_bool_prop_intro; rewrite !Is_true_true, Nat.ltb_lt, Z.ltb_lt; lia.
Qed.

Lemma search_limit_range opts : 0 < search_limit opts.
Proof. unfold search_limit. case_match; bsplit; lia. Qed.

Lemma lookup_events_Ok opts w l w' :
  lookup_events opts w = (Ok l, w') →
  0 <= lo_Limit opts ∧ 0 <= lo_Offset opts ∧
  l = take (Z.to_nat (lo_Limit opts)) (drop (Z.to_nat (lo_Offset opts))
        (sort_by newest_created (filter (λ x, any_of (lookup_conds opts) x = true)
                                   (rows (webhook_events (w_db w)))))).
Proof.
  unfold lookup_events. step_db; [done|]. intros Hr. destruct (negb _); [done|].
  destruct (select_page _ _ _ _ _) as [r db'] eqn:E. simpl in Hr. injection Hr as -> _.
  apply select_page_Ok in E as (? & ? & _ & ->). done.
Qed.

Lemma filter_events_Ok opts w l w' :
  filter_events opts w = (Ok l, w') →
  ∃ sts, statuses_in (fo_DeliveryStatuses opts) = Some sts ∧
  0 <= fo_Limit opts ∧ 0 <= fo_Offset opts ∧
  l = take (Z.to_nat (fo_Limit opts)) (drop (Z.to_nat (fo_Offset opts))
        (sort_by newest_created (filter (λ x, all_of (filter_conds opts sts) x = true)
                                   (rows (webhook_events (w_db w)))))).
Proof.
  unfold filter_events. step_db; [done|]. intros Hr. destruct (negb _); [done|].
  destruct (statuses_in _) as [sts|]; [|done]. exists sts. split; [done|].
  destruct (select_page _ _ _ _ _) as [r db'] eqn:E. simpl in Hr. injection Hr as -> _.
  apply select_page_Ok in E as (? & ? & _ & ->). done.
Qed.

Lemma wrap_limit opts : 0 <= wrap64 (search_limit opts + 1) → search_limit opts <= max_int64 →
  wrap64 (search_limit opts + 1) = search_limit opts + 1.
Proof.
  intros Hw Hm. pose proof (search_limit_range opts).
  destruct (decide (search_limit opts = max_int64)) as [E|].
  - by rewrite E in Hw.
  - apply wrap64_small. unfold min_int64, max_int64 in *. lia.
Qed.

(** A successful search is a page of the matching rows. *)
Lemma Search_Ok opts w r w' :
  sr_Type opts = LookUp ∨ sr_Type opts = Filter → search_limit opts <= max_int64 →
  Search opts w = (Ok r, w') →
  resp_Events r = take (Z.to_nat (search_limit opts))
                    (drop (Z.to_nat (sr_Offset opts)) (matches opts (webhook_events (w_db w))))
  ∧ resp_HasMore r = (sr_Offset opts + search_limit opts
                      <? Z.of_nat (length (matches opts (webhook_events (w_db w))))).
Proof.
  intros Ht Hm. unfold Search, st_bind_res. rewrite !st_bind_run.
  pose proof (search_limit_range opts).
  destruct (decide (sr_Type opts = LookUp)) as [E|E].
  - rewrite (bool_decide_eq_true_2 _ E), (bool_decide_eq_false_2 (sr_Type opts = Filter)) by (by rewrite E).
    destruct (lookup_events _ w) as [[l|e|] w1] eqn:El; [|done..]. simpl.
    apply lookup_events_Ok in El as (Hl & Ho & ->). simpl in Hl, Ho |- *.
    rewrite wrap_limit in * by done.
    intros [= <- _]. simpl. rewrite app_nil_r. unfold matches. rewrite (bool_decide_eq_true_2 _ E).
    apply one_extra_Z; lia.
  - assert (sr_Type opts = Filter) as E' by (by destruct Ht).
    rewrite (bool_decide_eq_false_2 _ E), (bool_decide_eq_true_2 _ E'). simpl. rewrite st_bind_run.
    destruct (filter_events _ w) as [[l|e|] w1] eqn:El; [|done..]. simpl.
    apply filter_events_Ok in El as (sts & Hs & Hl & Ho & ->). simpl in Hs, Hl, Ho |- *.
    rewrite wrap_limit in * by done.
    intros [= <- _]. simpl. unfold matches. rewrite (bool_decide_eq_false_2 _ E), Hs.
    apply one_extra_Z; lia.
Qed.

(** Validation leaves no request whose statement has no condition. *)
Lemma TrimSpace_empty : TrimSpace "" = ""%string.
Proof. reflexivity. Qed.

Lemma nonempty_trim s : TrimSpace (derefStr s) ≠ ""%string → is_Some (nonempty s).
Proof.
  destruct s as [s|]; simpl; [|by rewrite TrimSpace_empty].
  intros Ht. rewrite bool_decide_eq_false_2; [by eauto|]. by intros ->.
Qed.

Lemma valid_lookup_conds opts l : valid_lookup opts → lookup_conds (lookup_opts opts l) ≠ [].
Proof.
  intros [[Hs|Hs] _ _]; apply nonempty_trim in Hs as [t Ht]; unfold lookup_conds; simpl; rewrite Ht;
    [done|]. by destruct (cond (nonempty (sr_WebhookID opts)) _).
Qed.

Lemma valid_filter_conds opts l sts : valid_filter opts → filter_conds (filter_opts opts l) sts ≠ [].
Proof. intros [Hp _ _ _ _ _]. unfold filter_conds. simpl. by destruct (sr_Providers opts). Qed.

End service.
