(* ===== verification/Dashboard.v ===== *)
(** [internal/api/handler/events.go] and [provider.go]: the endpoints of the
    dashboard, behind the middleware of [Auth]. *)
From stdpp Require Import base tactics list gmap strings numbers pretty.
From Stdlib Require Import ZArith Lia.
From S2P Require Import Prelude GoStd Json GoTime GoCrypto Model Codecs Helpers World Schema External EventsRepo Crypto Providers Hub Search.

Open Scope Z_scope.

(** ** events.go *)

(** A pointer field: [null] leaves no value. *)
Definition ptr_value {A} (f : json → A → option A) (zero : A) (j : json) : option (option A) :=
  match j with JNull => Some None | _ => Some <$> f j zero end.

#[export] Instance search_request_struct : Struct SearchRequest := {|
  zero_struct := mkSearch "" None None [] None [] None None None None false false 0 0;
  struct_field k :=
    let tag name (set : json → SearchRequest → option SearchRequest) := Some (name, set) in
    if named k "type" then tag "type" (λ j '(mkSearch t w e p et ds rc f to pl hr he o l),
      (λ v, mkSearch v w e p et ds rc f to pl hr he o l) <$> string_value j t)
    else if named k "webhook_id" then tag "webhook_id" (λ j '(mkSearch t w e p et ds rc f to pl hr he o l),
      (λ v, mkSearch t v e p et ds rc f to pl hr he o l) <$> ptr_value string_value "" j)
    else if named k "event_id" then tag "event_id" (λ j '(mkSearch t w e p et ds rc f to pl hr he o l),
      (λ v, mkSearch t w v p et ds rc f to pl hr he o l) <$> ptr_value string_value "" j)
    else if named k "providers" then tag "providers" (λ j '(mkSearch t w e p et ds rc f to pl hr he o l),
      (λ v, mkSearch t w e v et ds rc f to pl hr he o l) <$> strings_value j)
    else if named k "event_type" then tag "event_type" (λ j '(mkSearch t w e p et ds rc f to pl hr he o l),
      (λ v, mkSearch t w e p v ds rc f to pl hr he o l) <$> ptr_value string_value "" j)
    else if named k "delivery_statuses" then tag "delivery_statuses" (λ j '(mkSearch t w e p et ds rc f to pl hr he o l),
      (λ v, mkSearch t w e p et v rc f to pl hr he o l) <$> strings_value j)
    else if named k "response_code" then tag "response_code" (λ j '(mkSearch t w e p et ds rc f to pl hr he o l),
      (λ v, mkSearch t w e p et ds v f to pl hr he o l) <$> ptr_value int_value 0 j)
    else if named k "from_time" then tag "from_time" (λ j '(mkSearch t w e p et ds rc f to pl hr he o l),
      (λ v, mkSearch t w e p et ds rc v to pl hr he o l) <$> ptr_value string_value "" j)
    else if named k "to_time" then tag "to_time" (λ j '(mkSearch t w e p et ds rc f to pl hr he o l),
      (λ v, mkSearch t w e p et ds rc f v pl hr he o l) <$> ptr_value string_value "" j)
    else if named k "payload_search" then tag "payload_search" (λ j '(mkSearch t w e p et ds rc f to pl hr he o l),
      (λ v, mkSearch t w e p et ds rc f to v hr he o l) <$> ptr_value string_value "" j)
    else if named k "has_retries" then tag "has_retries" (λ j '(mkSearch t w e p et ds rc f to pl hr he o l),
      (λ v, mkSearch t w e p et ds rc f to pl v he o l) <$> bool_value j hr)
    else if named k "has_error" then tag "has_error" (λ j '(mkSearch t w e p et ds rc f to pl hr he o l),
      (λ v, mkSearch t w e p et ds rc f to pl hr v o l) <$> bool_value j he)
    else if named k "offset" then tag "offset" (λ j '(mkSearch t w e p et ds rc f to pl hr he o l),
      (λ v, mkSearch t w e p et ds rc f to pl hr he v l) <$> int_value j o)
    else if named k "limit" then tag "limit" (λ j '(mkSearch t w e p et ds rc f to pl hr he o l),
      (λ v, mkSearch t w e p et ds rc f to pl hr he o v) <$> int_value j l)
    else None;
|}.

Section events.
Context `{Postgres, UuidLib}.

(** [json.NewDecoder(r.Body).Decode(&opts)] takes the first value of the body
    and skips unknown members. *)
Definition h_search (body : string) : M (option Reply) :=
  match Decode false (bytes_of body) EOF with
  | Err _ => st_ret (Some (http_Error "invalid request body" 400))
  | Panic => st_ret None
  | Ok (opts, _) =>
    match Validate opts with
    | Err err => st_ret (Some (http_Error (Error err) 400))
    | Panic => st_ret None
    | Ok _ =>
      let* r := Search opts in
      st_ret match r with
             | Err _ => Some (http_Error "internal server error" 500)
             | Panic => None
             | Ok res => reply res (λ _, http_Error "internal server error" 500)
             end
    end
  end.

(** Both RFC 3339 layouts of package [time] accept the same strings. *)
Definition h_getAll (cursor : string) : M (option Reply) :=
  let run c :=
    (let* r := svc_GetAll c in
     st_ret match r with
            | Err _ => Some (header_only 500)
            | Panic => None
            | Ok evs => reply evs (λ _, header_only 500)
            end) in
  if bool_decide (cursor = ""%string) then run None
  else match time_Parse cursor with
       | None => st_ret (Some (http_Error "invalid cursor" 400))
       | Some t => run (Some t)
       end.

Definition h_getStats : M (option Reply) :=
  let* r := svc_GetStats in
  st_ret match r with
         | Err _ => Some (header_only 500)
         | Panic => None
         | Ok stats => reply stats (λ _, header_only 500)
         end.

Definition h_replayEvent (id : string) : M (option Reply) :=
  let* r := svc_ReplayEvent id in
  st_ret match r with
         | Err err => if errors_Is err ErrInvalidUUID then Some (header_only 400)
                      else Some (http_Error (Error err) 500)
         | Panic => None
         | Ok _ => Some (header_only 200)
         end.

(** ** The SSE stream *)

Inductive Frame : Type :=
| Connected
| Heartbeat
| Data (batch : list Webhook)
| Overflow (count : Z).

(** Writing a frame and flushing it: each of the two may fail, and a frame
    whose flush fails may or may not have left; it is not counted as sent. *)
Definition write_frame (f : Frame) : M (result (list Frame)) :=
  let* wr := ext in
  match es_fault wr with
  | Some err => st_ret (Err err)
  | None =>
    let* fl := ext in
    st_ret match es_fault fl with Some err => Err err | None => Ok [f] end
  end.

Definition svc_Dropped : M Z := λ w, ((Dropped (w_hub w)).1, set_hub (λ h, (Dropped h).2) w).

(** The frames sent, and the error that closes the connection. *)
Definition streamBatch (batch : list Webhook) : M (list Frame * option goerr) :=
  match Marshal batch with
  | Err _ => st_ret ([], None)   (* logged, and the batch is skipped *)
  | Panic => st_ret ([], None)
  | Ok _ =>
    let* r := write_frame (Data batch) in
    match r with
    | Err err => st_ret ([], Some err)
    | Panic => st_ret ([], None)
    | Ok sent =>
      let* dropped := svc_Dropped in
      if 0 <? dropped then
        let* o := write_frame (Overflow dropped) in
        st_ret match o with
               | Err err => (sent, Some err)
               | Panic => (sent, None)
               | Ok more => (sent ++ more, None)
               end
      else st_ret (sent, None)
    end
  end.

Definition sendHeartbeat : M (list Frame * option goerr) :=
  let* r := write_frame Heartbeat in
  st_ret match r with Ok fs => (fs, None) | Err err => ([], Some err) | Panic => ([], None) end.

(** Errors of the first frame are logged and ignored; it is flushed even when
    writing it failed. *)
Definition announceConnected : M (list Frame) :=
  let* wr := ext in
  let* fl := ext in
  st_ret match es_fault wr, es_fault fl with None, None => [Connected] | _, _ => [] end.

(** What happens while the loop of [SSE] runs: the cases of its [select], and
    what the others do to the hub between two of them.  The list ends when the
    client is gone. *)
Inductive wakeup : Type :=
| HeartbeatTick
| BatchReady
| Meanwhile (a : action).

Definition next_batch (ch : nat) : M (option (list Webhook)) := λ w,
  ((hub_take ch (w_hub w)).1, set_hub (λ h, (hub_take ch h).2) w).

(** One wakeup: the frames sent, and whether the loop goes on. *)
Definition sse_wake (ch : nat) (wake : wakeup) : M (list Frame * option goerr) :=
  match wake with
  | HeartbeatTick => sendHeartbeat
  | BatchReady =>
    let* got := next_batch ch in
    match got with
    | None => st_ret ([], None)   (* nothing to receive: the case is not ready *)
    | Some batch => streamBatch batch
    end
  | Meanwhile a => let* _ := st_modify (set_hub (hub_act a)) in st_ret ([], None)
  end.

Fixpoint sse_loop (ch : nat) (wakes : list wakeup) : M (list Frame) :=
  match wakes with
  | [] => st_ret []
  | wake :: wakes =>
    let* r := sse_wake ch wake in
    match r with
    | (fs, Some _) => st_ret fs
    | (fs, None) => let* rest := sse_loop ch wakes in st_ret (fs ++ rest)
    end
  end.

Definition svc_Subscribe : M nat := λ w, ((Subscribe (w_hub w)).1, set_hub (λ h, (Subscribe h).2) w).

(** A connection from its subscription to the deferred [unsub]. *)
Definition SSE (wakes : list wakeup) : M (list Frame) :=
  let* ch := svc_Subscribe in
  let* hello := announceConnected in
  let* frames := sse_loop ch wakes in
  let* _ := st_modify (set_hub (λ h, (unsub ch h).2)) in
  st_ret (hello ++ frames).

End events.

(** ** provider.go *)
Record configureRequestBody := mkConfigure {
  cb_SigningSecret : string; cb_DestinationURL : string; cb_MaxRetries : Z; cb_MaxReqSecond : Z;
}.

#[export] Instance configure_struct : Struct configureRequestBody := {|
  zero_struct := mkConfigure "" "" 0 0;
  struct_field k :=
    if named k "signing_secret" then Some ("signing_secret"%string, λ j '(mkConfigure sec des n m),
      (λ v, mkConfigure v des n m) <$> string_value j sec)
    else if named k "destination_url" then Some ("destination_url"%string, λ j '(mkConfigure sec des n m),
      (λ v, mkConfigure sec v n m) <$> string_value j des)
    else if named k "max_retries" then Some ("max_retries"%string, λ j '(mkConfigure sec des n m),
      (λ v, mkConfigure sec des v m) <$> int_value j n)
    else if named k "max_req_second" then Some ("max_req_second"%string, λ j '(mkConfigure sec des n m),
      (λ v, mkConfigure sec des n v) <$> int_value j m)
    else None;
|}.

Section provider.
Context `{UuidLib}.

Definition ph_getAll : M (option Reply) :=
  let* r := Providers.GetAll in
  st_ret match r with
         | Err _ => Some (http_Error "error retrieving all providers from database" 500)
         | Panic => None
         | Ok provs => reply provs (λ _, http_Error "error marshaling providers" 500)
         end.

Definition ph_configure `{Unicode} (id contentType body : string)
    : M (option Reply) :=
  match DecodeBodyJSON (A := configureRequestBody) contentType body with
  | Err err => st_ret (Some (http_Error (mr_Message err) (mr_Status err)))
  | Panic => st_ret None
  | Ok body =>
    let* r := Configure id (cb_SigningSecret body) (cb_DestinationURL body) (cb_MaxRetries body) (cb_MaxReqSecond body) in
    st_ret match r with
           | Err err =>
             if errors_Is err ErrMissingSigningSecret || errors_Is err ErrMissingDestination
                || errors_Is err ErrInvalidRetryCount || errors_Is err ErrInvalidReqSecond
             then Some (http_Error (Error err) 400) else Some (http_Error (Error err) 500)
           | Panic => None
           | Ok provider => reply provider (λ err, http_Error (Error err) 500)
           end
  end.

End provider.
