(* ===== verification/Stream.v ===== *)
(** The wire format of the SSE stream of [internal/api/handler/events.go]: the
    bytes the handler writes for each frame, and what a client makes of them,
    by the line-based event stream format of the HTML standard (the reference
    the stream is measured against; a browser implements it). *)
From stdpp Require Import base tactics list gmap strings numbers pretty.
From Stdlib Require Import ZArith Ascii Lia.
From S2P Require Import Prelude GoStd GoCrypto Model Codecs World Schema External Hub Dashboard.

Open Scope Z_scope.

Definition LF : string := string_of [10].
Definition quoted (s : string) : string := string_of [34] +:+ s +:+ string_of [34].

(** ** What the handler writes *)

Definition overflow_data (dropped : Z) : string := "{" +:+ quoted "count" +:+ ":" +:+ pretty dropped +:+ "}".

(** The argument of [fmt.Fprintf] of each frame. *)
Definition render `{UuidLib} (f : Frame) : string :=
  match f with
  | Connected => "event: connected" +:+ LF +:+ "data: {}" +:+ LF +:+ LF
  | Heartbeat => ": heartbeat" +:+ LF +:+ LF
  | Data batch => match Marshal batch with Ok data => "data: " +:+ data +:+ LF +:+ LF | _ => "" end
  | Overflow dropped =>
    "event: overflow" +:+ LF +:+ "data: " +:+ overflow_data dropped +:+ LF +:+ LF
  end.

Definition wire `{UuidLib} (frames : list Frame) : string :=
  foldr (λ f s, render f +:+ s) "" frames.

(** ** The client *)

(** The lines of a stream, ended by LF, CR or CR LF; what follows the last end
    of line is incomplete and left out.  [cr]: the last byte was a CR. *)
Fixpoint lines (s : string) (cur : string) (cr : bool) : list string :=
  match s with
  | EmptyString => []
  | String c s =>
    if code c =? 10 then (if cr then lines s "" false else cur :: lines s "" false)
    else if code c =? 13 then cur :: lines s "" true
    else lines s (cur +:+ String c EmptyString) false
  end.

(** The name of a field and, after the first colon, its value. *)
Fixpoint cut_colon (s : string) : string * option string :=
  match s with
  | EmptyString => (EmptyString, None)
  | String c s =>
    if code c =? 58 then (EmptyString, Some s)
    else let '(name, value) := cut_colon s in (String c name, value)
  end.

(** One leading space of a value is dropped; a field without a colon has the
    empty value. *)
Definition field_value (value : option string) : string :=
  match value with
  | None => EmptyString
  | Some (String c s) => if code c =? 32 then s else String c s
  | Some EmptyString => EmptyString
  end.

Fixpoint join_lines (l : list string) : string :=
  match l with [] => EmptyString | [a] => a | a :: l => a +:+ LF +:+ join_lines l end.

(** The data lines and the type collected so far; an empty line dispatches an
    event, of the type [message] unless one was given, if there was any data;
    a line that starts with a colon is a comment; other fields are ignored. *)
Fixpoint events (ls : list string) (data : list string) (type : string) : list (string * string) :=
  match ls with
  | [] => []
  | line :: ls =>
    if bool_decide (line = EmptyString) then
      match data with
      | [] => events ls [] EmptyString
      | _ => ((if bool_decide (type = EmptyString) then "message"%string else type), join_lines data)
               :: events ls [] EmptyString
      end
    else
      let '(name, value) := cut_colon line in
      if bool_decide (name = "data"%string) then events ls (data ++ [field_value value]) type
      else if bool_decide (name = "event"%string) then events ls data (field_value value)
      else events ls data type
  end.

Definition client (stream : string) : list (string * string) := events (lines stream EmptyString false) [] EmptyString.

(** [JSON.parse], which knows no limit on the depth: it starts further below
    the limit than the text is long. *)
Definition JSON_parse (s : string) : option Json.json := Json.parse_at (- len s) (bytes_of s).

(** The values of the messages. *)
Definition feed (stream : string) : list Json.json :=
  omap (λ '(type, data), if bool_decide (type = "message"%string) then JSON_parse data else None) (client stream).

(** ** Frames and the events they stand for *)

Definition batches (frames : list Frame) : list (list Webhook) :=
  omap (λ f, match f with Data batch => Some batch | _ => None end) frames.

Definition event_of `{UuidLib} (f : Frame) : option (string * string) :=
  match f with
  | Connected => Some ("connected", "{}")
  | Heartbeat => None
  | Data batch => match Marshal batch with Ok data => Some ("message", data) | _ => None end
  | Overflow dropped => Some ("overflow", overflow_data dropped)
  end%string.

(** ** Lemmas *)

Fixpoint one_line (s : string) : bool :=
  match s with
  | EmptyString => true
  | String c s => negb (code c =? 10) && negb (code c =? 13) && one_line s
  end.

(** encoding/json writes control characters as escapes, and values without
    indentation: its output is one line. *)
Lemma one_line_visible s : Json.visible (bytes_of s) → one_line s = true.
Proof.
  induction s as [|c s IH]; [done|]. cbn [bytes_of one_line]. intros [Hc Hs]%Json.visible_cons.
  rewrite (proj2 (Z.eqb_neq _ 10)), (proj2 (Z.eqb_neq _ 13)) by lia. by apply IH.
Qed.

Lemma Marshal_one_line `{UuidLib} (batch : list Webhook) data : Marshal batch = Ok data → one_line data = true.
Proof. intros (j & _ & Hv & _)%Marshal_batch. by apply one_line_visible. Qed.

Lemma JSON_parse_batch `{UuidLib} (batch : list Webhook) data : Marshal batch = Ok data → JSON_parse data = batch_value batch.
Proof.
  intros (j & -> & _ & Hl & Hr)%Marshal_batch. eapply Json.reads_parse; [exact Hr|].
  rewrite length_bytes_of in Hl. unfold len. lia.
Qed.

Lemma one_line_app a b : one_line (a +:+ b) = one_line a && one_line b.
Proof. induction a as [|c a IH]; [done|]. rewrite string_app_cons. simpl. by rewrite IH, andb_assoc. Qed.

Lemma pretty_N_char_code d : 48 <= code (pretty_N_char d) <= 57.
Proof. unfold pretty_N_char. repeat case_match; vm_compute; split; discriminate. Qed.

Lemma one_line_pretty_N_go x s : one_line s = true → one_line (pretty_N_go x s) = true.
Proof.
  revert s. induction (N.lt_wf_0 x) as [x _ IH]; intros s Hs.
  destruct (decide (x = 0)%N) as [->|]; [by rewrite pretty_N_go_0|].
  rewrite pretty_N_go_step by lia. apply IH; [by apply N.div_lt; lia|].
  cbn [one_line]. rewrite Hs. pose proof (pretty_N_char_code (x mod 10)).
  rewrite (proj2 (Z.eqb_neq _ 10)), (proj2 (Z.eqb_neq _ 13)) by lia. done.
Qed.

Lemma one_line_pretty (z : Z) : one_line (pretty z) = true.
Proof.
  assert (∀ n : N, one_line (pretty n) = true) as HN.
  { intros n. unfold pretty, pretty_N. case_decide; [done|]. by apply one_line_pretty_N_go. }
  destruct z as [|p|p]; [done|exact (HN (Npos p))|]. exact (HN (Npos p)).
Qed.

Lemma one_line_overflow n : one_line (overflow_data n) = true.
Proof. unfold overflow_data. by rewrite !one_line_app, one_line_pretty. Qed.

Lemma lines_cons line rest cur :
  one_line line = true → lines (line +:+ LF +:+ rest) cur false = (cur +:+ line) :: lines rest "" false.
Proof.
  revert cur. induction line as [|c line IH]; intros cur Hl.
  - by rewrite string_app_nil_r.
  - rewrite string_app_cons. simpl in Hl |- *. apply andb_true_iff in Hl as [[Hlf Hcr]%andb_true_iff Hl].
    apply negb_true_iff in Hlf, Hcr. rewrite Hlf, Hcr, (IH _ Hl), string_app_assoc. done.
Qed.

Lemma lines_blank rest : lines (LF +:+ rest) "" false = EmptyString :: lines rest "" false.
Proof. done. Qed.

Section wire.
Context `{UuidLib}.

(** The frame's bytes are whole lines that end in an empty one, and dispatch
    the frame's event. *)
Lemma render_events f rest :
  client (render f +:+ rest)
  = (match event_of f with Some e => [e] | None => [] end) ++ client rest.
Proof.
  unfold client, render. destruct f as [| |batch|dropped]; rewrite ?string_app_assoc.
  - rewrite lines_cons by done. rewrite lines_cons by done. rewrite lines_blank. reflexivity.
  - rewrite lines_cons by done. rewrite lines_blank. reflexivity.
  - cbn [event_of]. destruct (Marshal batch) as [data| |] eqn:Em; [|done..]. rewrite !string_app_assoc.
    rewrite <-(string_app_assoc "data: "), lines_cons by (rewrite one_line_app, (Marshal_one_line _ _ Em); done).
    rewrite lines_blank. reflexivity.
  - rewrite lines_cons by done.
    rewrite <-(string_app_assoc "data: "), lines_cons by (rewrite one_line_app, one_line_overflow; done).
    rewrite lines_blank. reflexivity.
Qed.

Lemma client_wire frames : client (wire frames) = omap event_of frames.
Proof.
  induction frames as [|f frames IH]; [done|]. unfold wire. cbn [foldr]. rewrite render_events. fold (wire frames).
  rewrite IH. simpl. by destruct (event_of f).
Qed.

(** The messages carry the values of the batches. *)
Lemma feed_wire frames : feed (wire frames) = omap batch_value (batches frames).
Proof.
  unfold feed. rewrite client_wire. induction frames as [|f frames IH]; [done|].
  destruct f as [| |batch|n]; simpl in *; [exact IH..| |exact IH].
  destruct (Marshal batch) as [data| |] eqn:Em; simpl.
  - rewrite (JSON_parse_batch _ _ Em). destruct (batch_value batch); [f_equal|]; exact IH.
  - destruct (batch_value batch) eqn:Eb; [|exact IH].
    destruct (proj2 (Marshal_batch_ok batch)) as [t Et]; congruence.
  - by destruct (text_of_returns (batch_json batch)).
Qed.

End wire.
