(* ===== verification/SseTrace.v ===== *)
(** An SSE connection as part of a history of the hub: what the connection and
    the others do meanwhile are actions of [Hub], and the batches on the wire
    are among those its channel gave. *)
From stdpp Require Import base tactics list gmap strings numbers.
From Stdlib Require Import ZArith Lia.
From S2P Require Import Prelude GoStd GoCrypto Model Codecs World Schema External EventsRepo Search.
From S2P Require Import Hub Dashboard Stream.

Open Scope Z_scope.

Section trace.
Context `{UuidLib}.

(** The batches channel [ch] has given after a history. *)
Definition taken (ch : nat) (l : list action) : list (list Webhook) := default [] (h_taken (runs l) !! ch).

(** The hub of [w'] is that of [w] after further actions, among which channel
    [ch] gave at least the batches in [frames]. *)
Record streams (ch : nat) (l : list action) (frames : list Frame) (w' : World) (l' : list action) : Prop := {
  ss_hub : w_hub w' = h_hub (runs (l ++ l'));
  ss_chan : (ch < next_chan (h_hub (runs (l ++ l'))))%nat;
  ss_taken : taken ch l ++ batches frames `sublist_of` taken ch (l ++ l');
}.

Lemma streams_trans ch l fs w l' fs' w' l'' :
  streams ch l fs w l' → streams ch (l ++ l') fs' w' l'' → streams ch l (fs ++ fs') w' (l' ++ l'').
Proof.
  intros [_ _ Ht] [Hh Hc Ht']. rewrite <-app_assoc in *. split; [done..|].
  unfold batches in *. rewrite omap_app, app_assoc. etrans; [|exact Ht']. by apply sublist_app.
Qed.

Lemma taken_act a ch s :
  (ch < next_chan (h_hub s))%nat →
  (ch < next_chan (h_hub (act a s)))%nat ∧
  default [] (h_taken s !! ch) `sublist_of` default [] (h_taken (act a s) !! ch).
Proof.
  intros Hc. destruct a as [ev| | | |ch0|ch0|]; simpl; try done.
  - unfold hub_receive. by destruct (broadcast (h_hub s)).
  - unfold hub_tick, flush. simpl. by case_match.
  - split; [lia|]. by rewrite lookup_insert_ne by lia.
  - case_match; [|done]. unfold unsub. by case_bool_decide.
  - unfold hub_take. destruct (subscribers (h_hub s) !! ch0) as [[|b rest]|]; simpl; try done.
    split; [done|]. rewrite lookup_insert. case_decide; [|done]. subst. by apply sublist_inserts_r.
Qed.

Lemma streams_act a ch l w :
  (ch < next_chan (h_hub (runs l)))%nat → w_hub w = hub_act a (h_hub (runs l)) → streams ch l [] w [a].
Proof.
  intros Hc Hw. destruct (taken_act a ch (runs l) Hc) as [Hc' Ht].
  split; unfold taken; rewrite runs_snoc; [by rewrite h_hub_act|done|]. by rewrite app_nil_r.
Qed.

Lemma streams_nil ch l frames w :
  (ch < next_chan (h_hub (runs l)))%nat → w_hub w = h_hub (runs l) → batches frames = [] → streams ch l frames w [].
Proof. intros Hc Hw Hb. split; rewrite app_nil_r; [done..|]. by rewrite Hb, app_nil_r. Qed.

Lemma streams_take ch l w batch rest :
  (ch < next_chan (h_hub (runs l)))%nat → subscribers (h_hub (runs l)) !! ch = Some (batch :: rest) →
  w_hub w = (hub_take ch (h_hub (runs l))).2 → streams ch l [Data batch] w [ATake ch].
Proof.
  intros Hc Hs Hw.
  destruct (streams_act (ATake ch) ch l w Hc Hw) as [Hh Hc' _]. split; [done..|].
  unfold taken. rewrite runs_snoc. simpl. unfold hub_take. rewrite Hs. simpl. by rewrite lookup_insert_eq.
Qed.

Lemma write_frame_hub f w :
  w_hub (write_frame f w).2 = w_hub w ∧
  ((write_frame f w).1 = Ok [f] ∨ ∃ err, (write_frame f w).1 = Err err).
Proof.
  unfold write_frame. rewrite st_bind_run. case_match; [simpl; autorewrite with world; eauto|].
  rewrite st_bind_run. simpl. autorewrite with world. split; [done|]. case_match; eauto.
Qed.

(** What sending a batch does to the hub and puts on the wire. *)
Lemma streamBatch_cases batch w :
  (w_hub (streamBatch batch w).2 = w_hub w ∨ w_hub (streamBatch batch w).2 = (Dropped (w_hub w)).2) ∧
  batches (streamBatch batch w).1.1 `sublist_of` [batch].
Proof.
  unfold streamBatch. destruct (Marshal batch); [|simpl; split; [auto|apply sublist_nil_l]..].
  rewrite st_bind_run. destruct (write_frame_hub (Data batch) w) as [Hh [E|[err E]]]; rewrite E.
  - rewrite st_bind_run. unfold svc_Dropped. cbn [fst snd].
    destruct (0 <? _); [|simpl; rewrite Hh; auto].
    rewrite st_bind_run. set (w1 := set_hub _ _). set (o := Overflow _).
    assert (w_hub w1 = (Dropped (w_hub w)).2) as Hw1 by (unfold w1; simpl; by rewrite Hh).
    destruct (write_frame_hub o w1) as [Hh2 [E2|[err E2]]]; rewrite E2; simpl; rewrite Hh2; auto.
  - simpl. rewrite Hh. split; [auto|]. apply sublist_nil_l.
Qed.

Lemma sse_wake_streams ch wake l w :
  (ch < next_chan (h_hub (runs l)))%nat → w_hub w = h_hub (runs l) →
  ∃ l', streams ch l (sse_wake ch wake w).1.1 (sse_wake ch wake w).2 l'.
Proof.
  intros Hc Hw. destruct wake as [| |a].
  - exists []. cbn [sse_wake]. unfold sendHeartbeat. rewrite st_bind_run.
    destruct (write_frame_hub Heartbeat w) as [Hh [E|[err E]]]; rewrite E; apply streams_nil; simpl; by rewrite ?Hh.
  - cbn [sse_wake]. rewrite st_bind_run. unfold next_batch. cbn [fst snd]. rewrite Hw.
    destruct (subscribers (h_hub (runs l)) !! ch) as [[|batch rest]|] eqn:Es.
    1, 3: exists []; unfold hub_take; rewrite Es; apply streams_nil; [done| |done]; simpl; by rewrite Hw, Es.
    set (w1 := set_hub _ w).
    assert (streams ch l [Data batch] w1 [ATake ch]) as H1
      by (eapply streams_take; [done..|]; unfold w1; simpl; by rewrite Hw).
    replace (hub_take ch (h_hub (runs l))).1 with (Some batch) by (unfold hub_take; by rewrite Es).
    destruct (streamBatch_cases batch w1) as [Hh Hb]. destruct (streamBatch batch w1) as [[fs e] w'].
    cbn [fst snd] in *. pose proof (ss_chan _ _ _ _ _ H1) as Hc1. pose proof (ss_hub _ _ _ _ _ H1) as Hw1.
    assert (∃ l'', streams ch (l ++ [ATake ch]) [] w' l'') as [l'' H2].
    { destruct Hh as [Hh|Hh]; [exists []; by apply streams_nil; rewrite ?Hh|].
      exists [ADropped]. apply streams_act; [done|]. by rewrite Hh, Hw1. }
    exists ([ATake ch] ++ l''). destruct (streams_trans _ _ _ _ _ _ _ _ H1 H2) as [? ? Ht]. split; [done..|].
    etrans; [|exact Ht]. rewrite app_nil_r. by apply sublist_app.
  - exists [a]. cbn [sse_wake]. rewrite st_bind_run. apply streams_act; [done|]. simpl. by rewrite Hw.
Qed.

Lemma sse_loop_streams ch wakes l w :
  (ch < next_chan (h_hub (runs l)))%nat → w_hub w = h_hub (runs l) →
  ∃ l', streams ch l (sse_loop ch wakes w).1 (sse_loop ch wakes w).2 l'.
Proof.
  revert l w. induction wakes as [|wake wakes IH]; intros l w Hc Hw; [exists []; by apply streams_nil|].
  cbn [sse_loop]. rewrite st_bind_run. destruct (sse_wake_streams ch wake l w Hc Hw) as [l1 H1].
  destruct (sse_wake ch wake w) as [[fs [err|]] w1]; cbn [fst snd] in *; [by exists l1|].
  rewrite st_bind_run. destruct (IH (l ++ l1) w1) as [l2 H2]; [apply H1..|].
  exists (l1 ++ l2). by eapply streams_trans.
Qed.

Lemma sublist_join {A} (l k : list (list A)) : l `sublist_of` k → mjoin l `sublist_of` mjoin k.
Proof.
  induction 1 as [|x l k _ IH|x l k _ IH]; simpl; [done|by apply sublist_app|by apply sublist_inserts_l].
Qed.

(** The whole connection. *)
Lemma SSE_streams wakes l w frames w' :
  w_hub w = h_hub (runs l) → SSE wakes w = (frames, w') →
  ∃ l', w_hub w' = h_hub (runs (l ++ l')) ∧
    mjoin (batches frames) `sublist_of` h_accepted (runs (l ++ l')) ∧
    subscribers (w_hub w') !! next_chan (w_hub w) = None.
Proof.
  intros Hw. unfold SSE. rewrite st_bind_run. unfold svc_Subscribe. cbn [fst snd]. rewrite Hw.
  set (ch := (Subscribe (h_hub (runs l))).1). set (w1 := set_hub _ w).
  assert (w_hub w1 = h_hub (runs (l ++ [ASubscribe]))) as Hw1
    by (unfold w1; rewrite runs_snoc; simpl; by rewrite Hw).
  assert (taken ch (l ++ [ASubscribe]) = []) as Ht0 by (unfold taken; rewrite runs_snoc; simpl; by rewrite lookup_insert_eq).
  rewrite st_bind_run.
  assert (w_hub (announceConnected w1).2 = w_hub w1 ∧ batches (announceConnected w1).1 = []) as [Hh Hb].
  { unfold announceConnected. rewrite !st_bind_run. simpl. autorewrite with world. split; [done|]. by repeat case_match. }
  destruct (announceConnected w1) as [hello w2]. cbn [fst snd] in *. rewrite st_bind_run.
  destruct (sse_loop_streams ch wakes (l ++ [ASubscribe]) w2) as [l' [Hh' Hc' Ht]];
    [rewrite runs_snoc; apply Nat.lt_succ_diag_r|by rewrite Hh|].
  destruct (sse_loop ch wakes w2) as [fs w3]. cbn [fst snd] in *. rewrite st_bind_run. cbn [st_modify st_ret fst snd].
  intros [= <- <-]. set (h := (l ++ [ASubscribe]) ++ l') in *.
  exists ([ASubscribe] ++ l' ++ [AUnsubscribe ch]).
  replace (l ++ [ASubscribe] ++ l' ++ [AUnsubscribe ch]) with (h ++ [AUnsubscribe ch]) by (unfold h; by rewrite <-!app_assoc).
  rewrite runs_snoc, h_hub_act. simpl. rewrite (proj2 (Nat.ltb_lt _ _) Hc'), Hh'. split_and!; [done| |].
  - unfold batches in *. rewrite omap_app, Hb. simpl. rewrite Ht0 in Ht. etrans; [by apply sublist_join|].
    destruct (runs_ok h) as (_ & Ho & _). etrans; [|exact (Ho ch)]. rewrite join_app, <-app_assoc. by apply sublist_inserts_r.
  - unfold unsub. case_bool_decide as Hcl; simpl; [|apply lookup_delete_eq].
    destruct (runs_ok h) as (_ & _ & Ho). destruct (subscribers (h_hub (runs h)) !! ch) eqn:E; [|done].
    destruct (Ho ch); [by rewrite E|done].
Qed.

(** ** Every batch that is sent has a value *)

Definition sendable (frames : list Frame) : Prop := Forall (λ b, batch_value b ≠ None) (batches frames).

Lemma sendable_app fs fs' : sendable fs → sendable fs' → sendable (fs ++ fs').
Proof. unfold sendable, batches. rewrite omap_app. intros. by apply Forall_app. Qed.

Lemma streamBatch_sendable batch w : sendable (streamBatch batch w).1.1.
Proof.
  unfold streamBatch. destruct (Marshal batch) as [data| |] eqn:Em; [|constructor..].
  assert (batch_value batch ≠ None) as Hv by (apply Marshal_batch_ok; eauto).
  destruct (streamBatch_cases batch w) as [_ Hb]. revert Hb. unfold streamBatch. rewrite Em. unfold sendable.
  match goal with |- batches ?fs `sublist_of` _ → _ => generalize (batches fs) end.
  intros bs [->%sublist_nil_r|(bs' & -> & ->%sublist_nil_r)]%sublist_cons_r; [constructor|by constructor].
Qed.

Lemma sse_wake_sendable ch wake w : sendable (sse_wake ch wake w).1.1.
Proof.
  destruct wake as [| |a]; cbn [sse_wake]; rewrite ?st_bind_run; [|unfold next_batch; cbn [fst snd]|constructor].
  - unfold sendHeartbeat. rewrite st_bind_run.
    destruct (write_frame_hub Heartbeat w) as [_ [E|[err E]]]; rewrite E; constructor.
  - destruct (hub_take ch (w_hub w)).1 as [batch|]; [apply streamBatch_sendable|constructor].
Qed.

Lemma sse_loop_sendable ch wakes w : sendable (sse_loop ch wakes w).1.
Proof.
  revert w. induction wakes as [|wake wakes IH]; intros w; [constructor|]. cbn [sse_loop]. rewrite st_bind_run.
  pose proof (sse_wake_sendable ch wake w) as Hs. destruct (sse_wake ch wake w) as [[fs [err|]] w1]; cbn [fst snd] in *; [exact Hs|].
  rewrite st_bind_run. by apply sendable_app.
Qed.

Lemma SSE_sendable wakes w : sendable (SSE wakes w).1.
Proof.
  unfold SSE. rewrite !st_bind_run. cbn [st_modify st_ret fst snd]. apply sendable_app; [|apply sse_loop_sendable].
  unfold announceConnected. rewrite !st_bind_run. cbn [st_ret fst snd]. repeat case_match; constructor.
Qed.

(** What a client reads from a connection is the value of each batch sent. *)
Lemma SSE_feed wakes w :
  Some <$> feed (wire (SSE wakes w).1) = batch_value <$> batches (SSE wakes w).1.
Proof.
  rewrite feed_wire. pose proof (SSE_sendable wakes w) as Hs. unfold sendable in Hs.
  induction Hs as [|b bs Hb _ IH]; [done|]. cbn. destruct (batch_value b) as [j|]; [|done]. cbn. f_equal. exact IH.
Qed.

End trace.
