(* ===== verification/Double.v ===== *)
(** IEEE 754 doubles, as far as the program computes with them outside its
    reports: the numbers of the rate limiter's script and the clock it is given.

    A finite double is an integer multiple of 2^-1074, the smallest subnormal
    number, and is modelled as that integer.  [fround n d] is the double nearest
    to the rational [n]/[d], ties to even: an operation of the hardware is the
    exact one followed by it.  The numbers modelled stay far below the largest
    double, so there is no overflow; a negative zero equals zero in every
    operation of the script. *)
From stdpp Require Import base tactics list numbers.
From Stdlib Require Import ZArith Lia.
From Stdlib Require SpecFloat.
From S2P Require Import Prelude.

Open Scope Z_scope.

(** ** Rounding *)

(** The double 1.0, in units of 2^-1074. *)
Definition one : Z := 2 ^ 1074.

(** The distance between the doubles around a number of [q] units: 53 bits of
    precision, and never below the unit. *)
Definition ulp (q : Z) : Z := 2 ^ Z.max 0 (Z.log2 q - 52).

(** The integer nearest to [n]/[d], of two the even one. *)
Definition nearest (n d : Z) : Z :=
  let q := n / d in
  let r := n mod d in
  if 2 * r <? d then q
  else if d <? 2 * r then q + 1
  else if Z.even q then q else q + 1.

Definition fround_pos (n d : Z) : Z := let u := ulp (n / d) in nearest n (d * u) * u.

Definition fround (n d : Z) : Z := if n <? 0 then - fround_pos (- n) d else fround_pos n d.

(** ** The operations on doubles *)

Definition of_int (z : Z) : Z := fround (z * one) 1.
Definition fadd (x y : Z) : Z := fround (x + y) 1.
Definition fsub (x y : Z) : Z := fround (x - y) 1.
Definition fmul (x y : Z) : Z := fround (x * y) one.
Definition fdiv (x y : Z) : Z := if y <? 0 then fround (- (x * one)) (- y) else fround (x * one) y.

Arguments one : simpl never.
Arguments ulp : simpl never.
Arguments fround : simpl never.

(** ** [nearest] *)

Lemma one_pos : 0 < one.
Proof. unfold one. lia. Qed.

Lemma ulp_pos q : 0 < ulp q.
Proof. unfold ulp. apply Z.pow_pos_nonneg; lia. Qed.

Lemma nearest_bound n d : 0 < d → 2 * Z.abs (nearest n d * d - n) <= d.
Proof.
  intros Hd. unfold nearest. pose proof (Z.div_mod n d ltac:(lia)). pose proof (Z.mod_pos_bound n d Hd).
  repeat case_match; bsplit; nia.
Qed.

Lemma nearest_mono m n d : 0 < d → m <= n → nearest m d <= nearest n d.
Proof.
  intros Hd Hmn. pose proof (Z.div_le_mono m n d Hd Hmn) as Hq. unfold nearest.
  pose proof (Z.div_mod m d ltac:(lia)) as Hm. pose proof (Z.div_mod n d ltac:(lia)) as Hn.
  destruct (decide (m / d = n / d)) as [E|E].
  - rewrite <-E in Hn |- *. assert (m mod d <= n mod d) by lia. repeat case_match; bsplit; lia.
  - repeat case_match; lia.
Qed.

Lemma nearest_exact k d : 0 < d → nearest (k * d) d = k.
Proof.
  intros Hd. unfold nearest. rewrite Z.div_mul, Z.mod_mul, (proj2 (Z.ltb_lt _ _)) by lia. done.
Qed.

Lemma nearest_scale n d c : 0 < d → 0 < c → nearest (n * c) (d * c) = nearest n d.
Proof.
  intros Hd Hc. unfold nearest. rewrite Z.div_mul_cancel_r, Z.mul_mod_distr_r by lia.
  replace (2 * (n mod d * c) <? d * c) with (2 * (n mod d) <? d) by (destruct (Z.ltb_spec (2 * (n mod d)) d), (Z.ltb_spec (2 * (n mod d * c)) (d * c)); nia).
  replace (d * c <? 2 * (n mod d * c)) with (d <? 2 * (n mod d)) by (destruct (Z.ltb_spec d (2 * (n mod d))), (Z.ltb_spec (d * c) (2 * (n mod d * c))); nia).
  done.
Qed.

(** ** [fround] *)

Lemma ulp_divides q e : 0 <= e → Z.log2 q - 52 <= e → (ulp q | 2 ^ e).
Proof.
  intros He Hq. unfold ulp. exists (2 ^ (e - Z.max 0 (Z.log2 q - 52))). rewrite <-Z.pow_add_r by lia.
  f_equal. lia.
Qed.

Lemma ulp_le q e : 0 <= e → Z.log2 q - 52 <= e → ulp q <= 2 ^ e.
Proof. intros. apply Z.divide_pos_le; [apply Z.pow_pos_nonneg; lia|by apply ulp_divides]. Qed.

(** A multiple of the distance between doubles bounds the rounded number if
    it bounds the exact one. *)
Lemma fround_pos_below n d k : 0 < d → (ulp (n / d) | k) → n <= k * d → fround_pos n d <= k.
Proof.
  intros Hd [c Hc] Hn. unfold fround_pos. cbv zeta. pose proof (ulp_pos (n / d)) as Hu. set (u := ulp _) in *.
  pose proof (nearest_mono n (c * (d * u)) (d * u)). rewrite nearest_exact in * by nia. subst k. nia.
Qed.

Lemma fround_pos_above n d k : 0 < d → (ulp (n / d) | k) → k * d <= n → k <= fround_pos n d.
Proof.
  intros Hd [c Hc] Hn. unfold fround_pos. cbv zeta. pose proof (ulp_pos (n / d)) as Hu. set (u := ulp _) in *.
  pose proof (nearest_mono (c * (d * u)) n (d * u)). rewrite nearest_exact in * by nia. subst k. nia.
Qed.

Lemma fround_pos_nonneg n d : 0 < d → 0 <= n → 0 <= fround_pos n d.
Proof. intros. apply fround_pos_above; [done|apply Z.divide_0_r|lia]. Qed.

Lemma fround_pos_mono m n d : 0 < d → 0 <= m <= n → fround_pos m d <= fround_pos n d.
Proof.
  intros Hd [Hm Hmn]. pose proof (Z.div_le_mono m n d Hd Hmn) as Hq. pose proof (Z.div_pos m d Hm Hd) as Hq0.
  pose proof (Z.log2_le_mono _ _ Hq) as Hl.
  destruct (decide (ulp (m / d) = ulp (n / d))) as [E|E].
  - unfold fround_pos. cbv zeta. rewrite E. pose proof (ulp_pos (n / d)).
    apply Z.mul_le_mono_nonneg_r; [lia|]. apply nearest_mono; nia.
  - assert (Z.log2 (m / d) < Z.log2 (n / d) ∧ 52 < Z.log2 (n / d)) as [Hlt H52].
    { unfold ulp in E. split; [|]; apply Z.nle_gt; intros ?; apply E; f_equal; lia. }
    assert (0 < n / d) as Hpos by (apply Z.nle_gt; intros ?; rewrite Z.log2_nonpos in H52; lia).
    trans (2 ^ Z.log2 (n / d)).
    + apply fround_pos_below; [done|apply ulp_divides; lia|].
      destruct (Z.eq_dec (m / d) 0) as [Ez|Ez].
      { pose proof (Z.pow_pos_nonneg 2 (Z.log2 (n / d)) ltac:(lia) ltac:(lia)).
        apply Z.div_small_iff in Ez; [|lia]. nia. }
      destruct (Z.log2_spec (m / d) ltac:(lia)) as [_ Hs].
      pose proof (Z.pow_le_mono_r 2 (Z.succ (Z.log2 (m / d))) (Z.log2 (n / d)) ltac:(lia) ltac:(lia)).
      pose proof (Z.div_mod m d ltac:(lia)). pose proof (Z.mod_pos_bound m d Hd). nia.
    + apply fround_pos_above; [done|apply ulp_divides; lia|].
      destruct (Z.log2_spec (n / d) Hpos) as [Hs _]. pose proof (Z.mul_div_le n d Hd). nia.
Qed.

Lemma fround_mono m n d : 0 < d → m <= n → fround m d <= fround n d.
Proof.
  intros Hd Hmn. unfold fround. destruct (Z.ltb_spec m 0), (Z.ltb_spec n 0); try lia.
  - pose proof (fround_pos_mono (- n) (- m) d). lia.
  - pose proof (fround_pos_nonneg (- m) d). pose proof (fround_pos_nonneg n d). lia.
  - by apply fround_pos_mono.
Qed.

Lemma fround_nonneg n d : 0 < d → 0 <= n → 0 <= fround n d.
Proof. intros. unfold fround. rewrite (proj2 (Z.ltb_ge _ _)) by done. by apply fround_pos_nonneg. Qed.

(** A number that fits into 53 bits is not rounded. *)
Definition fits (e k : Z) : Prop := (2 ^ e | k) ∧ Z.abs k < 2 ^ (53 + e).

Lemma log2_fits e k : 0 <= e → 0 <= k < 2 ^ (53 + e) → Z.log2 k - 52 <= e.
Proof.
  intros He [[Hk|<-]%Z.le_lteq Hlt]; [|simpl; lia]. apply Z.log2_lt_pow2 in Hlt; lia.
Qed.

Lemma fround_fits e k d : 0 <= e → 0 < d → fits e k → fround (k * d) d = k.
Proof.
  intros He Hd [Hk Hlt].
  assert (∀ k, (2 ^ e | k) → 0 <= k < 2 ^ (53 + e) → fround_pos (k * d) d = k) as Hpos.
  { clear k Hk Hlt. intros k Hk Hlt.
    assert (ulp (k * d / d) | k) by (rewrite Z.div_mul by lia; etrans; [apply ulp_divides, log2_fits|]; done).
    apply Z.le_antisymm; [by apply fround_pos_below|by apply fround_pos_above]. }
  unfold fround. destruct (Z.ltb_spec (k * d) 0).
  - rewrite <-Z.mul_opp_l, Hpos; [lia|by apply Z.divide_opp_r|nia].
  - apply Hpos; [done|nia].
Qed.

Lemma fround1_fits e k : 0 <= e → fits e k → fround k 1 = k.
Proof. intros. rewrite <-(Z.mul_1_r k) at 1. by apply (fround_fits e). Qed.

(** The error of rounding a number below 2^(53+e) is at most half of 2^e. *)
Lemma fround_error e n d :
  0 <= e → 0 < d → 0 <= n < 2 ^ (53 + e) * d → 2 * Z.abs (fround n d * d - n) <= 2 ^ e * d.
Proof.
  intros He Hd Hn. unfold fround. rewrite (proj2 (Z.ltb_ge _ _)) by lia. unfold fround_pos. cbv zeta.
  assert (0 <= n / d < 2 ^ (53 + e)) as Hq.
  { split; [apply Z.div_pos; lia|]. apply Z.div_lt_upper_bound; lia. }
  pose proof (ulp_le (n / d) e He (log2_fits e _ He Hq)). pose proof (ulp_pos (n / d)).
  pose proof (nearest_bound n (d * ulp (n / d)) ltac:(nia)). nia.
Qed.

(** A number of at least 2^(52+e) is rounded to a multiple of 2^e. *)
Lemma fround_grid e n d : 0 <= e → 0 < d → 2 ^ (52 + e) * d <= n → (2 ^ e | fround n d).
Proof.
  intros He Hd Hn. pose proof (Z.pow_pos_nonneg 2 (52 + e) ltac:(lia) ltac:(lia)).
  unfold fround. rewrite (proj2 (Z.ltb_ge _ _)) by nia. unfold fround_pos. cbv zeta.
  apply Z.divide_mul_r. unfold ulp.
  assert (2 ^ (52 + e) <= n / d) as Hq by (apply Z.div_le_lower_bound; nia).
  apply Z.log2_le_mono in Hq. rewrite Z.log2_pow2 in Hq by lia.
  exists (2 ^ (Z.log2 (n / d) - 52 - e)). rewrite <-Z.pow_add_r by lia. f_equal. lia.
Qed.

Lemma fround_scale n d c : 0 < d → 0 < c → fround (n * c) (d * c) = fround n d.
Proof.
  intros Hd Hc. unfold fround, fround_pos. replace (n * c <? 0) with (n <? 0)
    by (destruct (Z.ltb_spec n 0), (Z.ltb_spec (n * c) 0); nia).
  rewrite <-(Z.mul_opp_l n c), !Z.div_mul_cancel_r by lia. cbv zeta.
  rewrite !(Z.mul_shuffle0 d c), !nearest_scale; try lia; try done;
    apply Z.mul_pos_pos; auto using ulp_pos.
Qed.

(** ** The operations *)

Lemma fmul_int x k : fmul x (k * one) = fround (x * k) 1.
Proof.
  unfold fmul. rewrite Z.mul_assoc. rewrite <-(Z.mul_1_l one) at 2. apply fround_scale; [done|apply one_pos].
Qed.

Lemma fadd_mono x x' y y' : x <= x' → y <= y' → fadd x y <= fadd x' y'.
Proof. intros. apply fround_mono; lia. Qed.

Lemma fsub_mono x x' y y' : x <= x' → y' <= y → fsub x y <= fsub x' y'.
Proof. intros. apply fround_mono; lia. Qed.

(** Small integers are doubles. *)
Lemma int_fits k : Z.abs k < 2 ^ 53 → fits 1074 (k * one).
Proof. intros Hk. split; [by exists k|]. rewrite Z.pow_add_r by lia. fold one. pose proof one_pos. nia. Qed.

Lemma of_int_small k : Z.abs k < 2 ^ 53 → of_int k = k * one.
Proof. intros Hk. apply (fround1_fits 1074); [done|by apply int_fits]. Qed.

(** The library's own floats agree: the reading of a [spec_float] and
    instances of the operations. *)
Definition of_spec_float (x : SpecFloat.spec_float) : Z :=
  match x with
  | SpecFloat.S754_finite s m e => (if s then -1 else 1) * Z.pos m * 2 ^ (e + 1074)
  | _ => 0
  end.

Definition sf (z : Z) : SpecFloat.spec_float := SpecFloat.binary_normalize 53 1024 z 0 false.

Example operations_agree_with_SpecFloat :
  forallb (λ n, bool_decide (
      fdiv (of_int n) (of_int 1000) = of_spec_float (SpecFloat.SFdiv 53 1024 (sf n) (sf 1000))
      ∧ fsub (fdiv (of_int n) (of_int 7)) (of_int 12)
        = of_spec_float (SpecFloat.SFsub 53 1024 (SpecFloat.SFdiv 53 1024 (sf n) (sf 7)) (sf 12))
      ∧ fadd (fdiv (of_int n) (of_int 7)) (of_int 1)
        = of_spec_float (SpecFloat.SFadd 53 1024 (SpecFloat.SFdiv 53 1024 (sf n) (sf 7)) (sf 1))
      ∧ fmul (fdiv (of_int n) (of_int 9)) (of_int 10)
        = of_spec_float (SpecFloat.SFmul 53 1024 (SpecFloat.SFdiv 53 1024 (sf n) (sf 9)) (sf 10))))
    [1717171717171; 1717171717172; -1717171717171; 3; -2; 0; 9007199254740993; 2147483647999] = true.
Proof. vm_compute. reflexivity. Qed.
