(* ===== verification/Limiter.v ===== *)
(** [internal/worker/limiter.go]: the leaky bucket of a destination.

    The Lua script computes with doubles, in requests and in seconds; the
    definitions round after each of its operations ([Double]).  A number the
    script stores comes back as it was: Redis writes it with 17 digits, and
    go-redis writes the clock with as many as tell it from its neighbours. *)
From stdpp Require Import base tactics list gmap strings numbers.
From Stdlib Require Import ZArith Lia.
From S2P Require Import Prelude GoStd Model Codecs World Double.

Open Scope Z_scope.

(** ** The script *)

(** The hash expires 60 seconds after the last call, on the server's clock. *)
Definition bucket_ttl : Z := 60000.

Definition live (server_now : Z) (ob : option Bucket) : option Bucket :=
  match ob with
  | Some b => if server_now <? b_expires b then Some b else None
  | None => None
  end.

Definition allowScript (maxReq now server_now : Z) (ob : option Bucket) : bool * Bucket :=
  let ob := live server_now ob in
  let level := match ob with Some b => b_level b | None => 0 end in
  let lastLeak := match ob with Some b => b_last_leak b | None => now end in
  let maxReq := of_int maxReq in
  let elapsed := fsub now lastLeak in
  let level := fsub level (fmul elapsed maxReq) in
  let level := if level <? 0 then 0 else level in
  let allowed := fadd level one <=? maxReq in
  let level := if allowed then fadd level one else level in
  (allowed, mkBucket level now (server_now + bucket_ttl)).

(** [float64(time.Now().UnixMilli()) / 1000.0] *)
Definition unix_seconds (ms : Z) : Z := fdiv (of_int ms) (of_int 1000).

Definition bucket_key (name : string) : string := "ratelimit:" +:+ name.

Definition run_script (key : string) (maxReq now : Z) : M (result bool) :=
  redis_cmd (λ t rd,
    let '(allowed, b) := allowScript maxReq now (t / Millisecond) (buckets rd !! key) in
    (Ok allowed, mkRedis (kv rd) (<[key := b]> (buckets rd)))).

Definition Allow (prov : Provider) : M (result bool) :=
  if p_MaxReqSecond prov <=? 0 then st_ret (Ok false)
  else
    let* rdb := st_gets w_limiter in
    if negb rdb then st_ret (Err ErrRedisNotConfigured)
    else
      let* now := time_Now in
      let* r := run_script (bucket_key (p_Name prov)) (p_MaxReqSecond prov) (unix_seconds (now / Millisecond)) in
      st_ret match r with
             | Err err => if errors_Is err DeadlineExceeded then Err ErrRedisTimeout
                          else Err (Wrap ErrRedis err)
             | r => r
             end.

(** [InitRateLimiter]; [once] is the state of the package's [sync.Once]. *)
Definition InitRateLimiter (once rdb : bool) : M bool :=
  if once then st_ret true
  else let* _ := st_modify (set_limiter (λ old, if rdb then true else old)) in st_ret true.

(** ** Sequences of calls on one bucket, each with the client's and the
    server's clock in milliseconds *)
Fixpoint allow_many (maxReq : Z) (calls : list (Z * Z)) (ob : option Bucket) : list bool * option Bucket :=
  match calls with
  | [] => ([], ob)
  | (now, server_now) :: calls =>
    let '(a, b) := allowScript maxReq (unix_seconds now) server_now ob in
    let '(l, ob') := allow_many maxReq calls (Some b) in
    (a :: l, ob')
  end.

Definition allowed_count (l : list bool) : Z := Z.of_nat (length (filter (λ a, a = true) l)).

(** From January 2004 to February 2106: the seconds of the clock lie between
    2^30 and 2^32. *)
Definition in_era (ms : Z) : bool := (2 ^ 30 * 1000 <=? ms) && (ms <? 2 ^ 32 * 1000).

(** The server runs a call at most 58 seconds after the client read its
    clock, and calls come in the order of their clocks. *)
Fixpoint timely (now0 server0 : Z) (calls : list (Z * Z)) : bool :=
  match calls with
  | [] => true
  | (now, server_now) :: calls =>
    in_era now && (now0 <=? now) && (server0 <=? server_now) && (now <=? server_now) && (server_now <=? now + 58000)
    && timely now server_now calls
  end.

(** Limits of up to a million requests per second. *)
Definition limit_ok (maxReq : Z) : Prop := 0 < maxReq <= 2 ^ 20.

(** ** The script does not round

    Between 2004 and 2106 the clock is a multiple of 2^-22 seconds.  So are the
    times that elapse and, with an integral limit, the levels, and they are
    small enough for the 53 bits of a double: the only number that is rounded is
    the clock. *)
Definition grain : Z := 2 ^ 1052.

Lemma grain_pos : 0 < grain.
Proof. unfold grain. lia. Qed.

Lemma one_grain : one = 4194304 * grain.
Proof. reflexivity. Qed.

Arguments grain : simpl never.

Lemma exact_on_grain x : (grain | x) → Z.abs x < 2 ^ 53 * grain → fround x 1 = x.
Proof. intros Hg Hx. apply (fround1_fits 1052); [done|]. split; [done|]. by rewrite Z.pow_add_r by lia. Qed.

Lemma unix_seconds_fround ms : Z.abs ms < 2 ^ 53 → unix_seconds ms = fround (ms * one) 1000.
Proof.
  intros Hms. unfold unix_seconds. rewrite !of_int_small by lia. unfold fdiv.
  pose proof one_pos. rewrite (proj2 (Z.ltb_ge _ _)) by lia. by apply fround_scale.
Qed.

Lemma in_era_range ms : in_era ms = true → 2 ^ 30 * 1000 <= ms < 2 ^ 32 * 1000.
Proof. unfold in_era. intros. bsplit. lia. Qed.

Lemma unix_seconds_mono ms ms' : ms <= ms' → unix_seconds ms <= unix_seconds ms'.
Proof.
  intros Hms. unfold unix_seconds, fdiv. rewrite (of_int_small 1000) by done. pose proof one_pos.
  rewrite (proj2 (Z.ltb_ge _ _)) by lia. apply fround_mono; [lia|]. apply Z.mul_le_mono_nonneg_r; [lia|].
  apply fround_mono; nia.
Qed.

Lemma unix_seconds_grid ms : in_era ms = true → (grain | unix_seconds ms).
Proof.
  intros [Hl Hh]%in_era_range. rewrite (unix_seconds_fround ms) by lia. apply fround_grid; [done..|].
  change (2 ^ (52 + 1052)) with (2 ^ 30 * one). pose proof one_pos. nia.
Qed.

Lemma unix_seconds_error ms :
  in_era ms = true → Z.abs (unix_seconds ms * 1000 - ms * one) <= 1000 * grain.
Proof.
  intros [Hl Hh]%in_era_range. rewrite (unix_seconds_fround ms) by lia.
  pose proof (fround_error 1053 (ms * one) 1000 ltac:(done) ltac:(done)) as He.
  change (2 ^ (53 + 1053)) with (2 ^ 32 * one) in He. change (2 ^ 1053) with (2 * grain) in He.
  pose proof one_pos. assert (0 <= ms * one < 2 ^ 32 * one * 1000) by nia. lia.
Qed.

(** The time between two calls, as the script sees it. *)
Lemma unix_seconds_gap ms ms' :
  in_era ms = true → in_era ms' = true →
  Z.abs (1000 * (unix_seconds ms' - unix_seconds ms) - (ms' - ms) * one) <= 2000 * grain.
Proof.
  intros He He'. pose proof (unix_seconds_error ms He). pose proof (unix_seconds_error ms' He'). lia.
Qed.

(** What the script finds in a bucket after the time that has passed. *)
Definition level_at (maxReq now : Z) (b : Bucket) : Z :=
  let level := fsub (b_level b) (fmul (fsub now (b_last_leak b)) (of_int maxReq)) in
  if level <? 0 then 0 else level.

Lemma level_at_nonneg maxReq now b : 0 <= level_at maxReq now b.
Proof. unfold level_at. cbv zeta. destruct (Z.ltb_spec (fsub (b_level b) (fmul (fsub now (b_last_leak b)) (of_int maxReq))) 0); lia. Qed.

Lemma level_at_later maxReq now now' b :
  0 <= maxReq → now <= now' → level_at maxReq now' b <= level_at maxReq now b.
Proof.
  intros Hm Hn. unfold level_at. cbv zeta.
  assert (0 <= of_int maxReq) by (apply fround_nonneg; [lia|pose proof one_pos; nia]).
  assert (fsub now (b_last_leak b) <= fsub now' (b_last_leak b)) by (apply fsub_mono; lia).
  assert (fmul (fsub now (b_last_leak b)) (of_int maxReq) <= fmul (fsub now' (b_last_leak b)) (of_int maxReq))
    by (apply fround_mono; [apply one_pos|nia]).
  pose proof (fsub_mono (b_level b) (b_level b) (fmul (fsub now' (b_last_leak b)) (of_int maxReq))
    (fmul (fsub now (b_last_leak b)) (of_int maxReq)) ltac:(lia) ltac:(lia)).
  repeat match goal with |- context [?l <? 0] => destruct (Z.ltb_spec l 0) end; lia.
Qed.

(** Whatever the rounding does, a call on a bucket with room for [n + 1]
    requests is let through and leaves room for [n], then and later. *)
Lemma allowScript_room n maxReq now server_now ob :
  0 < maxReq < 2 ^ 53 →
  (if ob is Some b then level_at maxReq now b else 0) + (n + 1) * one <= maxReq * one → 0 <= n →
  let r := allowScript maxReq now server_now ob in
  r.1 = true ∧ ∀ now', now <= now' → level_at maxReq now' r.2 + n * one <= maxReq * one.
Proof.
  intros Hm Hroom Hn. pose proof one_pos as Ho.
  assert (∃ l, allowScript maxReq now server_now ob
               = (fadd l one <=? of_int maxReq,
                  mkBucket (if fadd l one <=? of_int maxReq then fadd l one else l) now (server_now + bucket_ttl))
          ∧ l + (n + 1) * one <= maxReq * one ∧ 0 <= l) as (l & -> & Hl & Hl0).
  { assert (level_at maxReq now (mkBucket 0 now 0) = 0) as Hz.
    { unfold level_at. cbn [b_level b_last_leak]. unfold fsub at 2 4. rewrite Z.sub_diag. reflexivity. }
    assert (0 + (n + 1) * one <= maxReq * one) as Hroom0.
    { destruct ob as [b|]; [|done]. pose proof (level_at_nonneg maxReq now b). lia. }
    unfold allowScript, live. destruct ob as [b|]; [destruct (server_now <? b_expires b)|].
    - exists (level_at maxReq now b). split; [done|]. split; [done|]. apply level_at_nonneg.
    - exists (level_at maxReq now (mkBucket 0 now 0)). rewrite Hz at 5 6. split; [done|]. split; [done|lia].
    - exists (level_at maxReq now (mkBucket 0 now 0)). rewrite Hz at 5 6. split; [done|]. split; [done|lia]. }
  rewrite of_int_small by lia. cbv zeta.
  assert (fadd l one <= (maxReq - n) * one) as Hadd.
  { rewrite <-(fround1_fits 1074 ((maxReq - n) * one)) by (done || (apply int_fits; nia)). apply fround_mono; lia. }
  rewrite (proj2 (Z.leb_le _ _)) by nia. split; [done|]. intros now' Hn'.
  unfold level_at. cbn [snd b_level b_last_leak]. cbv zeta.
  assert (0 <= fmul (fsub now' now) (of_int maxReq)) as Hleak.
  { apply fround_nonneg; [done|]. apply Z.mul_nonneg_nonneg; apply fround_nonneg; try lia; nia. }
  assert (fsub (fadd l one) (fmul (fsub now' now) (of_int maxReq)) <= (maxReq - n) * one).
  { rewrite <-(fround1_fits 1074 ((maxReq - n) * one)) by (done || (apply int_fits; nia)). apply fround_mono; lia. }
  assert (n <= maxReq) by nia.
  destruct (Z.ltb_spec (fsub (fadd l one) (fmul (fsub now' now) (of_int maxReq))) 0); nia.
Qed.

(** A bucket the script has left behind for a limit of [maxReq]. *)
Record bucket_ok (maxReq now server_now : Z) (b : Bucket) : Prop := {
  bo_grid : (grain | b_level b);
  bo_level : 0 <= b_level b <= maxReq * one;
  bo_last : b_last_leak b = unix_seconds now;
  bo_expires : b_expires b = server_now + bucket_ttl;
  bo_era : in_era now = true;
  bo_lag : now <= server_now <= now + 58000;
}.

(** A call in exact arithmetic, on a bucket of this level. *)
Definition fill (maxReq now server_now level : Z) : bool * Bucket :=
  let allowed := level + one <=? maxReq * one in
  (allowed, mkBucket (if allowed then level + one else level) now (server_now + bucket_ttl)).

Lemma fill_ok maxReq now server_now level :
  (grain | level) → 0 <= level <= maxReq * one → in_era now = true → now <= server_now <= now + 58000 →
  bucket_ok maxReq now server_now (fill maxReq (unix_seconds now) server_now level).2.
Proof.
  intros Hg Hl He Hs. pose proof one_pos. unfold fill. cbv zeta. destruct (_ <=? _) eqn:E; bsplit; split; simpl; try lia; try assumption; try reflexivity.
  apply Z.divide_add_r; [done|]. rewrite one_grain. apply Z.divide_factor_r.
Qed.

(** What leaked since the last call is subtracted without an error. *)
Lemma leak_exact maxReq level now last :
  limit_ok maxReq → (grain | level) → 0 <= level <= maxReq * one →
  (grain | now - last) → 0 <= now - last <= 2 ^ 7 * one →
  fsub level (fmul (fsub now last) (of_int maxReq)) = level - maxReq * (now - last).
Proof.
  unfold fsub at 2. generalize (now - last). clear now last. intros elapsed.
  intros [Hm Hm'] Hg Hl Hge He. pose proof grain_pos. pose proof one_grain as Ho.
  rewrite of_int_small, fmul_int by lia. rewrite (exact_on_grain elapsed), (Z.mul_comm elapsed) by (done || lia).
  assert (0 <= maxReq * elapsed <= 2 ^ 49 * grain) by nia.
  assert (grain | maxReq * elapsed) by by apply Z.divide_mul_r.
  rewrite (exact_on_grain (maxReq * elapsed)) by (done || lia).
  apply exact_on_grain; [by apply Z.divide_sub_r|]. nia.
Qed.

Lemma fill_exact maxReq now server_now level :
  limit_ok maxReq → (grain | level) → 0 <= level <= maxReq * one →
  (let allowed := fadd level one <=? of_int maxReq in
   (allowed, mkBucket (if allowed then fadd level one else level) now (server_now + bucket_ttl)))
  = fill maxReq now server_now level.
Proof.
  intros [Hm Hm'] Hg Hl. pose proof grain_pos. pose proof one_grain as Ho. cbv zeta.
  rewrite of_int_small by lia. unfold fadd. rewrite exact_on_grain; [done| |nia].
  apply Z.divide_add_r; [done|]. rewrite Ho. apply Z.divide_factor_r.
Qed.

(** The first call on a bucket. *)
Lemma allowScript_first maxReq now server_now :
  limit_ok maxReq → allowScript maxReq now server_now None = fill maxReq now server_now 0.
Proof.
  intros Hm. unfold allowScript, live. cbv zeta.
  rewrite leak_exact; rewrite ?Z.sub_diag; try done; try apply Z.divide_0_r; try (pose proof one_pos; destruct Hm; nia).
  rewrite Z.mul_0_r. apply fill_exact; [done|apply Z.divide_0_r|]. pose proof one_pos. destruct Hm. nia.
Qed.

(** A later call: the level is what it was less what has leaked since, also
    when the key has expired in between. *)
Definition leaked (maxReq now0 now level : Z) : Z :=
  Z.max 0 (level - maxReq * (unix_seconds now - unix_seconds now0)).

Lemma leaked_range maxReq now0 now server0 b :
  limit_ok maxReq → bucket_ok maxReq now0 server0 b → in_era now = true → now0 <= now →
  (grain | leaked maxReq now0 now (b_level b)) ∧ 0 <= leaked maxReq now0 now (b_level b) <= b_level b.
Proof.
  intros [Hm _] [Hg Hl _ _ He0 _] He Hn. unfold leaked.
  pose proof (in_era_range now He). pose proof (in_era_range now0 He0).
  pose proof (unix_seconds_mono now0 now Hn). split; [|nia].
  destruct (Z.max_spec 0 (b_level b - maxReq * (unix_seconds now - unix_seconds now0))) as [[_ ->]|[_ ->]]; [|apply Z.divide_0_r].
  apply Z.divide_sub_r; [done|]. apply Z.divide_mul_r, Z.divide_sub_r; by apply unix_seconds_grid.
Qed.

Lemma allowScript_exact maxReq now0 server0 now server_now b :
  limit_ok maxReq → bucket_ok maxReq now0 server0 b → in_era now = true →
  now0 <= now → server0 <= server_now → now <= server_now <= now + 58000 →
  allowScript maxReq (unix_seconds now) server_now (Some b)
  = fill maxReq (unix_seconds now) server_now (leaked maxReq now0 now (b_level b)).
Proof.
  intros Hm Hb He Hn Hs Hlag. destruct (leaked_range maxReq now0 now server0 b Hm Hb He Hn) as [Hg' Hl'].
  destruct Hb as [Hg Hl Hlast Hex He0 Hlag0].
  pose proof (unix_seconds_gap now0 now He0 He) as Hgap. pose proof grain_pos. pose proof one_grain as Ho.
  pose proof (in_era_range now He). pose proof (in_era_range now0 He0).
  pose proof (unix_seconds_mono now0 now Hn) as Hmono.
  rewrite <-fill_exact; [|exact Hm|exact Hg'|lia].
  unfold allowScript, live. rewrite Hex. unfold bucket_ttl in *. destruct (Z.ltb_spec server_now (server0 + 60000)).
  - rewrite Hlast. cbv zeta. rewrite leak_exact;
      [|exact Hm|exact Hg|exact Hl|apply Z.divide_sub_r; by apply unix_seconds_grid|split; [lia|nia]].
    unfold leaked. generalize (b_level b - maxReq * (unix_seconds now - unix_seconds now0)). intros l.
    by replace (if l <? 0 then 0 else l) with (Z.max 0 l) by (destruct (Z.ltb_spec l 0); lia).
  - cbv zeta. rewrite leak_exact, Z.sub_diag, Z.mul_0_r;
      [|exact Hm|apply Z.divide_0_r|clear -Hm; pose proof one_pos; destruct Hm; nia
       |rewrite Z.sub_diag; apply Z.divide_0_r|clear; pose proof one_pos; lia].
    replace (leaked maxReq now0 now (b_level b)) with 0; [reflexivity|].
    unfold leaked. rewrite Z.max_l; [reflexivity|].
    assert (2000 * one <= (now - now0) * one) by (apply Z.mul_le_mono_nonneg_r; lia).
    assert (one <= unix_seconds now - unix_seconds now0) by lia. destruct Hm as [Hm _].
    pose proof (Z.mul_le_mono_nonneg_l one (unix_seconds now - unix_seconds now0) maxReq). lia.
Qed.

(** One call on a bucket in order: the level stays in range and rises by a
    request for each allowed one, less what leaked. *)
Lemma allowScript_step maxReq now0 server0 now server_now b a b' :
  limit_ok maxReq → bucket_ok maxReq now0 server0 b → in_era now = true →
  now0 <= now → server0 <= server_now → now <= server_now <= now + 58000 →
  allowScript maxReq (unix_seconds now) server_now (Some b) = (a, b') →
  bucket_ok maxReq now server_now b' ∧
  (if a then one else 0) <= b_level b' - b_level b + maxReq * (unix_seconds now - unix_seconds now0).
Proof.
  intros Hm Hb He Hn Hs Hlag. rewrite (allowScript_exact maxReq now0 server0) by done. intros E.
  destruct (leaked_range maxReq now0 now server0 b Hm Hb He Hn) as [Hg Hl].
  split.
  - replace b' with (a, b').2 by done. rewrite <-E. apply fill_ok; try done. destruct Hb. lia.
  - revert E. unfold fill, leaked. cbv zeta. pose proof one_pos.
    destruct (_ <=? maxReq * one) eqn:E2; intros [= <- <-]; simpl; lia.
Qed.

Lemma allow_many_cons maxReq now server_now calls ob :
  allow_many maxReq ((now, server_now) :: calls) ob
  = ((allowScript maxReq (unix_seconds now) server_now ob).1
       :: (allow_many maxReq calls (Some (allowScript maxReq (unix_seconds now) server_now ob).2)).1,
     (allow_many maxReq calls (Some (allowScript maxReq (unix_seconds now) server_now ob).2)).2).
Proof.
  cbn [allow_many]. destruct (allowScript _ _ _ _) as [a b]. cbn [fst snd].
  by destruct (allow_many maxReq calls (Some b)).
Qed.

Lemma allowed_count_cons a l : allowed_count (a :: l) = (if a then 1 else 0) + allowed_count l.
Proof. unfold allowed_count. destruct a; rewrite ?filter_cons_True, ?filter_cons_False by done; simpl; lia. Qed.

(** Over a run of timely calls, the requests let through are paid for by the
    bucket's rise and by the time that passed. *)
Lemma allow_many_paid maxReq now0 server0 b calls :
  limit_ok maxReq → bucket_ok maxReq now0 server0 b → timely now0 server0 calls = true →
  let last := fst (List.last calls (now0, server0)) in
  ∃ b', (allow_many maxReq calls (Some b)).2 = Some b' ∧ in_era last = true ∧ b_level b' <= maxReq * one ∧
    one * allowed_count (allow_many maxReq calls (Some b)).1
    <= b_level b' - b_level b + maxReq * (unix_seconds last - unix_seconds now0).
Proof.
  intros Hm. revert now0 server0 b.
  induction calls as [|[now server_now] calls IH]; intros now0 server0 b Hb Ht.
  - exists b. destruct Hb. simpl. split_and!; [done|done|lia|]. unfold allowed_count. simpl. lia.
  - cbn [timely] in Ht. bsplit. cbv zeta. rewrite allow_many_cons, last_cons_default.
    destruct (allowScript maxReq (unix_seconds now) server_now (Some b)) as [a b1] eqn:Ea.
    destruct (allowScript_step maxReq now0 server0 now server_now b a b1) as [Hb1 Hstep]; try done; try lia.
    destruct (IH now server_now b1 Hb1) as (b' & E & He & Hl & Hc); [done|].
    exists b'. cbn [fst snd]. split_and!; [done..|]. rewrite allowed_count_cons. destruct a; lia.
Qed.
