(* ===== verification/WorkerRepo.v ===== *)
(** [internal/worker/repository.go] and [internal/worker/cleanup.go]: how a
    worker claims a batch of events, records the outcome of its delivery
    attempts, and how old events are removed. *)
From stdpp Require Import base tactics list gmap strings numbers.
From Stdlib Require Import ZArith Lia.
From S2P Require Import Prelude GoStd Model Codecs World Schema.

Open Scope Z_scope.

(** ** Data *)

Record updateWebhook := mkUpdate {
  u_id : UUID;
  u_provName : string;
  u_nextRetryAt : option Time;
  u_deliveryStatus : string;
  u_responseCode : option Z;
  u_lastError : option string;
  u_forwardedTo : option string;
}.

#[export] Instance updateWebhook_eq_dec : EqDecision updateWebhook.
Proof. solve_decision. Defined.

Inductive Kind : Type := WorkerKindQueue | WorkerKindRetry | WorkerKindReplay.

#[export] Instance Kind_eq_dec : EqDecision Kind.
Proof. solve_decision. Defined.

Definition ReplayWorkerBatch : Z := 1.

(** [SetWorkerBatchSizes] *)
Definition SetWorkerBatchSizes (queue retry : Z) : M unit := st_modify (set_batch (λ _, (queue, retry))).

(** ** Claiming a batch *)

(** The [WHERE] clauses.  The comparison with a NULL [next_retry_at], and
    with the limit of a provider that does not exist, is not true. *)
Definition retry_due (now : Time) (provs : gmap UUID Provider) (w : Webhook) : bool :=
  bool_decide (wh_DeliveryStatus w = Failed)
  && match wh_NextRetryAt w with Some t => t <=? pg_time now | None => false end
  && match provs !! wh_ProviderID w with Some p => wh_RetryCount w <? p_MaxRetries p | None => false end.

Definition stale (now : Time) (w : Webhook) : bool :=
  bool_decide (wh_DeliveryStatus w ∈ [Processing; Queued; Replaying])
  && (wh_UpdatedAt w <? pg_time now - Minute).

Definition eligible (k : Kind) (now : Time) (provs : gmap UUID Provider) (w : Webhook) : bool :=
  match k with
  | WorkerKindQueue => bool_decide (wh_DeliveryStatus w = Queued)
  | WorkerKindRetry => retry_due now provs w || stale now w
  | WorkerKindReplay => bool_decide (wh_DeliveryStatus w = Replaying)
  end.

Definition claimed_status (k : Kind) : DeliveryStatus :=
  match k with
  | WorkerKindQueue => Processing
  | WorkerKindRetry => Retrying
  | WorkerKindReplay => Replaying
  end.

Definition claim_order (k : Kind) : Webhook → Webhook → bool :=
  match k with WorkerKindRetry => soonest_retry | _ => oldest_received end.

Definition batch_limit (k : Kind) (batch : Z * Z) : Z :=
  match k with
  | WorkerKindQueue => batch.1
  | WorkerKindRetry => batch.2
  | WorkerKindReplay => ReplayWorkerBatch
  end.

(** [SELECT id ... FOR UPDATE SKIP LOCKED] *)
Definition picked (k : Kind) (limit : Z) (locked : gset UUID) (now : Time) (db : DB) : list Webhook :=
  sql_select (λ w, eligible k now (providers db) w && bool_decide (wh_ID w ∉ locked))
    (claim_order k) (Z.to_nat limit) (webhook_events db).

Definition claim (k : Kind) (now : Time) (w : Webhook) : Webhook :=
  set_updated_at now (set_status (claimed_status k) w).

(** [UPDATE ... WHERE id IN (SELECT ...) RETURNING *] *)
Definition claim_stmt (k : Kind) (limit : Z) (e : EnvStep) (now : Time) (db : DB) : result (list Webhook) * DB :=
  if limit <? 0 then (Err (PgError "LIMIT must not be negative"), db)
  else
    let sel := picked k limit (es_locked e) now db in
    (Ok (claim k now <$> sel),
     set_events (sql_update (λ w, bool_decide (wh_ID w ∈ wh_ID <$> sel)) (set_status (claimed_status k)) now) db).

(** A transaction of one statement: beginning it, running the statement and
    committing may each fail, and a failure rolls the claim back. *)
Definition GetEvents (k : Kind) : M (list Webhook * option goerr) :=
  let* begin := ext in
  match es_fault begin with
  | Some err => st_ret ([], Some err)
  | None =>
    let* now := time_Now in
    let* query := ext in
    match es_fault query with
    | Some err => st_ret ([], Some err)
    | None =>
      let* w := st_gets (λ w, w) in
      match claim_stmt k (batch_limit k (w_batch w)) query now (w_db w) with
      | (Ok hooks, db') =>
        let* commit := ext in
        match es_fault commit with
        | Some err => st_ret (hooks, Some err)
        | None => let* _ := st_modify (set_db (λ _, db')) in st_ret (hooks, None)
        end
      | (Err err, _) => st_ret ([], Some err)
      | (Panic, _) => st_ret ([], None)
      end
    end
  end.

(** ** Recording outcomes *)

Definition apply_update (k : Kind) (st : DeliveryStatus) (fwd : string) (u : updateWebhook) (w : Webhook) : Webhook :=
  mkWebhook (wh_ID w) (wh_ProviderID w) (wh_Provider w) (wh_EventID w) (wh_EventType w)
    (wh_Headers w) (wh_Payload w) st fwd (u_responseCode u)
    (if bool_decide (k = WorkerKindRetry) then wh_RetryCount w + 1 else wh_RetryCount w)
    (pg_time <$> u_nextRetryAt u) (u_lastError u) (wh_ReceivedAt w) (wh_UpdatedAt w) (wh_CreatedAt w).

(** One statement of the batch: the updated row if the id exists.  A label
    outside the enumeration, a NULL [forwarded_to] and an integer overflow
    are errors of the statement. *)
Definition update_stmt (k : Kind) (now : Time) (u : updateWebhook) (m : gmap UUID Webhook)
    : result (option Webhook * gmap UUID Webhook) :=
  match status_in (u_deliveryStatus u) with
  | None => Err (PgError "invalid input value for enum delivery_status")
  | Some st =>
    match m !! u_id u, u_forwardedTo u with
    | None, _ => Ok (None, m)
    | Some _, None => Err (PgError "null value violates not-null constraint")
    | Some w, Some fwd =>
      if negb (forallb text_ok (fwd :: option_list (u_lastError u))) then Err ErrEncoding
      else if negb (forallb int4_ok (option_list (u_responseCode u))) then Err (PgError "integer out of range")
      else
      let w' := set_updated_at now (apply_update k st fwd u w) in
      if max_int32 <? wh_RetryCount w' then Err (PgError "integer out of range")
      else Ok (Some w', <[u_id u := w']> m)
    end
  end.

(** The batch runs in one implicit transaction: after a failed statement the
    rest is skipped and everything is rolled back ([None]). *)
Fixpoint exec_batch (k : Kind) (now : Time) (us : list updateWebhook) (m : gmap UUID Webhook)
    : list (result Webhook) * option (gmap UUID Webhook) :=
  match us with
  | [] => ([], Some m)
  | u :: us =>
    match update_stmt k now u m with
    | Ok (row, m1) =>
      let '(rs, om) := exec_batch k now us m1 in
      (match row with Some w => Ok w | None => Err ErrNoRows end :: rs, om)
    | Err e => ([Err e], None)
    | Panic => ([], None)
    end
  end.

(** The loop that scans one row per update and stops at the first error. *)
Fixpoint scan_rows (rs : list (result Webhook)) : list Webhook * option goerr :=
  match rs with
  | [] => ([], None)
  | Ok w :: rs => let '(l, e) := scan_rows rs in (w :: l, e)
  | Err e :: _ => ([], Some e)
  | Panic :: _ => ([], None)
  end.

Definition batch_stmt (k : Kind) (us : list updateWebhook) (e : EnvStep) (now : Time) (db : DB)
    : result (list Webhook * option goerr) * DB :=
  let '(rs, om) := exec_batch k now us (webhook_events db) in
  (Ok (scan_rows rs), match om with Some m => set_events (λ _, m) db | None => db end).

Definition UpdateEvents (k : Kind) (updates : list updateWebhook) : M (list Webhook * option goerr) :=
  if (length updates =? 0)%nat then st_ret ([], None)
  else
    let* r := db_stmt (batch_stmt k updates) in
    st_ret match r with Ok p => p | Err e => ([], Some e) | Panic => ([], None) end.

(** ** cleanup.go *)
Definition maxRows : Z := 500000.

Definition too_old (now : Time) (w : Webhook) : bool := wh_ReceivedAt w <? pg_time now - 7 * Day.

Definition purge_stmt (e : EnvStep) (now : Time) (db : DB) : result unit * DB :=
  (Ok tt, set_events (sql_delete (too_old now)) db).

Definition count_stmt (e : EnvStep) (now : Time) (db : DB) : result Z * DB :=
  (Ok (Z.of_nat (length (rows (webhook_events db)))), db).

Definition evict_stmt (n : Z) (e : EnvStep) (now : Time) (db : DB) : result unit * DB :=
  let victims := wh_ID <$> sql_select (λ _, true) received_only (Z.to_nat n) (webhook_events db) in
  (Ok tt, set_events (sql_delete (λ w, bool_decide (wh_ID w ∈ victims))) db).

(** Errors are logged and end the cycle. *)
Definition runCleanup : M unit :=
  let* age := db_stmt purge_stmt in
  match age with
  | Ok _ =>
    let* count := db_stmt count_stmt in
    match count with
    | Ok count =>
      if count <=? maxRows then st_ret tt
      else let* _ := db_stmt (evict_stmt (count - maxRows)) in st_ret tt
    | _ => st_ret tt
    end
  | _ => st_ret tt
  end.

(** ** Lemmas on eligibility *)

Lemma eligible_status k now provs w :
  eligible k now provs w = true →
  match k with
  | WorkerKindQueue => wh_DeliveryStatus w = Queued
  | WorkerKindReplay => wh_DeliveryStatus w = Replaying
  | WorkerKindRetry =>
    (wh_DeliveryStatus w = Failed ∧
     ∃ t p, wh_NextRetryAt w = Some t ∧ t <= pg_time now ∧
       provs !! wh_ProviderID w = Some p ∧ wh_RetryCount w < p_MaxRetries p)
    ∨ (wh_DeliveryStatus w ∈ [Processing; Queued; Replaying] ∧ wh_UpdatedAt w < pg_time now - Minute)
  end.
Proof.
  destruct k; simpl; unfold retry_due, stale.
  - by rewrite bool_decide_eq_true.
  - intros [E|E]%orb_true_iff; bsplit; [left|by right]. repeat (case_match; try done). bsplit.
    split; [done|]. eauto 8.
  - by rewrite bool_decide_eq_true.
Qed.

Lemma eligible_not k now provs w :
  wh_DeliveryStatus w = Delivered ∨ wh_DeliveryStatus w = Retrying ∨
  (wh_DeliveryStatus w = Failed ∧ wh_NextRetryAt w = None) →
  eligible k now provs w = false.
Proof.
  intros Hw. apply not_true_iff_false. intros E%eligible_status.
  destruct k; simpl in E; [intuition congruence| |intuition congruence].
  destruct E as [(Hf & t & p & Ht & _)|[Hs _]]; [intuition congruence|].
  repeat (apply elem_of_cons in Hs as [Hs|Hs]; [intuition congruence|]). by apply not_elem_of_nil in Hs.
Qed.

(** ** Lemmas on claims *)

#[export] Instance claim_order_trans k : Transitive (leb_rel (claim_order k)).
Proof. destruct k; apply _. Qed.
#[export] Instance claim_order_total k : Total (leb_rel (claim_order k)).
Proof. destruct k; apply _. Qed.

Lemma elem_of_picked k limit locked now db w :
  w ∈ picked k limit locked now db →
  (∃ i, webhook_events db !! i = Some w) ∧ eligible k now (providers db) w = true ∧ wh_ID w ∉ locked.
Proof.
  intros Hw. apply elem_of_sql_select in Hw as [Hi Hp]. bsplit. done.
Qed.

Lemma claim_keeps_identity k now : keeps_identity (claim k now).
Proof. done. Qed.

(** A claimed row is the row with the new status; every other row is left
    as it was. *)
Lemma lookup_claim k limit e now db hooks db' i :
  claim_stmt k limit e now db = (Ok hooks, db') → db_ok db →
  webhook_events db' !! i
  = match webhook_events db !! i with
    | Some w => Some (if bool_decide (w ∈ picked k limit (es_locked e) now db) then claim k now w else w)
    | None => None
    end.
Proof.
  unfold claim_stmt. destruct (limit <? 0); [done|]. intros [= <- <-] Hok. simpl.
  rewrite lookup_sql_update. destruct (webhook_events db !! i) as [w|] eqn:E; [|done]. simpl.
  f_equal. replace (bool_decide (wh_ID w ∈ _)) with (bool_decide (w ∈ picked k limit (es_locked e) now db)); [done|].
  apply bool_decide_ext. rewrite list_elem_of_fmap. split; [by eauto|].
  intros (w' & Hid & Hw'). assert (w' = w) as ->; [|done].
  apply elem_of_picked in Hw' as ([j Hj] & _).
  pose proof (ok_events _ Hok j w' Hj). pose proof (ok_events _ Hok i w E). congruence.
Qed.

Lemma claim_stmt_hooks k limit e now db hooks db' :
  claim_stmt k limit e now db = (Ok hooks, db') →
  hooks = claim k now <$> picked k limit (es_locked e) now db ∧ providers db' = providers db.
Proof. unfold claim_stmt. destruct (limit <? 0); [done|]. by intros [= <- <-]. Qed.

Lemma claim_stmt_db_ok k limit e now db : db_ok db → db_ok (claim_stmt k limit e now db).2.
Proof. intros Hok. unfold claim_stmt. case_match; [done|]. simpl. auto with vault. Qed.

(** ** Lemmas on updates *)

Lemma apply_update_identity k st fwd u now w :
  identity (set_updated_at now (apply_update k st fwd u w)) = identity w.
Proof. done. Qed.

(** What a statement of the batch that finds its row makes of it. *)
Inductive reported (k : Kind) (now : Time) (u : updateWebhook) (w : Webhook) : Webhook → Prop :=
| Reported st fwd :
    status_in (u_deliveryStatus u) = Some st → u_forwardedTo u = Some fwd →
    forallb text_ok (fwd :: option_list (u_lastError u)) = true →
    forallb int4_ok (option_list (u_responseCode u)) = true →
    wh_RetryCount (apply_update k st fwd u w) <= max_int32 →
    reported k now u w (set_updated_at now (apply_update k st fwd u w)).

Lemma reported_identity k now u w w' : reported k now u w w' → identity w' = identity w.
Proof. by intros []. Qed.

Lemma update_stmt_Ok k now u m row m' :
  update_stmt k now u m = Ok (row, m') →
  (m !! u_id u = None ∧ row = None ∧ m' = m) ∨
  (∃ w w', m !! u_id u = Some w ∧ reported k now u w w' ∧ row = Some w' ∧ m' = <[u_id u := w']> m).
Proof.
  unfold update_stmt. intros Hr. destruct (status_in _) as [st|] eqn:Es; [|done].
  destruct (m !! u_id u) as [w|] eqn:Ew; [|by injection Hr as <- <-; left].
  destruct (u_forwardedTo u) as [fwd|] eqn:Ef; [|done].
  destruct (negb (forallb text_ok _)) eqn:Et; [done|]. destruct (negb (forallb int4_ok _)) eqn:Ei; [done|].
  destruct (max_int32 <? _) eqn:Ec; [done|]. injection Hr as <- <-. bsplit. right.
  do 2 eexists. split; [done|]. by split; [constructor|].
Qed.

(** What a batch that is not rolled back does to one row: each of its
    updates in turn. *)
Lemma exec_batch_rows k now us m rs m' (I : UUID → Webhook → Prop) :
  exec_batch k now us m = (rs, Some m') →
  (∀ i w, m !! i = Some w → I i w) →
  (∀ u w w', u ∈ us → I (u_id u) w → reported k now u w w' → I (u_id u) w') →
  ∀ i w, m' !! i = Some w → I i w.
Proof.
  revert m rs. induction us as [|u us IH]; intros m rs Hb Hm Hu; simpl in Hb.
  - injection Hb as _ <-. done.
  - destruct (update_stmt k now u m) as [[row m1]|e|] eqn:Eu; [|done..].
    destruct (exec_batch k now us m1) as [rs1 om] eqn:Eb. injection Hb as _ ->.
    eapply IH; [exact Eb| |]; [|intros; eapply Hu; eauto; by right].
    intros i w Hw. apply update_stmt_Ok in Eu as [(_ & _ & ->)|(w0 & w1 & Hw0 & Hrep & _ & ->)]; [by eauto|].
    rewrite lookup_insert in Hw. case_decide as Hi; [|by eauto].
    injection Hw as <-. subst i. eapply Hu; eauto. by left.
Qed.

Lemma exec_batch_dom k now us m rs m' i :
  exec_batch k now us m = (rs, Some m') → is_Some (m' !! i) ↔ is_Some (m !! i).
Proof.
  revert m rs. induction us as [|u us IH]; intros m rs Hb; simpl in Hb.
  - by injection Hb as _ <-.
  - destruct (update_stmt k now u m) as [[row m1]|e|] eqn:Eu; [|done..].
    destruct (exec_batch k now us m1) as [rs1 om] eqn:Eb. injection Hb as _ ->.
    rewrite (IH _ _ Eb).
    apply update_stmt_Ok in Eu as [(_ & _ & ->)|(w0 & w1 & Hw0 & Hrep & _ & ->)]; [done|].
    rewrite lookup_insert. case_decide; [subst; by rewrite Hw0|done].
Qed.

(** The identities of the rows survive a batch. *)
Lemma exec_batch_identity k now us m rs m' i w' :
  exec_batch k now us m = (rs, Some m') → m' !! i = Some w' →
  ∃ w, m !! i = Some w ∧ identity w' = identity w.
Proof.
  intros Hb Hw'.
  apply (exec_batch_rows k now us m rs m' (λ i w', ∃ w, m !! i = Some w ∧ identity w' = identity w) Hb);
    [by eauto| |done].
  intros u w w1 _ (w0 & Hw0 & Hid) Hrep%reported_identity. exists w0. by rewrite Hrep.
Qed.

Lemma batch_stmt_db_ok k us e now db : db_ok db → db_ok (batch_stmt k us e now db).2.
Proof.
  intros Hok. unfold batch_stmt.
  destruct (exec_batch k now us (webhook_events db)) as [rs [m'|]] eqn:E; [|done]. simpl.
  destruct Hok as [Hk Hp Hu Hn Hr].
  pose proof (λ i w, exec_batch_identity k now us _ rs m' i w E) as Hb. unfold identity in Hb.
  split; simpl; try done.
  - intros i w' Hw'. apply Hb in Hw' as (w & Hw & [=]). rewrite <-(Hk i w Hw). congruence.
  - intros i j a b Ha Hb' Hab He Hs.
    apply Hb in Ha as (a' & Ha & [=]). apply Hb in Hb' as (b' & Hb' & [=]).
    apply (Hu i j a' b'); congruence.
  - intros i w' Hw'. apply Hb in Hw' as (w & Hw & [=]).
    replace (wh_ProviderID w') with (wh_ProviderID w) by congruence. eauto.
Qed.

(** Rows a batch does not name are left alone. *)
Lemma exec_batch_other k now us m rs m' i :
  exec_batch k now us m = (rs, Some m') → i ∉ u_id <$> us → m' !! i = m !! i.
Proof.
  revert m rs. induction us as [|u us IH]; intros m rs Hb Hi; simpl in Hb.
  - by injection Hb as _ <-.
  - destruct (update_stmt k now u m) as [[row m1]|e|] eqn:Eu; [|done..].
    destruct (exec_batch k now us m1) as [rs1 om] eqn:Eb. injection Hb as _ ->.
    change (i ∉ u_id u :: (u_id <$> us)) in Hi. apply not_elem_of_cons in Hi as [Hne Hi].
    rewrite (IH _ _ Eb Hi).
    apply update_stmt_Ok in Eu as [(_ & _ & ->)|(w0 & w1 & Hw0 & Hrep & _ & ->)]; [done|].
    by rewrite lookup_insert_ne.
Qed.

(** A batch of distinct ids writes each of its updates to the row it names. *)
Lemma exec_batch_written k now us m rs m' u w :
  exec_batch k now us m = (rs, Some m') → NoDup (u_id <$> us) → u ∈ us → m !! u_id u = Some w →
  ∃ st fwd, status_in (u_deliveryStatus u) = Some st ∧ u_forwardedTo u = Some fwd ∧
    m' !! u_id u = Some (set_updated_at now (apply_update k st fwd u w)).
Proof.
  revert m rs. induction us as [|u0 us IH]; intros m rs Hb Hnd Hu Hw; [by apply not_elem_of_nil in Hu|].
  simpl in Hb. inversion_clear Hnd as [|? ? Hu0 Hnd'].
  destruct (update_stmt k now u0 m) as [[row m1]|e|] eqn:Eu; [|done..].
  destruct (exec_batch k now us m1) as [rs1 om] eqn:Eb. injection Hb as _ ->.
  apply update_stmt_Ok in Eu. apply elem_of_cons in Hu as [->|Hu].
  - destruct Eu as [(Hn & _)|(w0 & w1 & Hw0 & [st fwd Hs Hf _ _ _] & _ & ->)]; [congruence|].
    exists st, fwd. split_and!; [done..|].
    rewrite (exec_batch_other _ _ _ _ _ _ _ Eb Hu0), lookup_insert_eq. congruence.
  - eapply IH; eauto.
    destruct Eu as [(_ & _ & ->)|(w0 & w1 & Hw0 & Hrep & _ & ->)]; [done|].
    rewrite lookup_insert_ne; [done|]. intros E. apply Hu0. rewrite E. apply list_elem_of_fmap. eauto.
Qed.

Lemma purge_stmt_db_ok e now db : db_ok db → db_ok (purge_stmt e now db).2.
Proof. apply db_ok_delete. Qed.
Lemma evict_stmt_db_ok n e now db : db_ok db → db_ok (evict_stmt n e now db).2.
Proof. apply db_ok_delete. Qed.

(** ** Lemmas on eviction *)

Lemma length_rows (m : gmap UUID Webhook) : length (rows m) = size m.
Proof. unfold rows. by rewrite length_fmap, length_map_to_list. Qed.

(** Deleting rows by a duplicate-free list of their ids removes as many. *)
Lemma size_delete_ids (m : gmap UUID Webhook) (ids : list UUID) :
  keyed wh_ID m → NoDup ids → (∀ i, i ∈ ids → is_Some (m !! i)) →
  (size (sql_delete (λ w, bool_decide (wh_ID w ∈ ids)) m) + length ids = size m)%nat.
Proof.
  intros Hk Hnd Hin. set (d := list_to_set ids : gset UUID).
  assert (size d = length ids) as <- by by apply size_list_to_set.
  assert (d ⊆ dom m) as Hd by (intros i Hi; apply elem_of_dom, Hin; by apply elem_of_list_to_set in Hi).
  rewrite <-!size_dom.
  replace (dom (sql_delete _ m)) with (dom m ∖ d).
  - rewrite size_difference by done. pose proof (subseteq_size d (dom m) Hd). lia.
  - apply set_eq. intros i. rewrite elem_of_difference, !elem_of_dom. unfold is_Some.
    setoid_rewrite lookup_sql_delete. unfold d. rewrite elem_of_list_to_set.
    setoid_rewrite bool_decide_eq_false. split.
    + intros [[w Hw] Hi]. exists w. by rewrite (Hk i w Hw).
    + intros (w & Hw & Hi). rewrite (Hk i w Hw) in Hi. eauto.
Qed.

Definition victims (n : Z) (m : gmap UUID Webhook) : list Webhook :=
  sql_select (λ _, true) received_only (Z.to_nat n) m.

Lemma length_victims n m : (Z.to_nat n ≤ size m)%nat → length (victims n m) = Z.to_nat n.
Proof.
  intros Hn. unfold victims, sql_select. rewrite length_select_first.
  replace (filter (λ _ : Webhook, true = true) (rows m)) with (rows m); [rewrite length_rows; lia|].
  induction (rows m) as [|x l IH]; [done|]. rewrite filter_cons_True by done. by rewrite <-IH.
Qed.

(** An eviction of [n] rows removes exactly the [n] oldest. *)
Lemma evict_spec n e now db db' :
  db_ok db → 0 <= n <= Z.of_nat (size (webhook_events db)) →
  (evict_stmt n e now db).2 = db' →
  Z.of_nat (size (webhook_events db')) = Z.of_nat (size (webhook_events db)) - n ∧
  (∀ i w, webhook_events db' !! i = Some w ↔
     webhook_events db !! i = Some w ∧ w ∉ victims n (webhook_events db)) ∧
  (∀ x i y, x ∈ victims n (webhook_events db) → webhook_events db' !! i = Some y →
     wh_ReceivedAt x <= wh_ReceivedAt y).
Proof.
  intros Hok Hn <-. pose proof (ok_events _ Hok) as Hk. simpl.
  fold (victims n (webhook_events db)). set (m := webhook_events db) in *.
  assert (∀ i w, m !! i = Some w → wh_ID w ∈ wh_ID <$> victims n m ↔ w ∈ victims n m) as Hvic.
  { intros i w Hw. rewrite list_elem_of_fmap. split; [|by eauto].
    intros (v & Hid & Hv). assert (v = w) as ->; [|done].
    pose proof (elem_of_sql_select _ _ _ _ _ Hv) as [[j Hj] _].
    pose proof (Hk j v Hj). pose proof (Hk i w Hw). congruence. }
  assert (∀ i w, sql_delete (λ w, bool_decide (wh_ID w ∈ wh_ID <$> victims n m)) m !! i = Some w ↔
            m !! i = Some w ∧ w ∉ victims n m) as Hl.
  { intros i w. rewrite lookup_sql_delete, bool_decide_eq_false. naive_solver. }
  split_and!; [|exact Hl|].
  - pose proof (size_delete_ids m (wh_ID <$> victims n m)) as Hs.
    rewrite length_fmap, length_victims in Hs by lia.
    enough (size (sql_delete (λ w, bool_decide (wh_ID w ∈ wh_ID <$> victims n m)) m) + Z.to_nat n = size m)%nat by lia.
    apply Hs; [done|by apply NoDup_sql_select|].
    intros i (v & -> & Hv)%list_elem_of_fmap.
    pose proof (elem_of_sql_select _ _ _ _ _ Hv) as [[j Hj] _]. rewrite (Hk j v Hj). eauto.
  - intros x i y Hx [Hy Hnot]%Hl.
    apply Z.leb_le. change (received_only x y = true).
    eapply select_first_minimal; [apply _..|exact Hx|].
    assert (y ∈ sort_by received_only (filter (λ _, true = true) (rows m))) as Hall.
    { apply elem_of_sort_by, list_elem_of_filter. split; [done|]. apply elem_of_rows. eauto. }
    rewrite <-(take_drop (Z.to_nat n)) in Hall. apply elem_of_app in Hall as [Hall|Hall]; [|done].
    by destruct Hnot.
Qed.
