(* ===== verification/Ingest.v ===== *)
(** What the three provider services ([internal/providers/github],
    [shopify], [stripe]) have in common: the allowlist loop of
    [SetForwardHeaders], the lookup of the signing secret, the duplicate
    check and the insertion; and the interface between a service's signature
    check and the handler that relies on it. *)
From stdpp Require Import base tactics list gmap strings numbers.
From Stdlib Require Import ZArith Lia.
From S2P Require Import Prelude GoStd GoCrypto Model Codecs World Schema External EventsRepo Crypto Providers.

Open Scope Z_scope.

(** ** Forwarded headers *)

Definition add_values (k : string) (vals : list string) (h : Header) : Header :=
  foldl (λ h v, header_add k v h) h vals.

(** [for k, vals := range parsed { if allowed ... { for v ... Add(k, v) } }],
    over the entries in the order of the iteration. *)
Definition add_allowed (allowed : list string) (parsed : list (string * list string)) (h : Header) : Header :=
  foldl (λ h '(k, vals), if bool_decide (CanonicalHeaderKey k ∈ allowed) then add_values k vals h else h)
    h parsed.

(** The values the entries of [parsed] give to the canonical key [c]. *)
Definition values_for (c : string) (parsed : list (string * list string)) : list string :=
  mjoin ((λ '(k, vals), if bool_decide (CanonicalHeaderKey k = c) then vals else []) <$> parsed).

Lemma lookup_add_values k vals h c :
  add_values k vals h !! c
  = if bool_decide (CanonicalHeaderKey k = c) && negb (bool_decide (vals = []))
    then Some (default [] (h !! c) ++ vals) else h !! c.
Proof.
  revert h. unfold add_values. induction vals as [|v vals IH]; intros h; simpl.
  - by rewrite andb_false_r.
  - rewrite IH. unfold header_add. rewrite lookup_insert.
    destruct (decide (CanonicalHeaderKey k = c)) as [<-|Hne].
    + rewrite bool_decide_eq_true_2 by done. simpl.
      destruct (decide (vals = [])) as [->|Hv]; simpl.
      * done.
      * rewrite (bool_decide_eq_false_2 (vals = [])) by done. simpl. by rewrite <-app_assoc.
    + by rewrite (bool_decide_eq_false_2 (CanonicalHeaderKey k = c)).
Qed.

(** Whatever the iteration order, a key of the outgoing request has exactly
    the values of the allowed entries. *)
Lemma lookup_add_allowed allowed parsed h c :
  default [] (add_allowed allowed parsed h !! c)
  = default [] (h !! c) ++ (if bool_decide (c ∈ allowed) then values_for c parsed else []).
Proof.
  revert h. unfold add_allowed, values_for. induction parsed as [|[k vals] parsed IH]; intros h; simpl.
  - case_match; by rewrite app_nil_r.
  - rewrite IH. clear IH. destruct (decide (CanonicalHeaderKey k = c)) as [<-|Hne].
    + rewrite (bool_decide_eq_true_2 (CanonicalHeaderKey k = CanonicalHeaderKey k)) by done.
      destruct (bool_decide (CanonicalHeaderKey k ∈ allowed)) eqn:Ea; [|done].
      rewrite lookup_add_values, bool_decide_eq_true_2 by done. simpl.
      destruct (bool_decide (vals = [])) eqn:Ev; simpl.
      * bsplit. by subst.
      * by rewrite <-app_assoc.
    + rewrite (bool_decide_eq_false_2 (CanonicalHeaderKey k = c)) by done. simpl.
      case_match; [|done]. by rewrite lookup_add_values, (bool_decide_eq_false_2 (CanonicalHeaderKey k = c)).
Qed.

(** ** HTTP requests and responses of the handlers *)
Record HttpRequest := mkHttpReq {
  r_header : Header;
  r_body : string;
  r_broken : bool;    (* the connection fails while the body is read *)
}.

Record HttpResponse := mkHttpResp {
  resp_status : Z;
  resp_body : string;
}.

Definition WriteHeader (code : Z) : HttpResponse := mkHttpResp code "".

(** [io.ReadAll(http.MaxBytesReader(w, r.Body, limit))] *)
Definition read_body (limit : Z) (r : HttpRequest) : option string :=
  if r_broken r || (limit <? len (r_body r)) then None else Some (r_body r).

Section ingest.
Context `{UuidLib, Postgres}.

(** ** Signing secrets *)

(** The first half of the [ValidateSecret] functions: the cached provider
    and its decrypted secret. *)
Definition signing_secret (name : string) : M (result string) :=
  let? prov := Cache_Get name in
  let* key := st_gets (MasterKey ∘ w_cfg) in
  st_ret (DecryptSigningKey key (p_SigningSecret prov)).

Definition has_secret (w : World) (name secret : string) : Prop :=
  ∃ v p, kv (w_redis w) !! (RedisProviderPrefix +:+ name) = Some v ∧ Unmarshal v = Some p ∧
    DecryptSigningKey (MasterKey (w_cfg w)) (p_SigningSecret p) = Ok secret.

Lemma signing_secret_Ok name w secret w' :
  signing_secret name w = (Ok secret, w') → has_secret w name secret.
Proof.
  unfold signing_secret, st_bind_res. rewrite st_bind_run.
  pose proof (Cache_Get_read_only name w) as Hs.
  destruct (Cache_Get name w) as [[p|e|] w1] eqn:E; [|done..]. simpl in *.
  apply Cache_Get_Ok in E as (v & Hv & Hp). rewrite st_bind_run. simpl.
  intros [= Hd _]. exists v, p. split_and!; [done..|]. by rewrite <-(same_cfg _ _ Hs).
Qed.

Lemma signing_secret_read_only name : read_only (signing_secret name).
Proof. unfold signing_secret. auto with world. Qed.

(** What a handler relies on: a check that succeeds vouches for the payload
    under the provider's secret, and checking changes nothing. *)
Class SignatureCheck {A} (name : string) (authentic : string → string → string → Prop)
    (check : string → string → M (result A)) : Prop := {
  check_sound : ∀ signature payload w a w',
    check signature payload w = (Ok a, w') →
    ∃ secret, has_secret w name secret ∧ authentic secret signature payload;
  check_read_only : ∀ signature payload, read_only (check signature payload);
}.

(** ** Duplicate check and insertion *)

Definition exists_for (name : string) (evID : string) : M (result bool) :=
  let? prov := Cache_Get name in Exists (p_ID prov) evID.

Definition insert_for (name : string) (headers payload id event : string) : M (result Webhook) :=
  let? prov := Cache_Get name in
  let* now := time_Now in
  let? hook := InsertWebhook (mkParams (p_ID prov) name (Some id) event headers payload
                                (p_DestinationURL prov) now) in
  st_ret (Ok hook).

Lemma exists_for_read_only name evID : read_only (exists_for name evID).
Proof. unfold exists_for, Exists. auto with world. Qed.

(** An insertion that succeeds stored one new queued row and did nothing else. *)
Lemma insert_for_Ok name headers payload id event w hook w' :
  insert_for name headers payload id event w = (Ok hook, w') →
  ∃ v prov, kv (w_redis w) !! (RedisProviderPrefix +:+ name) = Some v ∧ Unmarshal v = Some prov ∧
    webhook_events (w_db w) !! wh_ID hook = None ∧
    webhook_events (w_db w') = <[wh_ID hook := hook]> (webhook_events (w_db w)) ∧
    providers (w_db w') = providers (w_db w) ∧
    (∀ i x, webhook_events (w_db w) !! i = Some x → same_key (p_ID prov) (Some id) x = false) ∧
    wh_DeliveryStatus hook = Queued ∧ wh_ProviderID hook = p_ID prov ∧ wh_EventID hook = Some id ∧
    wh_Provider hook = name ∧ wh_EventType hook = event ∧ wh_ForwardedTo hook = p_DestinationURL prov ∧
    jsonb_in headers = Some (wh_Headers hook) ∧ jsonb_in payload = Some (wh_Payload hook) ∧
    wh_RetryCount hook = 0 ∧
    w_hub w' = w_hub w ∧ w_signal w' = w_signal w ∧ w_redis w' = w_redis w.
Proof.
  unfold insert_for, st_bind_res. rewrite st_bind_run.
  pose proof (Cache_Get_read_only name w) as Hs.
  destruct (Cache_Get name w) as [[p|e|] w1] eqn:E; [|done..]. simpl in *.
  apply Cache_Get_Ok in E as (v & Hv & Hp). rewrite !st_bind_run. cbn [time_Now st_gets fst snd].
  unfold InsertWebhook. rewrite st_bind_run. destruct Hs as [Hdb Hrd _ _ _ Hhub Hsig _ _].
  step_db; [by repeat case_match|]. rewrite Hdb.
  destruct (insert_stmt _ e now (w_db w)) as [[row|err|] db'] eqn:Ei; simpl; [|by repeat case_match|done].
  intros [= <- <-]. apply insert_stmt_Ok in Ei as (h & b & Hh & Hb & -> & -> & Hfresh & _ & Hnew & _).
  exists v, p. simpl. autorewrite with world. rewrite Hhub, Hsig, Hrd. split_and!; done.
Qed.

(** An insertion that fails changed nothing. *)
Lemma insert_for_not_Ok name headers payload id event w :
  (∀ hook, (insert_for name headers payload id event w).1 ≠ Ok hook) →
  same_state w (insert_for name headers payload id event w).2.
Proof.
  unfold insert_for, st_bind_res. rewrite st_bind_run.
  pose proof (Cache_Get_read_only name w) as Hs.
  destruct (Cache_Get name w) as [[p|e|] w1] eqn:E; simpl in *; [|done..].
  rewrite !st_bind_run. cbn [time_Now st_gets fst snd].
  unfold InsertWebhook. rewrite st_bind_run.
  pose proof (read_only_ext w1) as Hx.
  step_db; [intros _; repeat case_match; by etrans|].
  destruct (insert_stmt _ e now (w_db w1)) as [r db'] eqn:Ei. simpl. intros Hno.
  assert (db' = w_db w1) as ->.
  { eapply insert_stmt_not_Ok; [exact Ei|]. intros row ->. by destruct (Hno row). }
  etrans; [exact Hs|]. etrans; [exact Hx|].
  assert (same_state (ext w1).2 (set_db (λ _, w_db w1) (ext w1).2)) as Hd
    by (split; simpl; autorewrite with world; done).
  by repeat case_match.
Qed.

End ingest.

#[export] Hint Resolve signing_secret_read_only exists_for_read_only : world.
