(* ===== verification/Github.v ===== *)
(** [internal/providers/github/service.go] *)
From stdpp Require Import base tactics list gmap strings numbers.
From Stdlib Require Import ZArith Lia.
From S2P Require Import Prelude GoStd GoCrypto Model Codecs World Schema External EventsRepo Crypto Providers Ingest.

Open Scope Z_scope.

Definition allowed : list string :=
  ["Content-Type"; "X-Hub-Signature-256"; "X-Hub-Signature"; "X-Github-Event"; "X-Github-Delivery";
   "X-Github-Hook-Id"; "User-Agent"]%string.

Section github.
Context `{UuidLib, Postgres}.

Definition SetForwardHeaders (r : Header) (headers : string) : result Header :=
  match Unmarshal headers with
  | None => Err ErrJson
  | Some parsed => Ok (add_allowed allowed (map_to_list parsed) r)
  end.

Definition ValidateSecret (signature payload : string) : M (result unit) :=
  let? decrypted := signing_secret Github in
  let expected := "sha256=" +:+ EncodeToString (hmac_sha256 decrypted payload) in
  st_ret (if negb (hmac_Equal expected signature) then Err ErrInvalidSignature else Ok tt).

Definition InsertWebhook (headers payload id event : string) : M (result Webhook) :=
  insert_for Github headers payload id event.

Definition Exists (evID : string) : M (result bool) := exists_for Github evID.

Definition authentic (secret signature payload : string) : Prop :=
  signature = "sha256=" +:+ EncodeToString (hmac_sha256 secret payload).

#[export] Instance github_check : SignatureCheck Github authentic ValidateSecret.
Proof.
  split.
  - intros signature payload w a w'. unfold ValidateSecret, st_bind_res. rewrite st_bind_run.
    destruct (signing_secret Github w) as [[s|e|] w1] eqn:E; [|done..]. cbn [fst snd].
    unfold hmac_Equal. case_bool_decide as Heq; [|done]. intros _.
    exists s. split; [by eapply signing_secret_Ok|done].
  - intros signature payload. unfold ValidateSecret. auto with world.
Qed.
End github.
