(* ===== verification/Shopify.v ===== *)
(** [internal/providers/shopify/service.go] *)
From stdpp Require Import base tactics list gmap strings numbers.
From Stdlib Require Import ZArith Lia.
From S2P Require Import Prelude GoStd GoCrypto Model Codecs World Schema External EventsRepo Crypto Providers Ingest.

Open Scope Z_scope.

Definition allowed : list string :=
  ["Content-Type"; "User-Agent"; "X-Shopify-Topic"; "X-Shopify-Hmac-Sha256"; "X-Shopify-Shop-Domain";
   "X-Shopify-Api-Version"; "X-Shopify-Webhook-Id"; "X-Shopify-Triggered-At"; "X-Shopify-Event-Id"]%string.

Section shopify.
Context `{UuidLib, Postgres}.

Definition SetForwardHeaders (r : Header) (headers : string) : result Header :=
  match Unmarshal headers with
  | None => Err ErrJson
  | Some parsed => Ok (add_allowed allowed (map_to_list parsed) r)
  end.

Definition ValidateSecret (signature payload : string) : M (result unit) :=
  let? decrypted := signing_secret Shopify in
  let expectedMAC := hmac_sha256 decrypted payload in
  st_ret match Base64Decode signature with
         | None => Err ErrInvalidSignature
         | Some sigBytes => if negb (hmac_Equal sigBytes expectedMAC) then Err ErrInvalidSignature else Ok tt
         end.

Definition InsertWebhook (headers payload id event : string) : M (result Webhook) :=
  insert_for Shopify headers payload id event.

Definition Exists (evID : string) : M (result bool) := exists_for Shopify evID.

Definition authentic (secret signature payload : string) : Prop :=
  Base64Decode signature = Some (hmac_sha256 secret payload).

#[export] Instance shopify_check : SignatureCheck Shopify authentic ValidateSecret.
Proof.
  split.
  - intros signature payload w a w'. unfold ValidateSecret, st_bind_res. rewrite st_bind_run.
    destruct (signing_secret Shopify w) as [[s|e|] w1] eqn:E; [|done..]. cbn [fst snd].
    destruct (Base64Decode signature) as [sig|] eqn:Es; [|done].
    unfold hmac_Equal. case_bool_decide as Heq; [|done]. intros _.
    exists s. split; [by eapply signing_secret_Ok|]. unfold authentic. by rewrite Es, Heq.
  - intros signature payload. unfold ValidateSecret. auto with world.
Qed.
End shopify.
