(* ===== verification/Stripe.v ===== *)
(** [internal/providers/stripe/service.go] *)
From stdpp Require Import base tactics list gmap strings numbers.
From Stdlib Require Import ZArith Lia.
From S2P Require Import Prelude GoStd GoCrypto Model Codecs World Schema External EventsRepo Crypto Providers Ingest.

Open Scope Z_scope.

Definition allowed : list string :=
  ["Content-Type"; "Stripe-Signature"; "User-Agent"; "Cache-Control"]%string.

Definition secretPrefixLength : nat := 6.

(** [safePrefix]; the slice expression is in range. *)
Definition safePrefix (s : string) : string :=
  if (String.length s <=? secretPrefixLength)%nat then s else string_of (take secretPrefixLength (bytes_of s)).

Section stripe.
Context `{UuidLib, Postgres, StripeLib}.

Definition SetForwardHeaders (r : Header) (headers : string) : result Header :=
  match Unmarshal headers with
  | None => Err ErrJson
  | Some parsed => Ok (add_allowed allowed (map_to_list parsed) r)
  end.

Definition ValidateSecret (signature payload : string) : M (result StripeEvent) :=
  let? decrypted := signing_secret Stripe in
  let* now := time_Now in
  st_ret (ConstructEvent now payload signature decrypted).

Definition Exists (evID : string) : M (result bool) := exists_for Stripe evID.

Definition InsertWebhook (headers payload : string) (event : StripeEvent) : M (result Webhook) :=
  insert_for Stripe headers payload (ev_ID event) (ev_Type event).

Definition authentic (secret signature payload : string) : Prop := stripe_signed payload signature secret.

#[export] Instance stripe_check `{!StripeLibOk} : SignatureCheck Stripe authentic ValidateSecret.
Proof.
  split.
  - intros signature payload w a w'. unfold ValidateSecret, st_bind_res. rewrite st_bind_run.
    destruct (signing_secret Stripe w) as [[s|e|] w1] eqn:E; [|done..]. cbn.
    intros [= Hc _]. exists s. split; [by eapply signing_secret_Ok|]. by eapply ConstructEvent_signed.
  - intros signature payload. unfold ValidateSecret, time_Now. auto with world.
Qed.
End stripe.
