(* ===== verification/Worker.v ===== *)
(** [internal/worker/service.go] and [internal/worker/pool.go]: forwarding a
    batch of events to their destinations, the loop of a worker, and the
    pool's signal.  A worker is proved against the interface [Repository];
    [WorkerRepo]'s [Repo] is an instance of it. *)
From stdpp Require Import base tactics list gmap strings numbers.
From Stdlib Require Import ZArith Lia.
From S2P Require Import Prelude GoStd GoCrypto Model Codecs World Schema External EventsRepo Crypto Providers Ingest.
From S2P Require Import Github Shopify Stripe Hub Limiter WorkerRepo.

Open Scope Z_scope.

Definition RetryIntervalSeconds : Z := 30.

(** ** Outcomes of an attempt *)

Definition retry_at (now : Time) (secs : Z) : Time := now + wrap64 (secs * Second).

Definition setDefaultUpdateValues (now : Time) (err : string) (u : updateWebhook) : updateWebhook :=
  mkUpdate (u_id u) (u_provName u) (Some (retry_at now RetryIntervalSeconds)) DeliveryStatusFailed
    None (Some err) (u_forwardedTo u).

Definition setSuccessUpdateValues (code : Z) (u : updateWebhook) : updateWebhook :=
  mkUpdate (u_id u) (u_provName u) None DeliveryStatusDelivered (Some code) None (u_forwardedTo u).

Definition setFailureUpdateValues (code : Z) (err : string) (u : updateWebhook) : updateWebhook :=
  mkUpdate (u_id u) (u_provName u) None DeliveryStatusFailed (Some code) (Some err) (u_forwardedTo u).

Definition setRetryableUpdateValues (now : Time) (code : Z) (err : string) (u : updateWebhook) : updateWebhook :=
  mkUpdate (u_id u) (u_provName u) (Some (retry_at now RetryIntervalSeconds)) DeliveryStatusFailed
    (Some code) (Some err) (u_forwardedTo u).

Definition setRateLimitedUpdateValues (now : Time) (code : Z) (err retryAfter : string) (u : updateWebhook)
    : updateWebhook :=
  let nextRetry :=
    match Atoi retryAfter with
    | Some secs => if 0 <? secs then retry_at now secs else retry_at now RetryIntervalSeconds
    | None => retry_at now RetryIntervalSeconds
    end in
  mkUpdate (u_id u) (u_provName u) (Some nextRetry) DeliveryStatusFailed (Some code) (Some err) (u_forwardedTo u).

Definition StatusTooManyRequests : Z := 429.
Definition StatusServiceUnavailable : Z := 503.
Definition StatusBadRequest : Z := 400.
Definition StatusInternalServerError : Z := 500.

(** The [switch] on the response; a code it does not name leaves the update
    as it was. *)
Definition handle_response (now : Time) (res : Response) (u : updateWebhook) : updateWebhook :=
  let code := StatusCode res in
  if (200 <=? code) && (code <? 300) then setSuccessUpdateValues code u
  else if (code =? StatusTooManyRequests) || (code =? StatusServiceUnavailable)
  then setRateLimitedUpdateValues now code (Error ErrRateLimited) (RetryAfter res) u
  else if (StatusBadRequest <=? code) && (code <? StatusInternalServerError)
  then setFailureUpdateValues code (Status res) u
  else if StatusInternalServerError <=? code then setRetryableUpdateValues now code (Status res) u
  else u.

(** [http.NewRequestWithContext] accepts the URL. *)
Class HttpLib := { NewRequest_ok : string → bool }.

(** The order in which the goroutines of a batch of [n] run. *)
Class Scheduler := { order : World → nat → list nat }.
Class SchedulerOk `{Scheduler} : Prop := { order_Permutation : ∀ w n, order w n ≡ₚ seq 0 n }.

Definition zero_update : updateWebhook := mkUpdate 0 "" None "" None None None.

Section worker.
Context `{UuidLib, Postgres, StripeLib, HttpLib}.

(** [switch hook.Provider] *)
Definition provider_headers (provider headers : string) : result Header :=
  if bool_decide (provider = Stripe) then Stripe.SetForwardHeaders ∅ headers
  else if bool_decide (provider = Github) then Github.SetForwardHeaders ∅ headers
  else if bool_decide (provider = Shopify) then Shopify.SetForwardHeaders ∅ headers
  else Ok ∅.

Definition client_Do (req : Request) : M (result Response) :=
  let* e := ext in
  let* _ := st_modify (set_sent (λ l, l ++ [req])) in
  st_ret match es_fault e with Some err => Err err | None => Ok (es_resp e) end.

(** The body of one goroutine.  [updates.forwardedTo] points into the
    goroutine's copy of the hook, so it sees the destination written there
    once the provider is known. *)
Definition forward_one (hook : Webhook) : M updateWebhook :=
  let u0 := mkUpdate (wh_ID hook) (wh_Provider hook) None "" None None (Some (wh_ForwardedTo hook)) in
  let fail u err := (let* now := time_Now in st_ret (setDefaultUpdateValues now (Error err) u)) in
  let* prov := Cache_Get (wh_Provider hook) in
  match prov with
  | Err err => fail u0 err
  | Panic => st_ret u0
  | Ok prov =>
    let u := mkUpdate (wh_ID hook) (wh_Provider hook) None "" None None (Some (p_DestinationURL prov)) in
    let* ok := Allow prov in
    match ok with
    | Err err => fail u err
    | Panic => st_ret u
    | Ok false =>
      let* now := time_Now in
      st_ret (setRateLimitedUpdateValues now StatusTooManyRequests (Error ErrRateLimited) "" u)
    | Ok true =>
      if negb (NewRequest_ok (p_DestinationURL prov)) then fail u (ErrOther "invalid URL")
      else match provider_headers (wh_Provider hook) (wh_Headers hook) with
      | Err headerErr => fail u headerErr
      | Panic => st_ret u
      | Ok hdr =>
        let* res := client_Do (mkRequest (p_DestinationURL prov) (wh_Payload hook) hdr) in
        match res with
        | Err err => fail u err
        | Panic => st_ret u
        | Ok res => let* now := time_Now in st_ret (handle_response now res u)
        end
      end
    end
  end.

(** Nothing a goroutine calls panics: the [Panic] branches above are there
    because [result] has them. *)
Lemma Cache_Get_not_Panic key w : (Cache_Get key w).1 ≠ Panic.
Proof.
  unfold Cache_Get, st_bind_res. rewrite st_bind_run.
  destruct (cache_GetBytes_spec (RedisProviderPrefix +:+ key) w) as [[err ->] | -> ]; [done|]. simpl.
  destruct (kv (w_redis w) !! _) as [v|]; [|done]. simpl. by destruct (Unmarshal v).
Qed.

Lemma Allow_not_Panic prov w : (Allow prov w).1 ≠ Panic.
Proof.
  unfold Allow. case_match; [done|]. rewrite st_bind_run. cbn [st_gets fst snd]. case_match; [done|].
  rewrite st_bind_run. cbn [time_Now st_gets fst snd]. rewrite st_bind_run. unfold run_script.
  step_redis; cbn [fst snd]; [|destruct (allowScript _ _ _ _)]; simpl; repeat case_match; done.
Qed.

Lemma provider_headers_not_Panic name headers : provider_headers name headers ≠ Panic.
Proof.
  unfold provider_headers, Stripe.SetForwardHeaders, Github.SetForwardHeaders, Shopify.SetForwardHeaders.
  repeat case_match; done.
Qed.

(** Each goroutine writes the slot of its own index. *)
Fixpoint run_goroutines (sched : list nat) (hooks : list Webhook) (ups : list updateWebhook) : M (list updateWebhook) :=
  match sched with
  | [] => st_ret ups
  | i :: sched =>
    match hooks !! i with
    | Some hook => let* u := forward_one hook in run_goroutines sched hooks (<[i := u]> ups)
    | None => run_goroutines sched hooks ups
    end
  end.

Definition forwardEvent `{Scheduler} (hooks : list Webhook) : M (list updateWebhook) :=
  let* w := st_gets (λ w, w) in
  run_goroutines (order w (length hooks)) hooks (replicate (length hooks) zero_update).

(** ** The worker's loop *)

(** The interface [worker.Repository]. *)
Class Repository := {
  repo_GetEvents : M (list Webhook * option goerr);
  repo_UpdateEvents : list updateWebhook → M (list Webhook * option goerr);
}.

(** [NewWorkerRepo] *)
Definition NewWorkerRepo (k : Kind) : Repository := {|
  repo_GetEvents := GetEvents k;
  repo_UpdateEvents := UpdateEvents k;
|}.

Definition getNext {R : Repository} : M (list Webhook * option goerr) :=
  let* r := repo_GetEvents in
  st_ret match r with
         | (_, Some err) => if errors_Is err ErrNoRows then ([], Some ErrNoHooksToWork) else ([], Some err)
         | (evt, None) => (evt, None)
         end.

Definition updateEvent {R : Repository} (updates : list updateWebhook) : M (list Webhook * option goerr) :=
  repo_UpdateEvents updates.

Definition send (hook : Webhook) : M unit := Send hook.

(** One round of the loop of [run]; [false] is its [break]. *)
Definition run_round {R : Repository} `{Scheduler} : M bool :=
  let* next := getNext in
  match next with
  | (_, Some _) => st_ret false
  | (hooks, None) =>
    let* updates := forwardEvent hooks in
    let* upd := updateEvent updates in
    match upd with
    | (_, Some _) => st_ret true
    | (updatedHooks, None) => let* _ := st_iter send updatedHooks in st_ret true
    end
  end.

(** [run], for at most [fuel] rounds: [None] when it has not returned yet. *)
Fixpoint run {R : Repository} `{Scheduler} (fuel : nat) : M (option unit) :=
  match fuel with
  | O => st_ret None
  | S fuel => let* continue := run_round in
              if continue then run fuel else st_ret (Some tt)
  end.

(** ** pool.go *)
Definition TotalQueueWorkers : nat := 8.
Definition TotalRetryWorkers : nat := 4.

(** [Notify]: a non-blocking send on the signal channel. *)
Definition notified (n : nat) : nat := if (n <? TotalQueueWorkers)%nat then S n else n.
Definition Notify : M unit := st_modify (set_signal notified).

(** ** What an attempt reports *)

Record attempt_ok (hook : Webhook) (u : updateWebhook) : Prop := {
  at_id : u_id u = wh_ID hook;
  at_fwd : is_Some (u_forwardedTo u);
  at_status : u_deliveryStatus u = DeliveryStatusDelivered ∨ u_deliveryStatus u = DeliveryStatusFailed
              ∨ u_deliveryStatus u = ""%string;
  at_delivered : u_deliveryStatus u = DeliveryStatusDelivered →
    u_lastError u = None ∧ u_nextRetryAt u = None ∧ ∃ c, u_responseCode u = Some c ∧ 200 <= c < 300;
  at_failed : u_deliveryStatus u = DeliveryStatusFailed → is_Some (u_lastError u);
}.

Lemma attempt_default hook now err u :
  u_id u = wh_ID hook → is_Some (u_forwardedTo u) → attempt_ok hook (setDefaultUpdateValues now err u).
Proof. intros. split; simpl; try done; eauto. Qed.

Lemma attempt_limited hook now code err ra u :
  u_id u = wh_ID hook → is_Some (u_forwardedTo u) → attempt_ok hook (setRateLimitedUpdateValues now code err ra u).
Proof. intros. split; simpl; try done; eauto. Qed.

Lemma attempt_blank hook prov fwd :
  attempt_ok hook (mkUpdate (wh_ID hook) prov None "" None None (Some fwd)).
Proof. split; simpl; try done; eauto. Qed.

Lemma attempt_response hook now res u :
  u_id u = wh_ID hook → is_Some (u_forwardedTo u) → attempt_ok hook u → attempt_ok hook (handle_response now res u).
Proof.
  intros Hid Hf Hu. unfold handle_response.
  destruct ((200 <=? _) && _) eqn:E1; [bsplit; split; simpl; try done; eauto 6|].
  case_match; [by apply attempt_limited|].
  case_match; [split; simpl; try done; eauto|].
  case_match; [split; simpl; try done; eauto|]. done.
Qed.

#[local] Hint Resolve attempt_default attempt_limited attempt_blank attempt_response : vault.

Lemma forward_one_ok hook w : attempt_ok hook (forward_one hook w).1.
Proof.
  unfold forward_one. rewrite st_bind_run.
  destruct (Cache_Get _ w) as [[prov|err|] w1]; cbn [fst snd]; [|cbn; eauto with vault..].
  rewrite st_bind_run. destruct (Allow prov w1) as [[[]|err|] w2]; cbn [fst snd]; [|cbn; eauto with vault..].
  destruct (NewRequest_ok _); cbn [negb]; [|cbn; eauto with vault].
  destruct (provider_headers _ _) as [hdr|err|]; [|cbn; eauto with vault..].
  rewrite st_bind_run. destruct (client_Do _ w2) as [[res|err|] w3]; cbn [fst snd]; cbn; eauto with vault.
Qed.

(** The goroutines in any order: an invariant [J] indexed by how many are left
    holds at the end, and every slot holds a report of its own hook. *)
Lemma run_goroutines_each (J : nat → World → Prop) (Q : Webhook → updateWebhook → Prop) sched hooks ups w :
  (∀ n hook w, hook ∈ hooks → J (S n) w → Q hook (forward_one hook w).1 ∧ J n (forward_one hook w).2) →
  length ups = length hooks → (∀ i, i ∈ sched → i < length hooks)%nat → J (length sched) w →
  let r := run_goroutines sched hooks ups w in
  J 0%nat r.2 ∧ length r.1 = length hooks ∧
  (∀ i, i ∉ sched → r.1 !! i = ups !! i) ∧
  (∀ i hook, i ∈ sched → hooks !! i = Some hook → ∃ u, r.1 !! i = Some u ∧ Q hook u).
Proof.
  intros HJ. revert ups w. induction sched as [|j sched IH]; intros ups w Hlen Hin Hw; cbn [run_goroutines].
  - split_and!; [done..|]. intros i hook Hi. by apply not_elem_of_nil in Hi.
  - destruct (lookup_lt_is_Some_2 hooks j) as [hook Hj]; [apply Hin; by left|]. rewrite Hj, st_bind_run.
    destruct (HJ (length sched) hook w) as [HQ Hw1]; [by eapply list_elem_of_lookup_2|done|].
    destruct (forward_one hook w) as [u w1]. cbn [fst snd] in *.
    destruct (IH (<[j := u]> ups) w1) as (Hend & Hl & Hother & Hslot); [by rewrite length_insert| |done|].
    { intros i Hi. apply Hin. by right. }
    split_and!; [done..| |].
    + intros i [Hne Hni]%not_elem_of_cons. rewrite Hother by done. by apply list_lookup_insert_ne.
    + intros i h Hi Hh. destruct (decide (i ∈ sched)) as [|Hni]; [by eauto|].
      apply elem_of_cons in Hi as [->|]; [|done]. exists u. rewrite Hother by done.
      split; [apply list_lookup_insert_eq; rewrite Hlen; by eapply lookup_lt_Some|]. congruence.
Qed.

Lemma forwardEvent_each `{SchedulerOk} (J : nat → World → Prop) (Q : Webhook → updateWebhook → Prop) hooks w :
  (∀ n hook w, hook ∈ hooks → J (S n) w → Q hook (forward_one hook w).1 ∧ J n (forward_one hook w).2) →
  J (length hooks) w →
  J 0%nat (forwardEvent hooks w).2 ∧ Forall2 Q hooks (forwardEvent hooks w).1.
Proof.
  intros HJ Hw. unfold forwardEvent. rewrite st_bind_run. cbn [st_gets fst snd].
  pose proof (order_Permutation w (length hooks)) as Hp.
  destruct (run_goroutines_each J Q (order w (length hooks)) hooks (replicate (length hooks) zero_update) w HJ)
    as (Hend & Hlen & _ & Hslot).
  { by rewrite length_replicate. }
  { intros i. rewrite Hp, elem_of_seq. lia. }
  { by rewrite (Permutation_length Hp), length_seq. }
  split; [done|]. apply Forall2_same_length_lookup_2; [done|]. intros i hook u Hh Hu.
  destruct (Hslot i hook) as (u' & Hu' & Hok); [|done|congruence].
  rewrite Hp. apply elem_of_seq. apply lookup_lt_Some in Hh. lia.
Qed.

Lemma forwardEvent_slots `{SchedulerOk} hooks w :
  Forall2 attempt_ok hooks (forwardEvent hooks w).1.
Proof.
  apply (forwardEvent_each (λ _ _, True)); [|done]. intros n hook w' _ _. split; [apply forward_one_ok|done].
Qed.

Lemma forwardEvent_ids `{SchedulerOk} hooks w :
  u_id <$> (forwardEvent hooks w).1 = wh_ID <$> hooks.
Proof.
  pose proof (forwardEvent_slots hooks w) as HF. induction HF as [|h u hs us Hu _ IH]; [done|].
  rewrite !fmap_cons, IH. f_equal. apply at_id, Hu.
Qed.

End worker.
