(* ===== verification/WorkerLoop.v ===== *)
(** The loop of a worker: what a round leaves alone, what it does to the
    backlog, and when the loop ends.  The statements about every worker are
    proved against the laws [RepositoryLaws] of the interface [Repository];
    the instance below discharges them for the repository of the program. *)
From stdpp Require Import base tactics list gmap strings numbers.
From Stdlib Require Import ZArith Lia.
From S2P Require Import Prelude GoStd GoCrypto Model Codecs World Schema External EventsRepo Crypto Providers Ingest.
From S2P Require Import Hub Limiter WorkerRepo Worker.

Open Scope Z_scope.

(** ** Scripts without failures and without competing transactions *)
Definition calm_step (e : EnvStep) : Prop := es_fault e = None ∧ es_locked e = ∅.
Definition calm (w : World) : Prop := Forall calm_step (w_env w).

Lemma calm_reliable w : calm w → reliable w.
Proof. apply Forall_impl. by intros e []. Qed.

Lemma calm_ext w : calm w → calm (ext w).2 ∧ calm_step (ext w).1.
Proof.
  unfold calm, ext. intros Hw. destruct (w_env w) as [|e es] eqn:E; simpl; [by rewrite E|].
  by inversion Hw.
Qed.

(** ** The frame of a delivery attempt *)

(** Attempts touch the rate limiter, the network, the clock and the script. *)
Record attempt_frame (w w' : World) : Prop := {
  af_db : w_db w' = w_db w;
  af_hub : w_hub w' = w_hub w;
  af_batch : w_batch w' = w_batch w;
  af_cfg : w_cfg w' = w_cfg w;
  af_kv : kv (w_redis w') = kv (w_redis w);
  af_limiter : w_limiter w' = w_limiter w;
  af_env : w_env w' `suffix_of` w_env w;
}.

#[export] Instance attempt_frame_preorder : PreOrder attempt_frame.
Proof.
  split.
  - intros w. by split.
  - intros w1 w2 w3 [] []. split; try congruence. by etrans.
Qed.

Lemma attempt_frame_ext w : attempt_frame w (ext w).2.
Proof. split; autorewrite with world; try done. apply suffix_ext. Qed.

Lemma Forall_suffix_of {A} (P : A → Prop) l k : k `suffix_of` l → Forall P l → Forall P k.
Proof. intros [h ->] Hl. by apply Forall_app in Hl as [_ ?]. Qed.

Lemma attempt_frame_calm w w' : attempt_frame w w' → calm w → calm w'.
Proof. intros Hf. apply Forall_suffix_of, (af_env _ _ Hf). Qed.
Lemma attempt_frame_reliable w w' : attempt_frame w w' → reliable w → reliable w'.
Proof. intros Hf. apply Forall_suffix_of, (af_env _ _ Hf). Qed.

Section loop.
Context `{UuidLib, Postgres, StripeLib, HttpLib}.

Lemma redis_cmd_frame {A} (f : Time → Redis → result A * Redis) w :
  (∀ t rd, kv (f t rd).2 = kv rd) → attempt_frame w (redis_cmd f w).2.
Proof.
  intros Hf. destruct (redis_cmd_cases f w) as [(err & ->)|(now & _ & ->)]; [apply attempt_frame_ext|].
  etrans; [apply attempt_frame_ext|]. split; simpl; autorewrite with world; auto.
Qed.

Lemma Cache_Get_attempt key w : attempt_frame w (Cache_Get key w).2.
Proof.
  unfold Cache_Get, cache_GetBytes, st_bind_res. rewrite st_bind_run.
  set (m := redis_cmd _). assert (attempt_frame w (m w).2) as Hm by (by apply redis_cmd_frame).
  destruct (m w) as [[] w1]; exact Hm.
Qed.

Lemma Allow_attempt prov w : attempt_frame w (Allow prov w).2.
Proof.
  unfold Allow. destruct (_ <=? 0); [done|]. rewrite st_bind_run. cbn [st_gets fst snd].
  destruct (w_limiter w); [|done]. cbn [negb]. rewrite !st_bind_run. cbn [time_Now st_gets fst snd].
  unfold run_script. apply redis_cmd_frame. intros t rd. by destruct (allowScript _ _ _ _).
Qed.

Lemma client_Do_attempt req w : attempt_frame w (client_Do req w).2.
Proof.
  unfold client_Do. rewrite !st_bind_run. etrans; [apply attempt_frame_ext|]. by split.
Qed.

Lemma forward_one_frame hook w : attempt_frame w (forward_one hook w).2.
Proof.
  unfold forward_one. rewrite st_bind_run. pose proof (Cache_Get_attempt (wh_Provider hook) w) as Hget.
  destruct (Cache_Get _ w) as [[prov|err|] w1]; cbn [fst snd] in *; [|exact Hget..].
  rewrite st_bind_run. pose proof (Allow_attempt prov w1) as Hallow.
  destruct (Allow prov w1) as [[[]|err|] w2]; cbn [fst snd] in *; [|by etrans..].
  destruct (NewRequest_ok _); cbn [negb]; [|by etrans].
  destruct (provider_headers _ _) as [hdr|err|]; [|by etrans..].
  rewrite st_bind_run.
  pose proof (client_Do_attempt (mkRequest (p_DestinationURL prov) (wh_Payload hook) hdr) w2) as Hdo.
  destruct (client_Do _ w2) as [[res|err|] w3]; cbn [fst snd] in *; (etrans; [exact Hget|by etrans]).
Qed.

Lemma run_goroutines_frame sched hooks ups w : attempt_frame w (run_goroutines sched hooks ups w).2.
Proof.
  revert ups w. induction sched as [|i sched IH]; intros ups w; cbn [run_goroutines]; [done|].
  destruct (hooks !! i); [|done]. rewrite st_bind_run. etrans; [apply forward_one_frame|apply IH].
Qed.

Lemma forwardEvent_frame `{Scheduler} hooks w : attempt_frame w (forwardEvent hooks w).2.
Proof. unfold forwardEvent. rewrite st_bind_run. apply run_goroutines_frame. Qed.

(** ** The laws a worker relies on *)

(** Worlds in which the statements of a repository can succeed. *)
Definition sane (w : World) : Prop := reliable w ∧ 0 <= (w_batch w).1 ∧ 0 <= (w_batch w).2.

Class RepositoryLaws (R : Repository) : Prop := {
  law_get : ∀ w, sane w → ∃ hooks, (repo_GetEvents w).1 = (hooks, None) ∧ sane (repo_GetEvents w).2;
  law_update : ∀ us w, sane w → sane (repo_UpdateEvents us w).2;
}.

Lemma sane_frame w w' : attempt_frame w w' → sane w → sane w'.
Proof.
  intros Hf (Hr & Hb). split; [by eapply attempt_frame_reliable|]. by rewrite (af_batch _ _ Hf).
Qed.

Lemma sane_send hooks w : sane w → sane (st_iter send hooks w).2.
Proof. apply st_iter_inv. done. Qed.

(** Without failures a round always asks for another one. *)
Lemma run_round_continues `{R : Repository, !RepositoryLaws R, Scheduler} w :
  sane w → (run_round w).1 = true ∧ sane (run_round w).2.
Proof.
  intros Hw. unfold run_round, getNext. rewrite !st_bind_run.
  destruct (law_get w Hw) as (hooks & E & Hs). destruct (repo_GetEvents w) as [p w1]. cbn [fst snd] in *.
  subst p. cbn. pose proof (sane_frame _ _ (forwardEvent_frame hooks w1) Hs) as Hs2.
  unfold updateEvent. pose proof (law_update (forwardEvent hooks w1).1 (forwardEvent hooks w1).2 Hs2) as Hs3.
  rewrite !st_bind_run. destruct (repo_UpdateEvents _ _) as [[l [err|]] w3]; cbn [fst snd] in *; [by split|].
  split; [done|]. by apply sane_send.
Qed.

Lemma run_unfinished `{R : Repository, !RepositoryLaws R, Scheduler} fuel w :
  sane w → (run fuel w).1 = None ∧ sane (run fuel w).2.
Proof.
  revert w. induction fuel as [|fuel IH]; intros w Hw; cbn [run]; [done|].
  destruct (run_round_continues w Hw) as [E Hs]. rewrite st_bind_run, E. by apply IH.
Qed.

End loop.

(** ** The program's repository satisfies the laws *)
#[export] Instance Repo_laws k : RepositoryLaws (NewWorkerRepo k).
Proof.
  split.
  - intros w (Hr & Hb). simpl. unfold GetEvents. rewrite st_bind_run.
    destruct (reliable_ext w Hr) as [Hr1 ->]. rewrite !st_bind_run. cbn [time_Now st_gets fst snd].
    destruct (reliable_ext _ Hr1) as [Hr2 ->]. rewrite !st_bind_run. cbn [st_gets fst snd].
    unfold claim_stmt. autorewrite with world.
    assert ((batch_limit k (w_batch w) <? 0) = false) as -> by (apply Z.ltb_ge; destruct k; simpl; unfold ReplayWorkerBatch; lia).
    rewrite st_bind_run. destruct (reliable_ext _ Hr2) as [Hr3 ->]. rewrite st_bind_run. simpl.
    eexists. split; [done|]. split; [done|]. simpl. by autorewrite with world.
  - intros us w (Hr & Hb). simpl. unfold UpdateEvents. case_match; [done|].
    rewrite st_bind_run, db_stmt_reliable by done. simpl.
    destruct (reliable_ext w Hr) as [Hr1 _]. split; [done|]. simpl. by autorewrite with world.
Qed.

(** ** The backlog *)

Definition backlog (m : gmap UUID Webhook) : gset UUID :=
  dom (filter (λ kv, wh_DeliveryStatus kv.2 = Queued) m).

Lemma elem_of_backlog m i :
  i ∈ backlog m ↔ ∃ w, m !! i = Some w ∧ wh_DeliveryStatus w = Queued.
Proof.
  unfold backlog. rewrite elem_of_dom. unfold is_Some. setoid_rewrite map_lookup_filter_Some. done.
Qed.

Lemma size_list_to_set_le (l : list UUID) : (size (list_to_set l : gset UUID) ≤ length l)%nat.
Proof.
  induction l as [|x l IH]; [done|]. rewrite list_to_set_cons, size_union_alt, size_singleton. simpl.
  pose proof (subseteq_size (list_to_set l ∖ {[x]} : gset UUID) (list_to_set l) ltac:(set_solver)). lia.
Qed.

(** The ids of claimed events: distinct, and taken out of the backlog. *)
Definition claimed_ids (hooks : list Webhook) : gset UUID := list_to_set (wh_ID <$> hooks).

Lemma claimed_ids_backlog limit e now db hooks db' :
  db_ok db → claim_stmt WorkerKindQueue limit e now db = (Ok hooks, db') →
  NoDup (wh_ID <$> hooks) ∧ size (claimed_ids hooks) = length hooks ∧
  claimed_ids hooks ⊆ backlog (webhook_events db) ∧
  backlog (webhook_events db') ⊆ backlog (webhook_events db) ∖ claimed_ids hooks.
Proof.
  intros Hok Hc. pose proof (claim_stmt_hooks _ _ _ _ _ _ _ Hc) as [Hh _].
  assert (wh_ID <$> hooks = wh_ID <$> picked WorkerKindQueue limit (es_locked e) now db) as Hids.
  { rewrite Hh, <-list_fmap_compose. done. }
  assert (NoDup (wh_ID <$> hooks)) as Hnd by (rewrite Hids; by apply NoDup_sql_select, ok_events).
  unfold claimed_ids. split; [done|]. split; [by rewrite size_list_to_set, length_fmap|]. split.
  - intros i. rewrite elem_of_list_to_set, Hids. intros (x & -> & Hx)%list_elem_of_fmap.
    apply elem_of_picked in Hx as ([j Hj] & He & _).
    apply elem_of_backlog. exists x. rewrite (ok_events _ Hok j x Hj). split; [done|].
    by apply eligible_status in He.
  - intros i (x' & Hx' & Hq)%elem_of_backlog. rewrite (lookup_claim _ _ _ _ _ _ _ i Hc Hok) in Hx'.
    destruct (webhook_events db !! i) as [x|] eqn:Hx; [|done]. case_bool_decide as Hp; [by simplify_eq|].
    injection Hx' as <-. apply elem_of_difference. split; [apply elem_of_backlog; eauto|].
    rewrite elem_of_list_to_set, Hids. intros (y & Hyx & Hy)%list_elem_of_fmap.
    destruct Hp. assert (x = y) as ->; [|done]. apply elem_of_picked in Hy as ([j Hj] & _).
    pose proof (ok_events _ Hok j y Hj). pose proof (ok_events _ Hok i x Hx). congruence.
Qed.

(** A claim of the queue worker takes a full batch out of the backlog, or all
    of it. *)
Lemma claim_backlog limit e now db hooks db' :
  db_ok db → es_locked e = ∅ → claim_stmt WorkerKindQueue limit e now db = (Ok hooks, db') →
  (size (backlog (webhook_events db')) ≤ size (backlog (webhook_events db)) - Z.to_nat limit)%nat.
Proof.
  intros Hok Hl Hc. destruct (claimed_ids_backlog _ _ _ _ _ _ Hok Hc) as (_ & Hsz & Hsub & Hsub').
  pose proof (claim_stmt_hooks _ _ _ _ _ _ _ Hc) as [Hh _].
  apply subseteq_size in Hsub'. rewrite size_difference in Hsub' by done.
  enough (Z.to_nat limit `min` size (backlog (webhook_events db)) ≤ length hooks)%nat by lia.
  rewrite Hh, length_fmap. unfold picked, sql_select. rewrite length_select_first.
  set (cand := filter _ _).
  enough (size (backlog (webhook_events db)) ≤ length cand)%nat by lia.
  assert (backlog (webhook_events db) ⊆ list_to_set (wh_ID <$> cand)) as Hb.
  { intros i (x & Hx & Hq)%elem_of_backlog. rewrite elem_of_list_to_set, list_elem_of_fmap.
    exists x. split; [symmetry; by apply (ok_events _ Hok)|]. unfold cand.
    apply list_elem_of_filter. split; [|apply elem_of_rows; eauto].
    simpl. rewrite Hl, !bool_decide_eq_true_2; [done|set_solver|done]. }
  apply subseteq_size in Hb. rewrite <-(length_fmap wh_ID cand). etrans; [exact Hb|].
  apply size_list_to_set_le.
Qed.

(** ** Draining the queue *)

(** A delivery report never puts a row back into the queue. *)
Lemma batch_backlog k us e now db :
  Forall (λ u, status_in (u_deliveryStatus u) ≠ Some Queued) us →
  backlog (webhook_events (batch_stmt k us e now db).2) ⊆ backlog (webhook_events db).
Proof.
  intros Hus. unfold batch_stmt.
  destruct (exec_batch k now us (webhook_events db)) as [rs [m'|]] eqn:E; [|done]. simpl.
  intros i (x & Hx & Hq)%elem_of_backlog. revert Hq.
  apply (exec_batch_rows k now us _ rs m'
    (λ i x, wh_DeliveryStatus x = Queued → i ∈ backlog (webhook_events db)) E); [| |exact Hx].
  - intros j y Hy Hq. apply elem_of_backlog. eauto.
  - intros u y ? Hu _ [st fwd Hst _ _ _ _]. simpl. intros ->. by destruct (proj1 (Forall_forall _ _) Hus u (proj1 (list_elem_of_In _ _) Hu)).
Qed.

Lemma attempt_not_queued hook u : attempt_ok hook u → status_in (u_deliveryStatus u) ≠ Some Queued.
Proof. intros [_ _ Hs _ _]. by destruct Hs as [->|[->| ->]]. Qed.

(** What stays true of a calm run, and the bound on its backlog. *)
Record calm_ok (n : nat) (w : World) : Prop := {
  co_calm : calm w;
  co_db : db_ok (w_db w);
  co_batch : 0 <= (w_batch w).1;
  co_backlog : (size (backlog (webhook_events (w_db w))) ≤ n)%nat;
}.

Lemma calm_ok_frame n w w' : attempt_frame w w' → calm_ok n w → calm_ok n w'.
Proof.
  intros Hf [Hc Hd Hb Hn]. split; [by eapply attempt_frame_calm|..]; by rewrite ?(af_db _ _ Hf), ?(af_batch _ _ Hf).
Qed.

(** A claim of the queue worker when nothing fails and nothing is locked. *)
Lemma GetEvents_calm w :
  calm w → 0 <= (w_batch w).1 →
  ∃ hooks e now db', es_locked e = ∅ ∧
    claim_stmt WorkerKindQueue (w_batch w).1 e now (w_db w) = (Ok hooks, db') ∧
    GetEvents WorkerKindQueue w = ((hooks, None), set_db (λ _, db') (ext (ext (ext w).2).2).2).
Proof.
  intros Hc Hb. unfold GetEvents. rewrite st_bind_run.
  destruct (calm_ext w Hc) as [Hc1 [-> _]]. rewrite !st_bind_run. cbn [time_Now st_gets fst snd].
  destruct (calm_ext _ Hc1) as [Hc2 [-> Hl]]. rewrite !st_bind_run. cbn [st_gets fst snd].
  autorewrite with world. cbn [batch_limit].
  destruct (claim_stmt WorkerKindQueue _ _ _ _) as [[hooks|err|] db'] eqn:E.
  - rewrite st_bind_run. destruct (calm_ext _ Hc2) as [_ [-> _]]. rewrite st_bind_run. cbn [st_modify st_ret fst snd].
    by do 4 eexists.
  - exfalso. revert E. unfold claim_stmt. by rewrite (proj2 (Z.ltb_ge _ _)).
  - exfalso. revert E. unfold claim_stmt. by case_match.
Qed.

Lemma calm_GetEvents n w :
  calm_ok n w →
  ∃ hooks, (GetEvents WorkerKindQueue w).1 = (hooks, None) ∧
    calm_ok (n - Z.to_nat (w_batch w).1) (GetEvents WorkerKindQueue w).2 ∧
    w_batch (GetEvents WorkerKindQueue w).2 = w_batch w.
Proof.
  intros [Hc Hd Hb Hn]. destruct (GetEvents_calm w Hc Hb) as (hooks & e & now & db' & Hl & E & ->).
  exists hooks. split; [done|]. simpl. autorewrite with world. split; [|done].
  split; simpl; autorewrite with world; [by repeat apply calm_ext| |done|].
  - eapply (f_equal snd) in E. simpl in E. rewrite <-E. by apply claim_stmt_db_ok.
  - pose proof (claim_backlog _ _ _ _ _ _ Hd Hl E). lia.
Qed.

Lemma calm_UpdateEvents n us w :
  Forall (λ u, status_in (u_deliveryStatus u) ≠ Some Queued) us → calm_ok n w →
  calm_ok n (UpdateEvents WorkerKindQueue us w).2 ∧ w_batch (UpdateEvents WorkerKindQueue us w).2 = w_batch w.
Proof.
  intros Hus Hok. unfold UpdateEvents. case_match; [done|]. destruct Hok as [Hc Hd Hb Hn].
  rewrite st_bind_run, db_stmt_reliable by by apply calm_reliable. cbn [st_ret fst snd].
  destruct (calm_ext w Hc) as [Hc1 _]. split; [|simpl; by autorewrite with world].
  split; simpl; autorewrite with world; [done|by apply batch_stmt_db_ok|done|].
  etrans; [|exact Hn]. apply subseteq_size, batch_backlog, Hus.
Qed.

(** The repository of the queue workers. *)
Abbreviation queue_repo := (NewWorkerRepo WorkerKindQueue).

Section drain.
Context `{UuidLib, Postgres, StripeLib, HttpLib, SchedulerOk}.

Lemma calm_ok_send n hooks w :
  calm_ok n w → calm_ok n (st_iter send hooks w).2 ∧ w_batch (st_iter send hooks w).2 = w_batch w.
Proof.
  intros Hok. apply (st_iter_inv (λ w', calm_ok n w' ∧ w_batch w' = w_batch w)); [|done].
  intros a s [[Hc Hd Hb Hn] E]. done.
Qed.

Lemma calm_round n w :
  calm_ok n w →
  (run_round (R := queue_repo) w).1 = true ∧
  calm_ok (n - Z.to_nat (w_batch w).1) (run_round (R := queue_repo) w).2 ∧
  w_batch (run_round (R := queue_repo) w).2 = w_batch w.
Proof.
  intros Hok. unfold run_round, getNext, updateEvent.
  change (@repo_GetEvents queue_repo) with (GetEvents WorkerKindQueue).
  change (@repo_UpdateEvents queue_repo) with (UpdateEvents WorkerKindQueue).
  rewrite !st_bind_run. destruct (calm_GetEvents n w Hok) as (hooks & E & Hok1 & Hb1).
  destruct (GetEvents WorkerKindQueue w) as [p w1]. cbn [fst snd] in *. subst p. cbn [st_ret fst snd].
  rewrite st_bind_run. pose proof (forwardEvent_slots hooks w1) as Hslots.
  pose proof (forwardEvent_frame hooks w1) as Hf. destruct (forwardEvent hooks w1) as [us w2]. cbn [fst snd] in *.
  assert (Forall (λ u, status_in (u_deliveryStatus u) ≠ Some Queued) us) as Hus.
  { clear -Hslots. induction Hslots; constructor; eauto using attempt_not_queued. }
  apply (calm_ok_frame _ _ _ Hf) in Hok1. pose proof (af_batch _ _ Hf) as Hb.
  destruct (calm_UpdateEvents _ us w2 Hus Hok1) as [Hok2 Hb2]. rewrite st_bind_run.
  destruct (UpdateEvents WorkerKindQueue us w2) as [[l [err|]] w3]; cbn [fst snd] in *.
  - split_and!; [done..|]. simpl. congruence.
  - rewrite st_bind_run. cbn [st_ret fst snd].
    destruct (calm_ok_send _ l w3 Hok2) as [? ->]. split_and!; [done..|]. congruence.
Qed.

Lemma calm_run fuel n w :
  calm_ok n w → (size (backlog (webhook_events (w_db (run (R := queue_repo) fuel w).2)))
                 ≤ n - fuel * Z.to_nat (w_batch w).1)%nat.
Proof.
  revert n w. induction fuel as [|fuel IH]; intros n w Hok; cbn [run].
  - destruct Hok as [_ _ _ Hn]. simpl. lia.
  - destruct (calm_round n w Hok) as (E & Hok1 & Hb). rewrite st_bind_run, E.
    specialize (IH _ _ Hok1). rewrite Hb in IH. lia.
Qed.
End drain.
