(* ===== verification/Deliver.v ===== *)
(** When an attempt succeeds: in a world in which every call succeeds and the
    destinations answer 2xx, a round of a queue worker delivers the events it
    claims, as far as the rate limits have room for them. *)
From stdpp Require Import base tactics list gmap strings numbers.
From Stdlib Require Import ZArith Lia.
From S2P Require Import Prelude GoStd GoCrypto Model Codecs World Schema External EventsRepo Crypto Providers Ingest.
From S2P Require Import Hub Double Limiter WorkerRepo Worker WorkerLoop.

Open Scope Z_scope.

(** ** The conditions *)

(** A step without failure, without competing transaction and with a 2xx
    answer of the destination, should it be asked. *)
Definition welcoming (e : EnvStep) : Prop := calm_step e ∧ 200 <= StatusCode (es_resp e) < 300.

Record healthy (w : World) : Prop := {
  he_env : Forall welcoming (w_env w);
  he_limiter : w_limiter w = true;
}.

(** The level of a provider's bucket, a double, after what has leaked by now. *)
Definition level_now (w : World) (p : Provider) : Z :=
  match buckets (w_redis w) !! bucket_key (p_Name p) with
  | Some b => level_at (p_MaxReqSecond p) (unix_seconds (w_now w / Millisecond)) b
  | None => 0
  end.

(** The bucket has room for [n] requests. *)
Definition room (n : nat) (w : World) (p : Provider) : Prop :=
  0 < p_MaxReqSecond p < 2 ^ 53 ∧ level_now w p + Z.of_nat n * one <= p_MaxReqSecond p * one.

Lemma unix_seconds_now w w' :
  w_now w <= w_now w' → unix_seconds (w_now w / Millisecond) <= unix_seconds (w_now w' / Millisecond).
Proof. intros Hn. apply unix_seconds_mono. by apply Z.div_le_mono. Qed.

Lemma room_le m n w p : (m ≤ n)%nat → room n w p → room m w p.
Proof. intros Hmn [? Hr]. split; [done|]. pose proof one_pos. nia. Qed.

Section deliver.
Context `{UuidLib, Postgres, StripeLib, HttpLib}.

(** The provider of an event is cached, its destination is a URL the client
    and the database accept, and the stored headers decode. *)
Record deliverable (w : World) (x : Webhook) (p : Provider) : Prop := {
  dv_cached : ∃ v, kv (w_redis w) !! (RedisProviderPrefix +:+ wh_Provider x) = Some v ∧ Unmarshal v = Some p;
  dv_name : p_Name p = wh_Provider x;
  dv_url : NewRequest_ok (p_DestinationURL p) = true;
  dv_text : text_ok (p_DestinationURL p) = true;
  dv_headers : ∃ h, provider_headers (wh_Provider x) (wh_Headers x) = Ok h;
}.

(** The report of an attempt that succeeded. *)
Record success (hook : Webhook) (u : updateWebhook) : Prop := {
  su_id : u_id u = wh_ID hook;
  su_status : u_deliveryStatus u = DeliveryStatusDelivered;
  su_forwarded : ∃ url, u_forwardedTo u = Some url ∧ text_ok url = true;
  su_code : ∃ c, u_responseCode u = Some c ∧ 200 <= c < 300;
  su_rest : u_lastError u = None ∧ u_nextRetryAt u = None;
}.

(** The world is ready for [n] more attempts at events like [x]. *)
Definition ready_for (n : nat) (w : World) (x : Webhook) : Prop := ∃ p, deliverable w x p ∧ room n w p.

(** ** One attempt *)

Lemma healthy_ext w : healthy w → healthy (ext w).2 ∧ welcoming (ext w).1.
Proof.
  intros [He Hl]. unfold ext. destruct (w_env w) as [|e es] eqn:E.
  - cbn [fst snd]. split; [split; [by rewrite E|done]|]. split; [done|simpl; lia].
  - apply Forall_cons_1 in He as [He Hes]. by split.
Qed.

Lemma healthy_redis f w : healthy w → healthy (set_redis f w).
Proof. by intros []. Qed.

Lemma Cache_Get_healthy w x p :
  healthy w → deliverable w x p → Cache_Get (wh_Provider x) w = (Ok p, (ext w).2).
Proof.
  intros Hh [(v & Hv & Hu) _ _ _ _]. unfold Cache_Get, cache_GetBytes, st_bind_res. rewrite st_bind_run.
  destruct (healthy_ext w Hh) as [_ [[Hf _] _]]. unfold redis_cmd. pose proof (ext_redis w) as Hr.
  destruct (ext w) as [e w1]. cbn [fst snd] in *. rewrite Hf, Hr, Hv. cbn [fst snd st_ret]. rewrite Hu.
  f_equal. rewrite <-Hr. by destruct w1.
Qed.

Lemma room_later n w w' p :
  buckets (w_redis w') = buckets (w_redis w) → w_now w <= w_now w' → room n w p → room n w' p.
Proof.
  intros Hb Hn%unix_seconds_now [Hm Hr]. split; [done|]. unfold level_now in *. rewrite Hb.
  destruct (buckets (w_redis w) !! _) as [b|]; [|done].
  pose proof (level_at_later (p_MaxReqSecond p) _ _ b ltac:(lia) Hn). lia.
Qed.

(** A call of the limiter with room for it is let through and takes the room
    of one request, from this provider only. *)
Lemma Allow_healthy n w p :
  healthy w → room (S n) w p →
  (Allow p w).1 = Ok true ∧ healthy (Allow p w).2 ∧ w_now w <= w_now (Allow p w).2 ∧
  room n (Allow p w).2 p ∧
  ∀ q, p_Name q ≠ p_Name p → room n w q → room n (Allow p w).2 q.
Proof.
  intros Hh [Hm Hr]. unfold Allow. rewrite (proj2 (Z.leb_gt _ _)) by lia. rewrite st_bind_run. cbn [st_gets fst snd].
  rewrite (he_limiter w Hh). cbn [negb]. rewrite !st_bind_run. cbn [time_Now st_gets fst snd].
  unfold run_script. destruct (healthy_ext w Hh) as [Hh1 [[Hf _] _]].
  pose proof (ext_now w) as Hn. unfold redis_cmd. pose proof (ext_redis w) as Hrd.
  destruct (ext w) as [e w1]. cbn [fst snd] in *. rewrite Hf, Hrd. unfold level_now in Hr.
  destruct (allowScript_room (Z.of_nat n) (p_MaxReqSecond p) (unix_seconds (w_now w / Millisecond))
    (w_now w1 / Millisecond) (buckets (w_redis w) !! bucket_key (p_Name p)) Hm) as [Ha Hlater]; [|lia|].
  { rewrite Nat2Z.inj_succ in Hr. exact Hr. }
  destruct (allowScript _ _ _ _) as [a b]. cbn [st_ret fst snd] in *. subst a.
  split; [done|]. split; [by apply healthy_redis|]. split; [done|].
  split.
  - split; [done|]. unfold level_now. cbn [set_redis w_redis buckets w_now]. rewrite lookup_insert_eq.
    by apply Hlater, unix_seconds_now.
  - intros q Hq Hroom. apply (room_later n w w1) in Hroom as [? Hroom]; [|by rewrite Hrd|done].
    split; [done|]. unfold level_now in *. cbn [set_redis w_redis buckets w_now] in *.
    rewrite lookup_insert_ne; [by rewrite Hrd in Hroom|]. unfold bucket_key. intros [=]. by apply Hq.
Qed.

Lemma client_Do_healthy req w :
  healthy w → ∃ res, (client_Do req w).1 = Ok res ∧ 200 <= StatusCode res < 300 ∧
    healthy (client_Do req w).2 ∧ w_redis (client_Do req w).2 = w_redis w ∧ w_now w <= w_now (client_Do req w).2.
Proof.
  intros Hh. unfold client_Do. rewrite !st_bind_run. destruct (healthy_ext w Hh) as [[] [[-> _] Hc]].
  eexists. split; [done|]. split; [done|]. cbn [st_modify st_ret fst snd]. simpl.
  split; [by split|]. split; [apply ext_redis|apply ext_now].
Qed.

Lemma deliverable_frame w w' x p : attempt_frame w w' → deliverable w x p → deliverable w' x p.
Proof. intros Hf []. split; try done. by rewrite (af_kv _ _ Hf). Qed.

(** An attempt at an event that can be delivered succeeds; it takes one
    request of its provider's room and none of any other's. *)
Lemma forward_one_healthy n w x p :
  healthy w → deliverable w x p → room (S n) w p →
  success x (forward_one x w).1 ∧ healthy (forward_one x w).2 ∧ room n (forward_one x w).2 p ∧
  ∀ q, p_Name q ≠ p_Name p → room n w q → room n (forward_one x w).2 q.
Proof.
  intros Hh Hd Hr. unfold forward_one. rewrite st_bind_run, (Cache_Get_healthy w x p Hh Hd). cbn [fst snd].
  rewrite st_bind_run. destruct (healthy_ext w Hh) as [Hh1 _].
  assert (∀ m q, room m w q → room m (ext w).2 q) as Hext.
  { intros m q. apply room_later; [by rewrite ext_redis|apply ext_now]. }
  destruct (Allow_healthy n (ext w).2 p Hh1 (Hext _ _ Hr)) as (Ha & Hh2 & Hn2 & Hp2 & Hq2).
  destruct (Allow p (ext w).2) as [a w2]. cbn [fst snd] in *. rewrite Ha.
  destruct Hd as [_ Hname Hurl Htext [h Hhdr]]. rewrite Hurl, Hhdr. cbn [negb]. rewrite st_bind_run.
  destruct (client_Do_healthy (mkRequest (p_DestinationURL p) (wh_Payload x) h) w2 Hh2)
    as (res & E & Hc & Hh3 & Hrd3 & Hn3).
  destruct (client_Do _ w2) as [r w3]. cbn [fst snd] in *. rewrite E. cbn [time_Now st_gets st_ret].
  rewrite st_bind_run. cbn [time_Now st_gets st_ret fst snd]. split.
  - unfold handle_response. rewrite (proj2 (Z.leb_le 200 _)), (proj2 (Z.ltb_lt _ 300)) by lia. cbn [andb].
    split; simpl; eauto.
  - split; [done|]. split; [by apply (room_later n w2); [by rewrite Hrd3|done..]|].
    intros q Hq Hroom. apply (room_later n w2); [by rewrite Hrd3|done|]. by apply Hq2, Hext.
Qed.

(** ** A batch *)

Lemma deliverable_same w x y p q :
  deliverable w x p → deliverable w y q → p_Name q = p_Name p → q = p.
Proof.
  intros [(v & Hv & Hp) Hx _ _ _] [(v' & Hv' & Hq) Hy _ _ _] E.
  rewrite Hx, Hy in E. rewrite E in Hv'. congruence.
Qed.

(** The world is ready for [n] attempts at events that satisfy [P]. *)
Definition batch_ready (P : Webhook → Prop) (n : nat) (w : World) : Prop :=
  healthy w ∧ ∀ x, P x → ready_for n w x.

Lemma batch_ready_step P n x w :
  P x → batch_ready P (S n) w →
  success x (forward_one x w).1 ∧ batch_ready P n (forward_one x w).2.
Proof.
  intros Hx [Hh Hr]. destruct (Hr x Hx) as (p & Hd & Hroom).
  destruct (forward_one_healthy n w x p Hh Hd Hroom) as (Hs & Hh' & Hp & Hother).
  split; [done|]. split; [done|]. intros y Hy. destruct (Hr y Hy) as (q & Hq & Hroomq). exists q.
  split; [eapply deliverable_frame; [apply forward_one_frame|done]|].
  destruct (decide (p_Name q = p_Name p)) as [E|E]; [by rewrite (deliverable_same w x y p q)|].
  apply Hother; [done|]. eapply room_le; [|done]. lia.
Qed.

(** A batch of such events succeeds and uses up the room of its attempts. *)
Lemma forwardEvent_healthy `{SchedulerOk} P n hooks w :
  (∀ x, x ∈ hooks → P x) → batch_ready P (length hooks + n) w →
  batch_ready P n (forwardEvent hooks w).2 ∧ Forall2 success hooks (forwardEvent hooks w).1.
Proof.
  intros HP Hr. apply (forwardEvent_each (λ m, batch_ready P (m + n)) success hooks w); [|done].
  intros m x w' Hx Hw'. by apply batch_ready_step; [apply HP|].
Qed.

(** The world stays ready while the clock goes on and the cache, the buckets
    and the script's health are kept. *)
Lemma batch_ready_later P n w w' :
  healthy w' → w_redis w' = w_redis w → w_now w <= w_now w' → batch_ready P n w → batch_ready P n w'.
Proof.
  intros Hh Hrd Hn [_ Hr]. split; [done|]. intros x Hx. destruct (Hr x Hx) as (p & [] & Hroom). exists p.
  split; [by split; rewrite ?Hrd|]. apply (room_later _ w); [by rewrite Hrd|done..].
Qed.

(** Reports of success are all applied. *)
Lemma exec_batch_success k now us m :
  k ≠ WorkerKindRetry → Forall (λ u, ∃ x, success x u) us →
  (∀ i x, m !! i = Some x → wh_RetryCount x <= max_int32) →
  ∃ rs m', exec_batch k now us m = (rs, Some m').
Proof.
  intros Hk. revert m. induction us as [|u us IH]; intros m Hus Hm; cbn [exec_batch]; [by eauto|].
  apply Forall_cons_1 in Hus as [(x & [_ Hst (url & Hf & Ht) (c & Hc & Hrange) [He _]]) Hus].
  unfold update_stmt. rewrite Hst, Hf, Hc, He. change (status_in DeliveryStatusDelivered) with (Some Delivered).
  destruct (m !! u_id u) as [y|] eqn:Ey.
  - change (option_list (Some c)) with [c]. change (option_list (@None string)) with (@nil string). cbn [forallb].
    rewrite Ht. cbn [negb andb].
    assert (int4_ok c = true) as -> by (unfold int4_ok, max_int32; apply andb_true_iff; split; apply Z.leb_le; lia). cbn [negb andb].
    assert (wh_RetryCount (set_updated_at now (apply_update k Delivered url u y)) = wh_RetryCount y) as Hcount
      by (simpl; by rewrite bool_decide_eq_false_2).
    rewrite Hcount, (proj2 (Z.ltb_ge _ _)) by (by eapply Hm). 
    destruct (IH (<[u_id u:=set_updated_at now (apply_update k Delivered url u y)]> m) Hus) as (rs & m' & ->);
      [|by eauto]. intros i z. rewrite lookup_insert. case_decide; [|by apply Hm]. intros [= <-].
    rewrite Hcount. by eapply Hm.
  - destruct (IH m Hus Hm) as (rs & m' & ->). by eauto.
Qed.

(** ** A round *)

Lemma healthy_calm w : healthy w → calm w.
Proof. intros [He _]. revert He. apply Forall_impl. by intros e []. Qed.

(** The row is a delivery of the event. *)
Definition delivered_as (x : Webhook) (row : option Webhook) : Prop :=
  ∃ y, row = Some y ∧ wh_DeliveryStatus y = Delivered ∧ identity y = identity x ∧
    ∃ c, wh_ResponseCode y = Some c ∧ 200 <= c < 300.

Definition counts_ok (m : gmap UUID Webhook) : Prop := ∀ i x, m !! i = Some x → wh_RetryCount x <= max_int32.

(** The reports of a batch that succeeded, in one transaction: each event is
    delivered and no other row is touched. *)
Lemma UpdateEvents_healthy us hooks w :
  healthy w → Forall2 success hooks us → NoDup (wh_ID <$> hooks) → counts_ok (webhook_events (w_db w)) →
  let w' := (UpdateEvents WorkerKindQueue us w).2 in
  healthy w' ∧ w_redis w' = w_redis w ∧ w_now w <= w_now w' ∧ counts_ok (webhook_events (w_db w')) ∧
  (∀ x, x ∈ hooks → webhook_events (w_db w) !! wh_ID x = Some x → delivered_as x (webhook_events (w_db w') !! wh_ID x)) ∧
  (∀ i, i ∉ wh_ID <$> hooks → webhook_events (w_db w') !! i = webhook_events (w_db w) !! i).
Proof.
  intros Hh Hs Hnd Hm. assert (u_id <$> us = wh_ID <$> hooks) as Hids.
  { clear -Hs. induction Hs as [|x u hooks us Hu Hs IH]; [done|]. rewrite !fmap_cons, IH. f_equal. apply Hu. }
  assert (Forall (λ u, ∃ x, success x u) us) as Hus by (clear -Hs; induction Hs; constructor; eauto).
  unfold UpdateEvents. destruct (Nat.eqb_spec (length us) 0) as [Hz|_].
  { apply nil_length_inv in Hz as ->. inversion Hs. subst. cbv zeta. cbn [snd st_ret].
    split_and!; [done..|by intros x Hx%not_elem_of_nil|done]. }
  rewrite st_bind_run, db_stmt_reliable by by apply calm_reliable, healthy_calm. unfold batch_stmt.
  destruct (exec_batch_success WorkerKindQueue (w_now (ext w).2) us (webhook_events (w_db w)))
    as (rs & m' & E); [done..|]. rewrite E. cbn [fst snd st_ret]. cbv zeta. simpl. autorewrite with world.
  assert (∀ x, x ∈ hooks → webhook_events (w_db w) !! wh_ID x ≠ None →
    ∃ y z, webhook_events (w_db w) !! wh_ID x = Some z ∧ m' !! wh_ID x = Some y ∧ wh_RetryCount y = wh_RetryCount z ∧
      wh_DeliveryStatus y = Delivered ∧ identity y = identity z ∧ ∃ c, wh_ResponseCode y = Some c ∧ 200 <= c < 300) as Hwritten.
  { intros x [j Hj]%list_elem_of_lookup Hx. destruct (webhook_events (w_db w) !! wh_ID x) as [z|] eqn:Ez; [|done].
    destruct (Forall2_lookup_l _ _ _ _ _ Hs Hj) as (u & Hu & [Hid Hstat _ (c & Hcode & Hrange) _]).
    rewrite <-Hid in Ez |- *. destruct (exec_batch_written _ _ _ _ _ _ u z E) as (st & url & Hst & _ & Hy);
      [by rewrite Hids|by eapply list_elem_of_lookup_2|done|].
    rewrite Hstat in Hst. injection Hst as <-. eexists _, z. split; [done|]. split; [exact Hy|].
    split_and!; [done|done|done|by exists c]. }
  split; [destruct (healthy_ext w Hh) as [[] _]; by split|]. split; [done|]. split; [apply ext_now|]. split_and!.
  - intros i x Hx. destruct (decide (i ∈ wh_ID <$> hooks)) as [Hi|Hi].
    + apply list_elem_of_fmap in Hi as (h & -> & Hh'). destruct (Hwritten h Hh') as (y & z & Hz & Hy & Hc & _).
      { destruct (exec_batch_identity _ _ _ _ _ _ _ _ E Hx) as (z & Hz & _). by rewrite Hz. }
      assert (y = x) as -> by congruence. rewrite Hc. by eapply Hm.
    + rewrite (exec_batch_other _ _ _ _ _ _ i E) in Hx by by rewrite Hids. by eapply Hm.
  - intros x Hx Hrow. destruct (Hwritten x Hx) as (y & z & Hz & Hy & _ & Hd & Hid & Hc); [by rewrite Hrow|].
    exists y. assert (z = x) as -> by congruence. done.
  - intros i Hi. by rewrite (exec_batch_other _ _ _ _ _ _ i E) by by rewrite Hids.
Qed.

(** ** A claim *)

(** What a row of the queue and its claimed copy have in common. *)
Definition like_queued (m : gmap UUID Webhook) (x : Webhook) : Prop :=
  ∃ i y, m !! i = Some y ∧ wh_DeliveryStatus y = Queued ∧ wh_Provider x = wh_Provider y ∧ wh_Headers x = wh_Headers y.

Lemma ready_for_like n w x y :
  wh_Provider x = wh_Provider y → wh_Headers x = wh_Headers y → ready_for n w y → ready_for n w x.
Proof. intros Hp Hh (p & [Hv Hn Hu Ht Hd] & Hr). exists p. split; [|done]. split; rewrite ?Hp, ?Hh; done. Qed.

(** A claim when nothing fails: what it takes, and what it leaves. *)
Lemma claim_healthy w :
  healthy w → db_ok (w_db w) → 0 <= (w_batch w).1 → counts_ok (webhook_events (w_db w)) →
  ∃ hooks w1, GetEvents WorkerKindQueue w = ((hooks, None), w1) ∧
    healthy w1 ∧ w_redis w1 = w_redis w ∧ w_now w <= w_now w1 ∧ counts_ok (webhook_events (w_db w1)) ∧
    NoDup (wh_ID <$> hooks) ∧
    (size (backlog (webhook_events (w_db w1))) + length hooks ≤ size (backlog (webhook_events (w_db w))))%nat ∧
    (∀ h, h ∈ hooks → like_queued (webhook_events (w_db w)) h ∧ webhook_events (w_db w1) !! wh_ID h = Some h ∧
       ∃ x, webhook_events (w_db w) !! wh_ID h = Some x ∧ wh_DeliveryStatus x = Queued ∧ identity h = identity x) ∧
    (∀ i, i ∉ wh_ID <$> hooks → webhook_events (w_db w1) !! i = webhook_events (w_db w) !! i).
Proof.
  intros Hh Hok Hb Hcount. destruct (GetEvents_calm w (healthy_calm w Hh) Hb) as (hooks & e & now & db' & Hl & Hc & Hget).
  destruct (claimed_ids_backlog _ _ _ _ _ _ Hok Hc) as (Hnd & Hsz & Hsub & Hsub').
  pose proof (λ i, lookup_claim _ _ _ _ _ _ _ i Hc Hok) as Hrow.
  destruct (claim_stmt_hooks _ _ _ _ _ _ _ Hc) as [Hhooks _].
  do 2 eexists. split; [exact Hget|]. simpl. autorewrite with world.
  split; [destruct (healthy_ext _ (proj1 (healthy_ext _ (proj1 (healthy_ext w Hh))))) as [[] _]; by split|].
  split; [done|]. split.
  { pose proof (ext_now w). pose proof (ext_now (ext w).2). pose proof (ext_now (ext (ext w).2).2). lia. }
  split. { intros i y. rewrite Hrow. destruct (webhook_events (w_db w) !! i) as [z|] eqn:Ez; [|done]. intros [= <-].
           case_bool_decide; exact (Hcount i z Ez). }
  split; [done|]. split.
  { apply subseteq_size in Hsub'. rewrite size_difference in Hsub' by done. apply subseteq_size in Hsub. lia. }
  split.
  - intros h Hin. rewrite Hhooks in Hin. apply list_elem_of_fmap in Hin as (x & -> & Hx).
    pose proof Hx as Hp. apply elem_of_picked in Hx as ([i Hi] & Hq%eligible_status & _).
    pose proof (ok_events _ Hok i x Hi) as Hid. split; [exists i, x; by split_and!|].
    change (wh_ID (claim WorkerKindQueue now x)) with (wh_ID x). rewrite Hrow, Hid, Hi, bool_decide_eq_true_2 by done.
    split; [done|]. by exists x.
  - intros i Hi. rewrite Hrow. destruct (webhook_events (w_db w) !! i) as [x|] eqn:Ex; [|done].
    rewrite bool_decide_eq_false_2; [done|]. intros Hp. apply Hi. rewrite Hhooks, <-list_fmap_compose.
    apply list_elem_of_fmap. exists x. split; [|done]. symmetry. exact (ok_events _ Hok i x Ex).
Qed.

(** ** Rounds *)

(** A healthy world on its way to deliver what was queued in the table [m]. *)
Record draining (m : gmap UUID Webhook) (w : World) : Prop := {
  dr_healthy : healthy w;
  dr_db : db_ok (w_db w);
  dr_batch : 0 < (w_batch w).1;
  dr_counts : counts_ok (webhook_events (w_db w));
  dr_ready : batch_ready (like_queued (webhook_events (w_db w))) (size (backlog (webhook_events (w_db w)))) w;
  dr_rows : ∀ i x, m !! i = Some x → wh_DeliveryStatus x = Queued →
    webhook_events (w_db w) !! i = Some x ∨ delivered_as x (webhook_events (w_db w) !! i);
}.

Lemma send_world hooks w :
  let w' := (st_iter send hooks w).2 in
  w_db w' = w_db w ∧ w_redis w' = w_redis w ∧ w_now w' = w_now w ∧ w_env w' = w_env w ∧ w_limiter w' = w_limiter w.
Proof.
  apply (st_iter_inv (λ w', w_db w' = w_db w ∧ w_redis w' = w_redis w ∧ w_now w' = w_now w ∧ w_env w' = w_env w ∧
    w_limiter w' = w_limiter w)); [|done]. intros a s Hs. exact Hs.
Qed.

(** What a round leaves of a table and a queue it found. *)
Record round_result (hooks : list Webhook) (w w' : World) : Prop := {
  rr_healthy : healthy w';
  rr_redis : w_redis w' = w_redis w;
  rr_now : w_now w <= w_now w';
  rr_counts : counts_ok (webhook_events (w_db w'));
  rr_delivered : ∀ x, x ∈ hooks → webhook_events (w_db w) !! wh_ID x = Some x →
    delivered_as x (webhook_events (w_db w') !! wh_ID x);
  rr_others : ∀ i, i ∉ wh_ID <$> hooks → webhook_events (w_db w') !! i = webhook_events (w_db w) !! i;
}.

Lemma update_and_send us hooks w :
  healthy w → Forall2 success hooks us → NoDup (wh_ID <$> hooks) → counts_ok (webhook_events (w_db w)) →
  round_result hooks w
    (match UpdateEvents WorkerKindQueue us w with
     | ((_, Some _), w') => w'
     | ((l, None), w') => (st_iter send l w').2
     end).
Proof.
  intros Hh Hs Hnd Hc. destruct (UpdateEvents_healthy us hooks w Hh Hs Hnd Hc) as (Hh' & Hrd & Hn & Hc' & Hd & Ho).
  destruct (UpdateEvents WorkerKindQueue us w) as [[l [err|]] w']; cbn [snd] in *; [by split|].
  destruct (send_world l w') as (Edb & Erd & Enow & Eenv & Elim). destruct Hh' as [He Hl].
  split; rewrite ?Edb, ?Erd, ?Enow; try done. split; [by rewrite Eenv|by rewrite Elim].
Qed.

Lemma draining_after m w w1 w' hooks rest :
  draining m w → db_ok (w_db w') → w_batch w' = w_batch w →
  (size (backlog (webhook_events (w_db w1))) ≤ rest)%nat →
  batch_ready (like_queued (webhook_events (w_db w))) rest w1 →
  (∀ h, h ∈ hooks → webhook_events (w_db w1) !! wh_ID h = Some h ∧
     ∃ x, webhook_events (w_db w) !! wh_ID h = Some x ∧ wh_DeliveryStatus x = Queued ∧ identity h = identity x) →
  (∀ i, i ∉ wh_ID <$> hooks → webhook_events (w_db w1) !! i = webhook_events (w_db w) !! i) →
  round_result hooks w1 w' → draining m w'.
Proof.
  intros [_ _ Hb _ _ Hrows] Hok' Hb' Hsize Hready Htaken Hleft [Hh Hrd Hn Hc Hd Ho].
  assert (∀ i, i ∈ wh_ID <$> hooks → ∃ x, webhook_events (w_db w) !! i = Some x ∧ wh_DeliveryStatus x = Queued ∧
    delivered_as x (webhook_events (w_db w') !! i)) as Hin.
  { intros i (h & -> & Hin)%list_elem_of_fmap. destruct (Htaken h Hin) as (Hrow & x & Hx & Hq & Hid).
    exists x. split_and!; [done..|]. destruct (Hd h Hin Hrow) as (y & Hy & Hst & Hy' & Hcode). exists y.
    split_and!; [done..| |done]. congruence. }
  assert (∀ i y, webhook_events (w_db w') !! i = Some y → wh_DeliveryStatus y = Queued →
    i ∉ wh_ID <$> hooks) as Hout.
  { intros i y Hy Hq Hi. destruct (Hin i Hi) as (x & _ & _ & z & Hz & Hst & _). congruence. }
  assert (backlog (webhook_events (w_db w')) ⊆ backlog (webhook_events (w_db w1))) as Hsub.
  { intros i (y & Hy & Hq)%elem_of_backlog. apply elem_of_backlog. exists y. split; [|done].
    rewrite <-Hy. symmetry. by apply Ho, (Hout i y). }
  split; [done|done|by rewrite Hb'|done| |].
  - apply (batch_ready_later _ _ w1 w') in Hready as [_ Hready]; [|done..]. split; [done|].
    intros x (i & y & Hy & Hq & Hp & Hhd). pose proof (Hout i y Hy Hq) as Hi.
    destruct (Hready x) as (p & Hdv & Hroom).
    { exists i, y. split_and!; [|done..]. by rewrite <-(Hleft i Hi), <-(Ho i Hi). }
    exists p. split; [done|]. eapply room_le; [|done]. apply subseteq_size in Hsub. lia.
  - intros i x Hx Hq. destruct (decide (i ∈ wh_ID <$> hooks)) as [Hi|Hi].
    + destruct (Hin i Hi) as (z & Hz & Hzq & Hdel). right.
      destruct (Hrows i x Hx Hq) as [Hx'|(y & Hy & Hst & _)]; [by assert (z = x) as <- by congruence|congruence].
    + rewrite (Ho i Hi), (Hleft i Hi). by apply Hrows.
Qed.

Lemma round_drains `{SchedulerOk} m w : draining m w → draining m (run_round (R := queue_repo) w).2.
Proof.
  intros Hdr. pose proof Hdr as [Hh Hok Hb Hcount Hready Hrows].
  assert (calm_ok (size (backlog (webhook_events (w_db w)))) w) as Hcalm by (split; [by apply healthy_calm|done|lia|done]).
  destruct (calm_round _ _ Hcalm) as (_ & [_ Hok' _ _] & Hb'). revert Hok' Hb'.
  destruct (claim_healthy w Hh Hok ltac:(lia) Hcount) as
    (hooks & w1 & Hget & Hh1 & Hrd1 & Hn1 & Hc1 & Hnd & Hsize & Htaken & Hleft).
  unfold run_round, getNext, updateEvent.
  change (@repo_GetEvents queue_repo) with (GetEvents WorkerKindQueue).
  change (@repo_UpdateEvents queue_repo) with (UpdateEvents WorkerKindQueue).
  rewrite !st_bind_run, Hget. cbn [st_ret fst snd]. rewrite st_bind_run.
  set (queue := backlog (webhook_events (w_db w))) in *. set (rest := (size queue - length hooks)%nat).
  assert (batch_ready (like_queued (webhook_events (w_db w))) (length hooks + rest) w1) as Hr1.
  { apply (batch_ready_later _ _ w); [done..|]. unfold rest.
    by replace (length hooks + (size queue - length hooks))%nat with (size queue) by lia. }
  destruct (forwardEvent_healthy _ rest hooks w1 (λ x Hx, proj1 (Htaken x Hx)) Hr1) as [[Hh2 Hr2] Hs].
  pose proof (af_db _ _ (forwardEvent_frame hooks w1)) as Hdb2.
  destruct (forwardEvent hooks w1) as [us w2]. cbn [fst snd] in *. rewrite st_bind_run.
  rewrite <-Hdb2 in Hc1, Hsize, Htaken, Hleft.
  pose proof (update_and_send us hooks w2 Hh2 Hs Hnd Hc1) as Hres. revert Hres.
  destruct (UpdateEvents WorkerKindQueue us w2) as [[l [err|]] w3]; cbn [fst snd st_ret]; rewrite ?st_bind_run; cbn [fst snd st_ret];
    [set (w4 := w3)|set (w4 := (st_iter send l w3).2)]; clearbody w4;
    (intros Hres Hok' Hb'; apply (draining_after m w w2 w4 hooks rest); try done; [unfold rest; lia|];
     intros h Hin; apply (Htaken h Hin)).
Qed.

Lemma run_drains `{SchedulerOk} fuel m w : draining m w → draining m (run (R := queue_repo) fuel w).2.
Proof.
  revert w. induction fuel as [|fuel IH]; intros w Hd; [done|]. cbn [run]. rewrite st_bind_run.
  apply (round_drains m w) in Hd. destruct (run_round w) as [[] w']; [by apply IH|done].
Qed.

(** Enough rounds for the queue deliver all of it. *)
Lemma run_delivers `{SchedulerOk} fuel w i x :
  draining (webhook_events (w_db w)) w →
  (size (backlog (webhook_events (w_db w))) ≤ fuel * Z.to_nat (w_batch w).1)%nat →
  webhook_events (w_db w) !! i = Some x → wh_DeliveryStatus x = Queued →
  delivered_as x (webhook_events (w_db (run (R := queue_repo) fuel w).2) !! i).
Proof.
  intros Hd Hfuel Hx Hq. pose proof (run_drains fuel _ _ Hd) as Hd'.
  assert (calm_ok (size (backlog (webhook_events (w_db w)))) w) as Hcalm.
  { destruct Hd. split; [by apply healthy_calm|done|lia|done]. }
  pose proof (calm_run fuel _ _ Hcalm) as Hempty. destruct (dr_rows _ _ Hd' i x Hx Hq) as [Hy|?]; [|done].
  assert (i ∈ backlog (webhook_events (w_db (run (R := queue_repo) fuel w).2))) as Hi by (apply elem_of_backlog; eauto).
  assert (size (backlog (webhook_events (w_db (run (R := queue_repo) fuel w).2))) = 0)%nat as Hz by lia.
  apply size_empty_inv in Hz. set_solver.
Qed.

End deliver.
