(* ===== verification/MockDest.v ===== *)
(** [cmd/api-mock/main.go]: the simulated destination the project is tested
    against.  Its state is the mode, the counter of failures before it heals,
    the failure rate and the statistics; the random source is an argument of
    each request.  Sleeping and logging are left out. *)
From stdpp Require Import base tactics list strings numbers pretty.
From Stdlib Require Import ZArith QArith Lia.
From S2P Require Import Prelude GoStd Model Codecs World WorkerRepo Worker.

Open Scope Z_scope.

(** ** Modes *)
Definition ModeSuccess : string := "success".
Definition ModeOutage : string := "outage".
Definition ModeSlowRecover : string := "slow_recover".
Definition ModeFatal : string := "fatal".
Definition ModeChaos : string := "chaos".
Definition ModeFlaky : string := "flaky".

(** ** Bodies *)
Inductive JsonValue : Type := JBool (b : bool) | JString (s : string) | JInt (n : Z).

Inductive Body : Type :=
| NoBody
| Text (s : string)
| Object (fields : list (string * JsonValue)).

Definition received : Body := Object [("received", JBool true)]%string.
Definition recovered : Body := Object [("received", JBool true); ("recovered", JBool true)]%string.
Definition trickle : Body := Object [("received", JBool true); ("note", JString "trickle_complete")]%string.

Definition fatalCodes : list Z := [400; 401; 404].
Definition fatalMessages (code : Z) : Body :=
  if code =? 400 then Object [("error", JString "bad_request"); ("message", JString "invalid payload schema")]%string
  else if code =? 401
  then Object [("error", JString "unauthorized"); ("message", JString "invalid or revoked credentials")]%string
  else if code =? 404
  then Object [("error", JString "not_found"); ("message", JString "endpoint does not exist")]%string
  else Text "".

(** ** State *)
Record ModeStats := mkModeStats { Requests : Z; Successes : Z; Failures : Z }.

Record Mock := mkMock {
  currentMode : string;
  failCount : Z;
  failCounter : Z;
  flakyFailRate : Q;
  stats : ModeStats;
}.

Definition boot : Mock := mkMock ModeSuccess 0 0 (1 # 2) (mkModeStats 0 0 0).

Definition record (success : bool) (s : ModeStats) : ModeStats :=
  mkModeStats (wrap64 (Requests s + 1))
    (if success then wrap64 (Successes s + 1) else Successes s)
    (if success then Failures s else wrap64 (Failures s + 1)).
Definition reset (s : ModeStats) : ModeStats := mkModeStats 0 0 0.

Definition set_stats (f : ModeStats → ModeStats) (m : Mock) : Mock :=
  mkMock (currentMode m) (failCount m) (failCounter m) (flakyFailRate m) (f (stats m)).

Definition shouldFail (m : Mock) : bool * Mock :=
  if failCounter m <? failCount m
  then (true, mkMock (currentMode m) (failCount m) (failCounter m + 1) (flakyFailRate m) (stats m))
  else (false, m).

(** ** The webhook endpoint *)

(** What the random source yields during a request: [rng.Float64] and the
    value from which [rng.Intn(n)] is the remainder by [n]. *)
Record Draws := mkDraws { dr_float : Q; dr_int : Z }.
Definition Intn (n : Z) (d : Draws) : Z := dr_int d mod n.

(** What the client gets: a reply; a reply whose body comes a character every
    300 milliseconds; or a closed connection. *)
Inductive MockAnswer : Type :=
| Replied (code : Z) (retryAfter : string) (body : Body)
| Trickled (code : Z) (body : Body)
| Closed.

Abbreviation MM A := (ST Mock A).

Definition tally (success : bool) : MM unit := st_modify (set_stats (record success)).

Definition sendJSON (code : Z) (payload : Body) : MM MockAnswer :=
  let* _ := tally (code <? 300) in
  st_ret (Replied code "" payload).

(** The critical section: the mode in force and whether this request fails. *)
Definition decide_failing (d : Draws) : MM (string * bool) := λ m,
  let mode := currentMode m in
  if bool_decide (mode ∈ [ModeOutage; ModeSlowRecover; ModeFatal; ModeChaos])
  then let '(failing, m') := shouldFail m in ((mode, failing), m')
  else if bool_decide (mode = ModeFlaky)
  then ((mode, negb (Qle_bool (flakyFailRate m) (dr_float d))), m)
  else ((mode, false), m).

Definition reject (d : Draws) : MM MockAnswer :=
  let code := nth (Z.to_nat (Intn (Z.of_nat (length fatalCodes)) d)) fatalCodes 0 in
  let* _ := tally false in
  st_ret (Replied code "" (fatalMessages code)).

Definition uniWebhookHandler (method : string) (d : Draws) : MM MockAnswer :=
  if negb (bool_decide (method = "POST"%string))
  then st_ret (Replied 405 "" (Text "Method Not Allowed"))
  else
    let* r := decide_failing d in
    let '(mode, failing) := r in
    if bool_decide (mode = ModeSuccess) then sendJSON 200 received
    else if bool_decide (mode = ModeOutage) then
      if failing then
        let* _ := tally false in
        st_ret (Replied 503 (pretty (5 + Intn 25 d))
                  (Text "<html><body><h1>503 Service Temporarily Unavailable</h1></body></html>"))
      else sendJSON 200 recovered
    else if bool_decide (mode = ModeSlowRecover) then
      if failing then let* _ := tally true in st_ret (Trickled 200 trickle)
      else sendJSON 200 received
    else if bool_decide (mode = ModeFatal) then
      if failing then reject d else sendJSON 200 received
    else if bool_decide (mode = ModeChaos) then
      if failing then let* _ := tally false in st_ret Closed
      else sendJSON 200 recovered
    else if bool_decide (mode = ModeFlaky) then
      if failing then reject d else sendJSON 200 received
    else sendJSON 200 received.

(** ** The control endpoint *)
Record ControlBody := mkControl { ctl_Mode : string; ctl_FailCount : Z; ctl_FailRate : Q }.

Definition progress (m : Mock) : string := pretty (failCounter m) +:+ "/" +:+ pretty (failCount m).

(** The new limit of failures; a request without one keeps the old, except in
    the fatal mode. *)
Definition next_failCount (body : ControlBody) (m : Mock) : Z :=
  if 0 <? ctl_FailCount body then ctl_FailCount body
  else if bool_decide (ctl_Mode body = ModeFatal) then 50000 else failCount m.

(** [body] is what [json.Decoder.Decode] made of the request's. *)
Definition controlHandler (method : string) (body : option ControlBody) : MM MockAnswer := λ m,
  if bool_decide (method = "GET"%string)
  then (Replied 200 "" (Object [("fail_count", JInt (failCount m)); ("fail_progress", JString (progress m));
                                ("mode", JString (currentMode m))]%string), m)
  else match body with
       | None => (Replied 400 "" (Text "invalid body"), m)
       | Some body =>
         let rate := if Qle_bool (ctl_FailRate body) 0 then flakyFailRate m else ctl_FailRate body in
         (Replied 200 "" NoBody,
          set_stats reset (mkMock (ctl_Mode body) (next_failCount body m) 0 rate (stats m)))
       end.

(** ** The statistics endpoint *)
Definition statsHandler : MM MockAnswer := λ m,
  (Replied 200 "" (Object [("fail_progress", JString (progress m)); ("failures", JInt (Failures (stats m)));
                           ("mode", JString (currentMode m)); ("requests", JInt (Requests (stats m)));
                           ("successes", JInt (Successes (stats m)))]%string), m).

(** ** Sequences of requests *)
Inductive MockRequest : Type :=
| Webhook_ (method : string) (d : Draws)
| Control_ (method : string) (body : option ControlBody)
| Stats_.

Definition mock_serve (r : MockRequest) : MM MockAnswer :=
  match r with
  | Webhook_ method d => uniWebhookHandler method d
  | Control_ method body => controlHandler method body
  | Stats_ => statsHandler
  end.

Definition posts (ds : list Draws) : MM (list MockAnswer) := st_mapM (uniWebhookHandler "POST") ds.

(** ** The destination as a worker sees it

    [client.Do] returns with the header of a reply, and an error when the
    connection is closed before; the worker does not read the body. *)
Definition status_line (code : Z) : string :=
  if code =? 200 then "200 OK"
  else if code =? 400 then "400 Bad Request"
  else if code =? 401 then "401 Unauthorized"
  else if code =? 404 then "404 Not Found"
  else if code =? 503 then "503 Service Unavailable"
  else "".

Definition seen (a : MockAnswer) : option Response :=
  match a with
  | Replied code retryAfter _ => Some (mkResp code (status_line code) retryAfter)
  | Trickled code _ => Some (mkResp code (status_line code) "")
  | Closed => None
  end.

(** What the goroutine of [forwardEvent] reports of an attempt at [now]. *)
Definition report_of (now : Time) (u : updateWebhook) (a : MockAnswer) : updateWebhook :=
  match seen a with
  | Some res => handle_response now res u
  | None => setDefaultUpdateValues now "EOF" u
  end.
