(* ===== verification/Testutil.v ===== *)
(** [internal/testutil/pgcontainer.go]: the database of the integration tests.
    The migrations are cut at their teardown section, written to temporary
    files and given to a container as init scripts; a pool is opened on it.
    The state is what a test leaves on its host: files, containers, pools. *)
From stdpp Require Import base tactics list gmap strings.
From Stdlib Require Import ZArith Lia Ascii.
From S2P Require Import Prelude GoStd Model Codecs.

Open Scope Z_scope.

(** ** [strings] and [filepath] *)

(** [strings.Index] *)
Fixpoint Index (s sub : string) : option nat :=
  if String.prefix sub s then Some 0%nat
  else match s with EmptyString => None | String _ s => S <$> Index s sub end.

(** [before, _, found := strings.Cut(s, sep)] *)
Definition Cut (s sep : string) : string * bool :=
  match Index s sep with Some i => (String.substring 0 i s, true) | None => (s, false) end.

Definition separator : Z := 47.

(** [filepath.Base]: the last element of the path. *)
Definition Base (path : string) : string :=
  if bool_decide (path = ""%string) then "."
  else match last (filter (λ e, e ≠ ""%string) (Split path separator)) with
       | Some e => e
       | None => "/"
       end.

(** A name in two parts at the last star, as [os.CreateTemp] reads it. *)
Fixpoint last_star (s : string) : option (string * string) :=
  match s with
  | EmptyString => None
  | String c s =>
    match last_star s with
    | Some (p, q) => Some (String c p, q)
    | None => if bool_decide (code c = 42) then Some (EmptyString, s) else None
    end
  end.

Definition prefixAndSuffix (pattern : string) : option (string * string) :=
  if existsb (λ b, b =? separator) (bytes_of pattern) then None
  else Some (default (pattern, ""%string) (last_star pattern)).

(** ** The host of the tests

    Every call to the operating system, the container engine or the database
    takes the next step of the script: whether it fails, and the text or the
    number it yields; past its end, calls succeed. *)
Record Call := mkCall { c_fault : option goerr; c_text : string }.

Record Host := mkHost {
  h_files : gmap string string;
  h_containers : gmap nat (list string);  (* running, with the init scripts they were given *)
  h_pools : gmap nat (string * Z);        (* open, with address and MaxConns *)
  h_next : nat;
  h_script : list Call;
}.

Definition set_files (f : gmap string string → gmap string string) (h : Host) : Host :=
  mkHost (f (h_files h)) (h_containers h) (h_pools h) (h_next h) (h_script h).
Definition set_containers (f : gmap nat (list string) → gmap nat (list string)) (h : Host) : Host :=
  mkHost (h_files h) (f (h_containers h)) (h_pools h) (h_next h) (h_script h).
Definition set_pools (f : gmap nat (string * Z) → gmap nat (string * Z)) (h : Host) : Host :=
  mkHost (h_files h) (h_containers h) (f (h_pools h)) (h_next h) (h_script h).
Definition bump (h : Host) : Host :=
  mkHost (h_files h) (h_containers h) (h_pools h) (S (h_next h)) (h_script h).

Definition call : ST Host Call := λ h,
  match h_script h with
  | [] => (mkCall None "", h)
  | c :: script => (c, mkHost (h_files h) (h_containers h) (h_pools h) (h_next h) script)
  end.

Definition ReadFile (path : string) : ST Host (result string) :=
  let* c := call in
  let* files := st_gets h_files in
  match c_fault c, files !! path with
  | Some err, _ => st_ret (Err err)
  | None, Some data => st_ret (Ok data)
  | None, None => st_ret (Err (ErrOther "no such file or directory"))
  end.

(** [os.CreateTemp("", pattern)]: the text of the call is the random part,
    which [CreateTemp] draws again as long as the name is taken. *)
Definition CreateTemp (pattern : string) : ST Host (result string) :=
  match prefixAndSuffix pattern with
  | None => st_ret (Err (ErrOther "pattern contains path separator"))
  | Some (prefix, suffix) =>
    let* c := call in
    let name := "/tmp/" +:+ prefix +:+ c_text c +:+ suffix in
    let* files := st_gets h_files in
    match c_fault c, files !! name with
    | Some err, _ => st_ret (Err err)
    | None, Some _ => st_ret (Err (ErrOther "file exists"))
    | None, None => let* _ := st_modify (set_files (<[name := ""%string]>)) in st_ret (Ok name)
    end
  end.

(** A failed write leaves what the call says in the file. *)
Definition WriteString (name content : string) : ST Host (option goerr) :=
  let* c := call in
  match c_fault c with
  | Some err => let* _ := st_modify (set_files (<[name := c_text c]>)) in st_ret (Some err)
  | None => let* _ := st_modify (set_files (<[name := content]>)) in st_ret None
  end.

Definition Remove (name : string) : ST Host unit :=
  let* c := call in
  match c_fault c with
  | Some _ => st_ret tt
  | None => st_modify (set_files (delete name))
  end.

(** The container engine and the driver; a call that fails starts nothing. *)
Definition postgres_Run (initScripts : list string) : ST Host (result nat) :=
  let* c := call in
  match c_fault c with
  | Some err => st_ret (Err err)
  | None =>
    let* ctr := st_gets h_next in
    let* _ := st_modify bump in
    let* _ := st_modify (set_containers (<[ctr := initScripts]>)) in
    st_ret (Ok ctr)
  end.

Definition Terminate (ctr : nat) : ST Host (option goerr) :=
  let* c := call in
  match c_fault c with
  | Some err => st_ret (Some err)
  | None => let* _ := st_modify (set_containers (delete ctr)) in st_ret None
  end.

Definition ConnectionString (ctr : nat) : ST Host (result string) :=
  let* c := call in
  st_ret match c_fault c with Some err => Err err | None => Ok (c_text c) end.

Definition ParseConfig (connStr : string) : ST Host (result string) :=
  let* c := call in
  st_ret match c_fault c with Some err => Err err | None => Ok connStr end.

Definition NewWithConfig (cfg : string * Z) : ST Host (result nat) :=
  let* c := call in
  match c_fault c with
  | Some err => st_ret (Err err)
  | None =>
    let* pool := st_gets h_next in
    let* _ := st_modify bump in
    let* _ := st_modify (set_pools (<[pool := cfg]>)) in
    st_ret (Ok pool)
  end.

Definition pool_Close (pool : nat) : ST Host unit := st_modify (set_pools (delete pool)).

(** ** [stripGooseDown] *)

Definition LF : string := string_of [10].
Definition goose_down : string := "-- +goose Down".

(** What is kept of a migration: all before the teardown marker. *)
Definition up_section (content : string) : string :=
  match Index content (LF +:+ goose_down) with
  | Some idx => String.substring 0 (idx + 1) content
  | None => content
  end.

Definition temp_prefix (path : string) : string :=
  let base := Base path in
  match Cut base "_" with (before, true) => before | (_, false) => base end.

Definition temp_pattern (path : string) : string := temp_prefix path +:+ "-vaulthook-init-*.sql".

(** The closure [cleanup] removes the files it finds in [tmpFiles]. *)
Definition cleanup_files (tmpFiles : list string) : ST Host unit := st_iter Remove tmpFiles.

Fixpoint strip_loop (paths tmpFiles : list string) : ST Host (result (list string)) :=
  match paths with
  | [] => st_ret (Ok tmpFiles)
  | path :: paths =>
    let* data := ReadFile path in
    match data with
    | Ok content =>
      let* tmp := CreateTemp (temp_pattern path) in
      match tmp with
      | Ok name =>
        let* werr := WriteString name (up_section content) in
        match werr with
        | Some err => let* _ := cleanup_files tmpFiles in st_ret (Err (Wrap (ErrOther "write temp") err))
        | None => strip_loop paths (tmpFiles ++ [name])
        end
      | Err err => let* _ := cleanup_files tmpFiles in st_ret (Err (Wrap (ErrOther "create temp") err))
      | Panic => st_ret Panic
      end
    | Err err => let* _ := cleanup_files tmpFiles in st_ret (Err (Wrap (ErrOther ("read " +:+ path)) err))
    | Panic => st_ret Panic
    end
  end.

(** [cleaned] and [tmpFiles] hold the same names. *)
Definition stripGooseDown (paths : list string) : ST Host (result (list string)) := strip_loop paths [].

(** ** [NewTestDB] *)

Record TestDB := mkTestDB { td_pool : nat; td_container : nat; td_files : list string }.

Definition fail_after {A} (what : string) (err : goerr) : ST Host (result A) :=
  st_ret (Err (Wrap (ErrOther what) err)).

Definition NewTestDB (initScripts : list string) : ST Host (result TestDB) :=
  let* strip := stripGooseDown initScripts in
  match strip with
  | Err err => fail_after "testutil: strip goose" err
  | Panic => st_ret Panic
  | Ok cleaned =>
    let* run := postgres_Run cleaned in
    match run with
    | Err err => let* _ := cleanup_files cleaned in fail_after "testutil: postgres container" err
    | Panic => st_ret Panic
    | Ok ctr =>
      let* conn := ConnectionString ctr in
      match conn with
      | Err err => let* _ := Terminate ctr in fail_after "testutil: connection string" err
      | Panic => st_ret Panic
      | Ok connStr =>
        let* cfg := ParseConfig connStr in
        match cfg with
        | Err err => let* _ := Terminate ctr in fail_after "testutil: parse config" err
        | Panic => st_ret Panic
        | Ok cfg =>
          let* pool := NewWithConfig (cfg, 30) in
          match pool with
          | Err err => let* _ := Terminate ctr in fail_after "testutil: new pool" err
          | Panic => st_ret Panic
          | Ok pool => st_ret (Ok (mkTestDB pool ctr cleaned))
          end
        end
      end
    end
  end.

(** The cleanup function [NewTestDB] returns; it terminates twice, and the
    second attempt's error is ignored. *)
Definition cleanup (t : TestDB) : ST Host unit :=
  let* _ := pool_Close (td_pool t) in
  let* _ := Terminate (td_container t) in
  let* _ := Terminate (td_container t) in
  cleanup_files (td_files t).

(** ** Strings *)

Lemma prefix_app a b : String.prefix a (a +:+ b) = true.
Proof. induction a as [|c a IH]; [by destruct b|]. simpl. by destruct (ascii_dec c c). Qed.

Lemma prefix_true a s : String.prefix a s = true → ∃ b, s = a +:+ b.
Proof.
  revert s. induction a as [|c a IH]; intros s Hp; [by exists s|].
  destruct s as [|d s]; [done|]. simpl in Hp. destruct (ascii_dec c d) as [->|]; [|done].
  destruct (IH s Hp) as [b ->]. by exists b.
Qed.

(** The first occurrence, and that nothing before it is one. *)
Lemma Index_Some s sub i :
  Index s sub = Some i → ∃ rest, s = String.substring 0 i s +:+ sub +:+ rest ∧ String.length (String.substring 0 i s) = i.
Proof.
  revert i. induction s as [|c s IH]; intros i; cbn [Index]; destruct (String.prefix sub _) eqn:E.
  - intros [= <-]. apply prefix_true in E as [b E]. by exists b.
  - done.
  - intros [= <-]. apply prefix_true in E as [b E]. by exists b.
  - intros (j & Hj & ->)%fmap_Some. destruct (IH j Hj) as (rest & Hs & Hlen). exists rest.
    split; [change (String c s = String c (String.substring 0 j s +:+ sub +:+ rest)); by f_equal|]. simpl. by rewrite Hlen.
Qed.

Lemma Index_least a sub b : ∃ i, Index (a +:+ sub +:+ b) sub = Some i ∧ (i ≤ String.length a)%nat.
Proof.
  induction a as [|c a IH].
  - exists 0%nat. split; [|done]. change (Index (sub +:+ b) sub = Some 0%nat).
    destruct (sub +:+ b) as [|d s] eqn:E; cbn [Index]; rewrite <-E, prefix_app; done.
  - destruct IH as (i & Hi & Hle). change (String c a +:+ sub +:+ b) with (String c (a +:+ sub +:+ b)). cbn [Index].
    destruct (String.prefix sub _); [exists 0%nat; split; [done|lia]|].
    rewrite Hi. exists (S i). simpl. split; [done|lia].
Qed.

Definition occurs (sub s : string) : Prop := ∃ a b, s = a +:+ sub +:+ b.

Lemma Index_None s sub : Index s sub = None → ¬ occurs sub s.
Proof. intros E (a & b & ->). destruct (Index_least a sub b) as (i & Hi & _). congruence. Qed.

Lemma substring_whole a b : String.substring 0 (String.length a) (a +:+ b) = a.
Proof. induction a as [|c a IH]; [by destruct b|]. change (String c (String.substring 0 (String.length a) (a +:+ b)) = String c a). by rewrite IH. Qed.

(** What is kept ends before the marker and has none; without a marker it is
    the whole file. *)
Lemma up_section_spec data :
  ∃ rest, data = up_section data +:+ rest ∧ ¬ occurs (LF +:+ goose_down) (up_section data) ∧
    (rest = ""%string ∨ (∃ before, up_section data = before +:+ LF) ∧ ∃ down, rest = goose_down +:+ down).
Proof.
  unfold up_section. destruct (Index data _) as [i|] eqn:E.
  - destruct (Index_Some _ _ _ E) as (rest & Hs & Hlen). set (before := String.substring 0 i data) in *.
    assert (String.substring 0 (i + 1) data = before +:+ LF) as ->.
    { rewrite Hs. rewrite (string_app_assoc LF), <-(string_app_assoc before).
      rewrite <-Hlen, Nat.add_1_r. replace (S (String.length before)) with (String.length (before +:+ LF)).
      - apply substring_whole.
      - rewrite length_append. simpl. lia. }
    exists (goose_down +:+ rest). split; [by rewrite Hs at 1; rewrite !string_app_assoc|]. split; [|right; eauto].
    intros (a & b & Hab). destruct (Index_least a (LF +:+ goose_down) (b +:+ goose_down +:+ rest)) as (j & Hj & Hle).
    assert (data = a +:+ (LF +:+ goose_down) +:+ b +:+ goose_down +:+ rest) as Hd.
    { rewrite Hs. rewrite (string_app_assoc LF), <-(string_app_assoc before), Hab, !string_app_assoc. done. }
    rewrite <-Hd, E in Hj. injection Hj as <-. apply (f_equal String.length) in Hab.
    rewrite !length_append in Hab. change (String.length LF) with 1%nat in Hab.
    change (String.length goose_down) with 14%nat in Hab. lia.
  - exists ""%string. split; [by rewrite string_app_nil_r|]. split; [by apply Index_None|by left].
Qed.

Lemma last_star_app a b p q : last_star b = Some (p, q) → last_star (a +:+ b) = Some (a +:+ p, q).
Proof.
  intros Hb. induction a as [|c a IH]; [done|].
  change (last_star (String c (a +:+ b)) = Some (String c (a +:+ p), q)). cbn [last_star]. by rewrite IH.
Qed.

(** ** What the calls leave alone *)

(** Containers and pools are as before, and the script is a later part. *)
Record files_only (h h' : Host) : Prop := {
  fo_containers : h_containers h' = h_containers h;
  fo_pools : h_pools h' = h_pools h;
  fo_next : h_next h' = h_next h;
  fo_script : h_script h' `suffix_of` h_script h;
}.

#[export] Instance files_only_preorder : PreOrder files_only.
Proof.
  split; [by intros h|]. intros h1 h2 h3 [] []. split; try congruence. by etrans.
Qed.

Lemma call_files_only h : files_only h (call h).2.
Proof.
  unfold call. destruct (h_script h) as [|c script] eqn:E; [done|]. split; try done. simpl. rewrite E.
  by apply suffix_cons_r.
Qed.

(** A call leaves all but the script alone. *)
Lemma call_files h : h_files (call h).2 = h_files h.
Proof. unfold call. by destruct (h_script h). Qed.

Definition quiet (h : Host) : Prop := Forall (λ c, c_fault c = None) (h_script h).

Lemma files_only_quiet h h' : files_only h h' → quiet h → quiet h'.
Proof.
  intros Hf Hq. destruct (fo_script _ _ Hf) as [l Hl]. unfold quiet in *. rewrite Hl in Hq.
  by apply Forall_app in Hq as [_ ?].
Qed.

Lemma call_quiet h : quiet h → c_fault (call h).1 = None ∧ quiet (call h).2.
Proof.
  unfold quiet, call. destruct (h_script h) as [|c script] eqn:E; intros Hq; [simpl; by rewrite E|].
  by apply Forall_cons in Hq.
Qed.

(** At most one call fails. *)
Fixpoint single_script (l : list Call) : Prop :=
  match l with
  | [] => True
  | c :: l => match c_fault c with Some _ => Forall (λ c, c_fault c = None) l | None => single_script l end
  end.

Definition single (h : Host) : Prop := single_script (h_script h).

Lemma call_single h :
  single h → single (call h).2 ∧ (c_fault (call h).1 ≠ None → quiet (call h).2).
Proof.
  assert (∀ l, Forall (λ c, c_fault c = None) l → single_script l) as Hsub.
  { induction 1 as [|c l Hc Hl IH]; [done|]. simpl. by rewrite Hc. }
  unfold single, quiet, call. destruct (h_script h) as [|c script] eqn:E; simpl; [rewrite E; by split|].
  destruct (c_fault c); [intros ?; split; auto|by split].
Qed.

(** Calls that run, are split, and what they mean for the files. *)
Ltac run_call :=
  match goal with
  | |- context [call ?h] =>
    let Hf := fresh "Hf" in let Hfo := fresh "Hfo" in
    pose proof (call_files h) as Hf; pose proof (call_files_only h) as Hfo;
    let c := fresh "c" in let h' := fresh "h'" in
    destruct (call h) as [c h'] eqn:?; cbn [fst snd] in *
  end.
Ltac host := repeat (rewrite ?st_bind_run; cbn [st_gets st_modify st_ret fst snd]).

Lemma ReadFile_spec path h :
  let r := ReadFile path h in
  h_files r.2 = h_files h ∧ files_only h r.2 ∧ (∀ data, r.1 = Ok data → h_files h !! path = Some data) ∧ r.1 ≠ Panic.
Proof.
  unfold ReadFile. host. run_call. rewrite Hf. destruct (c_fault c); [by split_and!|].
  destruct (h_files h !! path); split_and!; try done; by intros ? [= ->].
Qed.

Lemma CreateTemp_spec pattern h :
  let r := CreateTemp pattern h in
  files_only h r.2 ∧ r.1 ≠ Panic ∧
  (∀ err, r.1 = Err err → h_files r.2 = h_files h) ∧
  (∀ name, r.1 = Ok name → h_files h !! name = None ∧ h_files r.2 = <[name := ""%string]> (h_files h) ∧
     ∃ prefix rnd suffix, prefixAndSuffix pattern = Some (prefix, suffix) ∧
       name = "/tmp/" +:+ prefix +:+ rnd +:+ suffix).
Proof.
  unfold CreateTemp. destruct (prefixAndSuffix pattern) as [[prefix suffix]|]; [|by split_and!].
  host. run_call. rewrite Hf. destruct (c_fault c); [by split_and!|].
  destruct (h_files h !! _) eqn:E; [by split_and!|]. host.
  split_and!; try done; [by destruct Hfo|]. intros name [= <-]. split; [done|]. split; [simpl; by rewrite Hf|]. eauto.
Qed.

Lemma WriteString_spec name s h :
  let r := WriteString name s h in
  files_only h r.2 ∧ (∃ t, h_files r.2 = <[name := t]> (h_files h)) ∧
  (r.1 = None → h_files r.2 = <[name := s]> (h_files h)).
Proof.
  unfold WriteString. host. run_call. destruct (c_fault c); host;
    (split; [by destruct Hfo|]); split; try done; try (eexists; simpl; by rewrite Hf); intros _; simpl; by rewrite Hf.
Qed.

Lemma cleanup_files_only names h : files_only h (cleanup_files names h).2.
Proof.
  revert h. induction names as [|n names IH]; intros h; [done|]. unfold cleanup_files. cbn [st_iter]. host.
  etrans; [|apply IH]. unfold Remove. host. run_call. destruct (c_fault c); [done|]. by destruct Hfo.
Qed.

Lemma cleanup_files_quiet names h :
  quiet h → h_files (cleanup_files names h).2 = foldr delete (h_files h) (reverse names).
Proof.
  revert h. induction names as [|n names IH]; intros h Hq; [done|]. unfold cleanup_files. cbn [st_iter]. host.
  rewrite IH; unfold Remove; host; pose proof (call_quiet h Hq) as [Hc Hq']; run_call; rewrite Hc; host.
  - rewrite reverse_cons, foldr_app. simpl. by rewrite Hf.
  - done.
Qed.

(** ** [stripGooseDown] *)

(** The name a path's temporary file gets, for some random part. *)
Definition temp_name (path rnd : string) : string :=
  "/tmp/" +:+ (temp_prefix path +:+ "-vaulthook-init-") +:+ rnd +:+ ".sql".

Lemma temp_pattern_parts path prefix suffix :
  prefixAndSuffix (temp_pattern path) = Some (prefix, suffix) →
  prefix = temp_prefix path +:+ "-vaulthook-init-" ∧ suffix = ".sql"%string.
Proof.
  unfold prefixAndSuffix. destruct (existsb _ _); [done|]. unfold temp_pattern.
  rewrite (last_star_app (temp_prefix path) "-vaulthook-init-*.sql" "-vaulthook-init-" ".sql") by (vm_compute; reflexivity).
  by intros [= <- <-].
Qed.

(** The files written, newest first in the map, next to those of before. *)
Record stripped (h : Host) (paths names : list string) (h' : Host) : Prop := {
  st_names : Forall2 (λ path name, ∃ rnd, name = temp_name path rnd) paths names;
  st_fresh : Forall (λ name, h_files h !! name = None) names;
  st_nodup : NoDup names;
  st_others : ∀ file, file ∉ names → h_files h' !! file = h_files h !! file;
  st_contents : Forall2 (λ path name, ∃ data, h_files h' !! name = Some (up_section data) ∧
                  ∀ d, h_files h !! path = Some d → d = data) paths names;
}.

Lemma strip_loop_files_only paths tmpFiles h : files_only h (strip_loop paths tmpFiles h).2.
Proof.
  revert tmpFiles h. induction paths as [|path paths IH]; intros tmpFiles h; [done|]. cbn [strip_loop]. host.
  destruct (ReadFile_spec path h) as (_ & Hr & _). destruct (ReadFile path h) as [[content|err|] h1]; cbn [fst snd] in *; host.
  2: by etrans; [|apply cleanup_files_only]. 2: done.
  destruct (CreateTemp_spec (temp_pattern path) h1) as (Hc & _).
  destruct (CreateTemp (temp_pattern path) h1) as [[name|err|] h2]; cbn [fst snd] in *; host.
  2: by etrans; [etrans|apply cleanup_files_only]. 2: by etrans.
  destruct (WriteString_spec name (up_section content) h2) as (Hw & _).
  destruct (WriteString _ _ h2) as [[err|] h3]; cbn [fst snd] in *; host.
  - by etrans; [etrans; [etrans|]|apply cleanup_files_only].
  - by etrans; [etrans; [etrans|]|apply IH].
Qed.

Lemma strip_loop_ok paths tmpFiles h cleaned h' :
  strip_loop paths tmpFiles h = (Ok cleaned, h') →
  ∃ names, cleaned = tmpFiles ++ names ∧ stripped h paths names h'.
Proof.
  revert tmpFiles h. induction paths as [|path paths IH]; intros tmpFiles h.
  { intros [= <- <-]. exists []. split; [by rewrite app_nil_r|]. split; constructor || done. }
  cbn [strip_loop]. host.
  destruct (ReadFile_spec path h) as (Hrf & _ & Hread & _).
  destruct (ReadFile path h) as [[content|err|] h1]; cbn [fst snd] in *; host; [|done..].
  destruct (CreateTemp_spec (temp_pattern path) h1) as (_ & _ & _ & Hc).
  destruct (CreateTemp (temp_pattern path) h1) as [[name|err|] h2]; cbn [fst snd] in *; host; [|done..].
  destruct (WriteString_spec name (up_section content) h2) as (_ & _ & Hw).
  destruct (WriteString _ _ h2) as [[err|] h3]; cbn [fst snd] in *; host; [done|]. intros E.
  destruct (IH _ _ E) as (names & -> & [Hn Hfr Hnd Hoth Hct]). specialize (Hw eq_refl).
  destruct (Hc _ eq_refl) as (Hnew & Hc2 & prefix & rnd & suffix & Hp & Hname).
  apply temp_pattern_parts in Hp as [-> ->]. rewrite Hrf in Hnew, Hc2.
  assert (h_files h3 = <[name := up_section content]> (h_files h)) as Hf3 by by rewrite Hw, Hc2, insert_insert_eq.
  assert (name ∉ names) as Hni.
  { intros Hin. rewrite Forall_forall in Hfr. specialize (Hfr _ Hin). by rewrite Hf3, lookup_insert_eq in Hfr. }
  exists (name :: names). rewrite <-(assoc_L (++)). split; [done|]. split.
  - constructor; [by exists rnd|done].
  - constructor; [done|]. eapply Forall_impl; [exact Hfr|]. intros n. cbv beta. rewrite Hf3.
    destruct (decide (n = name)) as [->|?]; [by rewrite lookup_insert_eq|by rewrite lookup_insert_ne].
  - by constructor.
  - intros file Hfile. apply not_elem_of_cons in Hfile as [? ?]. by rewrite Hoth, Hf3, lookup_insert_ne.
  - constructor.
    + exists content. rewrite Hoth, Hf3, lookup_insert_eq by done. split; [done|].
      rewrite (Hread _ eq_refl). congruence.
    + eapply Forall2_impl; [exact Hct|]. intros p n (data & Hd & Hsame). exists data. split; [done|].
      intros d Hd'. apply Hsame. rewrite Hf3. destruct (decide (p = name)) as [->|?]; [congruence|by rewrite lookup_insert_ne].
Qed.

(** The host without the files again is the host of before. *)
Lemma stripped_removed h paths names h' :
  stripped h paths names h' → foldr delete (h_files h') (reverse names) = h_files h.
Proof.
  intros [_ Hfr _ Hoth _]. apply map_eq. intros file.
  destruct (decide (file ∈ names)) as [Hin|Hni].
  - rewrite Forall_forall in Hfr. rewrite (Hfr _ Hin). apply lookup_foldr_delete. by apply elem_of_reverse.
  - rewrite lookup_foldr_delete_not_elem_of by by rewrite elem_of_reverse. by apply Hoth.
Qed.
