(* ===== verification/Startup.v ===== *)
(** [internal/config], [internal/health], the connection part of
    [internal/cache/cache.go] and the start-up part of [internal/app/app.go]:
    reading the environment, sizing the workers, the health check, and the
    objects that are created once per process. *)
From stdpp Require Import base tactics list gmap strings numbers sorting pretty.
From Stdlib Require Import ZArith SpecFloat Lia.
From S2P Require Import Prelude GoStd GoCrypto Json GoTime Model Codecs Helpers World Schema External Crypto Providers Limiter WorkerRepo.

Open Scope Z_scope.

(** ** envs.go: a missing or malformed variable panics *)

Definition Environ : Type := gmap string string.
Definition Getenv (env : Environ) (name : string) : string := default ""%string (env !! name).

(** [strconv.ParseBool] *)
Definition ParseBool (s : string) : option bool :=
  if bool_decide (s ∈ ["1"; "t"; "T"; "TRUE"; "true"; "True"]%string) then Some true
  else if bool_decide (s ∈ ["0"; "f"; "F"; "FALSE"; "false"; "False"]%string) then Some false
  else None.

(** github.com/rs/zerolog, [ParseLevel] *)
Class LogLib := { ParseLevel : string → option Z }.

Definition getEnvString (env : Environ) (name : string) : result string :=
  let value := Getenv env name in
  if len value =? 0 then Panic else Ok value.

Definition getEnv_with {A} (parse : string → option A) (env : Environ) (name : string) : result A :=
  let value := Getenv env name in
  if len value =? 0 then Panic
  else match parse value with Some a => Ok a | None => Panic end.

Definition getEnvBool : Environ → string → result bool := getEnv_with ParseBool.
Definition getEnvInt : Environ → string → result Z := getEnv_with Atoi.
Definition getEnvLevel `{LogLib} : Environ → string → result Z := getEnv_with ParseLevel.

Definition res_bind {A B} (r : result A) (k : A → result B) : result B :=
  match r with Ok a => k a | Err e => Err e | Panic => Panic end.

Lemma res_bind_Ok {A B} (r : result A) (k : A → result B) b : res_bind r k = Ok b → ∃ a, r = Ok a ∧ k a = Ok b.
Proof. destruct r; naive_solver. Qed.

Lemma getEnvString_Ok env name s : getEnvString env name = Ok s → s ≠ EmptyString.
Proof. unfold getEnvString. case_match eqn:E; [done|]. intros [= <-] Hs. by rewrite Hs in E. Qed.

Lemma getEnvInt_Ok env name n : getEnvInt env name = Ok n → min_int64 <= n <= max_int64.
Proof. unfold getEnvInt, getEnv_with. repeat case_match; try done. intros [= <-]. by eapply Atoi_range. Qed.

Definition initConfig `{LogLib} (env : Environ) : result Config :=
  res_bind (getEnvString env "DB_TYPE") (λ dbType,
  res_bind (getEnvString env "DB_USER") (λ dbUser,
  res_bind (getEnvString env "DB_PASSWORD") (λ dbPassword,
  res_bind (getEnvString env "DB_HOST") (λ dbHost,
  res_bind (getEnvInt env "DB_PORT") (λ dbPort,
  res_bind (getEnvString env "DB_NAME") (λ dbName,
  res_bind (getEnvString env "REDIS_URL") (λ redisURL,
  res_bind (getEnvString env "USER_EMAIL") (λ userEmail,
  res_bind (getEnvString env "USER_PASSWORD") (λ userPassword,
  res_bind (getEnvLevel env "LOG_LEVEL") (λ logLevel,
  res_bind (getEnvString env "TOKEN_SECRET") (λ jwtSecret,
  res_bind (getEnvString env "MASTER_KEY") (λ masterKey,
  res_bind (getEnvBool env "IS_DEVELOPMENT") (λ isDevelopment,
  Ok (mkConfig dbType dbUser dbPassword dbHost dbPort dbName redisURL userEmail userPassword logLevel
        jwtSecret masterKey isDevelopment)))))))))))))).

(** ** health/resources.go, on Go's 64-bit [int] *)
Definition dbConnsPerCPU : Z := 2.
Definition minDBConns : Z := 10.
Definition minReservedConns : Z := 4.
Definition minWorkerBudget : Z := 4.
Definition minQueueWorkers : Z := 2.
Definition minRetryWorkers : Z := 1.
Definition queueWorkerShareNum : Z := 2.
Definition queueWorkerShareDen : Z := 3.
Definition queueBatchPerCPU : Z := 6.
Definition retryBatchPerCPU : Z := 3.
Definition minQueueBatch : Z := 20.
Definition maxQueueBatch : Z := 100.
Definition minRetryBatch : Z := 10.
Definition maxRetryBatch : Z := 50.

Record Resources := mkResources {
  QueueWorkers : Z; RetryWorkers : Z; QueueBatch : Z; RetryBatch : Z; DBMaxConns : Z;
}.

Definition clamp (val lo hi : Z) : Z :=
  if val <? lo then lo else if hi <? val then hi else val.

(** Go's division truncates towards zero. *)
Definition ComputeResources (numCPU : Z) : Resources :=
  let dbMaxConns := Z.max (wrap64 (numCPU * dbConnsPerCPU)) minDBConns in
  let budget := Z.max (wrap64 (dbMaxConns - minReservedConns)) minWorkerBudget in
  let queueWorkers := Z.max minQueueWorkers (Z.quot (wrap64 (budget * queueWorkerShareNum)) queueWorkerShareDen) in
  let retryWorkers := Z.max minRetryWorkers (wrap64 (budget - queueWorkers)) in
  let queueBatch := clamp (wrap64 (numCPU * queueBatchPerCPU)) minQueueBatch maxQueueBatch in
  let retryBatch := clamp (wrap64 (numCPU * retryBatchPerCPU)) minRetryBatch maxRetryBatch in
  mkResources queueWorkers retryWorkers queueBatch retryBatch dbMaxConns.

Lemma clamp_range val lo hi : lo <= hi → lo <= clamp val lo hi <= hi.
Proof. unfold clamp. repeat case_match; bsplit; lia. Qed.

(** ** health/health.go *)
Definition HEALTHY : string := "healthy".
Definition UNHEALTHY : string := "unhealthy".
Definition bytesPerMB : Z := 1048576.

Record DependencyCheck := mkCheck { dc_Status : string; dc_LatencyMS : Z }.

Record ResourceStats := mkResourceStats {
  AllocMB : Z; TotalAllocMB : Z; SysMB : Z; NumGoroutine : Z; NumGC : Z; DiskFreeMB : Z;
}.

Record HealthCheck := mkHealth {
  hc_Status : string;
  hc_UptimeSeconds : Z;
  hc_Version : string;
  hc_Timestamp : string;
  hc_Checks : gmap string DependencyCheck;
  hc_Resources : ResourceStats;
}.

(** What the runtime tells a process: [debug.ReadBuildInfo] (its version and
    settings), [runtime.ReadMemStats], [runtime.NumGoroutine] and
    [syscall.Statfs] (free blocks and block size). *)
Record Runtime := mkRuntime {
  rt_build : option (string * list (string * string));
  rt_alloc : Z; rt_total_alloc : Z; rt_sys : Z; rt_num_gc : Z;
  rt_goroutines : Z;
  rt_statfs : option (Z * Z);
}.

(** The value of the first setting of a name. *)
Fixpoint setting (key : string) (l : list (string * string)) : option string :=
  match l with
  | [] => None
  | (k, v) :: l => if bool_decide (k = key) then Some v else setting key l
  end.

Definition getVersion (rt : Runtime) : string :=
  match rt_build rt with
  | None => "unknown"
  | Some (_, settings) => default "unknown"%string (setting "vcs.revision" settings)
  end.

(** [float64] of an integer, [Duration.Seconds], and [int64] of a [float64],
    which truncates towards zero. *)
Definition float64 (n : Z) : spec_float := binary_normalize 53 1024 n 0 false.
Definition Seconds (d : Z) : spec_float :=
  SFadd 53 1024 (float64 (Z.quot d Second)) (SFdiv 53 1024 (float64 (Z.rem d Second)) (float64 1000000000)).
Definition int64_of (x : spec_float) : Z :=
  match x with
  | S754_finite s m e =>
    let n := if 0 <=? e then Z.pos m * 2 ^ e else Z.pos m / 2 ^ (- e) in
    if s then - n else n
  | _ => 0
  end.

Definition getUpTime (startTime : Time) : M Z :=
  let* now := time_Now in
  let diff := Seconds (now - startTime) in
  st_ret (int64_of diff).

(** A second and a half is one second; after 194 days a fraction close to one
    is rounded up. *)
Example uptime_truncates : int64_of (Seconds 1500000000) = 1.
Proof. reflexivity. Qed.
Example uptime_rounds_up : int64_of (Seconds (16777216 * Second + 999999999)) = 16777217.
Proof. reflexivity. Qed.

Definition getTimeStamp : M string := let* now := time_Now in st_ret (string_of (Format_RFC3339 now)).

(** Products of [uint64] values wrap around. *)
Definition getResources (rt : Runtime) : ResourceStats :=
  let diskFreeMB := match rt_statfs rt with
                    | None => 0
                    | Some (bavail, bsize) => ((bavail * bsize) mod 2 ^ 64) / bytesPerMB
                    end in
  mkResourceStats (rt_alloc rt / bytesPerMB) (rt_total_alloc rt / bytesPerMB) (rt_sys rt / bytesPerMB)
    (rt_goroutines rt) (rt_num_gc rt) diskFreeMB.

(** A ping, timed. *)
Definition check_dependency : M DependencyCheck :=
  let* start := time_Now in
  let* e := ext in
  let* end_ := time_Now in
  let late := (end_ - start) / Millisecond in
  st_ret (mkCheck (match es_fault e with Some _ => UNHEALTHY | None => HEALTHY end) late).

Definition checkDB : M DependencyCheck := check_dependency.
Definition checkRedis : M DependencyCheck := check_dependency.

(** The two goroutines write their own entries under a mutex; [db_first] is
    the order in which their pings run. *)
Definition GetHealthCheck (startTime : Time) (rt : Runtime) (db_first : bool) : M HealthCheck :=
  let both first second k1 k2 :=
    (let* a := first in let* b := second in st_ret (<[k1 := a]> (<[k2 := b]> (∅ : gmap string DependencyCheck)))) in
  let* uptime := getUpTime startTime in
  let version := getVersion rt in
  let* timestamp := getTimeStamp in
  let* checks := (if db_first then both checkDB checkRedis "postgres"%string "redis"%string
                  else both checkRedis checkDB "redis"%string "postgres"%string) in
  let resources := getResources rt in
  let status k := match checks !! k with Some c => dc_Status c | None => ""%string end in
  st_ret (mkHealth
    (if negb (bool_decide (status "postgres"%string = HEALTHY)) || negb (bool_decide (status "redis"%string = HEALTHY))
     then UNHEALTHY else HEALTHY) uptime version timestamp checks resources).

(** The health check as JSON; the keys of a map are sorted. *)
Definition check_json (c : DependencyCheck) : option (list Z) := object_json
  [field "status" (Some (str_json (dc_Status c))); field "latency_ms" (Some (int_lit (dc_LatencyMS c)))].

Definition checks_json (m : gmap string DependencyCheck) : option (list Z) :=
  object_lit <$> mapM (λ kv, (str_json kv.1,.) <$> check_json kv.2) (merge_sort key_le (map_to_list m)).

Definition resources_json (r : ResourceStats) : option (list Z) := object_json
  [field "alloc_mb" (Some (int_lit (AllocMB r))); field "total_alloc_mb" (Some (int_lit (TotalAllocMB r)));
   field "sys_mb" (Some (int_lit (SysMB r))); field "num_goroutine" (Some (int_lit (NumGoroutine r)));
   field "num_gc" (Some (int_lit (NumGC r))); field "disk_free_mb" (Some (int_lit (DiskFreeMB r)))].

Definition health_json (h : HealthCheck) : option (list Z) := object_json
  [field "status" (Some (str_json (hc_Status h))); field "uptime_seconds" (Some (int_lit (hc_UptimeSeconds h)));
   field "version" (Some (str_json (hc_Version h))); field "timestamp" (Some (str_json (hc_Timestamp h)));
   field "checks" (checks_json (hc_Checks h)); field "resources" (resources_json (hc_Resources h))].
#[export] Instance health_to_json : ToJson HealthCheck := {| Marshal h := text_of (health_json h) |}.

(** [handler/health.go] *)
Definition getHealth (startTime : Time) (rt : Runtime) (db_first : bool) : M (option Reply) :=
  let* check := GetHealthCheck startTime rt db_first in
  st_ret match Marshal check with
         | Err _ => Some (header_only 500)
         | Panic => None
         | Ok rBody => Some (mkReply (if bool_decide (hc_Status check = HEALTHY) then 200 else 503) rBody)
         end.

Lemma getHealth_run startTime rt db_first w :
  (getHealth startTime rt db_first w).1 =
  let check := (GetHealthCheck startTime rt db_first w).1 in
  match Marshal check with
  | Err _ => Some (header_only 500)
  | Panic => None
  | Ok rBody => Some (mkReply (if bool_decide (hc_Status check = HEALTHY) then 200 else 503) rBody)
  end.
Proof. done. Qed.

(** A health check can always be encoded. *)
Lemma Marshal_health h : ∃ b, Marshal h = Ok b.
Proof.
  assert (∃ l, checks_json (hc_Checks h) = Some l) as [l Hl].
  { unfold checks_json. destruct (mapM _ _) as [ms|] eqn:E; [by eexists|].
    apply mapM_None in E. apply Exists_exists in E as (x & _ & Hx). done. }
  unfold Marshal. cbn [health_to_json]. unfold health_json. rewrite Hl. by eexists.
Qed.

(** ** Objects created once per process

    The instance a package keeps and whether its [sync.Once] has run: a later
    call does nothing and returns a nil error. *)
Record Singleton (A : Type) := mkSingleton { instance : option A; once : bool }.
Arguments mkSingleton {A} _ _.
Arguments instance {A} _.
Arguments once {A} _.

Definition fresh_singleton {A} : Singleton A := mkSingleton None false.

Definition once_Do {A} (init : M (result A)) (s : Singleton A) : M (option goerr * Singleton A) :=
  if once s then st_ret (None, s)
  else
    let* r := init in
    st_ret match r with
           | Ok a => (None, mkSingleton (Some a) true)
           | Err err => (Some err, mkSingleton (instance s) true)
           | Panic => (None, mkSingleton (instance s) true)
           end.

(** github.com/jackc/pgx: whether [pgxpool.ParseConfig] accepts a string and
    [pgxpool.NewWithConfig] a bound on the connections; and
    github.com/redis/go-redis: whether [redis.ParseURL] accepts a string. *)
Class InfraLib := {
  ParseConfig_ok : string → bool;
  NewWithConfig_ok : Z → bool;
  ParseURL_ok : string → bool;
}.

(** ** config/db.go *)
Section infra.
Context `{InfraLib}.

(** [int32(maxConns)] *)
Definition wrap32 (z : Z) : Z := (z + 2 ^ 31) mod 2 ^ 32 - 2 ^ 31.

Definition connString (cfg : Config) : string :=
  DBType cfg +:+ "://" +:+ DBUser cfg +:+ ":" +:+ DBPassword cfg +:+ "@" +:+ DBHost cfg +:+ ":" +:+ pretty (DBPort cfg)
  +:+ "/" +:+ DBName cfg +:+ "?timezone=UTC".

(** The pool, of which the program uses the bound on its connections. *)
Record PgPool := mkPool { MaxConns : Z }.

Definition init_pool (maxConns : Z) : M (result PgPool) :=
  let* cfg := st_gets w_cfg in
  if negb (ParseConfig_ok (connString cfg))
  then st_ret (Err (Wrap (ErrOther "unable to parse connection string") (ErrOther "cannot parse")))
  else
    let MaxConns := wrap32 maxConns in
    let* e := ext in
    st_ret match es_fault e with
           | Some pgErr => Err (Wrap (ErrOther "unable to create connection pool") pgErr)
           | None =>
             if NewWithConfig_ok MaxConns then Ok (mkPool MaxConns)
             else Err (Wrap (ErrOther "unable to create connection pool") (ErrOther "invalid MaxConns"))
           end.

Definition NewPG (maxConns : Z) (s : Singleton PgPool) : M (option PgPool * option goerr * Singleton PgPool) :=
  let* r := once_Do (init_pool maxConns) s in
  let '(err, s) := r in
  st_ret (instance s, err, s).

(** ** config/logger.go: the fields of the entries of the logger. *)
Record Logger := mkLogger { lg_level : Z; lg_revision : string; lg_goVersion : string }.

Definition init_logger (rt : Runtime) : M (result Logger) :=
  let* cfg := st_gets w_cfg in
  st_ret match rt_build rt with
         | None => Err (ErrOther "unable to read buildInfo")
         | Some (goVersion, settings) =>
           Ok (mkLogger (LogLevel cfg) (default ""%string (setting "vcs.revision" settings)) goVersion)
         end.

(** The logger is a variable of the package, zero until it is set. *)
Definition NewLogger (rt : Runtime) (s : Singleton Logger) : M (Logger * option goerr * Singleton Logger) :=
  let* r := once_Do (init_logger rt) s in
  let '(err, s) := r in
  st_ret (default (mkLogger 0 "" "") (instance s), err, s).

(** ** cache/cache.go: the client of Redis *)
Definition ping : M (option goerr) := let* e := ext in st_ret (es_fault e).

Definition NewCache : M (result unit) :=
  let* cfg := st_gets w_cfg in
  if negb (ParseURL_ok (RedisURL cfg)) then st_ret (Err (ErrOther "redis: invalid URL"))
  else
    let* pingErr := ping in
    st_ret match pingErr with Some err => Err err | None => Ok tt end.

Definition InitRedisCache (s : Singleton unit) : M (option goerr * Singleton unit) := once_Do NewCache s.

Definition GetCache (s : Singleton unit) : option unit := instance s.

(** ** app.go: what [New] does to the shared state before it serves

    A process starts with every [sync.Once] unused; a failure panics. *)
Context `{UuidLib, LogLib}.

(** [config.Init] *)
Definition Init (env : Environ) : M (result unit) :=
  match initConfig env with
  | Ok cfg => let* _ := st_modify (set_cfg (λ _, cfg)) in st_ret (Ok tt)
  | _ => st_ret Panic
  end.

Definition start (env : Environ) (rt : Runtime) (numCPU : Z) : M (result unit) :=
  let? _ := Init env in
  let resources := ComputeResources numCPU in
  let* _ := SetWorkerBatchSizes (QueueBatch resources) (RetryBatch resources) in
  let* pg := NewPG (DBMaxConns resources) fresh_singleton in
  match pg with
  | (Some _, None, _) =>
    let* pingErr := ping in
    match pingErr with
    | Some _ => st_ret Panic
    | None =>
      let* logger := NewLogger rt fresh_singleton in
      match logger with
      | (_, Some _, _) => st_ret Panic
      | (_, None, _) =>
        let* redis := InitRedisCache fresh_singleton in
        match redis with
        | (Some _, _) => st_ret Panic
        | (None, cache) =>
          let* provErr := InitProviderCache false in
          match provErr.1 with
          | Ok _ =>
            let* _ := InitRateLimiter false (bool_decide (is_Some (GetCache cache))) in
            st_ret (Ok tt)
          | _ => st_ret Panic
          end
        end
      end
    end
  | _ => st_ret Panic
  end.

(** ** What the steps of a start leave unchanged *)

Lemma read_only_once_Do {A} (init : M (result A)) s : read_only init → read_only (once_Do init s).
Proof. intros Hi. unfold once_Do. auto with world. Qed.

Lemma read_only_ping : read_only ping.
Proof. unfold ping. auto with world. Qed.

Lemma read_only_NewPG maxConns s : read_only (NewPG maxConns s).
Proof.
  apply read_only_bind; [|intros []; auto with world]. apply read_only_once_Do. unfold init_pool.
  apply read_only_bind; [auto with world|]. intros cfg. cbv zeta. auto with world.
Qed.

Lemma read_only_NewLogger rt s : read_only (NewLogger rt s).
Proof. apply read_only_bind; [|intros []; auto with world]. apply read_only_once_Do. unfold init_logger. auto with world. Qed.

Lemma read_only_InitRedisCache s : read_only (InitRedisCache s).
Proof. apply read_only_once_Do. unfold NewCache, ping. auto with world. Qed.

(** A call succeeds only with an instance. *)
Lemma InitRedisCache_Ok w s w' : InitRedisCache fresh_singleton w = ((None, s), w') → GetCache s = Some tt.
Proof.
  unfold InitRedisCache, once_Do. cbn [once fresh_singleton]. rewrite st_bind_run. unfold NewCache.
  rewrite st_bind_run. cbn [st_gets fst snd]. destruct (ParseURL_ok _); [|done]. cbn [negb]. rewrite st_bind_run.
  destruct (ping w) as [[e|] w1]; [done|]. by intros [= <- _].
Qed.

(** A start that succeeds is a refresh of the providers' cache, after calls
    that only read, with the configuration and the batch sizes set before and
    the limiter after. *)
Lemma start_Ok env rt numCPU w w' :
  start env rt numCPU w = (Ok tt, w') →
  ∃ cfg w1 w2,
    initConfig env = Ok cfg ∧
    same_state (set_batch (λ _, (QueueBatch (ComputeResources numCPU), RetryBatch (ComputeResources numCPU)))
                  (set_cfg (λ _, cfg) w)) w1 ∧
    fill_cache "insertion" w1 = (Ok tt, w2) ∧ w' = set_limiter (λ _, true) w2.
Proof.
  unfold start, Init, st_bind_res. rewrite st_bind_run. destruct (initConfig env) as [cfg|e|]; [|done..].
  rewrite !st_bind_run. unfold SetWorkerBatchSizes. cbn [st_modify st_ret fst snd]. rewrite st_bind_run.
  cbn [st_modify st_ret fst snd]. set (w1 := set_batch _ _). rewrite st_bind_run.
  pose proof (read_only_NewPG (DBMaxConns (ComputeResources numCPU)) fresh_singleton w1) as Hpg.
  destruct (NewPG _ _ w1) as [[[[pg|] [e|]] ?] w2]; cbn [fst snd] in *; [done| |done..].
  rewrite st_bind_run. pose proof (read_only_ping w2) as Hping.
  destruct (ping w2) as [[e|] w3]; cbn [fst snd] in *; [done|].
  rewrite st_bind_run. pose proof (read_only_NewLogger rt fresh_singleton w3) as Hlog.
  destruct (NewLogger _ _ w3) as [[[? [e|]] ?] w4]; cbn [fst snd] in *; [done|].
  rewrite st_bind_run. pose proof (read_only_InitRedisCache fresh_singleton w4) as Hrd.
  destruct (InitRedisCache _ w4) as [[[e|] cache] w5] eqn:Ec; cbn [fst snd] in *; [done|].
  apply InitRedisCache_Ok in Ec. rewrite Ec.
  unfold InitProviderCache. rewrite !st_bind_run. destruct (fill_cache _ w5) as [[[]|e|] w6] eqn:Er; cbn; [|done..].
  intros [= <-]. exists cfg, w5, w6. split; [done|]. split; [|done].
  etrans; [exact Hpg|]. etrans; [exact Hping|]. by etrans.
Qed.

End infra.

#[export] Hint Resolve read_only_once_Do read_only_ping read_only_NewPG read_only_NewLogger read_only_InitRedisCache : world.
