(* ===== verification/Handlers.v ===== *)
(** [internal/api/handler/github.go], [shopify.go] and [stripe.go]: the three
    endpoints that receive webhooks.  The module [Handlers] of each provider
    is the whole [Receive] function; the abstract specification
    [ingest_outcome] is what every one of them promises. *)
From stdpp Require Import base tactics list gmap strings numbers.
From Stdlib Require Import ZArith Lia.
From S2P Require Import Prelude GoStd Json GoCrypto Model Codecs World Schema External EventsRepo Crypto Providers Ingest.
From S2P Require Import Github Shopify Stripe Hub WorkerRepo Worker.

Open Scope Z_scope.

Definition StatusOK : Z := 200.

(** ** What the handlers have in common

    [None] is a handler that panics: [net/http] drops the connection. *)

(** [json.NewEncoder(w).Encode(map[string]string{"status": ..., "id": ...})]:
    the keys of a map are encoded in sorted order, and a line feed ends the
    object. *)
Definition queued_response (id : string) : HttpResponse :=
  mkHttpResp StatusOK (string_of
    (object_lit [(str_json "id", str_json id); (str_json "status", str_json (status_text Queued))] ++ [10])).

(** From the call of [Exists] on. *)
Definition check_exists (exists_ : M (result bool)) (rest : M (option HttpResponse)) : M (option HttpResponse) :=
  let* found := exists_ in
  match found with
  | Err _ => st_ret (Some (WriteHeader StatusInternalServerError))
  | Panic => st_ret None
  | Ok true => st_ret (Some (WriteHeader StatusOK))
  | Ok false => rest
  end.

(** From the call of [InsertWebhook] on. *)
Definition store (insert_ : M (result Webhook)) (id : string) : M (option HttpResponse) :=
  let* r := insert_ in
  match r with
  | Err err => if errors_Is err ErrHookExists then st_ret (Some (WriteHeader StatusOK))
               else st_ret (Some (WriteHeader StatusInternalServerError))
  | Panic => st_ret None
  | Ok hook =>
    let* _ := Send hook in
    let* _ := Notify in
    st_ret (Some (queued_response id))
  end.

Section receive.
Context `{UuidLib, Postgres, StripeLib}.

(** [json.Marshal(r.Header)], and the status if it fails. *)
Definition marshal_headers (h : Header) (status : Z) (next : string → M (option HttpResponse)) : M (option HttpResponse) :=
  match Marshal h with
  | Err _ => st_ret (Some (WriteHeader status))
  | Panic => st_ret None
  | Ok headers => next headers
  end.

(** Headers can always be encoded. *)
Lemma marshal_headers_ok h status next : marshal_headers h status next = next (header_text h).
Proof. done. Qed.

(** ** github.go *)
Definition gitMaxBodyBytes : Z := 25000000.

Definition github_Receive (r : HttpRequest) : M (option HttpResponse) :=
  match read_body gitMaxBodyBytes r with
  | None => st_ret (Some (WriteHeader StatusServiceUnavailable))
  | Some payload =>
    let hid := header_get "X-Github-Hook-Id" (r_header r) in
    if bool_decide (hid = ""%string) then st_ret (Some (WriteHeader StatusBadRequest))
    else
      let event := header_get "X-Github-Event" (r_header r) in
      if bool_decide (event = ""%string) then st_ret (Some (WriteHeader StatusBadRequest))
      else
        let signature := header_get "X-Hub-Signature-256" (r_header r) in
        let* sec := Github.ValidateSecret signature payload in
        match sec with
        | Err secErr =>
          if errors_Is secErr ErrDecryption then st_ret (Some (WriteHeader StatusInternalServerError))
          else if errors_As_Pg secErr then st_ret (Some (WriteHeader StatusInternalServerError))
          else st_ret (Some (WriteHeader StatusBadRequest))
        | Panic => st_ret None
        | Ok _ =>
          let evID := header_get "X-Github-Delivery" (r_header r) in
          check_exists (Github.Exists evID)
            (marshal_headers (r_header r) StatusBadRequest (λ headers,
             store (Github.InsertWebhook headers payload hid event) hid))
        end
  end.

(** ** shopify.go *)
Definition shopifyMaxBodyBytes : Z := 5000000.

Definition shopify_Receive (r : HttpRequest) : M (option HttpResponse) :=
  match read_body shopifyMaxBodyBytes r with
  | None => st_ret (Some (WriteHeader StatusServiceUnavailable))
  | Some payload =>
    let hid := header_get "X-Shopify-Webhook-Id" (r_header r) in
    if bool_decide (hid = ""%string) then st_ret (Some (WriteHeader StatusBadRequest))
    else
      marshal_headers (r_header r) StatusInternalServerError (λ headers,
      let event := header_get "X-Shopify-Topic" (r_header r) in
      if bool_decide (event = ""%string) then st_ret (Some (WriteHeader StatusBadRequest))
      else
        let signature := header_get "X-Shopify-Hmac-Sha256" (r_header r) in
        let* sec := Shopify.ValidateSecret signature payload in
        match sec with
        | Err sigErr =>
          if errors_Is sigErr ErrDecryption then st_ret (Some (WriteHeader StatusInternalServerError))
          else if errors_Is sigErr ErrInvalidSignature then st_ret (Some (WriteHeader StatusBadRequest))
          else st_ret (Some (WriteHeader StatusInternalServerError))
        | Panic => st_ret None
        | Ok _ =>
          check_exists (Shopify.Exists hid) (store (Shopify.InsertWebhook headers payload hid event) hid)
        end)
  end.

(** ** stripe.go *)
Definition StripeMaxBodyBytes : Z := 65539.

Definition stripe_Receive (r : HttpRequest) : M (option HttpResponse) :=
  match read_body StripeMaxBodyBytes r with
  | None => st_ret (Some (WriteHeader StatusServiceUnavailable))
  | Some payload =>
    let signatureHeader := header_get "Stripe-Signature" (r_header r) in
    let* sec := Stripe.ValidateSecret signatureHeader payload in
    match sec with
    | Err err =>
      if errors_Is err ErrDecryption then st_ret (Some (WriteHeader StatusInternalServerError))
      else if errors_As_Pg err then st_ret (Some (WriteHeader StatusInternalServerError))
      else st_ret (Some (WriteHeader StatusBadRequest))
    | Panic => st_ret None
    | Ok event =>
      check_exists (Stripe.Exists (ev_ID event))
        (marshal_headers (r_header r) StatusBadRequest (λ headersJSON,
         store (Stripe.InsertWebhook headersJSON payload event) (ev_ID event)))
    end
  end.

(** The routes [RegisterRoutes] mounts. *)
Inductive endpoint : Type := AtGithub | AtShopify | AtStripe.
Definition receive (at_ : endpoint) : HttpRequest → M (option HttpResponse) :=
  match at_ with AtGithub => github_Receive | AtShopify => shopify_Receive | AtStripe => stripe_Receive end.

(** ** What a receiving endpoint promises *)

(** No call of the script pretends that a row was missing. *)
Definition honest_step (e : EnvStep) : Prop :=
  ∀ err, es_fault e = Some err → errors_Is err ErrNoRows = false ∧ errors_Is err ErrHookExists = false.
Definition honest (w : World) : Prop := Forall honest_step (w_env w).

Definition cached (w : World) (name : string) (prov : Provider) : Prop :=
  ∃ v, kv (w_redis w) !! (RedisProviderPrefix +:+ name) = Some v ∧ Unmarshal v = Some prov.

(** The table holds an event of the provider under this id. *)
Definition known (w : World) (name key : string) : Prop :=
  ∃ prov i x, cached w name prov ∧ webhook_events (w_db w) !! i = Some x ∧
    wh_ProviderID x = p_ID prov ∧ wh_EventID x = Some key.

(** One new queued row, offered to the dashboard and signalled to the
    workers, and nothing else. *)
Record stored (name id event : string) (r : HttpRequest) (w w' : World) (hook : Webhook) : Prop := {
  st_cached : ∃ prov, cached w name prov ∧ wh_ProviderID hook = p_ID prov ∧
                wh_ForwardedTo hook = p_DestinationURL prov;
  st_unknown : ¬ known w name id;
  st_rows : webhook_events (w_db w) !! wh_ID hook = None ∧
            webhook_events (w_db w') = <[wh_ID hook := hook]> (webhook_events (w_db w)) ∧
            providers (w_db w') = providers (w_db w);
  st_queued : wh_DeliveryStatus hook = Queued ∧ wh_RetryCount hook = 0;
  st_named : wh_Provider hook = name ∧ wh_EventID hook = Some id ∧ wh_EventType hook = event;
  st_content : jsonb_in (header_text (r_header r)) = Some (wh_Headers hook) ∧
               jsonb_in (r_body r) = Some (wh_Payload hook);
  st_announced : w_hub w' = hub_Send hook (w_hub w);
  st_signalled : w_signal w' = notified (w_signal w);
  st_redis : w_redis w' = w_redis w;
}.

(** The three ways a request ends: refused without a trace; accepted as
    already known; or stored. *)
Inductive ingest_outcome (name : string) (keys : list string) (id event : string) (vouched : Prop)
    (r : HttpRequest) (w w' : World) : option HttpResponse → Prop :=
| OutRefused resp :
    same_state w w' → (∀ x, resp = Some x → resp_status x ≠ StatusOK) →
    ingest_outcome name keys id event vouched r w w' resp
| OutKnown :
    vouched → same_state w w' → (honest w → ∃ key, key ∈ keys ∧ known w name key) →
    ingest_outcome name keys id event vouched r w w' (Some (WriteHeader StatusOK))
| OutQueued hook :
    vouched → stored name id event r w w' hook →
    ingest_outcome name keys id event vouched r w w' (Some (queued_response id)).

(** ** Lemmas *)

Lemma cached_inj w name p q : cached w name p → cached w name q → p = q.
Proof. intros (v & Hv & Hp) (v' & Hv' & Hq). congruence. Qed.

Lemma cached_same w w' name p : same_state w w' → cached w' name p ↔ cached w name p.
Proof. intros Hs. unfold cached. by rewrite (same_redis _ _ Hs). Qed.

Lemma known_same w w' name key : same_state w w' → known w' name key ↔ known w name key.
Proof. intros Hs. unfold known. setoid_rewrite (cached_same w w' name _ Hs). by rewrite (same_db _ _ Hs). Qed.

Lemma exists_for_true name key w w' : exists_for name key w = (Ok true, w') → known w name key.
Proof.
  unfold exists_for, st_bind_res. rewrite st_bind_run. pose proof (Cache_Get_read_only name w) as Hs.
  destruct (Cache_Get name w) as [[p|e|] w1] eqn:E; [|done..]. cbn [fst snd] in *.
  apply Cache_Get_Ok in E. unfold EventsRepo.Exists. step_db; [done|]. simpl. rewrite (same_db _ _ Hs).
  destruct (text_ok key); [|done]. intros [= (i & x & Hx & Hk)%existsb_rows _]. apply same_key_spec in Hk as (? & ? & _).
  exists p, i, x. done.
Qed.

Lemma honest_ext w err : honest w → es_fault (ext w).1 = Some err →
  errors_Is err ErrNoRows = false ∧ errors_Is err ErrHookExists = false.
Proof.
  unfold honest, ext. intros Hw. destruct (w_env w) as [|e es]; simpl; [done|].
  inversion_clear Hw as [|? ? He _]. apply He.
Qed.

Lemma Cache_Get_Err name w err w' :
  honest w → Cache_Get name w = (Err err, w') → errors_Is err ErrHookExists = false.
Proof.
  intros Hh. unfold Cache_Get, cache_GetBytes, redis_cmd, st_bind_res. rewrite st_bind_run.
  pose proof (honest_ext w) as He. destruct (ext w) as [e w1]. cbn [fst snd] in *.
  destruct (es_fault e) as [f|]; [intros [= <- _]; by apply He|].
  destruct (kv _ !! _); simpl; [|by intros [= <- _]]. destruct (Unmarshal _); [done|]. by intros [= <- _].
Qed.

(** A refusal as a duplicate means that there is a duplicate. *)
Lemma insert_for_exists name headers payload id event w err w' :
  honest w → insert_for name headers payload id event w = (Err err, w') →
  errors_Is err ErrHookExists = true → known w name id.
Proof.
  intros Hh. unfold insert_for, st_bind_res. rewrite st_bind_run.
  pose proof (Cache_Get_read_only name w) as Hs.
  destruct (Cache_Get name w) as [[p|e|] w1] eqn:E; [|intros [= -> ->]|done].
  2: { by rewrite (Cache_Get_Err name w err w' Hh E). }
  apply Cache_Get_Ok in E. cbn [fst snd] in *. rewrite !st_bind_run. cbn [time_Now st_gets fst snd].
  pose proof (same_state_env _ _ _ Hs Hh : honest w1) as Hh1.
  unfold EventsRepo.InsertWebhook, db_stmt. rewrite st_bind_run.
  pose proof (honest_ext w1) as He. pose proof (ext_db w1) as Hdb. destruct (ext w1) as [e w2]. cbn [fst snd] in *.
  destruct (es_fault e) as [f|].
  { destruct (He f Hh1 eq_refl) as [He1 He2]. simpl. rewrite He1. simpl. intros [= <- _]. congruence. }
  rewrite Hdb, (same_db _ _ Hs). unfold insert_stmt.
  destruct (forallb _ _); cbn [negb]; [|by intros [= <- _]].
  destruct (jsonb_in _); [|by intros [= <- _]]. destruct (jsonb_in _); [|by intros [= <- _]].
  destruct (existsb _ _) eqn:Ex; [|repeat case_match; simplify_eq/=; intros [= <- _]; done].
  intros _ _. apply existsb_rows in Ex as (i & x & Hx & Hk). apply same_key_spec in Hk as (? & ? & _).
  exists p, i, x. done.
Qed.

(** An insertion that succeeds, from the world [w] of the request on. *)
Lemma stored_intro name id event r w w1 hook w2 :
  same_state w w1 →
  insert_for name (header_text (r_header r)) (r_body r) id event w1 = (Ok hook, w2) →
  stored name id event r w (set_signal notified (set_hub (hub_Send hook) w2)) hook.
Proof.
  intros Hs Hi. apply insert_for_Ok in Hi
    as (v & p & Hv & Hp & Hnew & Hrows & Hprov & Hfresh & Hq & Hpid & Hev & Hn & Ht & Hf & Hh & Hb & Hr & Hhub & Hsig & Hrd2).
  destruct Hs as [Hdb Hrd _ _ _ Hhub' Hsig' _ _ _]. rewrite Hdb in *. rewrite Hrd in Hv.
  assert (cached w name p) as Hc by (by exists v). split; simpl; try done.
  - by exists p.
  - intros (q & i & x & Hq' & Hx & Hxp & Hxe). rewrite (cached_inj _ _ _ _ Hq' Hc) in Hxp.
    specialize (Hfresh i x Hx). by rewrite (proj2 (same_key_spec _ _ _)) in Hfresh.
  - by rewrite Hhub, Hhub'.
  - by rewrite Hsig, Hsig'.
  - by rewrite Hrd2, Hrd.
Qed.

(** What follows a signature check, whichever the provider. *)
Lemma accept_outcome name key id event (vouched : Prop) r w w1 resp w' :
  vouched → same_state w w1 →
  check_exists (exists_for name key)
    (store (insert_for name (header_text (r_header r)) (r_body r) id event) id) w1 = (resp, w') →
  ingest_outcome name [key; id] id event vouched r w w' resp.
Proof.
  intros Hv Hs. unfold check_exists. rewrite st_bind_run.
  pose proof (exists_for_read_only name key w1) as Hx.
  destruct (exists_for name key w1) as [[[]|e|] w2] eqn:Ex; cbn [fst snd st_ret] in *;
    (assert (same_state w w2) as Hs2 by by etrans).
  - intros [= <- <-]. apply OutKnown; [done..|]. intros _. exists key. split; [left|].
    apply (known_same w w1); [done|]. by eapply exists_for_true.
  - unfold store. rewrite st_bind_run.
    destruct (insert_for _ _ _ _ _ w2) as [[hook|e|] w3] eqn:Ei; cbn [fst snd].
    + rewrite !st_bind_run. intros [= <- <-]. apply OutQueued with (hook := hook); [done|].
      by eapply stored_intro.
    + assert (same_state w w3) as Hs3.
      { etrans; [exact Hs2|]. pose proof (insert_for_not_Ok name (header_text (r_header r)) (r_body r) id event w2) as Hn.
        rewrite Ei in Hn. by apply Hn. }
      destruct (errors_Is e ErrHookExists) eqn:Ee; intros [= <- <-].
      * apply OutKnown; [done..|]. intros Hh. exists id. split; [right; left|].
        apply (known_same w w2); [done|]. eapply insert_for_exists; [|exact Ei|done].
        exact (same_state_env _ _ _ Hs2 Hh).
      * apply OutRefused; [done|]. by intros x [= <-].
    + intros [= <- <-]. apply OutRefused; [|done]. etrans; [exact Hs2|].
      pose proof (insert_for_not_Ok name (header_text (r_header r)) (r_body r) id event w2) as Hn.
      rewrite Ei in Hn. by apply Hn.
  - intros [= <- <-]. apply OutRefused; [done|]. by intros x [= <-].
  - intros [= <- <-]. by apply OutRefused.
Qed.

Lemma read_body_Some limit r payload : read_body limit r = Some payload → payload = r_body r ∧ len (r_body r) <= limit.
Proof. unfold read_body. case_match eqn:E; [done|]. intros [= <-]. bsplit. done. Qed.

(** A reply that is not a success, with the world as it was. *)
Lemma refuse_outcome name keys id event vouched r w w1 code resp w' :
  same_state w w1 → code ≠ StatusOK → (Some (WriteHeader code), w1) = (resp, w') →
  ingest_outcome name keys id event vouched r w w' resp.
Proof. intros Hs Hc [= <- <-]. apply OutRefused; [done|]. by intros x [= <-]. Qed.

Definition vouched_by (name : string) (authentic : string → string → string → Prop) (signature : string)
    (r : HttpRequest) (w : World) : Prop :=
  ∃ secret, has_secret w name secret ∧ authentic secret signature (r_body r).

Lemma github_outcome r w resp w' :
  github_Receive r w = (resp, w') →
  let hid := header_get "X-Github-Hook-Id" (r_header r) in
  ingest_outcome Github [header_get "X-Github-Delivery" (r_header r); hid] hid
    (header_get "X-Github-Event" (r_header r))
    (vouched_by Github Github.authentic (header_get "X-Hub-Signature-256" (r_header r)) r w) r w w' resp.
Proof.
  unfold github_Receive. cbv zeta.
  destruct (read_body _ r) as [payload|] eqn:Eb; [|by apply refuse_outcome].
  apply read_body_Some in Eb as [-> _].
  case_bool_decide; [by apply refuse_outcome|]. case_bool_decide; [by apply refuse_outcome|].
  rewrite st_bind_run. set (sig := header_get "X-Hub-Signature-256" (r_header r)).
  pose proof (check_read_only (check := Github.ValidateSecret) sig (r_body r) w) as Hs.
  pose proof (check_sound (check := Github.ValidateSecret) sig (r_body r) w) as Hc.
  destruct (Github.ValidateSecret sig (r_body r) w) as [[[]|e|] w1]; cbn [fst snd] in *.
  - apply accept_outcome; [|done]. by eapply Hc.
  - case_match; [by apply refuse_outcome|]. case_match; by apply refuse_outcome.
  - intros [= <- <-]. by apply OutRefused.
Qed.

Lemma shopify_outcome r w resp w' :
  shopify_Receive r w = (resp, w') →
  let hid := header_get "X-Shopify-Webhook-Id" (r_header r) in
  ingest_outcome Shopify [hid; hid] hid (header_get "X-Shopify-Topic" (r_header r))
    (vouched_by Shopify Shopify.authentic (header_get "X-Shopify-Hmac-Sha256" (r_header r)) r w) r w w' resp.
Proof.
  unfold shopify_Receive. cbv zeta.
  destruct (read_body _ r) as [payload|] eqn:Eb; [|by apply refuse_outcome].
  apply read_body_Some in Eb as [-> _].
  case_bool_decide; [by apply refuse_outcome|]. rewrite marshal_headers_ok. case_bool_decide; [by apply refuse_outcome|].
  rewrite st_bind_run. set (sig := header_get "X-Shopify-Hmac-Sha256" (r_header r)).
  pose proof (check_read_only (check := Shopify.ValidateSecret) sig (r_body r) w) as Hs.
  pose proof (check_sound (check := Shopify.ValidateSecret) sig (r_body r) w) as Hc.
  destruct (Shopify.ValidateSecret sig (r_body r) w) as [[[]|e|] w1]; cbn [fst snd] in *.
  - apply accept_outcome; [|done]. by eapply Hc.
  - case_match; [by apply refuse_outcome|]. case_match; by apply refuse_outcome.
  - intros [= <- <-]. by apply OutRefused.
Qed.

Lemma stripe_outcome `{!StripeLibOk} r w resp w' :
  stripe_Receive r w = (resp, w') →
  let sig := header_get "Stripe-Signature" (r_header r) in
  ∃ ev, ingest_outcome Stripe [ev_ID ev; ev_ID ev] (ev_ID ev) (ev_Type ev)
    (vouched_by Stripe Stripe.authentic sig r w ∧
     (Stripe.ValidateSecret sig (r_body r) w).1 = Ok ev) r w w' resp.
Proof.
  unfold stripe_Receive. cbv zeta. set (sig := header_get "Stripe-Signature" (r_header r)).
  destruct (read_body _ r) as [payload|] eqn:Eb;
    [|intros Hr; exists (mkStripeEvent "" ""); revert Hr; by apply refuse_outcome].
  apply read_body_Some in Eb as [-> _]. rewrite st_bind_run.
  pose proof (check_read_only (check := Stripe.ValidateSecret) sig (r_body r) w) as Hs.
  pose proof (check_sound (check := Stripe.ValidateSecret) sig (r_body r) w) as Hc.
  destruct (Stripe.ValidateSecret sig (r_body r) w) as [[ev|e|] w1]; cbn [fst snd] in *; intros Hr.
  - exists ev. eapply accept_outcome; [|done|exact Hr]. split; [|done]. by eapply Hc.
  - exists (mkStripeEvent "" ""). revert Hr. case_match; [by apply refuse_outcome|].
    case_match; by apply refuse_outcome.
  - exists (mkStripeEvent "" ""). injection Hr as <- <-. by apply OutRefused.
Qed.

(** The provider an endpoint serves, and the ids under which a request to it
    may be known. *)
Definition ep_name (at_ : endpoint) : string :=
  match at_ with AtGithub => Github | AtShopify => Shopify | AtStripe => Stripe end.

Definition ep_keys (at_ : endpoint) (r : HttpRequest) (w : World) : list string :=
  match at_ with
  | AtGithub => [header_get "X-Github-Delivery" (r_header r); header_get "X-Github-Hook-Id" (r_header r)]
  | AtShopify => [header_get "X-Shopify-Webhook-Id" (r_header r)]
  | AtStripe => match (Stripe.ValidateSecret (header_get "Stripe-Signature" (r_header r)) (r_body r) w).1 with
                | Ok ev => [ev_ID ev] | _ => []
                end
  end.

Definition ep_signed (at_ : endpoint) (r : HttpRequest) (w : World) : Prop :=
  match at_ with
  | AtGithub => vouched_by Github Github.authentic (header_get "X-Hub-Signature-256" (r_header r)) r w
  | AtShopify => vouched_by Shopify Shopify.authentic (header_get "X-Shopify-Hmac-Sha256" (r_header r)) r w
  | AtStripe => vouched_by Stripe Stripe.authentic (header_get "Stripe-Signature" (r_header r)) r w
  end.

(** The same outcome at every endpoint. *)
Lemma receive_outcome `{!StripeLibOk} at_ r w resp w' :
  receive at_ r w = (resp, w') →
  ∃ keys id event (vouched : Prop),
    ingest_outcome (ep_name at_) keys id event vouched r w w' resp ∧
    (vouched → ep_signed at_ r w ∧ list.last (ep_keys at_ r w) = Some id ∧ ∀ key, key ∈ keys → key ∈ ep_keys at_ r w).
Proof.
  destruct at_; simpl; intros Hr.
  - apply github_outcome in Hr. eexists _, _, _, _. split; [exact Hr|]. intros Hv. split_and!; [done..|set_solver].
  - apply shopify_outcome in Hr. eexists _, _, _, _. split; [exact Hr|]. intros Hv. split_and!; [done..|set_solver].
  - apply stripe_outcome in Hr as [ev Hr]. eexists _, _, _, _. split; [exact Hr|].
    intros [Hv ->]. split_and!; [done..|set_solver].
Qed.

End receive.
