(* ===== verification/Pipeline.v ===== *)
(** The receiving endpoints as one pipeline of two stages: [arrive] is what a
    request goes through up to the duplicate check, whichever the provider,
    and [accept] is the insertion and what follows it.  Other requests run
    between the stages of one; [System] steps through them separately. *)
From stdpp Require Import base tactics list gmap strings numbers.
From Stdlib Require Import ZArith Lia.
From S2P Require Import Prelude GoStd GoCrypto Model Codecs World Schema External EventsRepo Crypto Providers Ingest.
From S2P Require Import Github Shopify Stripe Hub WorkerRepo Worker Handlers.

Open Scope Z_scope.

(** A request that passed the duplicate check: the arguments of its
    [InsertWebhook]. *)
Record Pending := mkPending {
  pd_name : string;
  pd_headers : string;
  pd_payload : string;
  pd_id : string;
  pd_event : string;
}.

(** ** What differs between the providers *)

Definition body_limit (at_ : endpoint) : Z :=
  match at_ with AtGithub => gitMaxBodyBytes | AtShopify => shopifyMaxBodyBytes | AtStripe => StripeMaxBodyBytes end.

(** The headers without which a request is refused before its signature is
    looked at. *)
Definition required (at_ : endpoint) : list string :=
  match at_ with
  | AtGithub => ["X-Github-Hook-Id"; "X-Github-Event"]
  | AtShopify => ["X-Shopify-Webhook-Id"; "X-Shopify-Topic"]
  | AtStripe => []
  end%string.

Definition complete (at_ : endpoint) (h : Header) : bool :=
  forallb (λ k, negb (bool_decide (header_get k h = ""%string))) (required at_).

Definition signature_header (at_ : endpoint) : string :=
  match at_ with
  | AtGithub => "X-Hub-Signature-256"
  | AtShopify => "X-Shopify-Hmac-Sha256"
  | AtStripe => "Stripe-Signature"
  end.

(** The status of a request whose signature check ended in an error. *)
Definition refusal (at_ : endpoint) (err : goerr) : Z :=
  if errors_Is err ErrDecryption then StatusInternalServerError
  else match at_ with
       | AtShopify => if errors_Is err ErrInvalidSignature then StatusBadRequest else StatusInternalServerError
       | _ => if errors_As_Pg err then StatusInternalServerError else StatusBadRequest
       end.

Section pipeline.
Context `{UuidLib, Postgres, StripeLib}.

(** The signature check, with the key of the duplicate check, the id and the
    type the event will have. *)
Definition vouch (at_ : endpoint) (h : Header) (payload : string) : M (result (string * string * string)) :=
  let signature := header_get (signature_header at_) h in
  match at_ with
  | AtGithub =>
    let? _ := Github.ValidateSecret signature payload in
    st_ret (Ok (header_get "X-Github-Delivery" h, header_get "X-Github-Hook-Id" h, header_get "X-Github-Event" h))
  | AtShopify =>
    let? _ := Shopify.ValidateSecret signature payload in
    let id := header_get "X-Shopify-Webhook-Id" h in
    st_ret (Ok (id, id, header_get "X-Shopify-Topic" h))
  | AtStripe =>
    let? event := Stripe.ValidateSecret signature payload in
    st_ret (Ok (ev_ID event, ev_ID event, ev_Type event))
  end.

(** Up to the duplicate check: an answer, or a request to store. *)
Definition arrive (at_ : endpoint) (r : HttpRequest) : M (option HttpResponse + Pending) :=
  match read_body (body_limit at_) r with
  | None => st_ret (inl (Some (WriteHeader StatusServiceUnavailable)))
  | Some payload =>
    if negb (complete at_ (r_header r)) then st_ret (inl (Some (WriteHeader StatusBadRequest)))
    else
      let* v := vouch at_ (r_header r) payload in
      match v with
      | Err err => st_ret (inl (Some (WriteHeader (refusal at_ err))))
      | Panic => st_ret (inl None)
      | Ok (key, id, event) =>
        let* found := exists_for (ep_name at_) key in
        st_ret match found with
               | Err _ => inl (Some (WriteHeader StatusInternalServerError))
               | Panic => inl None
               | Ok true => inl (Some (WriteHeader StatusOK))
               | Ok false => inr (mkPending (ep_name at_) (header_text (r_header r)) payload id event)
               end
      end
  end.

(** From the call of [InsertWebhook] on. *)
Definition accept (p : Pending) : M (option HttpResponse) :=
  store (insert_for (pd_name p) (pd_headers p) (pd_payload p) (pd_id p) (pd_event p)) (pd_id p).

(** The whole pipeline, without anything between its stages. *)
Definition pipeline (at_ : endpoint) (r : HttpRequest) : M (option HttpResponse) :=
  let* a := arrive at_ r in
  match a with inl resp => st_ret resp | inr p => accept p end.

(** ** Lemmas *)

(** The duplicate check and the rest of a handler, from the signature on. *)
Lemma check_exists_pipeline name key headers payload id event w :
  check_exists (exists_for name key) (store (insert_for name headers payload id event) id) w
  = (let r := exists_for name key w in
     match r.1 with
     | Err _ => (Some (WriteHeader StatusInternalServerError), r.2)
     | Panic => (None, r.2)
     | Ok true => (Some (WriteHeader StatusOK), r.2)
     | Ok false => accept (mkPending name headers payload id event) r.2
     end).
Proof. unfold check_exists. rewrite st_bind_run. by destruct (exists_for name key w) as [[[]| |] ?]. Qed.

Lemma complete_two k1 k2 h :
  forallb (λ k, negb (bool_decide (header_get k h = ""%string))) [k1; k2]
  = negb (bool_decide (header_get k1 h = ""%string)) && negb (bool_decide (header_get k2 h = ""%string)).
Proof. simpl. by rewrite andb_true_r. Qed.

Ltac run_pipeline m :=
  unfold st_bind_res; rewrite !st_bind_run; destruct m as [[?|?|] ?w1]; cbn [st_ret fst snd];
  [rewrite ?marshal_headers_ok, check_exists_pipeline, !st_bind_run; cbv zeta; cbn [ep_name];
   match goal with |- context [exists_for ?n ?k ?w] => by destruct (exists_for n k w) as [[[]|?|] ?] end
  |by repeat case_match|done].

Lemma receive_pipeline at_ r w : receive at_ r w = pipeline at_ r w.
Proof.
  unfold pipeline, arrive. rewrite st_bind_run. destruct at_; cbn [receive body_limit].
  - unfold github_Receive. destruct (read_body _ r) as [payload|]; [|done]. cbv zeta.
    unfold complete, required. rewrite complete_two.
    case_bool_decide; [done|]. case_bool_decide; [done|]. cbn [negb andb].
    unfold vouch, signature_header, refusal, Github.Exists, Github.InsertWebhook. cbv zeta.
    run_pipeline (Github.ValidateSecret (header_get "X-Hub-Signature-256" (r_header r)) payload w).
  - unfold shopify_Receive. destruct (read_body _ r) as [payload|]; [|done]. cbv zeta.
    unfold complete, required. rewrite complete_two.
    case_bool_decide; [done|]. rewrite marshal_headers_ok. case_bool_decide; [done|]. cbn [negb andb].
    unfold vouch, signature_header, refusal, Shopify.Exists, Shopify.InsertWebhook. cbv zeta.
    run_pipeline (Shopify.ValidateSecret (header_get "X-Shopify-Hmac-Sha256" (r_header r)) payload w).
  - unfold stripe_Receive. destruct (read_body _ r) as [payload|]; [|done]. cbv zeta. cbn [complete required forallb negb].
    unfold vouch, signature_header, refusal, Stripe.Exists, Stripe.InsertWebhook. cbv zeta.
    run_pipeline (Stripe.ValidateSecret (header_get "Stripe-Signature" (r_header r)) payload w).
Qed.

Lemma read_only_vouch at_ h payload : read_only (vouch at_ h payload).
Proof.
  unfold vouch, Github.ValidateSecret, Shopify.ValidateSecret, Stripe.ValidateSecret, time_Now.
  destruct at_; auto 9 with world.
Qed.

Lemma read_only_arrive at_ r : read_only (arrive at_ r).
Proof.
  unfold arrive. destruct (read_body _ r); [|auto with world]. apply read_only_if; [auto with world|].
  apply read_only_bind; [apply read_only_vouch|]. intros [[[key id] event]|err|]; auto with world.
Qed.

End pipeline.

#[export] Hint Resolve read_only_vouch read_only_arrive : world.
