(* ===== verification/App.v ===== *)
(** The HTTP surface [internal/app/app.go] assembles: every route, which of
    them stand behind the [Jwt] middleware, and the answer of each.  Logging,
    throttling and the timeouts of the router are not modelled; a timeout
    shows as a failing call of [World]. *)
From stdpp Require Import base tactics list gmap strings numbers.
From Stdlib Require Import ZArith Lia.
From S2P Require Import Prelude GoStd GoCrypto GoAes Model Codecs Helpers World Schema External EventsRepo Crypto Providers Ingest Auth.
From S2P Require Import Hub Search Dashboard Handlers Startup.

Open Scope Z_scope.

(** ** Routes, with what the handlers read of the request *)

Inductive public_route : Type :=
| PostLogin (contentType body : string)
| PostLogout (cs : Cookies)
| PostRefresh (cs : Cookies)
| GetMe (cs : Cookies)
| PostWebhook (at_ : endpoint) (r : HttpRequest)
| GetHealth (startTime : Time) (rt : Runtime) (db_first : bool).

Inductive protected_route : Type :=
| GetProviders
| PatchProvider (id contentType body : string)
| GetEvents (cursor : string)
| PostEvents (body : string)
| PostReplay (id : string)
| GetStats
| GetStream (wakes : list wakeup).

Inductive api_request : Type :=
| Public (p : public_route)
| Protected (cs : Cookies) (p : protected_route).

(** ** Answers *)

Inductive answer : Type :=
| AuthAnswer (r : option AuthResponse)
| HookAnswer (r : option HttpResponse)
| HealthAnswer (r : option Reply)
| ProvidersAnswer (r : option Reply)
| ProviderAnswer (r : option Reply)
| EventsAnswer (r : option Reply)
| SearchAnswer (r : option Reply)
| ReplayAnswer (r : option Reply)
| StatsAnswer (r : option Reply)
| Stream (frames : list Frame)
| Unauthorized (err : goerr)
| Crashed.

Definition st_fmap {A B} (f : A → B) (m : M A) : M B := let* a := m in st_ret (f a).

Section app.
Context `{Postgres, StripeLib, UuidLib, JwtLib, Unicode}.

Definition serve_public (p : public_route) : M answer :=
  match p with
  | PostLogin contentType body => st_fmap AuthAnswer (login contentType body)
  | PostLogout cs => st_fmap AuthAnswer (logout cs)
  | PostRefresh cs => st_fmap AuthAnswer (refreshToken cs)
  | GetMe cs => st_fmap AuthAnswer (me cs)
  | PostWebhook at_ r => st_fmap HookAnswer (receive at_ r)
  | GetHealth startTime rt db_first =>
    st_fmap HealthAnswer (getHealth startTime rt db_first)
  end.

Definition serve_protected (p : protected_route) : M answer :=
  match p with
  | GetProviders => st_fmap ProvidersAnswer ph_getAll
  | PatchProvider id contentType body => st_fmap ProviderAnswer (ph_configure id contentType body)
  | GetEvents cursor => st_fmap EventsAnswer (h_getAll cursor)
  | PostEvents body => st_fmap SearchAnswer (h_search body)
  | PostReplay id => st_fmap ReplayAnswer (h_replayEvent id)
  | GetStats => st_fmap StatsAnswer h_getStats
  | GetStream wakes => st_fmap Stream (SSE wakes)
  end.

Definition serve (r : api_request) : M answer :=
  match r with
  | Public p => serve_public p
  | Protected cs p => Jwt (serve_protected p) Unauthorized Crashed cs
  end.

(** The requests that are to read only. *)
Definition reads (r : api_request) : bool :=
  match r with
  | Public (GetMe _) | Public (GetHealth _ _ _) => true
  | Protected _ (GetProviders | GetEvents _ | PostEvents _ | GetStats) => true
  | _ => false
  end.

(** The cookie of a request lets it pass the middleware. *)
Definition authorized (cs : Cookies) (w : World) : Prop :=
  ∃ token claims, find_cookie accessCookieName cs = Some token ∧ (ValidateAccessToken token w).1 = Ok claims.

(** ** Lemmas *)

Lemma Jwt_cases {A} (next : M A) unauthorized crashed cs w :
  authorized cs w ∧ Jwt next unauthorized crashed cs w = next w
  ∨ ¬ authorized cs w ∧ ((∃ err, Jwt next unauthorized crashed cs w = (unauthorized err, w))
                         ∨ Jwt next unauthorized crashed cs w = (crashed, w)).
Proof.
  unfold Jwt, authorized. destruct (find_cookie _ cs) as [token|]; [|right; split; [naive_solver|left; by eexists]].
  rewrite st_bind_run. pose proof (parse_token_state token w) as Hw. unfold ValidateAccessToken.
  destruct (parse_token token w) as [[c|err|] w1] eqn:E; cbn [fst snd] in *; subst; [left|right..].
  - split; [|done]. exists token, c. by rewrite E.
  - split; [|left; by eexists]. intros (? & ? & [= <-] & E'). by rewrite E in E'.
  - split; [|by right]. intros (? & ? & [= <-] & E'). by rewrite E in E'.
Qed.

Lemma read_only_fmap {A B} (f : A → B) (m : M A) : read_only m → read_only (st_fmap f m).
Proof. intros Hm. apply read_only_bind; auto with world. Qed.

Lemma read_only_Jwt {A} (next : M A) unauthorized crashed cs :
  read_only next → read_only (Jwt next unauthorized crashed cs).
Proof.
  intros Hn w. destruct (Jwt_cases next unauthorized crashed cs w) as [[_ ->]|[_ [[err ->]| ->]]]; [apply Hn|done..].
Qed.

Lemma read_only_Search opts : read_only (Search opts).
Proof.
  assert (∀ o, read_only (lookup_events o)) as Hl.
  { intros o. apply read_only_db_stmt. intros. case_match; [done|apply select_page_db]. }
  assert (∀ o, read_only (filter_events o)) as Hf.
  { intros o. apply read_only_db_stmt. intros. case_match; [done|]. case_match; [apply select_page_db|done]. }
  unfold Search. auto 6 with world.
Qed.

Lemma read_only_h_getAll cursor : read_only (h_getAll cursor).
Proof.
  unfold h_getAll, svc_GetAll, getAll.
  assert (∀ c, read_only (db_stmt (get_all_stmt c))) by (intros; by apply read_only_db_stmt).
  case_bool_decide; [|case_match]; auto with world.
Qed.

Lemma read_only_Providers_GetAll : read_only Providers.GetAll.
Proof. unfold Providers.GetAll, repo_getAll. auto 6 with world. Qed.

Lemma read_only_GetHealthCheck startTime rt db_first : read_only (GetHealthCheck startTime rt db_first).
Proof.
  assert (read_only check_dependency) by (unfold check_dependency, time_Now; auto 9 with world).
  unfold GetHealthCheck, getUpTime, getTimeStamp, checkDB, checkRedis, time_Now. destruct db_first; auto 12 with world.
Qed.

#[local] Hint Resolve read_only_Search read_only_h_getAll read_only_Providers_GetAll read_only_GetHealthCheck : world.

Lemma read_only_me cs : read_only (me cs).
Proof.
  unfold me. destruct (find_cookie _ cs) as [token|]; [|auto with world].
  apply read_only_bind; [intros w; reflexivity|]. intros [?|?|]; auto with world.
Qed.

Lemma read_only_getHealth startTime rt db_first : read_only (getHealth startTime rt db_first).
Proof. unfold getHealth. auto with world. Qed.

Lemma read_only_ph_getAll : read_only ph_getAll.
Proof. unfold ph_getAll. auto with world. Qed.

Lemma read_only_h_search body : read_only (h_search body).
Proof. unfold h_search. destruct (Decode _ _ _) as [[opts rest]| |]; [destruct (Validate opts)|..]; auto with world. Qed.

Lemma read_only_h_getStats : read_only h_getStats.
Proof. unfold h_getStats, svc_GetStats, getStats. auto 6 with world. Qed.

End app.

#[export] Hint Resolve read_only_me read_only_getHealth read_only_ph_getAll read_only_h_search read_only_h_getStats
  read_only_h_getAll read_only_fmap read_only_Jwt : world.

Lemma read_only_reads `{Postgres, StripeLib, UuidLib, JwtLib, Unicode} r : reads r = true → read_only (serve r).
Proof.
  destruct r as [p|cs p]; [|intros E; apply (read_only_Jwt (serve_protected p)); revert E];
    destruct p; try done; intros _; simpl; auto with world.
Qed.
