(* ===== verification/Router.v ===== *)
(** The routes [internal/app/app.go] mounts: the [RegisterRoutes] methods of
    the handlers, the [/api] subrouter, the group behind the [Jwt] middleware
    and the stream, which is mounted beside the subrouter to escape its
    timeout.  Matching a path is chi's; the path is the one [CleanPath] and
    [StripSlashes] leave. *)
From stdpp Require Import base tactics list gmap strings numbers.
From Stdlib Require Import ZArith Ascii Lia.
From S2P Require Import Prelude GoStd GoCrypto GoAes Model Codecs Helpers World Schema External Ingest Auth Dashboard Handlers Startup App.

Open Scope Z_scope.

(** ** The routes *)

(** The handler methods. *)
Inductive handler : Type :=
| HLogin | HLogout | HRefreshToken | HMe
| HReceive (at_ : endpoint)
| HHealth
| HProviders | HConfigure
| HEvents | HSearch | HReplay | HStats | HSSE.

#[export] Instance endpoint_eq_dec : EqDecision endpoint.
Proof. solve_decision. Defined.
#[export] Instance handler_eq_dec : EqDecision handler.
Proof. solve_decision. Defined.

Record Route := mkRoute { rt_method : string; rt_pattern : string; rt_guarded : bool; rt_handler : handler }.

#[export] Instance Route_eq_dec : EqDecision Route.
Proof. solve_decision. Defined.

(** [r.Get], [r.Post] and [r.Patch], [r.Group] with [auth.Jwt], and the prefix
    of [router.Route]. *)
Definition Get (pattern : string) (h : handler) : Route := mkRoute "GET" pattern false h.
Definition Post (pattern : string) (h : handler) : Route := mkRoute "POST" pattern false h.
Definition Patch (pattern : string) (h : handler) : Route := mkRoute "PATCH" pattern false h.
Definition guard (r : Route) : Route := mkRoute (rt_method r) (rt_pattern r) true (rt_handler r).
Definition under (prefix : string) (r : Route) : Route :=
  mkRoute (rt_method r) (prefix +:+ rt_pattern r) (rt_guarded r) (rt_handler r).

Definition auth_RegisterRoutes : list Route :=
  [Post "/login" HLogin; Post "/logout" HLogout; Post "/refresh" HRefreshToken; Get "/me" HMe].
Definition stripe_RegisterRoutes : list Route := [Post "/webhooks/stripe" (HReceive AtStripe)].
Definition shopify_RegisterRoutes : list Route := [Post "/webhooks/shopify" (HReceive AtShopify)].
Definition git_RegisterRoutes : list Route := [Post "/webhooks/github" (HReceive AtGithub)].
Definition health_RegisterRoutes : list Route := [Get "/health" HHealth].
Definition provider_RegisterRoutes : list Route := [Get "/providers" HProviders; Patch "/providers/{id}" HConfigure].
Definition events_RegisterRoutes : list Route :=
  [Get "/events" HEvents; Post "/events" HSearch; Post "/events/{id}/replay" HReplay; Get "/events/stats" HStats].

Definition router : list Route :=
  (under "/api" <$>
     auth_RegisterRoutes ++ stripe_RegisterRoutes ++ shopify_RegisterRoutes ++ git_RegisterRoutes
     ++ health_RegisterRoutes ++ (guard <$> provider_RegisterRoutes ++ events_RegisterRoutes))
  ++ [guard (Get "/api/events/stream" HSSE)].

(** The handler of a request of [App]. *)
Definition handler_of (r : api_request) : handler :=
  match r with
  | Public (PostLogin _ _) => HLogin
  | Public (PostLogout _) => HLogout
  | Public (PostRefresh _) => HRefreshToken
  | Public (GetMe _) => HMe
  | Public (PostWebhook at_ _) => HReceive at_
  | Public (GetHealth _ _ _) => HHealth
  | Protected _ GetProviders => HProviders
  | Protected _ (PatchProvider _ _ _) => HConfigure
  | Protected _ (GetEvents _) => HEvents
  | Protected _ (PostEvents _) => HSearch
  | Protected _ (PostReplay _) => HReplay
  | Protected _ GetStats => HStats
  | Protected _ (GetStream _) => HSSE
  end.

Definition is_protected (r : api_request) : bool := match r with Public _ => false | Protected _ _ => true end.

(** ** github.com/go-chi/chi: whether a pattern matches a path

    A pattern without a parameter matches itself only; a parameter matches a
    non-empty string without a slash. *)
Class ChiLib := { chi_match : string → string → bool }.

Fixpoint has_byte (b : Z) (s : string) : bool :=
  match s with EmptyString => false | String c s => (code c =? b) || has_byte b s end.
Definition static (s : string) : bool := negb (has_byte 123 s).
Definition segment (v : string) : bool := negb (bool_decide (v = EmptyString)) && negb (has_byte 47 v).

Class ChiOk `{ChiLib} : Prop := {
  chi_static : ∀ pattern path, static pattern = true → chi_match pattern path = true → path = pattern;
  chi_static_matches : ∀ pattern, static pattern = true → chi_match pattern pattern = true;
  chi_param : ∀ pre post path, static pre = true → static post = true →
    chi_match (pre +:+ "{id}" +:+ post) path = true → ∃ v, segment v = true ∧ path = pre +:+ v +:+ post;
  chi_param_matches : ∀ pre post v, static pre = true → static post = true → segment v = true →
    chi_match (pre +:+ "{id}" +:+ post) (pre +:+ v +:+ post) = true;
}.

Definition matches `{ChiLib} (method path : string) (r : Route) : bool :=
  bool_decide (rt_method r = method) && chi_match (rt_pattern r) path.

(** The paths each route stands for, with the parameter [v]. *)
Definition example_path (v : string) (r : Route) : string :=
  if bool_decide (rt_pattern r = "/api/providers/{id}"%string) then "/api/providers/" +:+ v +:+ ""
  else if bool_decide (rt_pattern r = "/api/events/{id}/replay"%string) then "/api/events/" +:+ v +:+ "/replay"
  else rt_pattern r.

(** ** Lemmas *)

Section chi.
Context `{ChiOk}.

Lemma router_patterns r :
  r ∈ router →
  static (rt_pattern r) = true ∧ (∀ v, example_path v r = rt_pattern r)
  ∨ rt_pattern r = "/api/providers/{id}"%string ∨ rt_pattern r = "/api/events/{id}/replay"%string.
Proof.
  intros Hr%list_elem_of_In. revert r Hr. apply (proj1 (List.Forall_forall _ router)).
  repeat constructor; first [left; by split|right; by auto].
Qed.

(** What a match says of the path. *)
Lemma matches_path method path r :
  r ∈ router → matches method path r = true → rt_method r = method ∧ ∃ v, path = example_path v r.
Proof.
  unfold matches. intros Hr [Hm%bool_decide_eq_true Hc]%andb_true_iff. split; [done|].
  destruct (router_patterns r Hr) as [[Hs He]|[E|E]].
  - exists EmptyString. rewrite He. by apply chi_static.
  - rewrite E in Hc. destruct (chi_param "/api/providers/" "" path eq_refl eq_refl Hc) as (v & _ & ->).
    exists v. unfold example_path. by rewrite E.
  - rewrite E in Hc. destruct (chi_param "/api/events/" "/replay" path eq_refl eq_refl Hc) as (v & _ & ->).
    exists v. unfold example_path. by rewrite E.
Qed.

Lemma example_path_inj v1 v2 r1 r2 :
  r1 ∈ router → r2 ∈ router → rt_method r1 = rt_method r2 → example_path v1 r1 = example_path v2 r2 → r1 = r2.
Proof.
  intros Hr1 Hr2 Hm Hp. unfold router in Hr1, Hr2. simpl in Hr1, Hr2.
  repeat (apply elem_of_cons in Hr1 as [->|Hr1]; [|try by apply not_elem_of_nil in Hr1]);
    repeat (apply elem_of_cons in Hr2 as [->|Hr2]; [|try by apply not_elem_of_nil in Hr2]);
    first [reflexivity|discriminate Hm|vm_compute in Hp; discriminate Hp].
Qed.

(** At most one route of the table matches a request. *)
Lemma router_unambiguous method path r1 r2 :
  r1 ∈ router → r2 ∈ router → matches method path r1 = true → matches method path r2 = true → r1 = r2.
Proof.
  intros Hr1 Hr2 Hm1 Hm2. apply matches_path in Hm1 as [Em1 [v1 E1]]; [|done].
  apply matches_path in Hm2 as [Em2 [v2 E2]]; [|done]. apply (example_path_inj v1 v2); congruence.
Qed.

(** Every handler is mounted once, behind the middleware exactly if it is one
    of the protected ones. *)
Lemma router_handlers q :
  ∃ r, filter (λ r, rt_handler r = handler_of q) router = [r] ∧ rt_guarded r = is_protected q.
Proof. destruct q as [[]|? []]; try destruct at_; eexists; split; reflexivity. Qed.

(** Every route is reached by its path, whatever the parameter. *)
Lemma router_reachable v r :
  segment v = true → r ∈ router → matches (rt_method r) (example_path v r) r = true.
Proof.
  intros Hv Hr. unfold matches. rewrite bool_decide_eq_true_2 by done. cbn [andb].
  destruct (router_patterns r Hr) as [[Hs He]|[E|E]].
  - rewrite He. by apply chi_static_matches.
  - unfold example_path. rewrite E. by apply (chi_param_matches "/api/providers/" "").
  - unfold example_path. rewrite E. by apply (chi_param_matches "/api/events/" "/replay").
Qed.

End chi.

(** ** An executable matcher of patterns with at most one parameter *)
Module Chi.

(** What stands before the first brace, and what follows [{id}]. *)
Fixpoint cut_param (s : string) : option (string * string) :=
  match s with
  | EmptyString => None
  | String c s' =>
    if code c =? 123 then (post ← slice_from s 4; Some (EmptyString, post))
    else '(pre, post) ← cut_param s'; Some (String c pre, post)
  end.

Definition one_param : ChiLib := {|
  chi_match pattern path :=
    match cut_param pattern with
    | None => bool_decide (path = pattern)
    | Some (pre, post) =>
      match slice_from path (String.length pre) with
      | Some rest =>
        match slice_to rest (String.length rest - String.length post) with
        | Some v => bool_decide (path = pre +:+ v +:+ post) && segment v
        | None => false
        end
      | None => false
      end
    end;
|}.

Lemma cut_static s : static s = true → cut_param s = None.
Proof.
  unfold static. induction s as [|c s IH]; [done|]. simpl. destruct (code c =? 123); [done|]. simpl.
  intros Hs. by rewrite IH.
Qed.

Lemma cut_param_app pre post : static pre = true → cut_param (pre +:+ "{id}" +:+ post) = Some (pre, post).
Proof.
  unfold static. induction pre as [|c pre IH]; intros Hs.
  - change (""  +:+ "{id}" +:+ post) with ("{id}" +:+ post).
    change (cut_param ("{id}" +:+ post))
      with (post ← slice_from ("{id}" +:+ post) (String.length "{id}"); Some (EmptyString, post)).
    by rewrite slice_from_app.
  - change (String c pre +:+ "{id}" +:+ post) with (String c (pre +:+ "{id}" +:+ post)). simpl in *.
    destruct (code c =? 123); [done|]. by rewrite IH.
Qed.

Lemma one_param_ok : @ChiOk one_param.
Proof.
  split; unfold chi_match, one_param.
  - intros pattern path Hs. rewrite cut_static by done. by intros ?%bool_decide_eq_true.
  - intros pattern Hs. rewrite cut_static by done. by apply bool_decide_eq_true.
  - intros pre post path Hpre _. rewrite cut_param_app by done. repeat case_match; try done.
    intros [Hp%bool_decide_eq_true Hv]%andb_true_iff. eauto.
  - intros pre post v Hpre _ Hv. rewrite cut_param_app, slice_from_app by done.
    replace (String.length (v +:+ post) - String.length post)%nat with (String.length v) by (rewrite length_append; lia).
    rewrite slice_to_app, Hv. by rewrite bool_decide_eq_true_2.
Qed.

End Chi.
