(* ===== verification/Keeps.v ===== *)
(** What the operations of the program do to a property of the tables and of
    the cached values: an operation keeps it if the SQL statements and the
    cache writes it is made of do.  [common_keep] collects what the statements
    of every route, of the start and of the claims have to keep. *)
From stdpp Require Import base tactics list gmap strings numbers.
From Stdlib Require Import ZArith Lia.
From S2P Require Import Prelude GoStd GoCrypto GoAes Model Codecs Helpers World Schema External EventsRepo Crypto Providers Ingest Auth.
From S2P Require Import Github Shopify Stripe Hub Search Dashboard Limiter WorkerRepo Worker WorkerLoop Startup.
From S2P Require Import Handlers Pipeline App.

Open Scope Z_scope.

#[local] Hint Resolve keeps_read_only keeps_bind keeps_bind_res keeps_db_stmt keeps_redis_cmd keeps_modify : world.

Section keeps.
Context `{Postgres, StripeLib, HttpLib, UuidLib, JwtLib, Unicode, InfraLib, LogLib}.

(** A secret as [Configure] stores it. *)
Definition sealed (sec : string) : Prop := ∃ plain w w', EncryptSigningKey plain w = (Ok sec, w').

Record common_keep (I : DB → KV → Prop) : Prop := {
  ck_insert : ∀ p e now db c, is_Some (cp_EventID p) → I db c → I (insert_stmt p e now db).2 c;
  ck_claim : ∀ k limit e now db c, I db c → I (claim_stmt k limit e now db).2 c;
  ck_configure : ∀ id sec des r q e now db c,
    sealed sec → 0 <= r <= maxRetryCount → 0 <= q <= maxReqSecond → I db c →
    I (configure_stmt id sec des r q e now db).2 c;
  ck_cache : ∀ i p b db c, providers db !! i = Some p → Marshal p = Ok b → I db c →
    I db (<[RedisProviderPrefix +:+ p_Name p := b]> c);
  ck_refresh : ∀ what pairs db c, kvPairs what (rows (providers db)) = Ok pairs → I db c → I db (mset pairs c);
  ck_tokens : ∀ f db c, I db c → I (set_tokens f db) c;
}.

(** A property of the events and the foreign keys does not depend on the
    cache. *)
Lemma common_keep_db (J : DB → Prop) :
  (∀ p e now db, is_Some (cp_EventID p) → J db → J (insert_stmt p e now db).2) →
  (∀ k limit e now db, J db → J (claim_stmt k limit e now db).2) →
  (∀ id sec des r q e now db, J db → J (configure_stmt id sec des r q e now db).2) →
  (∀ f db, J db → J (set_tokens f db)) →
  common_keep (λ db _, J db).
Proof. intros. split; eauto. Qed.

Lemma configure_stmt_providers id sec des r q e now db p db' :
  configure_stmt id sec des r q e now db = (Ok p, db') → providers db' !! id = Some p.
Proof.
  unfold configure_stmt. destruct (negb _); [done|]. destruct (providers db !! id); [|done].
  intros [= <- <-]. simpl. apply lookup_insert_eq.
Qed.

Context (I : DB → KV → Prop).

Lemma keeps_ret {A} (a : A) : keeps I (st_ret a).
Proof. by intros w. Qed.
Lemma keeps_gets {A} (f : World → A) : keeps I (st_gets f).
Proof. by intros w. Qed.
Lemma keeps_ext : keeps I ext.
Proof. apply keeps_read_only, read_only_ext. Qed.
Lemma keeps_fmap {A B} (f : A → B) (m : M A) : keeps I m → keeps I (st_fmap f m).
Proof. intros Hm. apply keeps_bind; [done|]. intros a. apply keeps_ret. Qed.
#[local] Hint Resolve keeps_ret keeps_gets keeps_ext keeps_fmap : world.

(** ** Workers *)

Lemma keeps_frame {A} (m : M A) : (∀ w, attempt_frame w (m w).2) → keeps I m.
Proof. intros Hm. apply keeps_same. intros w. by destruct (Hm w). Qed.

Lemma keeps_GetEvents k : common_keep I → keeps I (WorkerRepo.GetEvents k).
Proof.
  intros HI w Hw. unfold WorkerRepo.GetEvents. rewrite st_bind_run. case_match; [simpl; by rewrite ext_db, ext_redis|].
  rewrite !st_bind_run. case_match; [simpl; by rewrite !ext_db, !ext_redis|]. rewrite st_bind_run. cbn [st_gets fst snd].
  destruct (claim_stmt _ _ _ _ _) as [[hooks|err|] db'] eqn:E; [|simpl; by rewrite !ext_db, !ext_redis..].
  rewrite st_bind_run. case_match; [simpl; by rewrite !ext_db, !ext_redis|]. simpl.
  apply (f_equal snd) in E. simpl in E. rewrite <-E. apply (ck_claim I HI). by rewrite !ext_db, !ext_redis.
Qed.

Lemma keeps_UpdateEvents k us :
  (∀ e now db c, I db c → I (batch_stmt k us e now db).2 c) → keeps I (UpdateEvents k us).
Proof. intros Hk. unfold UpdateEvents. case_match; auto with world. Qed.

Lemma keeps_iter {A} (f : A → M unit) l : (∀ a, keeps I (f a)) → keeps I (st_iter f l).
Proof. intros Hf. induction l as [|a l IH]; simpl; auto with world. Qed.

Lemma keeps_runCleanup :
  (∀ e now db c, I db c → I (purge_stmt e now db).2 c) → (∀ n e now db c, I db c → I (evict_stmt n e now db).2 c) →
  keeps I runCleanup.
Proof.
  intros Hp He. unfold runCleanup. apply keeps_bind; [auto with world|]. intros [[]|err|]; auto with world.
  apply keeps_bind; [auto with world|]. intros [c|err|]; auto with world. case_match; auto with world.
Qed.

(** ** Receiving *)

Lemma keeps_insert_for name headers payload id event :
  common_keep I → keeps I (insert_for name headers payload id event).
Proof.
  intros HI. pose proof (ck_insert I HI) as Hi. unfold insert_for, EventsRepo.InsertWebhook, time_Now.
  apply keeps_bind_res; [auto with world|]. intros prov. apply keeps_bind; [auto with world|]. intros now.
  apply keeps_bind_res; [|auto with world]. apply keeps_bind; [apply keeps_db_stmt; auto|auto with world].
Qed.

Lemma keeps_accept p : common_keep I → keeps I (accept p).
Proof.
  intros HI. unfold accept, store. apply keeps_bind; [by apply keeps_insert_for|].
  intros [hook|e|]; [|case_match|]; auto with world.
  apply keeps_bind; [by apply keeps_modify|]. intros _. apply keeps_bind; [by apply keeps_modify|]. auto with world.
Qed.

Lemma keeps_receive at_ r : common_keep I → keeps I (receive at_ r).
Proof.
  intros HI w Hw. rewrite receive_pipeline. revert w Hw. apply keeps_bind; [auto with world|].
  intros [resp|p]; [auto with world|by apply keeps_accept].
Qed.

(** ** Configuration and start *)

Lemma keeps_Configure id sec des r q : common_keep I → keeps I (Configure id sec des r q).
Proof.
  intros HI w Hw. unfold Configure. destruct (uuid_Parse id) as [u|]; [|done]. cbv zeta.
  destruct (len _ =? 0); [done|]. destruct (len des =? 0); [done|].
  destruct ((r <? 0) || _) eqn:Er; [done|]. destruct ((q <? 0) || _) eqn:Eq; [done|]. bsplit.
  unfold st_bind_res. rewrite st_bind_run.
  pose proof (EncryptSigningKey_world (TrimSpace sec) w) as Hworld.
  assert (w_db (EncryptSigningKey (TrimSpace sec) w).2 = w_db w ∧ w_redis (EncryptSigningKey (TrimSpace sec) w).2 = w_redis w)
    as [Hdb Hrd] by (by destruct Hworld as [-> | ->]; autorewrite with world).
  destruct (EncryptSigningKey (TrimSpace sec) w) as [[enc|err|] w1] eqn:Ee; cbn [fst snd] in *;
    [|simpl; by rewrite Hdb, Hrd..].
  rewrite st_bind_run. unfold repo_configure. step_db; [simpl; by rewrite ext_db, ext_redis, Hdb, Hrd|].
  destruct (configure_stmt u enc des r q e now (w_db w1)) as [[p|err|] db'] eqn:Ec; cbn [fst snd].
  2, 3: simpl; rewrite ext_redis, Hrd; apply (f_equal snd) in Ec; simpl in Ec; rewrite <-Ec, Hdb;
    apply (ck_configure I HI); [by do 3 eexists|done..].
  assert (I db' (kv (w_redis w))) as Hdb'.
  { apply (f_equal snd) in Ec as Ec'. simpl in Ec'. rewrite <-Ec', Hdb. apply (ck_configure I HI); [by do 3 eexists|done..]. }
  apply configure_stmt_providers in Ec. rewrite st_bind_run. unfold Cache_Set, serialize, cache_Set.
  destruct (Marshal p) as [b|err|] eqn:Em; [|cbn [st_ret fst snd]; simpl; by rewrite ext_redis, Hrd..].
  step_redis; cbn [fst snd]; simpl; rewrite !ext_db; simpl; rewrite !ext_redis; simpl; rewrite ?ext_redis, Hrd; [done|].
  by eapply (ck_cache I HI).
Qed.

Lemma keeps_fill_cache what : common_keep I → keeps I (fill_cache what).
Proof.
  intros HI w Hw. unfold fill_cache, repo_getAll, st_bind_res. rewrite st_bind_run.
  step_db; [simpl; by rewrite ext_db, ext_redis|]. cbn [get_providers_stmt fst snd].
  destruct (kvPairs _ _) as [pairs|err|] eqn:Hp; [|simpl; by rewrite ext_redis..].
  case_match; [simpl; by rewrite ext_redis|]. unfold cache_Mset. case_match; [simpl; by rewrite ext_redis|].
  step_redis; simpl; rewrite !ext_db; simpl; rewrite !ext_redis; simpl; rewrite ?ext_redis; [done|]. by eapply (ck_refresh I HI).
Qed.

Lemma keeps_InitProviderCache o : common_keep I → keeps I (InitProviderCache o).
Proof.
  intros HI. unfold InitProviderCache. case_match; [auto with world|].
  apply keeps_bind; [by apply keeps_fill_cache|auto with world].
Qed.

Lemma keeps_InitRateLimiter o rdb : keeps I (InitRateLimiter o rdb).
Proof.
  unfold InitRateLimiter. case_match; [auto with world|]. apply keeps_bind; [by apply keeps_modify|auto with world].
Qed.

Lemma keeps_Init env : keeps I (Init env).
Proof. unfold Init. case_match; auto with world. Qed.

Lemma keeps_start env rt numCPU : common_keep I → keeps I (start env rt numCPU).
Proof.
  intros HI. unfold start, SetWorkerBatchSizes.
  apply keeps_bind_res; [apply keeps_Init|]. intros _. apply keeps_bind; [by apply keeps_modify|]. intros _.
  apply keeps_bind; [auto with world|]. intros [[[pg|] [e|]] ?]; [auto with world| |auto with world..].
  apply keeps_bind; [auto with world|]. intros []; [auto with world|].
  apply keeps_bind; [auto with world|]. intros [[? []] ?]; [auto with world|].
  apply keeps_bind; [auto with world|]. intros [[] cache]; [auto with world|].
  apply keeps_bind; [by apply keeps_InitProviderCache|]. intros [[] ?]; cbn [fst]; [|auto with world..].
  apply keeps_bind; [apply keeps_InitRateLimiter|auto with world].
Qed.

(** ** The routes *)

Lemma keeps_token_Create token exp iat : common_keep I → keeps I (token_Create token exp iat).
Proof.
  intros HI. apply keeps_db_stmt. intros e now db c Hc. unfold create_token_stmt.
  repeat case_match; try done. by apply (ck_tokens I HI).
Qed.
Lemma keeps_token_Delete token : common_keep I → keeps I (token_Delete token).
Proof. intros HI. apply keeps_db_stmt. intros. by apply (ck_tokens I HI). Qed.
Lemma keeps_token_Exists token : keeps I (token_Exists token).
Proof. apply keeps_read_only. by apply read_only_db_stmt. Qed.
#[local] Hint Resolve keeps_token_Create keeps_token_Delete keeps_token_Exists : world.

Lemma keeps_parse_token t : keeps I (parse_token t).
Proof. apply keeps_same. done. Qed.
#[local] Hint Resolve keeps_parse_token : world.

Lemma keeps_issue_tokens email : common_keep I → keeps I (issue_tokens email).
Proof. intros HI. unfold issue_tokens, time_Now. auto 9 with world. Qed.
#[local] Hint Resolve keeps_issue_tokens : world.

Lemma keeps_login ct body : common_keep I → keeps I (login ct body).
Proof.
  intros HI. unfold login, Login. destruct (DecodeBodyJSON _ _) as [[email pw]| |]; [|auto with world..].
  apply keeps_bind; [apply keeps_bind; [auto with world|]; intros cfg; case_match; auto with world|].
  intros [[]|e|]; [|case_match|]; auto with world.
Qed.

Lemma keeps_logout cs : common_keep I → keeps I (logout cs).
Proof.
  intros HI. unfold logout, DeleteRefreshToken. case_match; [|auto with world].
  apply keeps_bind; [auto with world|]. intros [?|e|]; auto with world.
Qed.

Lemma keeps_refreshToken cs : common_keep I → keeps I (refreshToken cs).
Proof.
  intros HI. unfold refreshToken. case_match; [|auto with world]. apply keeps_bind.
  - unfold RefreshToken, validateRefreshToken. apply keeps_bind.
    + apply keeps_bind_res; [auto with world|]. intros b. case_match; auto with world.
    + intros [claims|e|]; [|case_match|]; auto with world. case_match; auto with world.
  - intros [[]|e|]; [|case_match|]; auto with world.
Qed.

Lemma keeps_write_frame f : keeps I (write_frame f).
Proof. unfold write_frame. apply keeps_bind; [auto with world|]. intros e. case_match; auto with world. Qed.
#[local] Hint Resolve keeps_write_frame : world.

Lemma keeps_sse_wake ch wake : keeps I (sse_wake ch wake).
Proof.
  destruct wake as [| |a]; simpl; [unfold sendHeartbeat; auto with world| |].
  - apply keeps_bind; [by apply keeps_same|]. intros [batch|]; [|auto with world]. unfold streamBatch.
    destruct (Marshal batch); [|auto with world..].
    apply keeps_bind; [auto with world|]. intros [fs|e|]; [|auto with world..].
    apply keeps_bind; [by apply keeps_same|]. intros n. case_match; auto with world.
  - apply keeps_bind; [by apply keeps_modify|]. auto with world.
Qed.

Lemma keeps_sse_loop ch wakes : keeps I (sse_loop ch wakes).
Proof.
  induction wakes as [|wake wakes IH]; [apply keeps_ret|]. simpl. apply keeps_bind; [apply keeps_sse_wake|].
  intros [fs [e|]]; auto with world.
Qed.

Lemma keeps_SSE wakes : keeps I (SSE wakes).
Proof.
  unfold SSE, announceConnected. apply keeps_bind; [by apply keeps_same|]. intros ch.
  apply keeps_bind; [auto 9 with world|]. intros hello. apply keeps_bind; [apply keeps_sse_loop|]. intros fs.
  apply keeps_bind; [by apply keeps_modify|]. auto with world.
Qed.

Lemma keeps_ph_configure id ct body : common_keep I → keeps I (ph_configure id ct body).
Proof.
  intros HI. unfold ph_configure. destruct (DecodeBodyJSON _ _) as [b| |]; [|auto with world..]. apply keeps_bind; [by apply keeps_Configure|]. auto with world.
Qed.

Lemma keeps_h_replayEvent id :
  (∀ u e now db c, uuid_Parse id = Some u → I db c → I (replay_stmt u e now db).2 c) → keeps I (h_replayEvent id).
Proof.
  intros Hr. unfold h_replayEvent, svc_ReplayEvent, replayEvent. apply keeps_bind; [|auto with world].
  destruct (uuid_Parse id) as [u|] eqn:E; [|auto with world].
  apply keeps_bind_res; [|auto with world]. apply keeps_db_stmt. eauto.
Qed.

Lemma keeps_Jwt {A} (next : M A) unauthorized crashed cs : keeps I next → keeps I (Jwt next unauthorized crashed cs).
Proof.
  intros Hn w Hw. destruct (Jwt_cases next unauthorized crashed cs w) as [[_ ->]|[_ [[err ->]| ->]]]; [by apply Hn|done..].
Qed.

Lemma keeps_serve r :
  common_keep I →
  (∀ cs id u e now db c, r = Protected cs (PostReplay id) → uuid_Parse id = Some u → I db c → I (replay_stmt u e now db).2 c) →
  keeps I (serve r).
Proof.
  intros HI Hr. destruct r as [p|cs p]; simpl.
  - destruct p; simpl; apply keeps_fmap;
      auto using keeps_login, keeps_logout, keeps_refreshToken, keeps_receive with world.
  - apply keeps_Jwt. destruct p; simpl; apply keeps_fmap;
      auto using keeps_ph_configure, keeps_SSE with world.
    apply keeps_h_replayEvent. intros. by eapply Hr.
Qed.

End keeps.
