(* ===== verification/HubTrace.v ===== *)
(** The hub of the running process is always the result of a history of its
    actions: no operation of the program touches it otherwise. *)
From stdpp Require Import base tactics list gmap strings numbers.
From Stdlib Require Import ZArith Lia.
From S2P Require Import Prelude GoStd GoCrypto GoAes Model Codecs Helpers World Schema External EventsRepo Crypto Providers Ingest Auth.
From S2P Require Import Github Shopify Stripe Hub Search Dashboard Stream SseTrace Limiter WorkerRepo Worker WorkerLoop Startup.
From S2P Require Import Handlers Pipeline App.

Open Scope Z_scope.

(** The hub has a history. *)
Definition has_history (h : Hub) : Prop := ∃ l, h = h_hub (runs l).

Lemma history_new : has_history NewEventService.
Proof. by exists []. Qed.

Lemma history_act a h : has_history h → has_history (hub_act a h).
Proof. intros [l ->]. exists (l ++ [a]). by rewrite runs_snoc, h_hub_act. Qed.

(** A computation after which the hub still has one. *)
Definition records {A} (m : M A) : Prop := ∀ w, has_history (w_hub w) → has_history (w_hub (m w).2).

(** ** Combinators *)

Lemma records_same {A} (m : M A) : (∀ w, w_hub (m w).2 = w_hub w) → records m.
Proof. intros Hm w. by rewrite Hm. Qed.
Lemma records_read_only {A} (m : M A) : read_only m → records m.
Proof. intros Hm. apply records_same. intros w. apply same_hub, Hm. Qed.
Lemma records_ret {A} (a : A) : records (st_ret a).
Proof. by apply records_same. Qed.
Lemma records_gets {A} (f : World → A) : records (st_gets f).
Proof. by apply records_same. Qed.
Lemma records_ext : records ext.
Proof. apply records_same, ext_hub. Qed.
Lemma records_modify f : (∀ w, w_hub (f w) = w_hub w) → records (st_modify f).
Proof. intros Hf. by apply records_same. Qed.
Lemma records_act a : records (st_modify (set_hub (hub_act a))).
Proof. intros w. apply history_act. Qed.
Lemma records_bind {A B} (m : M A) (k : A → M B) : records m → (∀ a, records (k a)) → records (st_bind m k).
Proof. intros Hm Hk w Hw. rewrite st_bind_run. by apply Hk, Hm. Qed.
Lemma records_bind_res {A B} (m : M (result A)) (k : A → M (result B)) :
  records m → (∀ a, records (k a)) → records (st_bind_res m k).
Proof. intros Hm Hk. apply records_bind; [done|]. intros [a|e|]; auto using records_ret. Qed.
Lemma records_db_stmt {A} (f : EnvStep → Time → DB → result A * DB) : records (db_stmt f).
Proof. apply records_same. intros w. by destruct (db_stmt_cases f w) as [(? & ->)|(? & ? & _ & ->)]; simpl; rewrite ext_hub. Qed.
Lemma records_redis_cmd {A} (f : Time → Redis → result A * Redis) : records (redis_cmd f).
Proof. apply records_same. intros w. by destruct (redis_cmd_cases f w) as [(? & ->)|(? & _ & ->)]; simpl; rewrite ext_hub. Qed.
Lemma records_frame {A} (m : M A) : (∀ w, attempt_frame w (m w).2) → records m.
Proof. intros Hm. apply records_same. intros w. apply af_hub, Hm. Qed.

Create HintDb records.
#[local] Hint Resolve records_ret records_gets records_ext records_act records_db_stmt records_redis_cmd : records.
#[local] Hint Extern 1 (records (st_modify _)) => by apply records_modify : records.
#[local] Hint Extern 1 (records time_Now) => apply records_gets : records.

(** Follows a computation through its binds and matches. *)
Ltac follow :=
  repeat first
    [ match goal with |- ∀ _, _ => intro end
    | solve [auto with records]
    | progress cbv zeta
    | match goal with
      | |- records (st_bind_res _ _) => apply records_bind_res
      | |- records (st_bind _ _) => apply records_bind
      end
    | match goal with |- records (match ?x with _ => _ end) => destruct x end
    | match goal with |- records (let '_ := ?x in _) => destruct x end ].

Section records.
Context `{Postgres, StripeLib, HttpLib, UuidLib, JwtLib, Unicode, InfraLib, LogLib}.

(** ** Workers *)

Lemma records_Send ev : records (Send ev).
Proof. exact (records_act (ASend ev)). Qed.
#[local] Hint Resolve records_Send : records.

Lemma records_iter_send hooks : records (st_iter send hooks).
Proof. induction hooks; simpl; unfold send; follow. Qed.

Lemma records_GetEvents k : records (WorkerRepo.GetEvents k).
Proof. unfold WorkerRepo.GetEvents. follow. Qed.

Lemma records_UpdateEvents k us : records (UpdateEvents k us).
Proof. unfold UpdateEvents. follow. Qed.

Lemma records_runCleanup : records runCleanup.
Proof. unfold runCleanup. follow. Qed.

Lemma records_forward_one hook : records (forward_one hook).
Proof. apply records_frame, forward_one_frame. Qed.

(** ** Endpoints *)

Lemma records_arrive at_ r : records (arrive at_ r).
Proof. apply records_read_only, read_only_arrive. Qed.

Lemma records_accept p : records (accept p).
Proof.
  unfold accept, store, insert_for, EventsRepo.InsertWebhook, Notify.
  apply records_bind; [|follow]. apply records_bind_res; [|follow]. apply records_read_only, Cache_Get_read_only.
Qed.

Lemma records_receive at_ r : records (receive at_ r).
Proof.
  intros w Hw. rewrite receive_pipeline. revert w Hw. apply records_bind; [apply records_arrive|].
  intros [resp|p]; [follow|apply records_accept].
Qed.
#[local] Hint Resolve records_receive : records.

(** ** Start *)

Lemma records_fill_cache what : records (fill_cache what).
Proof.
  unfold fill_cache, repo_getAll. apply records_bind_res; [follow|]. intros provs.
  destruct (kvPairs what provs); [unfold cache_Mset; follow|follow..].
Qed.
#[local] Hint Resolve records_fill_cache : records.

Lemma records_start env rt numCPU : records (Startup.start env rt numCPU).
Proof.
  unfold Startup.start, Init, SetWorkerBatchSizes, NewPG, NewLogger, InitRedisCache, once_Do, init_pool, init_logger,
    NewCache, ping, InitProviderCache, InitRateLimiter. follow.
Qed.

(** ** Routes *)

Lemma records_Configure id sec des r q : records (Configure id sec des r q).
Proof.
  unfold Configure. cbv zeta. destruct (uuid_Parse id); [|follow]. repeat case_match; [follow..|].
  apply records_bind_res; [unfold EncryptSigningKey; follow|]. intros enc.
  apply records_bind_res; [unfold repo_configure; follow|]. intros p.
  apply records_bind_res; [|follow]. unfold Cache_Set, cache_Set. destruct (serialize p); follow.
Qed.

Lemma records_login ct body : records (login ct body).
Proof. unfold login, Login, issue_tokens, token_Create. follow. Qed.
Lemma records_logout cs : records (logout cs).
Proof. unfold logout, DeleteRefreshToken, token_Delete. follow. Qed.
Lemma records_refreshToken cs : records (refreshToken cs).
Proof.
  unfold refreshToken, RefreshToken, validateRefreshToken, parse_token, issue_tokens, token_Create, token_Delete,
    token_Exists. follow.
Qed.

Lemma records_SSE wakes : records (SSE wakes).
Proof.
  intros w [l Hl]. destruct (SSE_streams wakes l w (SSE wakes w).1 (SSE wakes w).2 Hl) as (l' & Hl' & _);
    [apply surjective_pairing|by exists (l ++ l')].
Qed.

Lemma records_ph_configure id ct body : records (ph_configure id ct body).
Proof. pose proof (records_Configure) as Hc. unfold ph_configure. follow. Qed.

Lemma records_h_replayEvent id : records (h_replayEvent id).
Proof. unfold h_replayEvent, svc_ReplayEvent, replayEvent. follow. Qed.

Lemma records_fmap {A B} (f : A → B) (m : M A) : records m → records (st_fmap f m).
Proof. intros Hm. apply records_bind; [done|]. intros a. apply records_ret. Qed.

Lemma records_Jwt {A} (next : M A) unauthorized crashed cs : records next → records (Jwt next unauthorized crashed cs).
Proof.
  intros Hn w Hw. destruct (Jwt_cases next unauthorized crashed cs w) as [[_ ->]|[_ [[err ->]| ->]]]; [by apply Hn|done..].
Qed.

Lemma records_serve r : records (serve r).
Proof.
  destruct (reads r) eqn:Er.
  - apply records_read_only. by apply read_only_reads.
  - destruct r as [p|cs p]; [|apply records_Jwt]; destruct p; try done; apply records_fmap;
      auto using records_login, records_logout, records_refreshToken, records_receive, records_ph_configure,
        records_h_replayEvent, records_SSE.
Qed.

End records.
