(* ===== verification/System.v ===== *)
(** The whole system as a labelled step relation: requests to every route,
    webhook requests split at their duplicate check, the rounds of the workers
    of the pool split at the points where other parts can run, cleanups,
    crashes and starts of the process, and the outside world.  Properties of
    the tables are proved by induction on the steps from what the statements
    keep ([step_keeps]). *)
From stdpp Require Import base tactics list gmap strings numbers relations.
From Stdlib Require Import ZArith Lia.
From S2P Require Import Prelude GoStd GoCrypto GoAes Model Codecs Helpers World Schema External EventsRepo Crypto Providers Ingest Auth.
From S2P Require Import Hub Search Dashboard Limiter WorkerRepo Worker WorkerLoop Startup Handlers Pipeline App Keeps HubTrace.

Open Scope Z_scope.

(** ** States *)

(** Where a worker is: in the [select] of [start], [startRetry] or
    [startReplay]; in [run] about to call [getNext]; or in [forwardEvent],
    where the goroutines [todo] have not run yet and the others have written
    their slots of [ups]. *)
Inductive phase : Type :=
| Waiting
| Idle
| Forwarding (hooks : list Webhook) (todo : list nat) (ups : list updateWebhook).

(** [s_up] tells whether the process runs; [s_requests] are the webhook
    requests between their duplicate check and their insertion. *)
Record System := mkSystem {
  s_world : World;
  s_up : bool;
  s_pool : list (Kind * phase);
  s_requests : list Pending;
}.

(** [NewWorkerPool] *)
Definition NewWorkerPool : list (Kind * phase) :=
  replicate TotalQueueWorkers (WorkerKindQueue, Waiting)
  ++ replicate TotalRetryWorkers (WorkerKindRetry, Waiting)
  ++ [(WorkerKindReplay, Waiting)].

Definition rows_of (s : System) : gmap UUID Webhook := webhook_events (w_db (s_world s)).

Definition phase_ids (p : phase) : list UUID :=
  match p with Forwarding hooks _ _ => wh_ID <$> hooks | _ => [] end.

(** A worker holds the row [i]: it claimed it and has not reported on it. *)
Definition in_flight (i : UUID) (s : System) : Prop :=
  ∃ j k p, s_pool s !! j = Some (k, p) ∧ i ∈ phase_ids p.

(** What a process that stops leaves: the tables and Redis are as they were;
    the hub, the pending signals and the limiter's client were its memory. *)
Definition stopped (w : World) : World :=
  set_limiter (λ _, false) (set_signal (λ _, 0%nat) (set_hub (λ _, NewEventService) w)).

(** [forwardEvent] before its goroutines run. *)
Definition dispatched (hooks : list Webhook) : phase :=
  Forwarding hooks (seq 0 (length hooks)) (replicate (length hooks) zero_update).

Inductive label : Type :=
| LServe (r : api_request)
| LArrive | LStore
| LWake | LClaim | LForward | LUpdate
| LCleanup | LCrash | LStart | LEnv | LHub.

Section system.
Context `{Postgres, StripeLib, HttpLib, UuidLib, JwtLib, Unicode, InfraLib, LogLib}.

(** What [run] does after [updateEvent]. *)
Definition report (upd : list Webhook * option goerr) : M unit :=
  match upd with
  | (_, Some _) => st_ret tt
  | (updatedHooks, None) => st_iter send updatedHooks
  end.

Inductive step : label → System → System → Prop :=
| StepServe r w ws rs :
    step (LServe r) (mkSystem w true ws rs) (mkSystem (serve r w).2 true ws rs)
| StepAnswer at_ r resp w w' ws rs :
    arrive at_ r w = (inl resp, w') →
    step LArrive (mkSystem w true ws rs) (mkSystem w' true ws rs)
| StepArrive at_ r p w w' ws rs :
    arrive at_ r w = (inr p, w') →
    step LArrive (mkSystem w true ws rs) (mkSystem w' true ws (rs ++ [p]))
| StepStore p w ws rs1 rs2 :
    step LStore (mkSystem w true ws (rs1 ++ p :: rs2)) (mkSystem (accept p w).2 true ws (rs1 ++ rs2))
| StepTick i k w ws rs :
    ws !! i = Some (k, Waiting) →
    step LWake (mkSystem w true ws rs) (mkSystem w true (<[i := (k, Idle)]> ws) rs)
| StepSignal i n w ws rs :
    ws !! i = Some (WorkerKindQueue, Waiting) → w_signal w = S n →
    step LWake (mkSystem w true ws rs)
      (mkSystem (set_signal (λ _, n) w) true (<[i := (WorkerKindQueue, Idle)]> ws) rs)
| StepClaim i k hooks w w' ws rs :
    ws !! i = Some (k, Idle) → WorkerRepo.GetEvents k w = ((hooks, None), w') →
    step LClaim (mkSystem w true ws rs) (mkSystem w' true (<[i := (k, dispatched hooks)]> ws) rs)
| StepClaimFailed i k hooks err w w' ws rs :
    ws !! i = Some (k, Idle) → WorkerRepo.GetEvents k w = ((hooks, Some err), w') →
    step LClaim (mkSystem w true ws rs) (mkSystem w' true (<[i := (k, Waiting)]> ws) rs)
| StepForward i k hooks l1 j l2 ups hook w ws rs :
    ws !! i = Some (k, Forwarding hooks (l1 ++ j :: l2) ups) → hooks !! j = Some hook →
    step LForward (mkSystem w true ws rs)
      (mkSystem (forward_one hook w).2 true
         (<[i := (k, Forwarding hooks (l1 ++ l2) (<[j := (forward_one hook w).1]> ups))]> ws) rs)
| StepUpdate i k hooks ups upd w w' ws rs :
    ws !! i = Some (k, Forwarding hooks [] ups) → UpdateEvents k ups w = (upd, w') →
    step LUpdate (mkSystem w true ws rs) (mkSystem (report upd w').2 true (<[i := (k, Idle)]> ws) rs)
| StepCleanup w ws rs :
    step LCleanup (mkSystem w true ws rs) (mkSystem (runCleanup w).2 true ws rs)
| StepCrash w up ws rs :
    step LCrash (mkSystem w up ws rs) (mkSystem (stopped w) false [] [])
| StepStart env rt numCPU w ws rs :
    step LStart (mkSystem w false ws rs)
      (mkSystem (start env rt numCPU w).2 (is_ok (start env rt numCPU w).1)
         (if is_ok (start env rt numCPU w).1 then NewWorkerPool else []) [])
| StepEnv e w up ws rs :
    step LEnv (mkSystem w up ws rs) (mkSystem (set_env (λ es, es ++ [e]) w) up ws rs)
| StepTime d w up ws rs :
    step LEnv (mkSystem w up ws rs) (mkSystem (pass d w) up ws rs)
| StepHub a w ws rs :
    step LHub (mkSystem w true ws rs) (mkSystem (set_hub (hub_act a) w) true ws rs).

Definition any_step (P : label → Prop) : relation System := λ s s', ∃ l, P l ∧ step l s s'.

Lemma weaken_steps (P Q : label → Prop) s s' : (∀ l, P l → Q l) → rtc (any_step P) s s' → rtc (any_step Q) s s'.
Proof. intros HPQ. apply rtc_subrel. intros a b (l & Hl & Hs). exists l. auto. Qed.

(** ** Properties of the tables and the cache that every step keeps *)

Definition holds (I : DB → KV → Prop) (s : System) : Prop := I (w_db (s_world s)) (kv (w_redis (s_world s))).

Record stmts_keep (I : DB → KV → Prop) (s : System) (l : label) : Prop := {
  sk_common : common_keep I;
  sk_batch : ∀ i k hooks us e now db c,
    s_pool s !! i = Some (k, Forwarding hooks [] us) → I db c → I (batch_stmt k us e now db).2 c;
  sk_replay : ∀ cs id u e now db c,
    l = LServe (Protected cs (PostReplay id)) → uuid_Parse id = Some u → I db c → I (replay_stmt u e now db).2 c;
  sk_purge : ∀ e now db c, l = LCleanup → I db c → I (purge_stmt e now db).2 c;
  sk_evict : ∀ n e now db c, l = LCleanup → I db c → I (evict_stmt n e now db).2 c;
}.

Lemma keeps_result I {A} (m : M A) a w w' :
  keeps I m → m w = (a, w') → I (w_db w) (kv (w_redis w)) → I (w_db w') (kv (w_redis w')).
Proof. intros Hm E Hw. replace w' with (m w).2 by (by rewrite E). by apply Hm. Qed.

Lemma step_keeps I l s s' : stmts_keep I s l → step l s s' → holds I s → holds I s'.
Proof.
  unfold holds. intros [Hc Hb Hr Hp He] Hs HI. destruct Hs; cbn [s_world s_pool s_requests] in *; try exact HI.
  - apply keeps_serve; [done| |done]. intros cs id u e now db c ->. by apply (Hr cs).
  - by eapply keeps_result; [apply keeps_read_only, read_only_arrive|..].
  - by eapply keeps_result; [apply keeps_read_only, read_only_arrive|..].
  - by apply keeps_accept.
  - by eapply keeps_result; [apply keeps_GetEvents|..].
  - by eapply keeps_result; [apply keeps_GetEvents|..].
  - apply (keeps_frame I (forward_one hook) (forward_one_frame hook)), HI.
  - assert (I (w_db w') (kv (w_redis w'))) as HI'
      by (eapply keeps_result; [apply keeps_UpdateEvents|eassumption|done]; eauto).
    destruct upd as [hooks' [err|]]; simpl; [done|]. apply keeps_iter; [|done]. intros a. by apply keeps_modify.
  - apply keeps_runCleanup; auto.
  - by apply keeps_start.
Qed.

(** The hub of a reachable state is the result of a history of the process:
    nothing but its actions changes it, and a crash empties it. *)
Lemma records_result {A} (m : M A) a w w' :
  records m → m w = (a, w') → has_history (w_hub w) → has_history (w_hub w').
Proof. intros Hm E Hw. replace w' with (m w).2 by (by rewrite E). by apply Hm. Qed.

Lemma step_records l s s' : step l s s' → has_history (w_hub (s_world s)) → has_history (w_hub (s_world s')).
Proof.
  intros Hs HI. destruct Hs; cbn [s_world] in *; try exact HI.
  - by apply records_serve.
  - by eapply records_result; [apply records_arrive|..].
  - by eapply records_result; [apply records_arrive|..].
  - by apply records_accept.
  - by eapply records_result; [apply records_GetEvents|..].
  - by eapply records_result; [apply records_GetEvents|..].
  - by apply records_forward_one.
  - assert (has_history (w_hub w')) as HI' by (by eapply records_result; [apply records_UpdateEvents|..]).
    destruct upd as [hooks' [err|]]; simpl; [done|]. by apply records_iter_send.
  - by apply records_runCleanup.
  - apply history_new.
  - by apply records_start.
  - by apply history_act.
Qed.

Lemma steps_record P s s' : rtc (any_step P) s s' → has_history (w_hub (s_world s)) → has_history (w_hub (s_world s')).
Proof. induction 1 as [|s1 s2 s3 (l & _ & Hs) _ IH]; [done|]. intros HI. by eapply IH, step_records. Qed.

(** Invariants that need no hypothesis on the label. *)
Lemma step_keeps_reachable I P :
  (∀ s l, P l → holds I s → stmts_keep I s l) →
  ∀ s s', rtc (any_step P) s s' → holds I s → holds I s'.
Proof.
  intros Hk s s'. induction 1 as [|s1 s2 s3 (l & Hl & Hs) _ IH]; [done|].
  intros HI. apply IH. eapply step_keeps; [|exact Hs|exact HI]. auto.
Qed.

(** ** The pool *)

(** Replacing the phase of one worker. *)
Lemma lookup_pool_insert (ws : list (Kind * phase)) i p j q :
  <[i := p]> ws !! j = Some q → (j = i ∧ q = p) ∨ ws !! j = Some q.
Proof. rewrite list_lookup_insert_Some. naive_solver. Qed.

Lemma lookup_NewWorkerPool j k p : NewWorkerPool !! j = Some (k, p) → p = Waiting.
Proof.
  intros E%list_elem_of_lookup_2. unfold NewWorkerPool in E. rewrite !elem_of_app, list_elem_of_singleton in E.
  destruct E as [E|[E|E]]; [apply elem_of_replicate in E as [E _]..|]; by injection E.
Qed.

(** The slots whose goroutine has run hold the reports of their hooks. *)
Definition phase_ok (p : phase) : Prop :=
  match p with
  | Forwarding hooks todo ups =>
    length ups = length hooks ∧
    ∀ j hook u, hooks !! j = Some hook → ups !! j = Some u → j ∉ todo → attempt_ok hook u
  | _ => True
  end.

Definition pool_ok (s : System) : Prop := ∀ i k p, s_pool s !! i = Some (k, p) → phase_ok p.

Lemma phase_ok_done hooks ups : phase_ok (Forwarding hooks [] ups) → Forall2 attempt_ok hooks ups.
Proof.
  intros [Hl Ha]. apply Forall2_same_length_lookup_2; [done|]. intros j hook u Hh Hu.
  apply (Ha j hook u Hh Hu), not_elem_of_nil.
Qed.

Lemma phase_ok_reports hooks ups :
  phase_ok (Forwarding hooks [] ups) → Forall (λ u, ∃ hook, attempt_ok hook u) ups ∧ u_id <$> ups = wh_ID <$> hooks.
Proof.
  intros HF%phase_ok_done. split; [clear -HF; induction HF; constructor; eauto|].
  induction HF as [|h u hs us Hu _ IH]; [done|]. rewrite !fmap_cons, IH. f_equal. apply at_id, Hu.
Qed.

Lemma phase_ok_dispatched hooks : phase_ok (dispatched hooks).
Proof.
  split; [apply length_replicate|]. intros j hook u Hh _ []. apply elem_of_seq.
  apply lookup_lt_Some in Hh. lia.
Qed.

Lemma phase_ok_slot hooks l1 j l2 ups hook u :
  hooks !! j = Some hook → attempt_ok hook u →
  phase_ok (Forwarding hooks (l1 ++ j :: l2) ups) → phase_ok (Forwarding hooks (l1 ++ l2) (<[j := u]> ups)).
Proof.
  intros Hh Hu [Hl Ha]. split; [by rewrite length_insert|]. intros j' hook' u' Hh' Hu' Hn.
  apply list_lookup_insert_Some in Hu' as [(-> & <- & _)|[Hne Hu']]; [congruence|].
  apply (Ha j' hook' u' Hh' Hu'). set_solver.
Qed.

Lemma pool_ok_step l s s' : step l s s' → pool_ok s → pool_ok s'.
Proof.
  intros Hs HP i k p. destruct Hs; cbn [s_pool] in *; try apply HP; try done;
    try (intros [[_ E]|E]%lookup_pool_insert; [injection E as -> ->|by apply (HP i k p)]); try done.
  - apply phase_ok_dispatched.
  - eapply phase_ok_slot; [eassumption|apply forward_one_ok|]. by eapply HP.
  - intros Hp. destruct (is_ok _); [by apply lookup_NewWorkerPool in Hp as ->|done].
Qed.

(** ** The steps are those of the workers' loop *)

(** A worker in [run] that goes on is again about to call [getNext]; one that
    leaves it waits. *)
Definition next_phase (continue : bool) : phase := if continue then Idle else Waiting.
Definition after_run (returned : option unit) : phase :=
  match returned with None => Idle | Some _ => Waiting end.

Definition in_round (l : label) : Prop := l = LClaim ∨ l = LForward ∨ l = LUpdate.

(** The goroutines in any order their scheduling may take. *)
Lemma goroutines_steps i k hooks rs sched todo ups w ws :
  ws !! i = Some (k, Forwarding hooks todo ups) → sched ≡ₚ todo → (∀ j, j ∈ sched → j < length hooks)%nat →
  rtc (any_step in_round) (mkSystem w true ws rs)
    (mkSystem (run_goroutines sched hooks ups w).2 true
       (<[i := (k, Forwarding hooks [] (run_goroutines sched hooks ups w).1)]> ws) rs).
Proof.
  revert todo ups w ws. induction sched as [|j sched IH]; intros todo ups w ws Hi Hp Hlt; cbn [run_goroutines].
  - apply Permutation_nil_l in Hp as ->. simpl. by rewrite list_insert_id.
  - destruct (lookup_lt_is_Some_2 hooks j) as [hook Hj]; [apply Hlt; by left|]. rewrite Hj, st_bind_run.
    assert (j ∈ todo) as Hin by (rewrite <-Hp; by left).
    apply list_elem_of_split in Hin as (l1 & l2 & ->).
    eapply rtc_l; [exists LForward; split; [by right; left|by eapply StepForward]|].
    pose proof (lookup_lt_Some _ _ _ Hi) as Hlen.
    etrans; [eapply (IH (l1 ++ l2)); [by apply list_lookup_insert_eq|by apply Permutation_cons_app_inv in Hp|]|].
    + intros j' Hj'. apply Hlt. by right.
    + by rewrite list_insert_insert_eq.
Qed.

Context `{SchedulerOk}.

Lemma forwardEvent_steps i k hooks w ws rs :
  ws !! i = Some (k, dispatched hooks) →
  rtc (any_step in_round) (mkSystem w true ws rs)
    (mkSystem (forwardEvent hooks w).2 true (<[i := (k, Forwarding hooks [] (forwardEvent hooks w).1)]> ws) rs).
Proof.
  intros Hi. unfold forwardEvent. rewrite st_bind_run. cbn [st_gets fst snd].
  eapply goroutines_steps; [exact Hi|apply order_Permutation|].
  intros j. rewrite (order_Permutation w (length hooks)), elem_of_seq. lia.
Qed.

Lemma round_steps i k w ws rs :
  ws !! i = Some (k, Idle) →
  let r := run_round (R := NewWorkerRepo k) w in
  rtc (any_step in_round) (mkSystem w true ws rs) (mkSystem r.2 true (<[i := (k, next_phase r.1)]> ws) rs).
Proof.
  intros Hi. pose proof (lookup_lt_Some _ _ _ Hi) as Hlt. cbv zeta. unfold run_round, getNext, updateEvent.
  change (@repo_GetEvents (NewWorkerRepo k)) with (WorkerRepo.GetEvents k).
  change (@repo_UpdateEvents (NewWorkerRepo k)) with (UpdateEvents k).
  rewrite !st_bind_run. destruct (WorkerRepo.GetEvents k w) as [[hooks [err|]] w1] eqn:Eg; cbn [st_ret fst snd].
  - apply rtc_once. exists LClaim. split; [by left|]. destruct (errors_Is err ErrNoRows); by eapply StepClaimFailed.
  - rewrite st_bind_run. eapply rtc_l; [exists LClaim; split; [by left|]; by eapply StepClaim|].
    etrans; [eapply (forwardEvent_steps i k hooks); by apply list_lookup_insert_eq|].
    rewrite st_bind_run, list_insert_insert_eq.
    destruct (UpdateEvents k (forwardEvent hooks w1).1 (forwardEvent hooks w1).2) as [upd w3] eqn:Eu. cbn [fst snd].
    apply rtc_once. exists LUpdate. split; [by right; right|].
    pose proof (StepUpdate i k hooks _ upd (forwardEvent hooks w1).2 w3
      (<[i := (k, Forwarding hooks [] (forwardEvent hooks w1).1)]> ws) rs (list_lookup_insert_eq _ _ _ Hlt) Eu) as Hu.
    rewrite list_insert_insert_eq in Hu. by destruct upd as [l [err|]].
Qed.

Lemma run_steps fuel i k w ws rs :
  ws !! i = Some (k, Idle) →
  let r := run (R := NewWorkerRepo k) fuel w in
  rtc (any_step in_round) (mkSystem w true ws rs) (mkSystem r.2 true (<[i := (k, after_run r.1)]> ws) rs).
Proof.
  cbv zeta. intros Hi. revert w. induction fuel as [|fuel IH]; intros w; cbn [run].
  { simpl. by rewrite list_insert_id. }
  rewrite st_bind_run. pose proof (round_steps i k w ws rs Hi) as Hr. cbv zeta in Hr. revert Hr.
  destruct (run_round w) as [[] w1]; cbn [fst snd next_phase]; intros Hr.
  - rewrite list_insert_id in Hr by done. etrans; [exact Hr|apply IH].
  - exact Hr.
Qed.

End system.
