(* ===== verification/SystemInv.v ===== *)
(** Invariants of the system: what holds of every row in every reachable
    state, which rows no worker will touch again, and what a stored event
    keeps for life.  A property of single rows that every statement keeps
    ([row_closed]) holds of all rows for good. *)
From stdpp Require Import base tactics list gmap strings numbers relations.
From Stdlib Require Import ZArith Lia.
From S2P Require Import Prelude GoStd GoCrypto GoAes Model Codecs Helpers World Schema External EventsRepo Crypto Providers Ingest Auth.
From S2P Require Import Hub Search Dashboard Limiter WorkerRepo Worker WorkerLoop Startup Handlers Pipeline App Keeps System.

Open Scope Z_scope.

Lemma pg_time_idem t : pg_time (pg_time t) = pg_time t.
Proof. unfold pg_time. by rewrite Z.div_mul. Qed.

Section invariants.
Context `{Postgres, StripeLib, HttpLib, UuidLib, JwtLib, Unicode, InfraLib, LogLib}.

(** ** Properties of single rows *)

Record row_closed (R : Webhook → Prop) : Prop := {
  rc_new : ∀ p id now h b,
    is_Some (cp_EventID p) → jsonb_in (cp_Headers p) = Some h → jsonb_in (cp_Payload p) = Some b →
    forallb text_ok (cp_Provider p :: cp_EventType p :: cp_ForwardedTo p :: option_list (cp_EventID p)) = true →
    R (new_row id now h b p);
  rc_status : ∀ st now x,
    st ≠ Queued → st ≠ Delivered → st ≠ Failed → R x → R (set_updated_at now (set_status st x));
  rc_report : ∀ k now u hook x x', attempt_ok hook u → reported k now u x x' → R x → R x';
}.

Definition rows_inv (R : Webhook → Prop) (db : DB) : Prop :=
  db_ok db ∧ ∀ i x, webhook_events db !! i = Some x → R x.

Lemma rows_inv_update R P st now db :
  row_closed R → st ≠ Queued → st ≠ Delivered → st ≠ Failed →
  rows_inv R db → rows_inv R (set_events (sql_update P (set_status st) now) db).
Proof.
  intros HR ??? [Hok Hrows]. split; [by apply db_ok_update, Hok|]. intros i x'. simpl. rewrite lookup_sql_update.
  destruct (webhook_events db !! i) as [x|] eqn:E; [|done]. intros [= <-].
  case_match; [apply (rc_status R HR)|]; eauto.
Qed.

Lemma rows_inv_insert R p e now db :
  row_closed R → is_Some (cp_EventID p) → rows_inv R db → rows_inv R (insert_stmt p e now db).2.
Proof.
  intros HR Hev [Hok Hrows]. split; [by apply insert_stmt_db_ok|]. intros i x.
  destruct (insert_stmt p e now db) as [r db'] eqn:E. simpl.
  destruct r as [row| |]; [|rewrite (insert_stmt_not_Ok _ _ _ _ _ _ E); [apply Hrows|done]..].
  apply insert_stmt_Ok in E as (h & b & Hh & Hb & -> & -> & _ & _ & _ & Ht). simpl. rewrite lookup_insert.
  case_decide; [|apply Hrows]. intros [= <-]. by apply (rc_new R HR).
Qed.

Lemma rows_inv_claim R k limit e now db : row_closed R → rows_inv R db → rows_inv R (claim_stmt k limit e now db).2.
Proof.
  intros HR Hdb. unfold claim_stmt. case_match; [done|]. simpl. by apply rows_inv_update; try destruct k.
Qed.

Lemma rows_inv_batch R k hooks us e now db :
  row_closed R → phase_ok (Forwarding hooks [] us) → rows_inv R db → rows_inv R (batch_stmt k us e now db).2.
Proof.
  intros HR [Hus _]%phase_ok_reports [Hok Hrows]. split; [by apply batch_stmt_db_ok|]. unfold batch_stmt.
  destruct (exec_batch k now us (webhook_events db)) as [rs [m'|]] eqn:E; [|done]. simpl.
  apply (exec_batch_rows k now us _ rs m' (λ _ x, R x) E Hrows).
  intros u x x' Hu Hx Hrep. destruct (proj1 (Forall_forall _ _) Hus u Hu) as [hook Ha].
  by eapply (rc_report R HR).
Qed.

Lemma rows_inv_delete R P db : rows_inv R db → rows_inv R (set_events (sql_delete P) db).
Proof.
  intros [Hok Hrows]. split; [by apply db_ok_delete|]. intros i x [Hx _]%lookup_sql_delete. eauto.
Qed.

(** Statements on the other tables. *)
Lemma rows_inv_configure R id sec des r q e now db :
  rows_inv R db → rows_inv R (configure_stmt id sec des r q e now db).2.
Proof.
  intros [Hok Hrows]. split; [by apply configure_stmt_db_ok|]. unfold configure_stmt. by repeat case_match.
Qed.

Lemma rows_inv_tokens R f db : rows_inv R db → rows_inv R (set_tokens f db).
Proof. intros [[] Hrows]. by split. Qed.

Lemma rows_stmts_keep R s l : row_closed R → pool_ok s → stmts_keep (λ db _, rows_inv R db) s l.
Proof.
  intros HR HP. split.
  - apply common_keep_db; eauto using rows_inv_insert, rows_inv_claim, rows_inv_configure, rows_inv_tokens.
  - intros i k hooks us e now db _ Hi. apply (rows_inv_batch R k hooks); [done|]. by eapply HP.
  - intros cs id u e now db _ _ _. by apply rows_inv_update.
  - intros e now db _ _. apply rows_inv_delete.
  - intros n e now db _ _. apply rows_inv_delete.
Qed.

Definition sys_inv (R : Webhook → Prop) (s : System) : Prop := rows_inv R (w_db (s_world s)) ∧ pool_ok s.

Lemma sys_inv_step R l s s' : row_closed R → step l s s' → sys_inv R s → sys_inv R s'.
Proof.
  intros HR Hs [HI HP]. split; [|by eapply pool_ok_step].
  eapply (step_keeps (λ db _, rows_inv R db)); [by apply rows_stmts_keep|exact Hs|exact HI].
Qed.

(** By induction on the steps, from any state that satisfies it. *)
Lemma sys_inv_reachable R P s s' : row_closed R → rtc (any_step P) s s' → sys_inv R s → sys_inv R s'.
Proof. intros HR. induction 1 as [|s1 s2 s3 (l & _ & Hl) _ IH]; [done|]. intros Hi. by eapply IH, sys_inv_step. Qed.

(** ** What a row says about its past *)

Record row_ok (x : Webhook) : Prop := {
  ro_event : is_Some (wh_EventID x);
  ro_count : 0 <= wh_RetryCount x <= max_int32;
  ro_queued : wh_DeliveryStatus x = Queued →
    wh_RetryCount x = 0 ∧ wh_ResponseCode x = None ∧ wh_LastError x = None ∧ wh_NextRetryAt x = None;
  ro_delivered : wh_DeliveryStatus x = Delivered →
    wh_LastError x = None ∧ wh_NextRetryAt x = None ∧ ∃ c, wh_ResponseCode x = Some c ∧ 200 <= c < 300;
  ro_failed : wh_DeliveryStatus x = Failed → is_Some (wh_LastError x);
}.

Lemma status_in_delivered st t : status_in t = Some st → t = DeliveryStatusDelivered ∨ t = DeliveryStatusFailed ∨ t = ""%string →
  st = Delivered ∧ t = DeliveryStatusDelivered ∨ st = Failed ∧ t = DeliveryStatusFailed.
Proof. intros Hs [->|[->| ->]]; vm_compute in Hs; naive_solver. Qed.

Lemma row_ok_closed : row_closed row_ok.
Proof.
  split.
  - intros p id now h b Hev _ _ _. by split.
  - intros st now x ???[]. by split.
  - intros k now u hook x x' [_ _ Hs Hd Hf] [st fwd Hst _ _ _ Hc] [He [H0c _] _ _ _].
    destruct (status_in_delivered st _ Hst Hs) as [[-> Ht]|[-> Ht]].
    + destruct (Hd Ht) as (Hl & Hn & c & Hr & Hc'). split; simpl in *; try done.
      * case_match; lia.
      * intros _. rewrite Hn. eauto 6.
    + split; simpl in *; try done; [case_match; lia|auto].
Qed.

(** ** The columns' types *)

Definition stored_time (t : Time) : Prop := pg_time t = t.

(** The text, JSON, integer and time columns of a row hold values of their
    types: what a client reads back is what the table holds. *)
Record row_typed (x : Webhook) : Prop := {
  rt_text : forallb text_ok (wh_Provider x :: wh_EventType x :: wh_ForwardedTo x
                             :: option_list (wh_EventID x) ++ option_list (wh_LastError x)) = true;
  rt_json : jsonb_in (wh_Headers x) = Some (wh_Headers x) ∧ jsonb_in (wh_Payload x) = Some (wh_Payload x);
  rt_ints : forallb int4_ok (wh_RetryCount x :: option_list (wh_ResponseCode x)) = true ∧ 0 <= wh_RetryCount x;
  rt_times : Forall stored_time
    (wh_ReceivedAt x :: wh_CreatedAt x :: wh_UpdatedAt x :: option_list (wh_NextRetryAt x));
}.

Lemma row_typed_closed `{!PostgresOk} : row_closed row_typed.
Proof.
  split.
  - intros p id now h b Hev Hh Hb Ht. apply jsonb_idem in Hh, Hb. split; simpl; [by rewrite app_nil_r|done..|].
    by repeat constructor; apply pg_time_idem.
  - intros st now x _ _ _ [Ht Hj Hi Hm]. split; simpl; [done..|].
    rewrite !Forall_cons in *. destruct Hm as (? & ? & ? & ?). split_and!; try done. apply pg_time_idem.
  - intros k now u hook x x' _ [st fwd Hst _ Htx Hin Hc] [Ht Hj [Hi H0c] Hm]. split; simpl in *.
    + rewrite forallb_app, !andb_true_iff in *. by destruct_and!.
    + done.
    + unfold int4_ok in *. split; [|case_match; lia]. rewrite !andb_true_iff, !Z.leb_le in *.
      split; [|done]. split; [case_match; lia|done].
    + rewrite !Forall_cons in *. destruct Hm as (? & ? & ? & ?). split_and!; try done; [apply pg_time_idem|].
      destruct (u_nextRetryAt u); simpl; repeat constructor. apply pg_time_idem.
Qed.

(** ** Rows no worker will touch again *)

Definition settled (x : Webhook) : Prop :=
  wh_DeliveryStatus x = Delivered ∨ wh_DeliveryStatus x = Retrying ∨
  (wh_DeliveryStatus x = Failed ∧ wh_NextRetryAt x = None).

(** Neither the cleanup nor an operator's replay of row [i]. *)
Definition hands_off (i : UUID) (l : label) : Prop :=
  l ≠ LCleanup ∧ ∀ cs id, l = LServe (Protected cs (PostReplay id)) → uuid_Parse id ≠ Some i.

Definition has_row (i : UUID) (x : Webhook) (db : DB) : Prop := db_ok db ∧ webhook_events db !! i = Some x.

Definition resting (i : UUID) (x : Webhook) (s : System) : Prop :=
  has_row i x (w_db (s_world s)) ∧ ¬ in_flight i s ∧ pool_ok s.

Lemma settled_unpicked k limit locked now db i x :
  has_row i x db → settled x → i ∉ wh_ID <$> picked k limit locked now db.
Proof.
  intros [Hok Hx] Hset (y & -> & Hy)%list_elem_of_fmap. apply elem_of_picked in Hy as ([j Hj] & He & _).
  assert (y = x) as -> by (pose proof (ok_events _ Hok j y Hj); congruence).
  by rewrite eligible_not in He.
Qed.

Lemma GetEvents_hooks k w hooks w' :
  WorkerRepo.GetEvents k w = ((hooks, None), w') →
  ∃ limit locked now, hooks = claim k now <$> picked k limit locked now (w_db w).
Proof.
  unfold WorkerRepo.GetEvents. rewrite st_bind_run. case_match; [done|]. rewrite !st_bind_run. case_match; [done|].
  rewrite st_bind_run. cbn [st_gets fst snd].
  destruct (claim_stmt _ _ _ _ _) as [[hs|err|] db'] eqn:E; [|done|unfold claim_stmt in E; by case_match].
  apply claim_stmt_hooks in E as [-> _]. rewrite st_bind_run. case_match; [done|]. intros [= <- _].
  autorewrite with world. eauto.
Qed.

Lemma not_in_flight_insert i j k p w w' ws rs rs' :
  ¬ in_flight i (mkSystem w true ws rs) → i ∉ phase_ids p → ¬ in_flight i (mkSystem w' true (<[j := (k, p)]> ws) rs').
Proof.
  intros Hn Hp (j' & k' & p' & [[_ E]|E]%lookup_pool_insert & Hi); [|by destruct Hn; exists j', k', p'].
  by injection E as -> ->.
Qed.

Lemma has_row_other i x db db' :
  db_ok db' → webhook_events db' !! i = webhook_events db !! i → has_row i x db → has_row i x db'.
Proof. intros Hok E [_ Hx]. split; [done|congruence]. Qed.

Lemma keep_resting_row i x (s : System) l :
  settled x → resting i x s → hands_off i l → stmts_keep (λ db _, has_row i x db) s l.
Proof.
  intros Hset (_ & Hfly & HP) [Hlc Hlr]. split.
  - apply common_keep_db.
    + intros p e now db _ [Hok Hx]. split; [by apply insert_stmt_db_ok|].
      destruct (insert_stmt p e now db) as [[row| |] db'] eqn:E; simpl;
        [|by rewrite (insert_stmt_not_Ok _ _ _ _ _ _ E)..].
      apply insert_stmt_Ok in E as (h & b & _ & _ & _ & -> & Hf & _). simpl.
      rewrite lookup_insert_ne; [done|congruence].
    + intros k limit e now db Hx. pose proof (settled_unpicked k limit (es_locked e) now db i x Hx Hset) as Hp.
      destruct Hx as [Hok Hx]. split; [by apply claim_stmt_db_ok|].
      unfold claim_stmt. case_match; [done|]. simpl. rewrite lookup_sql_update, Hx. simpl.
      rewrite bool_decide_eq_false_2; [done|]. by rewrite (ok_events _ Hok i x Hx).
    + intros id sec des r q e now db [Hok Hx]. split; [by apply configure_stmt_db_ok|].
      unfold configure_stmt. by repeat case_match.
    + intros f db [[] Hx]. by split.
  - intros j k hooks us e now db _ Hj [Hok Hx]. split; [by apply batch_stmt_db_ok|]. unfold batch_stmt.
    destruct (exec_batch k now us (webhook_events db)) as [rs [m'|]] eqn:E; [|done]. simpl.
    rewrite (exec_batch_other _ _ _ _ _ _ _ E); [done|].
    destruct (phase_ok_reports hooks us) as [_ ->]; [by eapply HP|]. intros Hi. apply Hfly. by exists j, k, (Forwarding hooks [] us).
  - intros cs id u e now db _ -> Hu [Hok Hx]. split; [by apply replay_stmt_db_ok|]. simpl.
    rewrite lookup_sql_update, Hx. simpl. rewrite bool_decide_eq_false_2; [done|].
    rewrite (ok_events _ Hok i x Hx). intros ->. by apply (Hlr cs id).
  - by intros e now db _ ->.
  - by intros n e now db _ ->.
Qed.

(** A settled row in no worker's hands stays as it is, and out of their
    hands. *)
Lemma resting_step i x l s s' : settled x → hands_off i l → step l s s' → resting i x s → resting i x s'.
Proof.
  intros Hset Hl Hs Hr. pose proof Hr as (HI & Hfly & HP). split; [|split; [|by eapply pool_ok_step]].
  { eapply (step_keeps (λ db _, has_row i x db)); [by apply keep_resting_row|exact Hs|exact HI]. }
  destruct Hs; try exact Hfly; try (eapply not_in_flight_insert; [exact Hfly|apply not_elem_of_nil]).
  - eapply not_in_flight_insert; [exact Hfly|]. simpl.
    match goal with E : WorkerRepo.GetEvents _ _ = _ |- _ => apply GetEvents_hooks in E as (limit & locked & now & ->) end.
    rewrite <-list_fmap_compose. by eapply settled_unpicked.
  - eapply not_in_flight_insert; [exact Hfly|]. intros Hi. apply Hfly. by do 3 eexists.
  - by intros (j & k & p & E & _).
  - intros (j & k & p & E & Hi). cbn [s_pool] in E. destruct (is_ok _); [|done].
    apply lookup_NewWorkerPool in E as ->. by apply not_elem_of_nil in Hi.
Qed.

Lemma resting_reachable i x s s' :
  settled x → rtc (any_step (hands_off i)) s s' → resting i x s → resting i x s'.
Proof.
  intros Hset. induction 1 as [|s1 s2 s3 (l & Hl & Hs) _ IH]; [done|]. intros Hi.
  eapply IH, resting_step; eauto.
Qed.

(** ** What a stored event keeps for life *)

Definition keeps_events (m0 : gmap UUID Webhook) (db : DB) : Prop :=
  ∀ i x, m0 !! i = Some x → ∃ y, webhook_events db !! i = Some y ∧ identity y = identity x.

Lemma keeps_events_update m0 P f now db :
  keeps_identity f → keeps_events m0 db → keeps_events m0 (set_events (sql_update P f now) db).
Proof.
  intros Hf Hm i x Hx. destruct (Hm i x Hx) as (y & Hy & Hid). simpl. rewrite lookup_sql_update, Hy. simpl.
  eexists. split; [done|]. rewrite <-Hid. case_match; [|done]. rewrite keeps_identity_updated. apply Hf.
Qed.

Lemma keeps_events_stmts m0 s l : l ≠ LCleanup → stmts_keep (λ db _, keeps_events m0 db) s l.
Proof.
  intros Hl. split; try (by intros; subst).
  - apply common_keep_db.
    + intros p e now db _ Hm i x Hx. destruct (Hm i x Hx) as (y & Hy & Hid). exists y. split; [|done].
      destruct (insert_stmt p e now db) as [[row| |] db'] eqn:E; simpl;
        [|by rewrite (insert_stmt_not_Ok _ _ _ _ _ _ E)..].
      apply insert_stmt_Ok in E as (h & b & _ & _ & _ & -> & Hf & _). simpl.
      rewrite lookup_insert_ne; [done|congruence].
    + intros k limit e now db Hm. unfold claim_stmt. case_match; [done|]. simpl. by apply keeps_events_update.
    + intros id sec des r q e now db Hm. unfold configure_stmt. by repeat case_match.
    + done.
  - intros i k hooks us e now db _ _ Hm j x Hx. destruct (Hm j x Hx) as (y & Hy & Hid). unfold batch_stmt.
    destruct (exec_batch k now us (webhook_events db)) as [rs [m'|]] eqn:E; [|by exists y]. simpl.
    destruct (proj2 (exec_batch_dom _ _ _ _ _ _ j E)) as [y' Hy']; [by rewrite Hy|].
    exists y'. split; [done|]. destruct (exec_batch_identity _ _ _ _ _ _ _ _ E Hy') as (z & Hz & ->). congruence.
  - intros cs id u e now db _ _ _ Hm. by apply keeps_events_update.
Qed.

Lemma keeps_events_reachable s s' :
  rtc (any_step (λ l, l ≠ LCleanup)) s s' → keeps_events (rows_of s) (w_db (s_world s')).
Proof.
  intros Hr. apply (step_keeps_reachable (λ db _, keeps_events (rows_of s) db) _
    (λ s1 l Hl _, keeps_events_stmts _ s1 l Hl) s s' Hr). intros i x. eauto.
Qed.

End invariants.
