(* ===== verification/Secrets.v ===== *)
(** What every step keeps of the providers: their rows and their cached copies
    are readable text within the limits of [Configure], and their secrets are
    empty or were sealed by [EncryptSigningKey], so that decrypting them never
    slices out of range.  From this, no route ever ends in a panic. *)
From stdpp Require Import base tactics list gmap strings numbers relations.
From Stdlib Require Import ZArith Lia.
From S2P Require Import Prelude GoStd GoCrypto GoAes Model Codecs Helpers World Schema External EventsRepo Crypto Providers Ingest Auth.
From S2P Require Import Github Shopify Stripe Hub Search Dashboard Limiter WorkerRepo Worker WorkerLoop Startup.
From S2P Require Import Handlers Pipeline App Keeps System.

Open Scope Z_scope.

(** The answers of handlers that panicked. *)
Definition crashes (a : answer) : bool :=
  match a with
  | AuthAnswer None | HookAnswer None | HealthAnswer None | ProvidersAnswer None | ProviderAnswer None | EventsAnswer None
  | SearchAnswer None | ReplayAnswer None | StatsAnswer None | Crashed => true
  | _ => false
  end.

Section secrets.
Context `{Postgres, StripeLib, HttpLib, UuidLib, JwtLib, Unicode, InfraLib, LogLib}.

(** ** Providers *)

Record provider_ok (p : Provider) : Prop := {
  po_id : uuid_ok (p_ID p);
  po_text : forallb text_ok [p_Name p; p_SigningSecret p; p_DestinationURL p] = true;
  po_secret : p_SigningSecret p = ""%string ∨ sealed (p_SigningSecret p);
  po_retries : 0 <= p_MaxRetries p <= maxRetryCount;
  po_rate : 0 <= p_MaxReqSecond p <= maxReqSecond;
}.

Definition prov_inv (db : DB) (c : KV) : Prop :=
  (∀ i p, providers db !! i = Some p → provider_ok p) ∧
  (∀ k v p, c !! k = Some v → Unmarshal v = Some p → provider_ok p).

Lemma provider_ok_text p : provider_ok p → provider_text p.
Proof.
  intros [Hi Ht _ Hr Hq]. unfold maxRetryCount, maxReqSecond in *. split; [done| |unfold min_int64, max_int64; lia..].
  cbn [forallb] in *. unfold text_ok in Ht. rewrite !andb_true_iff in *. by destruct_and!.
Qed.

Lemma read_back `{!UuidLibOk} p b q : provider_ok p → Marshal p = Ok b → Unmarshal b = Some q → q = p.
Proof. intros Hp Hb. rewrite (Unmarshal_provider p b) by (done || by apply provider_ok_text). by intros [= <-]. Qed.

Lemma lookup_mset_kvPairs what (provs : list Provider) pairs c k v :
  kvPairs what provs = Ok pairs → mset pairs c !! k = Some v → c !! k = Some v ∨ ∃ p, p ∈ provs ∧ Marshal p = Ok v.
Proof.
  revert pairs c. induction provs as [|p provs IH]; intros pairs c; [intros [= <-]; by left|].
  intros (b & rest & Hb & Hr & ->)%kvPairs_cons. cbn [mset].
  intros [Hc|(q & Hq & Hv)]%(IH rest); [|right; exists q; split; [by right|done]|done].
  rewrite lookup_insert in Hc. case_decide; [|by left]. injection Hc as <-. right. exists p. split; [by left|done].
Qed.

Lemma prov_inv_common `{!UuidLibOk} : common_keep prov_inv.
Proof.
  split.
  - intros p e now db c _ [Hp Hc]. split; [|done]. intros i q.
    destruct (insert_stmt p e now db) as [[row| |] db'] eqn:E; simpl;
      [|rewrite (insert_stmt_not_Ok _ _ _ _ _ _ E); [apply Hp|done]..].
    apply insert_stmt_Ok in E as (h & b & _ & _ & _ & -> & _). apply Hp.
  - intros k limit e now db c [Hp Hc]. unfold claim_stmt. by case_match.
  - intros id sec des r q e now db c Hsec Hr Hq [Hp Hc]. split; [|done]. intros i p.
    unfold configure_stmt. destruct (forallb text_ok [sec; des]) eqn:Et; simpl; [|apply Hp].
    destruct (providers db !! id) as [p0|] eqn:E; [|apply Hp]. simpl. rewrite lookup_insert.
    case_decide; [|apply Hp]. intros [= <-]. destruct (Hp id p0 E) as [Hi Ht _ _ _].
    split; simpl in *; [done| |by right|done..]. rewrite !andb_true_iff in *. by destruct_and!.
  - intros i p b db c Hi Hb [Hp Hc]. split; [done|]. intros k v q. rewrite lookup_insert. case_decide; [|apply Hc].
    intros [= <-] Hq. apply (read_back p b) in Hq as ->; eauto.
  - intros what pairs db c Hpairs [Hp Hc]. split; [done|]. intros k v q Hk Hq.
    apply (lookup_mset_kvPairs _ _ _ _ _ _ Hpairs) in Hk as [Hk|(p & [i Hi]%elem_of_rows & Hb)]; [by eapply Hc|].
    apply (read_back p v) in Hq as ->; eauto.
  - intros f db c Hd. exact Hd.
Qed.

Lemma prov_inv_stmts `{!UuidLibOk} s l : stmts_keep prov_inv s l.
Proof.
  split; [apply prov_inv_common| | | |].
  - intros i k hooks us e now db c _ Hd. unfold batch_stmt. by destruct (exec_batch _ _ _ _) as [? [?|]].
  - intros cs id u e now db c _ _ Hd. exact Hd.
  - intros e now db c _ Hd. exact Hd.
  - intros n e now db c _ Hd. exact Hd.
Qed.

Lemma prov_inv_reachable `{!UuidLibOk} P s s' :
  rtc (any_step P) s s' → holds prov_inv s → holds prov_inv s'.
Proof. apply step_keeps_reachable. intros. apply prov_inv_stmts. Qed.

(** ** Calls that return *)

Definition returns {A} (m : M (result A)) : Prop := ∀ w, (m w).1 ≠ Panic.

Lemma returns_ok {A} (r : result A) : r ≠ Panic → returns (st_ret r).
Proof. by intros Hr w. Qed.
Lemma returns_bind {A B} (m : M A) (k : A → M (result B)) : (∀ a, returns (k a)) → returns (st_bind m k).
Proof. intros Hk w. apply Hk. Qed.
Lemma returns_bind_res {A B} (m : M (result A)) (k : A → M (result B)) :
  returns m → (∀ a, returns (k a)) → returns (st_bind_res m k).
Proof.
  intros Hm Hk w. unfold st_bind_res. rewrite st_bind_run. specialize (Hm w).
  destruct (m w) as [[a|e|] w1]; [apply Hk|done..].
Qed.
Lemma returns_db_stmt {A} (f : EnvStep → Time → DB → result A * DB) :
  (∀ e now db, (f e now db).1 ≠ Panic) → returns (db_stmt f).
Proof. intros Hf w. by destruct (db_stmt_cases f w) as [(err & ->)|(e & now & _ & ->)]; simpl. Qed.
Lemma returns_redis_cmd {A} (f : Time → Redis → result A * Redis) :
  (∀ now rd, (f now rd).1 ≠ Panic) → returns (redis_cmd f).
Proof. intros Hf w. by destruct (redis_cmd_cases f w) as [(err & ->)|(now & _ & ->)]; simpl. Qed.

#[local] Hint Resolve returns_bind returns_bind_res returns_db_stmt returns_redis_cmd : world.
#[local] Hint Extern 1 (returns (st_ret _)) => apply returns_ok; done : world.

Lemma returns_Cache_Get key : returns (Cache_Get key).
Proof. intros w. apply Cache_Get_not_Panic. Qed.
#[local] Hint Resolve returns_Cache_Get : world.

Lemma select_page_returns conds comb lim off db : (select_page conds comb lim off db).1 ≠ Panic.
Proof. unfold select_page. by repeat case_match. Qed.

Lemma returns_Search opts : returns (Search opts).
Proof.
  unfold Search. apply returns_bind_res.
  { case_bool_decide; [|auto with world]. apply returns_db_stmt. intros. case_match; [done|apply select_page_returns]. }
  intros found1. apply returns_bind_res; [|auto with world]. case_bool_decide; [|auto with world].
  apply returns_db_stmt. intros. case_match; [done|]. case_match; [apply select_page_returns|done].
Qed.

Lemma returns_ReplayEvent id : returns (svc_ReplayEvent id).
Proof. unfold svc_ReplayEvent, replayEvent. case_match; auto with world. Qed.

Lemma returns_Configure id sec des r q : returns (Configure id sec des r q).
Proof.
  unfold Configure. case_match; [|auto with world]. cbv zeta. repeat (case_match; [by auto with world|]).
  apply returns_bind_res.
  - unfold EncryptSigningKey. apply returns_bind. intros key. case_match; [auto with world|].
    apply returns_bind. intros e. case_match; auto with world.
  - intros enc. apply returns_bind_res.
    + apply returns_db_stmt. intros. unfold configure_stmt. by repeat case_match.
    + intros p. apply returns_bind_res; [|auto with world]. unfold Cache_Set. pose proof (serialize_returns p).
      destruct (serialize p); [apply returns_redis_cmd; done|auto with world|done].
Qed.

Lemma insert_stmt_returns p e now db : (insert_stmt p e now db).1 ≠ Panic.
Proof. unfold insert_stmt. by repeat case_match. Qed.

Lemma returns_InsertWebhook p : returns (EventsRepo.InsertWebhook p).
Proof.
  intros w. unfold EventsRepo.InsertWebhook. rewrite st_bind_run.
  pose proof (returns_db_stmt _ (insert_stmt_returns p) w) as Hr.
  destruct (db_stmt _ w) as [[row|err|] w1]; cbn [st_ret fst snd] in *; [done|by case_match|done].
Qed.

Lemma returns_insert_for name headers payload id event : returns (insert_for name headers payload id event).
Proof.
  unfold insert_for. apply returns_bind_res; [auto with world|]. intros prov. apply returns_bind. intros now.
  apply returns_bind_res; [apply returns_InsertWebhook|auto with world].
Qed.

Lemma returns_exists_for name key : returns (exists_for name key).
Proof.
  unfold exists_for, EventsRepo.Exists. apply returns_bind_res; [auto with world|]. intros prov.
  apply returns_db_stmt. intros. unfold exists_stmt. simpl. by case_match.
Qed.

(** ** Tokens *)

Lemma returns_parse_token `{!JwtLibOk} t : returns (parse_token t).
Proof.
  intros w. unfold parse_token. rewrite !st_bind_run. cbn [st_gets st_ret fst snd].
  pose proof (jwt_Parse_returns ((JWTSecret ∘ w_cfg) w) (Unix (time_Now w).1) t) as Hp.
  destruct (jwt_Parse _ _ _); [done|by case_match|done].
Qed.

Lemma returns_issue_tokens email : returns (issue_tokens email).
Proof.
  unfold issue_tokens. apply returns_bind. intros secret. apply returns_bind. intros now. cbv zeta.
  apply returns_bind_res; [|auto with world]. apply returns_db_stmt. intros. unfold create_token_stmt. by repeat case_match.
Qed.

Lemma returns_RefreshToken `{!JwtLibOk} token : returns (RefreshToken token).
Proof.
  intros w. unfold RefreshToken. rewrite st_bind_run.
  assert (returns (validateRefreshToken token)) as Hv.
  { unfold validateRefreshToken. apply returns_bind_res; [by apply returns_db_stmt|]. intros b.
    case_match; [auto with world|apply returns_parse_token]. }
  specialize (Hv w). destruct (validateRefreshToken token w) as [[claims|err|] w1]; cbn [fst snd] in *; [|by case_match|done].
  destruct (c_email claims) as [email|]; [|done]. apply returns_bind_res; [by apply returns_db_stmt|].
  intros _. apply returns_issue_tokens.
Qed.

(** ** Signing secrets *)

(** A slice of the nonce's length exists of anything [EncryptSigningKey]
    returned, whatever the key it is read with. *)
Lemma Decrypt_sealed key sec : sec = ""%string ∨ sealed sec → DecryptSigningKey key sec ≠ Panic.
Proof.
  intros [->|(plain & w & w' & E)]; [done|].
  apply EncryptSigningKey_Ok in E as (nonce & Hn & _ & -> & _). unfold DecryptSigningKey.
  case_bool_decide; [done|]. rewrite DecodeString_EncodeToString. case_match; [done|].
  rewrite <-Hn, slice_to_app, slice_from_app. by case_match.
Qed.

Lemma Cache_Get_provider_ok name w p w' :
  prov_inv (w_db w) (kv (w_redis w)) → Cache_Get name w = (Ok p, w') → provider_ok p.
Proof. intros [_ Hc] (v & Hv & Hp)%Cache_Get_Ok. by eapply Hc. Qed.

Lemma signing_secret_returns name w :
  prov_inv (w_db w) (kv (w_redis w)) → (signing_secret name w).1 ≠ Panic.
Proof.
  intros HI. unfold signing_secret, st_bind_res. rewrite st_bind_run. pose proof (returns_Cache_Get name w) as Hr.
  destruct (Cache_Get name w) as [[p|err|] w1] eqn:E; cbn [fst snd] in *; [|done..].
  rewrite st_bind_run. apply Decrypt_sealed, po_secret. by eapply Cache_Get_provider_ok.
Qed.

Lemma vouch_returns `{!StripeLibOk} at_ h payload w :
  prov_inv (w_db w) (kv (w_redis w)) → (vouch at_ h payload w).1 ≠ Panic.
Proof.
  intros HI. unfold vouch, Github.ValidateSecret, Shopify.ValidateSecret, Stripe.ValidateSecret, st_bind_res. cbv zeta.
  destruct at_; rewrite !st_bind_run;
    match goal with |- context [signing_secret ?n w] =>
      pose proof (signing_secret_returns n w HI) as Hs; destruct (signing_secret n w) as [[s|err|] w1] end;
    cbn [st_ret fst snd] in *; try done.
  - by destruct (hmac_Equal _ _).
  - destruct (Base64Decode _); [|done]. by destruct (hmac_Equal _ _).
  - rewrite !st_bind_run. cbn [time_Now st_gets st_ret fst snd].
    pose proof (ConstructEvent_returns (w_now w1) payload (header_get (signature_header AtStripe) h) s) as Hc.
    by destruct (ConstructEvent _ _ _ _).
Qed.

Lemma decrypt_all_returns key provs : Forall provider_ok provs → decrypt_all key provs ≠ Panic.
Proof.
  induction 1 as [|p provs Hp _ IH]; [done|]. simpl. pose proof (Decrypt_sealed key _ (po_secret p Hp)) as Hd.
  case_match; [by destruct (decrypt_all key provs)|]. destruct (DecryptSigningKey _ _); [|done..].
  by destruct (decrypt_all key provs).
Qed.

Lemma GetAll_returns w : prov_inv (w_db w) (kv (w_redis w)) → (Providers.GetAll w).1 ≠ Panic.
Proof.
  intros [Hp _]. unfold Providers.GetAll, repo_getAll, st_bind_res. rewrite st_bind_run.
  step_db; [done|]. cbn [get_providers_stmt fst snd]. rewrite st_bind_run. apply decrypt_all_returns.
  apply Forall_forall. intros p Hin. apply elem_of_rows in Hin as [i Hi]. eauto.
Qed.

(** ** The routes *)

Lemma pipeline_answers `{!StripeLibOk} at_ r w :
  prov_inv (w_db w) (kv (w_redis w)) → (arrive at_ r w).1 ≠ inl None.
Proof.
  intros HI. unfold arrive. destruct (read_body _ r) as [payload|]; [|done].
  destruct (negb _); [done|]. rewrite st_bind_run. pose proof (vouch_returns at_ (r_header r) payload w HI) as Hv.
  destruct (vouch at_ (r_header r) payload w) as [[[[key id] event]|err|] w1]; cbn [fst snd] in *; [|done..].
  rewrite st_bind_run. pose proof (returns_exists_for (ep_name at_) key w1) as He.
  by destruct (exists_for (ep_name at_) key w1) as [[[]|err|] w2].
Qed.

Lemma accept_answers p w : (accept p w).1 ≠ None.
Proof.
  unfold accept, store. rewrite st_bind_run.
  pose proof (returns_insert_for (pd_name p) (pd_headers p) (pd_payload p) (pd_id p) (pd_event p) w) as Hi.
  destruct (insert_for _ _ _ _ _ w) as [[hook|err|] w1]; cbn [fst snd] in *; [done|by case_match|done].
Qed.

Lemma receive_answers `{!StripeLibOk} at_ r w :
  prov_inv (w_db w) (kv (w_redis w)) → (receive at_ r w).1 ≠ None.
Proof.
  intros HI. rewrite receive_pipeline. unfold pipeline. rewrite st_bind_run.
  pose proof (pipeline_answers at_ r w HI) as Ha. destruct (arrive at_ r w) as [[resp|p] w1]; cbn [fst snd] in *.
  - simpl. congruence.
  - apply accept_answers.
Qed.

(** A computation that returns makes a handler that answers. *)
Lemma answered {A B} (m : M (result A)) (k : result A → M (option B)) w :
  (m w).1 ≠ Panic → (∀ r w1, r ≠ Panic → (k r w1).1 ≠ None) → (st_bind m k w).1 ≠ None.
Proof. intros Hm Hk. rewrite st_bind_run. by apply Hk. Qed.

Lemma session_answers `{!JwtLibOk} w :
  (∀ ct body, (login ct body w).1 ≠ None) ∧ (∀ cs, (logout cs w).1 ≠ None) ∧
  (∀ cs, (refreshToken cs w).1 ≠ None) ∧ (∀ cs, (me cs w).1 ≠ None).
Proof.
  split_and!.
  - intros ct body. unfold login. pose proof (DecodeBodyJSON_returns (A := loginRequestBody) ct body) as Hd.
    destruct (DecodeBodyJSON _ _) as [[email pw]| |]; [|done..]. apply answered.
    + unfold Login. rewrite st_bind_run. case_match; [done|apply returns_issue_tokens].
    + intros [[]|err|] w1 Hr; [done|by case_match|done].
  - intros cs. unfold logout. case_match; [|done]. apply answered; [by apply returns_db_stmt|]. by intros [|err|].
  - intros cs. unfold refreshToken. case_match; [|done]. apply answered; [apply returns_RefreshToken|].
    intros [[]|err|] w1 Hr; [done|by case_match|done].
  - intros cs. unfold me. case_match; [|done]. apply answered; [apply returns_parse_token|]. by intros [|err|].
Qed.

(** Encoding a reply may fail, but always answers. *)
Lemma reply_answers `{ToJson A} (a : A) failed : Marshal a ≠ Panic → reply a failed ≠ None.
Proof. unfold reply. by destruct (Marshal a). Qed.

Lemma dashboard_answers w :
  (∀ body, (h_search body w).1 ≠ None) ∧ (∀ cursor, (h_getAll cursor w).1 ≠ None) ∧ (h_getStats w).1 ≠ None ∧
  (∀ id, (h_replayEvent id w).1 ≠ None).
Proof.
  split_and!.
  - intros body. unfold h_search. pose proof (Decode_returns (A := SearchRequest) false (bytes_of body) EOF) as Hd.
    destruct (Decode _ _ _) as [[opts rest]| |]; [|done..]. destruct (Validate opts) eqn:Ev; [|done|].
    + apply answered; [apply returns_Search|]. intros [res|err|] w1 Hr; [|done..]. apply reply_answers, text_of_returns.
    + exfalso. revert Ev. unfold Validate, validateLookup, validateFilter. by repeat case_match.
  - intros cursor. unfold h_getAll. cbv zeta.
    assert (∀ c w, (svc_GetAll c w).1 ≠ Panic) by (intros c; by apply returns_db_stmt).
    case_bool_decide; [|case_match; [|done]]; (apply answered; [done|]; intros [evs|err|] w1 Hr; [|done..];
      apply reply_answers, text_of_returns).
  - unfold h_getStats. apply answered; [|intros [stats|err|] w1 Hr; [apply reply_answers, text_of_returns|done..]]. unfold svc_GetStats, getStats.
    apply returns_bind_res; [by apply returns_db_stmt|auto with world].
  - intros id. apply answered; [apply returns_ReplayEvent|]. intros [|err|] w1 Hr; simpl; [done|by case_match|done].
Qed.

Lemma provider_answers w :
  prov_inv (w_db w) (kv (w_redis w)) →
  (ph_getAll w).1 ≠ None ∧ ∀ id ct body, (ph_configure id ct body w).1 ≠ None.
Proof.
  intros HI. split.
  - unfold ph_getAll. apply answered; [by apply GetAll_returns|]. intros [provs|err|] w1 Hr; [|done..].
    apply reply_answers, text_of_returns.
  - intros id ct body. unfold ph_configure. pose proof (DecodeBodyJSON_returns (A := configureRequestBody) ct body) as Hd.
    destruct (DecodeBodyJSON _ _) as [b| |]; [|done..]. apply answered; [apply returns_Configure|].
    intros [p|err|] w1 Hr; cbn [st_ret fst]; [apply reply_answers, text_of_returns|by case_match|done].
Qed.

Lemma serve_answers `{!JwtLibOk, !StripeLibOk} r w :
  prov_inv (w_db w) (kv (w_redis w)) → crashes (serve r w).1 = false.
Proof.
  intros HI. destruct (session_answers w) as (Hl & Ho & Hr & Hm).
  assert (∀ A (f : option A → answer) (m : M (option A)), (m w).1 ≠ None → (∀ a, crashes (f (Some a)) = false) →
            crashes (st_fmap f m w).1 = false) as Hf.
  { intros A f m Hn Hc. unfold st_fmap. rewrite st_bind_run. simpl. by destruct (m w).1. }
  destruct r as [p|cs p]; cbn [serve].
  - destruct p; cbn [serve_public]; try (by apply Hf; auto using receive_answers).
    apply Hf; [|done]. rewrite getHealth_run. cbv zeta. by destruct (Marshal_health (GetHealthCheck startTime rt db_first w).1) as [b ->].
  - assert (crashes (serve_protected p w).1 = false) as Hp.
    { destruct (dashboard_answers w) as (Hs & Hg & Ht & Hy). destruct (provider_answers w HI) as [Ha Hcf].
      destruct p; cbn [serve_protected]; try (by apply Hf; auto). done. }
    destruct (Jwt_cases (serve_protected p) Unauthorized Crashed cs w) as [[_ ->]|[_ [[err ->]|E]]]; [done..|].
    exfalso. revert E. unfold Jwt. destruct (find_cookie _ cs) as [token|]; [|done]. rewrite st_bind_run.
    unfold ValidateAccessToken. pose proof (returns_parse_token token w) as Hv. pose proof (parse_token_state token w) as Hw.
    destruct (parse_token token w) as [[claims|err|] w1]; cbn [fst snd] in *; [|done..]. subst w1.
    intros E. by rewrite E in Hp.
Qed.

End secrets.
