(* ===== verification/Lifecycle.v ===== *)
(** The life of an event as an abstract state machine: its delivery status and
    its retry count.  Every step of the system moves every row along it. *)
From stdpp Require Import base tactics list gmap strings numbers relations.
From Stdlib Require Import ZArith Lia.
From S2P Require Import Prelude GoStd GoCrypto GoAes Model Codecs Helpers World Schema External EventsRepo Crypto Providers Ingest Auth.
From S2P Require Import Hub Search Dashboard Limiter WorkerRepo Worker WorkerLoop Startup Handlers Pipeline App Keeps.
From S2P Require Import System SystemInv Secrets.

Open Scope Z_scope.

(** The event is not in the table, or is in it with a status after [n]
    retries. *)
Definition life : Type := option (DeliveryStatus * Z).

Definition life_of (i : UUID) (db : DB) : life :=
  (λ x, (wh_DeliveryStatus x, wh_RetryCount x)) <$> (webhook_events db !! i).

(** A worker of kind [k] holds the row [i]. *)
Definition held_by (k : Kind) (i : UUID) (s : System) : Prop :=
  ∃ j p, s_pool s !! j = Some (k, p) ∧ i ∈ phase_ids p.

Section lifecycle.
Context `{Postgres, StripeLib, HttpLib, UuidLib, JwtLib, Unicode, InfraLib, LogLib}.

(** What may happen to the event [i] during a step [l] from [s]: it arrives
    and is queued; a queue worker takes it from the queue; a retry worker takes
    it after a failure while retries are left, or from a worker that let it go
    stale; a replay worker takes it; a worker that holds it reports an outcome,
    which counts as a retry if it is a retry worker; an operator replays it;
    the cleanup removes it. *)
Inductive life_step (i : UUID) (s : System) (l : label) : life → life → Prop :=
| LifeReceived : life_step i s l None (Some (Queued, 0))
| LifeTaken n : life_step i s l (Some (Queued, n)) (Some (Processing, n))
| LifeRetried n : n < maxRetryCount → life_step i s l (Some (Failed, n)) (Some (Retrying, n))
| LifeStale st n : st ∈ [Processing; Queued; Replaying] → life_step i s l (Some (st, n)) (Some (Retrying, n))
| LifeReplaying n : life_step i s l (Some (Replaying, n)) (Some (Replaying, n))
| LifeReported k st st' n :
    held_by k i s → st' = Delivered ∨ st' = Failed →
    life_step i s l (Some (st, n)) (Some (st', if bool_decide (k = WorkerKindRetry) then n + 1 else n))
| LifeReplayed cs id st n :
    l = LServe (Protected cs (PostReplay id)) → uuid_Parse id = Some i →
    life_step i s l (Some (st, n)) (Some (Replaying, n))
| LifeRemoved st n : l = LCleanup → life_step i s l (Some (st, n)) None.

(** The statements of a step, one after the other. *)
Definition lives (i : UUID) (s : System) (l : label) (db : DB) : Prop :=
  db_ok db ∧ (∀ j p, providers db !! j = Some p → p_MaxRetries p <= maxRetryCount) ∧
  rtc (life_step i s l) (life_of i (w_db (s_world s))) (life_of i db).

Lemma lives_same i s l db db' :
  lives i s l db →
  db_ok db' → providers db' = providers db → webhook_events db' !! i = webhook_events db !! i → lives i s l db'.
Proof.
  intros (_ & Hm & Hr) Hok Hp He. split; [done|]. rewrite Hp. split; [done|]. unfold life_of in *. by rewrite He.
Qed.

Lemma lives_step i s l db db' :
  lives i s l db →
  db_ok db' → providers db' = providers db → life_step i s l (life_of i db) (life_of i db') → lives i s l db'.
Proof.
  intros (_ & Hm & Hr) Hok Hp Hl. split; [done|]. rewrite Hp. split; [done|]. by eapply rtc_r.
Qed.

Lemma lives_insert i s l p e now db : lives i s l db → lives i s l (insert_stmt p e now db).2.
Proof.
  intros HL. pose proof (insert_stmt_db_ok p e now db (proj1 HL)) as Hok.
  destruct (insert_stmt p e now db) as [[row| |] db'] eqn:E; simpl in *;
    [|by rewrite (insert_stmt_not_Ok _ _ _ _ _ _ E)..].
  apply insert_stmt_Ok in E as (h & b & _ & _ & -> & -> & Hf & _).
  destruct (decide (i = es_uuid e)) as [->|Hne].
  - eapply lives_step; [exact HL|done|done|]. unfold life_of. simpl. rewrite Hf, lookup_insert_eq. constructor.
  - eapply lives_same; [exact HL|done|done|]. simpl. by rewrite lookup_insert_ne.
Qed.

Lemma lives_claim i s l k limit e now db : lives i s l db → lives i s l (claim_stmt k limit e now db).2.
Proof.
  intros HL. pose proof HL as (Hdb & Hm & _). pose proof (claim_stmt_db_ok k limit e now db Hdb) as Hok.
  destruct (claim_stmt k limit e now db) as [[hooks|err|] db'] eqn:E; cbn [fst snd] in *.
  2, 3: unfold claim_stmt in E; destruct (limit <? 0); by simplify_eq.
  pose proof (claim_stmt_hooks _ _ _ _ _ _ _ E) as [_ Hp]. pose proof (lookup_claim _ _ _ _ _ _ _ i E Hdb) as Hi.
  destruct (webhook_events db !! i) as [x|] eqn:Ex; [|by eapply lives_same; [exact HL|..]; [|congruence..]].
  case_bool_decide as Hx; [|by eapply lives_same; [exact HL|..]; [|congruence..]].
  eapply lives_step; [exact HL|done|done|]. unfold life_of. rewrite Hi, Ex. simpl.
  apply elem_of_picked in Hx as (_ & Hx%eligible_status & _). destruct k; simpl in *.
  - rewrite Hx. constructor.
  - destruct Hx as [(Hf & t & p & _ & _ & Hp' & Hlt)|[Hs _]]; [|by constructor].
    rewrite Hf. constructor. specialize (Hm _ _ Hp'). lia.
  - rewrite Hx. constructor.
Qed.

Lemma lives_batch i s l j k hooks us e now db :
  pool_ok s → s_pool s !! j = Some (k, Forwarding hooks [] us) →
  lives i s l db → lives i s l (batch_stmt k us e now db).2.
Proof.
  intros HP Hj HL. pose proof (batch_stmt_db_ok k us e now db (proj1 HL)) as Hok. revert Hok. unfold batch_stmt.
  destruct (phase_ok_reports hooks us) as [Hus Hids]; [by eapply HP|].
  destruct (exec_batch k now us (webhook_events db)) as [rs [m'|]] eqn:E; [|done]. cbn [fst snd]. intros Hok.
  destruct HL as (_ & Hm & Hr). split; [done|]. split; [done|]. unfold life_of in *. simpl.
  destruct (m' !! i) as [x'|] eqn:Ex'.
  - simpl. refine (exec_batch_rows k now us _ rs m' (λ i' x', i' = i →
      rtc (life_step i s l) (life_of i (w_db (s_world s))) (Some (wh_DeliveryStatus x', wh_RetryCount x')))
      E _ _ i x' Ex' eq_refl).
    + intros i' x Hx ->. by rewrite Hx in Hr.
    + intros u x x1 Hu IH Hrep Hi. eapply rtc_r; [by apply IH|].
      destruct (proj1 (Forall_forall _ _) Hus u Hu) as [hook [_ _ Hst _ _]].
      destruct Hrep as [st fwd Hs _ _ _ _]. simpl. apply LifeReported.
      * exists j, (Forwarding hooks [] us). split; [done|]. simpl. rewrite <-Hids, <-Hi. apply list_elem_of_fmap. eauto.
      * destruct (status_in_delivered st _ Hs Hst) as [[-> _]|[-> _]]; auto.
  - destruct (webhook_events db !! i) as [x|] eqn:Ex; [|done].
    destruct (proj2 (exec_batch_dom _ _ _ _ _ _ i E)) as [y Hy]; [by rewrite Ex|congruence].
Qed.

Lemma lives_delete i s P db : lives i s LCleanup db → lives i s LCleanup (set_events (sql_delete P) db).
Proof.
  intros HL. pose proof (db_ok_delete P db (proj1 HL)) as Hok.
  destruct (webhook_events (set_events (sql_delete P) db) !! i) as [x|] eqn:Ex.
  - eapply lives_same; [exact HL|done|done|]. rewrite Ex. by apply lookup_sql_delete in Ex as [-> _].
  - destruct (webhook_events db !! i) as [x|] eqn:Ex'.
    + eapply lives_step; [exact HL|done|done|]. unfold life_of. rewrite Ex, Ex'. by constructor.
    + eapply lives_same; [exact HL|done|done|]. congruence.
Qed.

Lemma lives_stmts i s l : pool_ok s → stmts_keep (λ db _, lives i s l db) s l.
Proof.
  intros HP. split.
  - split; try done; eauto using lives_insert, lives_claim.
    + intros id sec des r q e now db c _ Hr _ HL. pose proof (configure_stmt_db_ok id sec des r q e now db (proj1 HL)) as Hok.
      revert Hok. unfold configure_stmt. case_match; [done|]. case_match; [|done]. simpl. intros Hok.
      destruct HL as (_ & Hm & Hl). split; [done|]. split; [|done]. intros j p'. simpl. rewrite lookup_insert.
      case_decide; [|apply Hm]. intros [= <-]. simpl. lia.
    + intros f db c HL. eapply lives_same; [exact HL| |done..]. by destruct HL as [[] _].
  - intros j k hooks us e now db _ Hj. by eapply lives_batch.
  - intros cs id u e now db _ -> Hu HL. pose proof (replay_stmt_db_ok u e now db (proj1 HL)) as Hok.
    pose proof (ok_events _ (proj1 HL)) as Hk.
    assert (webhook_events (replay_stmt u e now db).2 !! i
            = (λ x, if bool_decide (wh_ID x = u) then set_updated_at now (set_status Replaying x) else x)
                <$> (webhook_events db !! i)) as E by apply lookup_sql_update.
    destruct (webhook_events db !! i) as [x|] eqn:Ex; [|eapply lives_same; [exact HL|done|done|etrans; [exact E|by rewrite Ex]]].
    cbn [fmap option_fmap option_map] in E. case_bool_decide as Hid; [|eapply lives_same; [exact HL|done|done|etrans; [exact E|by rewrite Ex]]].
    eapply lives_step; [exact HL|done|done|]. unfold life_of. rewrite E, Ex. simpl.
    eapply LifeReplayed; [done|]. rewrite Hu, <-Hid. f_equal. by apply Hk.
  - intros e now db _ ->. apply lives_delete.
  - intros n e now db _ ->. apply lives_delete.
Qed.

Lemma lives_refl i s l :
  db_ok (w_db (s_world s)) → holds prov_inv s → lives i s l (w_db (s_world s)).
Proof. intros Hok [Hp _]. split; [done|]. split; [|done]. intros j p Hj. by apply (po_retries p), (Hp j). Qed.

End lifecycle.
