(* ===== verification/TokenLib.v ===== *)
(** An executable instance of the token library of [Auth], with the laws its
    interface asks for: a token is the MAC of its claims followed by the bytes
    of their code. *)
From stdpp Require Import base tactics list strings numbers countable.
From Stdlib Require Import ZArith Lia.
From S2P Require Import Prelude GoStd GoCrypto Model Codecs World Auth.

Open Scope Z_scope.

Fixpoint le_bytes (fuel : nat) (z : Z) : list Z :=
  match fuel with O => [] | S fuel => z mod 256 :: le_bytes fuel (z / 256) end.
Definition of_le_bytes (l : list Z) : Z := foldr (λ b acc, b + 256 * acc) 0 l.

Lemma of_le_bytes_le fuel z : 0 <= z < 256 ^ Z.of_nat fuel → of_le_bytes (le_bytes fuel z) = z.
Proof.
  revert z. induction fuel as [|fuel IH]; intros z Hz; simpl; [simpl in Hz; lia|].
  rewrite IH; [pose proof (Z.div_mod z 256); lia|].
  rewrite Nat2Z.inj_succ, Z.pow_succ_r in Hz by lia. split; [apply Z.div_pos; lia|].
  apply Z.div_lt_upper_bound; lia.
Qed.

Lemma le_bytes_range fuel z : Forall (λ b, 0 <= b < 256) (le_bytes fuel z).
Proof. revert z. induction fuel as [|fuel IH]; intros z; constructor; [apply Z.mod_pos_bound; lia|apply IH]. Qed.

(** Strings are coded by their bytes, closed by a one. *)
Definition str_pos (s : string) : positive := Z.to_pos (of_le_bytes (bytes_of s ++ [1])).
Definition pos_str (p : positive) : string :=
  string_of (le_bytes (Z.to_nat (Z.log2 (Z.pos p) / 8)) (Z.pos p)).

Lemma of_le_bytes_range l : Forall (λ b, 0 <= b < 256) l → 0 <= of_le_bytes l < 256 ^ Z.of_nat (length l).
Proof.
  induction 1 as [|b l Hb _ IH]; [simpl; lia|]. cbn [of_le_bytes foldr length] in *.
  rewrite Nat2Z.inj_succ, Z.pow_succ_r by lia. fold (of_le_bytes l) in *. lia.
Qed.

Lemma of_le_bytes_app l k :
  of_le_bytes (l ++ k) = of_le_bytes l + 256 ^ Z.of_nat (length l) * of_le_bytes k.
Proof.
  induction l as [|b l IH]; [simpl; lia|]. cbn [of_le_bytes foldr length app]. fold (of_le_bytes (l ++ k)).
  rewrite IH, Nat2Z.inj_succ, Z.pow_succ_r by lia. fold (of_le_bytes l). lia.
Qed.

Lemma le_bytes_of_le l k : Forall (λ b, 0 <= b < 256) l → le_bytes (length l) (of_le_bytes (l ++ k)) = l.
Proof.
  induction 1 as [|b l Hb _ IH]; [done|]. cbn [of_le_bytes foldr length app le_bytes]. fold (of_le_bytes (l ++ k)).
  rewrite (Z.add_comm b), Z.mul_comm, Z.add_comm, Z_mod_plus_full, Z.mod_small, Z.div_add, Z.div_small by lia.
  by rewrite Z.add_0_l, IH.
Qed.

Lemma pos_str_pos s : pos_str (str_pos s) = s.
Proof.
  unfold pos_str, str_pos. pose proof (bytes_of_range s) as Hr. pose proof (of_le_bytes_range _ Hr) as Hb.
  set (n := Z.of_nat (length (bytes_of s))) in *.
  assert (of_le_bytes (bytes_of s ++ [1]) = of_le_bytes (bytes_of s) + 2 ^ (8 * n)) as E.
  { rewrite of_le_bytes_app. fold n. simpl of_le_bytes at 2. rewrite Z.mul_1_r, Z.pow_mul_r by lia. done. }
  assert (0 < 2 ^ (8 * n)) as Hpos by (apply Z.pow_pos_nonneg; lia).
  assert (256 ^ n = 2 ^ (8 * n)) as Epow by (rewrite Z.pow_mul_r by lia; done).
  rewrite Z2Pos.id by lia.
  rewrite (Z.log2_unique _ (8 * n)) by (rewrite ?Z.pow_succ_r by lia; lia).
  rewrite Z.mul_comm, Z.div_mul by lia. unfold n. rewrite Nat2Z.id, le_bytes_of_le by done. apply string_of_bytes_of.
Qed.

#[local] Instance bytes_countable : Countable string := {|
  encode := str_pos; decode p := Some (pos_str p); decode_encode s := f_equal Some (pos_str_pos s)
|}.

#[export] Instance Claims_countable : Countable Claims.
Proof.
  refine (inj_countable (λ c, [encode (c_sub c); encode (c_email c); encode (c_exp c); encode (c_iat c)])
    (λ l, match l with
          | [a; b; c; d] => a ← decode a; b ← decode b; c ← decode c; d ← decode d; Some (mkClaims a b c d)
          | _ => None
          end) _).
  intros [sub email exp iat]. cbn [c_sub c_email c_exp c_iat].
  by repeat (rewrite decode_encode; cbn [mbind option_bind]).
Defined.

Definition claims_text (c : Claims) : string :=
  let p := encode c in string_of (le_bytes (S (Z.to_nat (Z.log2 (Z.pos p) / 8))) (Z.pos p)).

Definition jwtlib : JwtLib := {|
  jwt_Sign secret c := hmac_sha256 secret (claims_text c) +:+ claims_text c;
  jwt_Parse secret now t :=
    match slice_to t 32, slice_from t 32 with
    | Some mac, Some text =>
      if bool_decide (mac = hmac_sha256 secret text) then
        match decode (Z.to_pos (of_le_bytes (bytes_of text))) with
        | Some c => if now <? c_exp c then Ok c else Err ErrTokenExpired
        | None => Err (ErrOther "token is malformed")
        end
      else Err (ErrOther "signature is invalid")
    | _, _ => Err (ErrOther "token is malformed")
    end;
|}.
#[export] Existing Instance jwtlib.

#[export] Instance jwtlib_ok : JwtLibOk.
Proof.
  split; [intros secret now c|intros secret now t; cbn [jwt_Parse jwtlib]].
  2: { destruct (slice_to t 32); [|discriminate]. destruct (slice_from t 32); [|discriminate].
       destruct (bool_decide _); [|discriminate]. destruct (decode _) as [c|]; [|discriminate].
       destruct (now <? c_exp c); discriminate. }
  cbn [jwt_Sign jwt_Parse jwtlib].
  rewrite <-(length_hmac_sha256 secret (claims_text c)), slice_to_app, slice_from_app, bool_decide_eq_true_2 by done.
  unfold claims_text. cbv zeta. rewrite bytes_of_string_of by apply le_bytes_range.
  rewrite of_le_bytes_le; [cbn [Z.to_pos]; by rewrite decode_encode|].
  split; [done|]. set (p := Z.pos (encode c)). pose proof (Z.log2_nonneg p).
  rewrite Nat2Z.inj_succ, Z2Nat.id by (apply Z.div_pos; lia).
  destruct (Z.log2_spec p ltac:(done)) as [_ Hlt]. eapply Z.lt_le_trans; [exact Hlt|].
  change 256 with (2 ^ 8). rewrite <-Z.pow_mul_r by (pose proof (Z.div_pos (Z.log2 p) 8); lia).
  apply Z.pow_le_mono_r; [lia|]. pose proof (Z.div_mod (Z.log2 p) 8). pose proof (Z.mod_pos_bound (Z.log2 p) 8). lia.
Qed.
