(* ===== verification/Fixtures.v ===== *)
(** A small concrete deployment: the executable library instances of
    [External], three configured providers, their cache and a clock.  The
    examples and witnesses of the specification files run on it. *)
From stdpp Require Import base tactics list gmap strings numbers.
From Stdlib Require Import ZArith Lia.
From S2P Require Import Prelude GoStd GoCrypto GoAes Model Codecs Helpers World Schema External EventsRepo Crypto Providers Ingest.
From S2P Require Import Github Shopify Stripe Hub Auth Search Dashboard Stream Limiter WorkerRepo Worker WorkerLoop Startup.
From S2P Require Import Handlers Pipeline App Keeps System Secrets TokenLib.

Open Scope Z_scope.

#[export] Existing Instance Concrete.postgres.
#[export] Existing Instance Concrete.postgres_ok.
#[export] Existing Instance Concrete.uuidlib.
#[export] Existing Instance Concrete.uuidlib_ok.
#[export] Existing Instance Concrete.stripelib.
#[export] Existing Instance Concrete.stripelib_ok.
(** A table of printable runes beyond ASCII that has none. *)
#[export] Instance unicode : Unicode := {| IsPrint _ := false |}.

(** Log levels, connection strings and pool sizes that are accepted. *)
#[export] Instance loglib : LogLib :=
  {| ParseLevel s := if bool_decide (s = "info"%string) then Some 1 else None |}.
#[export] Instance infra_lib : InfraLib :=
  {| ParseConfig_ok _ := true; NewWithConfig_ok n := 1 <=? n; ParseURL_ok _ := true |}.

#[export] Instance any_url : HttpLib := {| NewRequest_ok _ := true |}.
#[export] Instance in_order : Scheduler := {| order _ n := seq 0 n |}.
#[export] Instance in_order_ok : SchedulerOk.
Proof. split. done. Qed.

(** Text with double quotes for its single ones. *)
Definition double_quoted (s : string) : string := string_of ((λ b, if b =? 39 then 34 else b) <$> bytes_of s).

Module Fix.

Definition cfg : Config :=
  mkConfig "postgres" "user" "pw" "localhost" 5432 "vaulthook" "redis://localhost" "a@b.c" "pw" 1 "jwt"
    "0123456789abcdef0123456789abcdef" false.

(** The environment that holds this configuration, and what the runtime of a
    built binary reports. *)
Definition environ : Environ := list_to_map
  [("DB_TYPE", "postgres"); ("DB_USER", "user"); ("DB_PASSWORD", "pw"); ("DB_HOST", "localhost"); ("DB_PORT", "5432");
   ("DB_NAME", "vaulthook"); ("REDIS_URL", "redis://localhost"); ("USER_EMAIL", "a@b.c"); ("USER_PASSWORD", "pw");
   ("LOG_LEVEL", "info"); ("TOKEN_SECRET", "jwt"); ("MASTER_KEY", "0123456789abcdef0123456789abcdef");
   ("IS_DEVELOPMENT", "false")]%string.
Definition runtime : Runtime :=
  mkRuntime (Some ("go1.25"%string, [("vcs", "git"); ("vcs.revision", "b2c4")]%string))
    (3 * 1048576) (5 * 1048576) (9 * 1048576) 2 17 (Some (4096, 4096)).

Definition secret : string := "whsec_1".
Definition nonce : string := "abcdefghijkl".
Definition sealed : string := EncodeToString (nonce +:+ gcm_seal (MasterKey cfg) nonce secret).

Definition github : Provider := mkProvider 1 Github sealed "https://gh.example/hook" 3 10 true 0.
Definition shopify : Provider := mkProvider 2 Shopify sealed "https://sh.example/hook" 3 10 true 0.
Definition stripe : Provider := mkProvider 3 Stripe sealed "https://st.example/hook" 3 10 true 0.
Definition provs : list Provider := [github; shopify; stripe].

Definition table : gmap UUID Provider := list_to_map ((λ p, (p_ID p, p)) <$> provs).
Definition db : DB := mkDB table ∅ ∅.
Definition cache_of (provs : list Provider) : KV :=
  match kvPairs "insertion" provs with Ok pairs => mset pairs ∅ | _ => ∅ end.
Definition cached (p : Provider) : string := match Marshal p with Ok b => b | _ => "" end.
Definition redis : Redis := mkRedis (cache_of provs) ∅.
Definition now : Time := 1750000000 * Second.

(** The world with events [m] and script [env]. *)
Definition world (m : gmap UUID Webhook) (env : list EnvStep) : World :=
  mkWorld now env cfg (mkDB table m ∅) redis true (100, 50) NewEventService 0 [].
Definition w0 : World := world ∅ [].

(** A stored event in the given state. *)
Definition event (id : UUID) (key : string) (st : DeliveryStatus) (retries : Z) (next : option Time)
    (err : option string) (code : option Z) : Webhook :=
  mkWebhook id 1 Github (Some key) "push" (header_text ∅) "{}" st "https://gh.example/hook" code retries
    next err (now - Hour) (now - Hour) (now - Hour).
Definition queued (id : UUID) (key : string) : Webhook := event id key Queued 0 None None None.

(** A step of the outside world with this response of the destination. *)
Definition responds (code : Z) (retryAfter : string) : EnvStep :=
  mkStep 1000 None (mkResp code "status" retryAfter) 7 "" ∅.

(** Requests *)
Definition body : string := "{}".
Definition headers (l : list (string * string)) : Header :=
  foldr (λ '(k, v) h, header_add k v h) ∅ l.

Definition github_signature : string := "sha256=" +:+ EncodeToString (hmac_sha256 secret body).
Definition github_request (hook delivery signature : string) : HttpRequest :=
  mkHttpReq (headers [("X-Github-Hook-Id", hook); ("X-Github-Event", "push");
                      ("X-Github-Delivery", delivery); ("X-Hub-Signature-256", signature)]%string) body false.

Definition stripe_signature : string :=
  "v1=" +:+ EncodeToString (hmac_sha256 secret ("0" +:+ "." +:+ body)).
Definition stripe_request : HttpRequest :=
  mkHttpReq (headers [("Stripe-Signature", stripe_signature)]%string) body false.

Definition shopify_request (id : string) : HttpRequest :=
  mkHttpReq (headers [("X-Shopify-Webhook-Id", id); ("X-Shopify-Topic", "orders/create");
                      ("X-Shopify-Hmac-Sha256", "uKOoITYn7DF6UtIwajm6TZuHSoNgxpEP4WDZiMSOHQ8=")]%string) body false.

Lemma db_ok_world m :
  keyed wh_ID m → unique_events m → (∀ i x, m !! i = Some x → wh_ProviderID x = 1) → db_ok (mkDB table m ∅).
Proof.
  intros Hk Hu Hp. split; simpl; [done| |done| |].
  - intros i p Hi. apply elem_of_list_to_map_2 in Hi. apply list_elem_of_fmap in Hi as (q & [= -> ->] & _). done.
  - intros i j p q Hi Hj Hpq. apply elem_of_list_to_map_2, list_elem_of_fmap in Hi as (p' & [= -> ->] & Hp').
    apply elem_of_list_to_map_2, list_elem_of_fmap in Hj as (q' & [= -> ->] & Hq').
    unfold provs in *. set_solver.
  - intros i x Hx. rewrite (Hp i x Hx). by exists github.
Qed.

(** The table that holds the events of a list. *)
Definition events_of (l : list Webhook) : gmap UUID Webhook := list_to_map ((λ x, (wh_ID x, x)) <$> l).

Definition well_formed (l : list Webhook) : bool :=
  bool_decide (NoDup (wh_ID <$> l)) && bool_decide (NoDup (wh_EventID <$> l))
  && forallb (λ x, wh_ProviderID x =? 1) l.

Lemma events_of_lookup l i x : events_of l !! i = Some x → wh_ID x = i ∧ x ∈ l.
Proof. intros Hi. by apply elem_of_list_to_map_2, list_elem_of_fmap in Hi as (y & [= -> ->] & Hy). Qed.

Lemma NoDup_fmap_inj_on {A B} (f : A → B) l x y : NoDup (f <$> l) → x ∈ l → y ∈ l → f x = f y → x = y.
Proof.
  induction l as [|a l IH]; [by intros _ ?%not_elem_of_nil|].
  change (f <$> a :: l) with (f a :: (f <$> l)). intros Hnd. inversion_clear Hnd as [|? ? Ha Hl].
  intros [->|Hx]%elem_of_cons [->|Hy]%elem_of_cons E; [done| | |by apply IH].
  - destruct Ha. apply list_elem_of_fmap. eauto.
  - destruct Ha. apply list_elem_of_fmap. eauto.
Qed.

Lemma db_ok_events l : well_formed l = true → db_ok (mkDB table (events_of l) ∅).
Proof.
  unfold well_formed. intros Hw. apply andb_true_iff in Hw as [[Hid Hev]%andb_true_iff Hp].
  bsplit. apply db_ok_world.
  - intros i x Hx. by apply events_of_lookup in Hx as [? _].
  - intros i j a b [<- Ha]%events_of_lookup [<- Hb]%events_of_lookup _ He _.
    f_equal. by apply (NoDup_fmap_inj_on wh_EventID l).
  - intros i x [_ Hx]%events_of_lookup. rewrite forallb_forall in Hp.
    apply Z.eqb_eq, Hp. by apply list_elem_of_In.
Qed.

End Fix.

Example queued_text : resp_body (queued_response "7&") =
  (double_quoted "{'id':'7\u0026','status':'queued'}" +:+ string_of [10])%string.
Proof. vm_compute. reflexivity. Qed.

Example github_request_accepted :
  (github_Receive (Fix.github_request "77" "d1" Fix.github_signature) Fix.w0).1 = Some (queued_response "77").
Proof. vm_compute. reflexivity. Qed.
Example stripe_request_accepted :
  (stripe_Receive Fix.stripe_request Fix.w0).1 = Some (queued_response "{}").
Proof. vm_compute. reflexivity. Qed.
Example shopify_request_accepted :
  (shopify_Receive (Fix.shopify_request "5") Fix.w0).1 = Some (queued_response "5").
Proof. vm_compute. reflexivity. Qed.
