(* ===== verification/Scenario.v ===== *)
(** A run of the concrete deployment of [Fixtures] from its migrations on:
    start, login, configuration of a provider, a webhook, its delivery; and a
    second run in which the destination fails and the process crashes during
    the retry.  The witnesses of [SpecSystem] are taken from its states. *)
From stdpp Require Import base tactics list gmap strings numbers relations.
From Stdlib Require Import ZArith Lia.
From S2P Require Import Prelude GoStd Json GoCrypto GoAes Model Codecs Helpers World Schema External EventsRepo Crypto Providers Ingest Auth.
From S2P Require Import Github Shopify Stripe Hub Search Dashboard Limiter WorkerRepo Worker WorkerLoop Startup.
From S2P Require Import Handlers Pipeline App Keeps HubTrace System SystemInv Secrets TokenLib Fixtures.

Open Scope Z_scope.

(** ** Deployments before their first start *)

(** The providers the migrations insert, with their request rates. *)
Definition seeded_providers : list (string * Z) := [(Github, 100); (Stripe, 90)].
Definition shopify_provider : string * Z := (Shopify, 120).
Definition default_providers : list (string * Z) := seeded_providers ++ [shopify_provider].

Definition migrated (p : Provider) : Prop :=
  uuid_ok (p_ID p) ∧ (p_Name p, p_MaxReqSecond p) ∈ default_providers ∧ p_SigningSecret p = EmptyString ∧
  p_DestinationURL p = EmptyString ∧ p_MaxRetries p = 5 ∧ p_IsConfigured p = false.

(** The tables as the migrations leave them, nothing cached, no process. *)
Record fresh (s : System) : Prop := {
  fr_db : db_ok (w_db (s_world s));
  fr_rows : rows_of s = ∅;
  fr_providers : ∀ i p, providers (w_db (s_world s)) !! i = Some p → migrated p;
  fr_cache : kv (w_redis (s_world s)) = ∅;
  fr_down : s_up s = false ∧ s_pool s = [] ∧ s_requests s = [];
  fr_hub : w_hub (s_world s) = NewEventService;
}.

Lemma migrated_ok p : migrated p → provider_ok p.
Proof.
  destruct p as [id name sec des ret req conf crt]. intros (Hid & Hn & Hs & Hd & Hr & _). simpl in *. subst.
  unfold default_providers, seeded_providers, shopify_provider in Hn. cbn [app] in Hn. rewrite !elem_of_cons in Hn.
  destruct Hn as [[= -> ->]|[[= -> ->]|[[= -> ->]|Hn]]]; [..|by apply not_elem_of_nil in Hn];
    (split; simpl; [done|vm_compute; reflexivity|by left|unfold maxRetryCount; lia|unfold maxReqSecond; lia]).
Qed.

Section reachable.
Context `{Postgres, StripeLib, HttpLib, UuidLib, JwtLib, Unicode, InfraLib, LogLib}.

(** A state some deployment gets to. *)
Definition reachable (s : System) : Prop := ∃ s0, fresh s0 ∧ rtc (any_step (λ _, True)) s0 s.

Lemma fresh_sys_inv R s : fresh s → sys_inv R s.
Proof.
  intros [Hok He _ _ (_ & Hp & _) _]. split; [split; [done|]|].
  - intros i x. unfold rows_of in He. by rewrite He, lookup_empty.
  - intros i k p. by rewrite Hp.
Qed.

Lemma reachable_sys_inv R s : row_closed R → reachable s → sys_inv R s.
Proof. intros HR (s0 & Hf & Hr). eapply sys_inv_reachable; [done|exact Hr|]. by apply fresh_sys_inv. Qed.

Lemma reachable_prov_inv `{!UuidLibOk} s : reachable s → holds prov_inv s.
Proof.
  intros (s0 & [_ _ Hp Hc _ _] & Hr). eapply prov_inv_reachable; [exact Hr|]. split.
  - intros i p Hi. by apply migrated_ok, (Hp i).
  - intros k v p. by rewrite Hc, lookup_empty.
Qed.

Lemma reachable_history s : reachable s → has_history (w_hub (s_world s)).
Proof. intros (s0 & [_ _ _ _ _ Hh] & Hr). eapply steps_record; [exact Hr|]. rewrite Hh. apply history_new. Qed.

Lemma reachable_steps P s s' : reachable s → rtc (any_step P) s s' → reachable s'.
Proof.
  intros (s0 & Hf & Hr) Hs. exists s0. split; [done|]. etrans; [exact Hr|]. by eapply weaken_steps; [|exact Hs].
Qed.

Lemma reachable_step l s s' : reachable s → step l s s' → reachable s'.
Proof. intros Hr Hs. apply (reachable_steps (λ _, True) s); [done|]. apply rtc_once. by exists l. Qed.

(** What [s] becomes when its worker [i], of kind [k], wakes up and runs some
    rounds. *)
Definition after_rounds `{Scheduler} (fuel i : nat) (k : Kind) (s : System) : System :=
  let r := run (R := NewWorkerRepo k) fuel (s_world s) in
  mkSystem r.2 true (<[i := (k, after_run r.1)]> (<[i := (k, Idle)]> (s_pool s))) (s_requests s).

Definition working (l : label) : Prop := l = LWake ∨ in_round l.

Definition after_round `{Scheduler} : nat → Kind → System → System := after_rounds 1.

Lemma after_rounds_steps `{SchedulerOk} fuel i k s :
  s_up s = true → s_pool s !! i = Some (k, Waiting) → rtc (any_step working) s (after_rounds fuel i k s).
Proof.
  destruct s as [w up ws rs]. cbn [s_up s_pool]. intros -> Hi.
  eapply rtc_l; [exists LWake; split; [by left|by eapply StepTick]|].
  eapply (weaken_steps in_round); [by right|].
  apply (run_steps fuel). apply list_lookup_insert_eq. by eapply lookup_lt_Some.
Qed.

Lemma after_round_steps `{SchedulerOk} i k s :
  s_up s = true → s_pool s !! i = Some (k, Waiting) → rtc (any_step working) s (after_round i k s).
Proof. apply after_rounds_steps. Qed.

End reachable.

Lemma working_hands_off i l : working l → hands_off i l.
Proof. by intros [->|[->|[->| ->]]]. Qed.
Lemma working_not_cleanup l : working l → l ≠ LCleanup.
Proof. by intros [->|[->|[->| ->]]]. Qed.

(** ** The run *)
Module Run.

Definition provider (id : UUID) (d : string * Z) : Provider := mkProvider id d.1 "" "" 5 d.2 false 0.
Definition table : gmap UUID Provider :=
  list_to_map [(1, provider 1 (Github, 100)); (2, provider 2 (Stripe, 90)); (3, provider 3 (Shopify, 120))].
Definition down : System :=
  mkSystem (mkWorld Fix.now [] Fix.cfg (mkDB table ∅ ∅) (mkRedis ∅ ∅) false (0, 0) NewEventService 0 []) false [] [].

Definition serves (r : api_request) (s : System) : System := mkSystem (serve r (s_world s)).2 true (s_pool s) (s_requests s).

(** Started on four processors, and logged in. *)
Definition started : System := mkSystem (Startup.start Fix.environ Fix.runtime 4 (s_world down)).2 true NewWorkerPool [].
Definition login_body : string := string_of (object_lit [(str_json "email", str_json "a@b.c"); (str_json "password", str_json "pw")]).
Definition login_request : api_request := Public (PostLogin "application/json" login_body).
Definition logged_in : System := serves login_request started.

Definition token : string :=
  match (serve login_request (s_world started)).1 with
  | AuthAnswer (Some (mkAuthResp _ (c :: _))) => ck_Value c
  | _ => ""
  end.

(** GitHub is configured: secret, destination, retries and rate. *)
Definition config_body : string := string_of (object_lit
  [(str_json "signing_secret", str_json Fix.secret); (str_json "destination_url", str_json "https://gh.example/hook");
   (str_json "max_retries", int_lit 3); (str_json "max_req_second", int_lit 10)]).
Definition config_request : api_request :=
  Protected [(accessCookieName, token)] (PatchProvider "1" "application/json" config_body).
Definition set_up : System := serves config_request logged_in.

(** A webhook passes the duplicate check and is stored. *)
Definition request : HttpRequest := Fix.github_request "77" "d1" Fix.github_signature.
Definition pending : Pending := mkPending Github (header_text (r_header request)) Fix.body "77" "push".
Definition arrives (at_ : endpoint) (r : HttpRequest) (p : Pending) (s : System) : System :=
  mkSystem (arrive at_ r (s_world s)).2 true (s_pool s) (s_requests s ++ [p]).
Definition accepts (p : Pending) (s : System) : System := mkSystem (accept p (s_world s)).2 true (s_pool s) [].
Definition arrived : System := arrives AtGithub request pending set_up.
Definition stored : System := accepts pending arrived.

(** The first queue worker delivers it. *)
Definition delivered : System := after_round 0 WorkerKindQueue stored.

(** Or the destination answers 500, a retry worker claims the event half a
    minute later, and the process crashes and starts again. *)
Fixpoint with_env (es : list EnvStep) (s : System) : System :=
  match es with
  | [] => s
  | e :: es => with_env es (mkSystem (set_env (λ l, l ++ [e]) (s_world s)) (s_up s) (s_pool s) (s_requests s))
  end.
Definition passed (d : N) (s : System) : System := mkSystem (pass d (s_world s)) (s_up s) (s_pool s) (s_requests s).

Definition outage : System := with_env (replicate 8 (Fix.responds 500 "")) stored.
Definition failed : System := after_round 0 WorkerKindQueue outage.
Definition due : System := passed 31000000000 failed.
Definition claims (i : nat) (k : Kind) (s : System) : System :=
  let r := WorkerRepo.GetEvents k (s_world s) in
  mkSystem r.2 true (<[i := (k, dispatched r.1.1)]> (<[i := (k, Idle)]> (s_pool s))) (s_requests s).
Definition retrying : System := claims 8 WorkerKindRetry due.
Definition crashed : System := mkSystem (stopped (s_world retrying)) false [] [].
Definition restarted : System := mkSystem (Startup.start Fix.environ Fix.runtime 4 (s_world crashed)).2 true NewWorkerPool [].
Definition later : System := after_round 8 WorkerKindRetry (passed 600000000000 restarted).

(** ** Its states are reachable *)

Lemma down_fresh : fresh down.
Proof.
  split; try done.
  - split; simpl; try done.
    + intros i p Hi. by apply elem_of_list_to_map_2 in Hi; set_solver.
    + intros i j p q Hi%elem_of_list_to_map_2 Hj%elem_of_list_to_map_2 Hpq. set_solver.
  - intros i p Hi%elem_of_list_to_map_2. apply list_elem_of_In in Hi. cbn in Hi.
    unfold migrated, default_providers, seeded_providers, shopify_provider.
    destruct Hi as [[= <- <-]|[[= <- <-]|[[= <- <-]|[]]]]; (split; [by vm_compute|set_solver]).
Qed.

Lemma serves_reachable r s : s_up s = true → reachable s → reachable (serves r s).
Proof. destruct s as [w up ws rs]. cbn. intros -> Hr. eapply reachable_step; [exact Hr|]. apply StepServe. Qed.

Lemma started_step s : s_up s = false → is_ok (Startup.start Fix.environ Fix.runtime 4 (s_world s)).1 = true →
  step LStart s (mkSystem (Startup.start Fix.environ Fix.runtime 4 (s_world s)).2 true NewWorkerPool []).
Proof.
  destruct s as [w up ws rs]. cbn [s_up s_world]. intros -> E. pose proof (StepStart Fix.environ Fix.runtime 4 w ws rs) as Hs. by rewrite E in Hs.
Qed.

Lemma started_reachable : reachable started.
Proof.
  eapply reachable_step; [exists down; split; [apply down_fresh|done]|]. apply started_step; [done|].
  vm_compute. reflexivity.
Qed.

Lemma set_up_reachable : reachable set_up.
Proof. by do 2 (apply serves_reachable; [done|]); apply started_reachable. Qed.

Lemma arrives_reachable at_ r p s :
  s_up s = true → (arrive at_ r (s_world s)).1 = inr p → reachable s → reachable (arrives at_ r p s).
Proof.
  destruct s as [w up ws rs]. unfold arrives. cbn [s_up s_world s_pool s_requests]. intros -> E Hr.
  eapply reachable_step; [exact Hr|]. eapply StepArrive. by apply injective_projections.
Qed.

Lemma accepts_reachable p s :
  s_up s = true → s_requests s = [p] → reachable s → reachable (accepts p s).
Proof.
  destruct s as [w up ws rs]. unfold accepts. cbn [s_up s_world s_pool s_requests]. intros -> -> Hr.
  eapply reachable_step; [exact Hr|]. exact (StepStore p w ws [] []).
Qed.

Lemma arrive_eq : (arrive AtGithub request (s_world set_up)).1 = inr pending.
Proof. vm_compute. reflexivity. Qed.

Lemma stored_reachable : reachable stored.
Proof.
  apply accepts_reachable; [reflexivity|reflexivity|].
  apply arrives_reachable; [reflexivity|apply arrive_eq|apply set_up_reachable].
Qed.

Lemma with_env_steps es s : rtc (any_step (λ l, l = LEnv)) s (with_env es s).
Proof.
  revert s. induction es as [|e es IH]; intros [w up ws rs]; [done|]. eapply rtc_l; [|apply IH].
  exists LEnv. split; [done|]. apply StepEnv.
Qed.
Lemma passed_step d s : step LEnv s (passed d s).
Proof. destruct s as [w up ws rs]. apply StepTime. Qed.

Lemma delivered_steps : rtc (any_step working) stored delivered.
Proof. apply after_round_steps; [done|reflexivity]. Qed.
Lemma delivered_reachable : reachable delivered.
Proof. eapply reachable_steps; [apply stored_reachable|apply delivered_steps]. Qed.

Lemma failed_reachable : reachable failed.
Proof.
  eapply reachable_steps; [eapply reachable_steps; [apply stored_reachable|apply with_env_steps]|].
  apply after_round_steps; [done|reflexivity].
Qed.

Lemma claims_reachable i k s :
  s_up s = true → s_pool s !! i = Some (k, Waiting) → (WorkerRepo.GetEvents k (s_world s)).1.2 = None →
  reachable s → reachable (claims i k s).
Proof.
  destruct s as [w up ws rs]. unfold claims. cbn [s_up s_world s_pool s_requests]. intros -> Hi E Hr.
  pose proof (lookup_lt_Some _ _ _ Hi) as Hlt.
  eapply reachable_step; [eapply reachable_step; [exact Hr|by eapply StepTick]|].
  eapply StepClaim; [by apply list_lookup_insert_eq|].
  destruct (WorkerRepo.GetEvents k w) as [[hooks err] w1]. cbn [fst snd] in *. by subst.
Qed.

Lemma claimed_eq : (WorkerRepo.GetEvents WorkerKindRetry (s_world due)).1.2 = None.
Proof. vm_compute. reflexivity. Qed.

Lemma retrying_reachable : reachable retrying.
Proof.
  apply claims_reachable; [reflexivity|reflexivity|apply claimed_eq|].
  eapply reachable_step; [apply failed_reachable|apply passed_step].
Qed.

Lemma crash_step : step LCrash retrying crashed.
Proof. apply StepCrash. Qed.

(** From the crash on: a start, ten minutes, and a round of a retry worker. *)
Lemma later_steps i : rtc (any_step (hands_off i)) crashed later.
Proof.
  eapply rtc_l; [exists LStart; split; [done|]; apply started_step; [done|vm_compute; reflexivity]|].
  eapply rtc_l; [exists LEnv; split; [done|apply passed_step]|].
  eapply weaken_steps; [apply working_hands_off|]. apply after_round_steps; [done|reflexivity].
Qed.

End Run.
