(* ===== verification/SpecReceive.v ===== *)
(** What the receiving endpoints guarantee: authenticity, persistence before
    acknowledgement, deduplication, limits. *)
From stdpp Require Import base tactics list gmap strings numbers.
From Stdlib Require Import ZArith Lia.
From S2P Require Import Prelude GoStd GoCrypto Model Codecs World Schema External EventsRepo Crypto Providers Ingest.
From S2P Require Import Github Shopify Stripe Hub WorkerRepo Worker Handlers Pipeline System Fixtures.

Open Scope Z_scope.

Section receive.
Context `{UuidLib, Postgres, StripeLib}.

(** What an endpoint promises of a request: its own headers give the keys of
    the duplicate check, the id and the type of the event; at Stripe they are
    those of the event the signature check returned. *)
Definition receive_spec (at_ : endpoint) (r : HttpRequest) (w w' : World) (resp : option HttpResponse) : Prop :=
  let h k := header_get k (r_header r) in
  match at_ with
  | AtGithub =>
    let hid := h "X-Github-Hook-Id"%string in
    ingest_outcome Github [h "X-Github-Delivery"%string; hid] hid (h "X-Github-Event"%string)
      (vouched_by Github Github.authentic (h "X-Hub-Signature-256"%string) r w) r w w' resp
  | AtShopify =>
    let hid := h "X-Shopify-Webhook-Id"%string in
    ingest_outcome Shopify [hid; hid] hid (h "X-Shopify-Topic"%string)
      (vouched_by Shopify Shopify.authentic (h "X-Shopify-Hmac-Sha256"%string) r w) r w w' resp
  | AtStripe =>
    let sig := h "Stripe-Signature"%string in
    ∃ ev, ingest_outcome Stripe [ev_ID ev; ev_ID ev] (ev_ID ev) (ev_Type ev)
      (vouched_by Stripe Stripe.authentic sig r w ∧ (Stripe.ValidateSecret sig (r_body r) w).1 = Ok ev) r w w' resp
  end.

(** C11: every run of an endpoint is refused without a trace, is the
    acknowledgement of an event already in the table (under the key of the
    duplicate check or the stored id), or stores exactly one new queued row for
    the signed body, announces it and signals the workers. *)
Theorem receive_refines `{!StripeLibOk} at_ r w : receive_spec at_ r w (receive at_ r w).2 (receive at_ r w).1.
Proof.
  destruct at_; [apply github_outcome, surjective_pairing|apply shopify_outcome, surjective_pairing|].
  apply stripe_outcome, surjective_pairing.
Qed.

(** C12: the three handlers are one pipeline: at every endpoint, on every request
    and whatever fails, [Receive] gives the answer and the effects of the
    generic gate up to the duplicate check followed by the insertion. *)
Theorem receive_is_pipeline at_ r w : receive at_ r w = pipeline at_ r w.
Proof. exact (receive_pipeline at_ r w). Qed.

(** C10: a request whose body is not signed under the provider's secret changes
    nothing and is never answered 200, at any endpoint and whatever fails. *)
Theorem unsigned_changes_nothing `{!StripeLibOk} at_ r w :
  ¬ ep_signed at_ r w →
  same_state w (receive at_ r w).2 ∧
  ∀ x, (receive at_ r w).1 = Some x → resp_status x ≠ StatusOK.
Proof.
  intros Hu. destruct (receive_outcome at_ r w _ _ (surjective_pairing _)) as (keys & id & event & vouched & Ho & Hv).
  destruct Ho as [resp Hs Hr|Hv' _ _|hook Hv' _]; [done|by destruct Hu; apply Hv..].
Qed.


(** C13: an event whose id is in the table is never stored again: whatever the
    request carries and whatever fails, its arrival changes nothing. *)
Theorem duplicate_never_stored `{!StripeLibOk} at_ r w id :
  list.last (ep_keys at_ r w) = Some id → known w (ep_name at_) id →
  same_state w (receive at_ r w).2.
Proof.
  intros Hl Hk. destruct (receive_outcome at_ r w _ _ (surjective_pairing _)) as (keys & id' & event & vouched & Ho & Hv).
  destruct Ho as [resp Hs Hr|Hv' Hs _|hook Hv' Hst]; [done..|].
  destruct (Hv Hv') as (_ & Hl' & _). assert (id' = id) as -> by congruence.
  by destruct (st_unknown _ _ _ _ _ _ _ Hst).
Qed.

(** A body longer than the endpoint's limit is answered 503 before any
    other part of the system is touched. *)
Theorem oversized_refused at_ r w :
  (match at_ with AtGithub => gitMaxBodyBytes | AtShopify => shopifyMaxBodyBytes | AtStripe => StripeMaxBodyBytes end
   < len (r_body r)) →
  receive at_ r w = (Some (WriteHeader StatusServiceUnavailable), w).
Proof.
  intros Hl. destruct at_; simpl; [unfold github_Receive|unfold shopify_Receive|unfold stripe_Receive];
    unfold read_body; by rewrite (proj2 (Z.ltb_lt _ _) Hl), orb_true_r.
Qed.

(** While a provider is not configured its secret is the empty string, and
    the GitHub check accepts any body signed with the empty key. *)
Theorem unconfigured_accepts_empty_key `{!UuidLibOk} prov b payload w :
  reliable w → provider_text prov → Marshal prov = Ok b →
  kv (w_redis w) !! (RedisProviderPrefix +:+ Github) = Some b →
  p_SigningSecret prov = ""%string →
  (Github.ValidateSecret ("sha256=" +:+ EncodeToString (hmac_sha256 "" payload)) payload w).1 = Ok tt.
Proof.
  intros Hrel Hu Hb Hk Hs. unfold Github.ValidateSecret, signing_secret, st_bind_res. rewrite !st_bind_run.
  destruct (reliable_ext w Hrel) as [_ Hf].
  destruct (Cache_Get_cached Github w prov b Hu Hb Hk) as [E|(err & _ & Ef)]; [|congruence].
    rewrite E, st_bind_run. cbn [st_gets st_ret fst snd]. rewrite Hs.
    change (DecryptSigningKey _ "") with (Ok ""%string : result string). cbv beta iota.
    unfold hmac_Equal. by rewrite bool_decide_eq_true_2.
Qed.
End receive.

(** ** Instances of the theorems *)

Lemma no_signature_github r w :
  header_get "X-Hub-Signature-256" (r_header r) = ""%string → ¬ ep_signed AtGithub r w.
Proof. intros E (s & _ & Ha). by rewrite E in Ha. Qed.

Lemma unsigned_changes_nothing_witness :
  same_state Fix.w0 (receive AtGithub (Fix.github_request "77" "d1" "") Fix.w0).2 ∧
  (receive AtGithub (Fix.github_request "77" "d1" "") Fix.w0).1 = Some (WriteHeader StatusBadRequest).
Proof.
  split; [|vm_compute; reflexivity].
  apply (unsigned_changes_nothing AtGithub (Fix.github_request "77" "d1" "") Fix.w0).
  apply no_signature_github. vm_compute. reflexivity.
Defined.


(** The world after a first delivery of hook 77. *)
Definition after_first : World := (github_Receive (Fix.github_request "77" "d1" Fix.github_signature) Fix.w0).2.

Lemma after_first_known : known after_first Github "77".
Proof.
  exists Fix.github, 0, (default (Fix.queued 0 "") (webhook_events (w_db after_first) !! 0)).
  split; [exists (Fix.cached Fix.github); split|split; [|split]]; by_compute.
Qed.

Lemma duplicate_never_stored_witness :
  same_state after_first (receive AtGithub (Fix.github_request "77" "d2" Fix.github_signature) after_first).2.
Proof.
  apply (duplicate_never_stored AtGithub (Fix.github_request "77" "d2" Fix.github_signature) after_first "77");
    [vm_compute; reflexivity|apply after_first_known].
Defined.


Lemma oversized_refused_witness :
  receive AtStripe (mkHttpReq ∅ (string_of (replicate (Z.to_nat 65540) 65)) false) Fix.w0
  = (Some (WriteHeader StatusServiceUnavailable), Fix.w0).
Proof. apply (oversized_refused AtStripe). vm_compute. reflexivity. Defined.

Definition unconfigured : Provider := mkProvider 1 Github "" "" 0 0 false 0.
Definition unconfigured_world : World :=
  set_redis (λ rd, mkRedis (Fix.cache_of [unconfigured]) ∅) Fix.w0.

Lemma unconfigured_accepts_empty_key_witness :
  (Github.ValidateSecret ("sha256=" +:+ EncodeToString (hmac_sha256 "" "{}")) "{}" unconfigured_world).1 = Ok tt.
Proof.
  apply (unconfigured_accepts_empty_key unconfigured (Fix.cached unconfigured) "{}" unconfigured_world);
    [constructor|split; [by vm_compute|by vm_compute|by vm_compute..]|by_compute|by_compute|reflexivity].
Defined.

Lemma receive_refines_witness :
  receive_spec AtStripe Fix.stripe_request Fix.w0 (stripe_Receive Fix.stripe_request Fix.w0).2
    (stripe_Receive Fix.stripe_request Fix.w0).1 ∧
  (stripe_Receive Fix.stripe_request Fix.w0).1 = Some (queued_response "{}").
Proof. split; [exact (receive_refines AtStripe Fix.stripe_request Fix.w0)|vm_compute; reflexivity]. Defined.
