(* ===== verification/SpecSystem.v ===== *)
(** What holds of the whole system in every state a deployment gets to. *)
From stdpp Require Import base tactics list gmap strings numbers relations.
From Stdlib Require Import ZArith Lia.
From S2P Require Import Prelude GoStd GoCrypto GoAes Model Codecs Helpers World Schema External EventsRepo Crypto Providers Ingest Auth.
From S2P Require Import Github Shopify Stripe Hub Search Dashboard Double Limiter WorkerRepo Worker WorkerLoop Deliver Startup.
From S2P Require Import Handlers Pipeline App Keeps HubTrace System SystemInv Secrets Lifecycle TokenLib Fixtures Scenario.

Open Scope Z_scope.

Section system.
Context `{Postgres, StripeLib, HttpLib, UuidLib, JwtLib, Unicode, InfraLib, LogLib}.

(** C3: in every state a deployment reaches, through any interleaving of
    requests to any route, worker rounds, replays, configuration, cleanups,
    crashes, starts and failures of the outside world: keys, foreign keys and
    the uniqueness of (provider, event id) hold; every event has an id; a queued
    row has never been attempted; a delivered row carries a 2xx code, no error
    and no retry; a failed row says why; retry counts stay in range. *)
Theorem reachable_rows_consistent s :
  reachable s →
  db_ok (w_db (s_world s)) ∧ ∀ i x, rows_of s !! i = Some x → row_ok x.
Proof. intros Hr. by apply (reachable_sys_inv _ _ row_ok_closed). Qed.

(** C6: every column of every event holds a value of its type, in every state a
    deployment reaches: texts are UTF-8 without NUL, JSON columns are in the
    database's normal form, integers fit in four bytes, retry counts are not
    negative and times have the resolution of the column. *)
Theorem reachable_rows_typed `{!PostgresOk} s i x :
  reachable s → rows_of s !! i = Some x → row_typed x.
Proof. intros Hr. by apply (reachable_sys_inv _ _ row_typed_closed). Qed.

(** C2: until a cleanup, an event that was stored stays in the table whatever
    happens, and its id, provider, event id, type, headers, payload and times
    of receipt and creation never change. *)
Theorem stored_events_never_lost s s' i x :
  rtc (any_step (λ l, l ≠ LCleanup)) s s' → rows_of s !! i = Some x →
  ∃ y, rows_of s' !! i = Some y ∧ identity y = identity x.
Proof. intros Hr Hx. by apply (keeps_events_reachable s s' Hr). Qed.

(** C4: the life of an event: each step of the system moves each row along the
    abstract machine [life_step], in which a failed event is retried only while
    its count is below the limit, only a worker that holds the event can
    declare it delivered or failed, only retry workers count retries, only an
    operator replays, and only the cleanup removes. *)
Theorem steps_follow_lifecycle `{!UuidLibOk} s l s' i :
  reachable s → step l s s' →
  rtc (life_step i s l) (life_of i (w_db (s_world s))) (life_of i (w_db (s_world s'))).
Proof.
  intros Hr Hs. destruct (reachable_sys_inv _ _ row_ok_closed Hr) as [[Hok _] HP].
  pose proof (reachable_prov_inv s Hr) as HI.
  apply (step_keeps (λ db _, lives i s l db) l s s' (lives_stmts i s l HP) Hs). by apply lives_refl.
Qed.

(** C7: a delivered row, or one that failed for good, in no worker's hands is
    final: unless an operator replays it or a cleanup removes it, no worker ever
    claims it again, so it is not sent twice, and not a column of it changes. *)
Theorem settled_is_final s s' i x :
  reachable s → rows_of s !! i = Some x → ¬ in_flight i s →
  wh_DeliveryStatus x = Delivered ∨ (wh_DeliveryStatus x = Failed ∧ wh_NextRetryAt x = None) →
  rtc (any_step (hands_off i)) s s' →
  rows_of s' !! i = Some x ∧ ¬ in_flight i s'.
Proof.
  intros Hre Hx Hn Hset Hr. destruct (reachable_sys_inv _ _ row_ok_closed Hre) as [[Hok _] HP].
  destruct (resting_reachable i x s s') as [[_ ?] [? _]]; [unfold settled; tauto|done|by split|done].
Qed.

(** C36: a row left [retrying] by a crash is stranded: after any restart no worker
    claims it again, ever, and it stays [retrying]. *)
Theorem retrying_is_stranded_by_crash s s1 s' i x :
  reachable s → rows_of s !! i = Some x → wh_DeliveryStatus x = Retrying →
  step LCrash s s1 → rtc (any_step (hands_off i)) s1 s' →
  rows_of s' !! i = Some x ∧ ¬ in_flight i s'.
Proof.
  intros Hre Hx Hs Hc Hr. pose proof (reachable_step _ _ _ Hre Hc) as Hre1.
  destruct (reachable_sys_inv _ _ row_ok_closed Hre1) as [[Hok _] HP].
  destruct (resting_reachable i x s1 s') as [[_ ?] [? _]]; [unfold settled; tauto|done| |done].
  inversion Hc; subst. split; [by split|]. split; [|done]. by intros (j & k & p & E & _).
Qed.


(** C20: the step relation covers the program's loop: [run] on the repository of
    any kind is a sequence of its claim, forward and update steps, the
    goroutines of a batch one step each in the order they are scheduled; after
    it the worker waits if [run] returned and is about to claim again if not. *)
Theorem run_refines_steps `{SchedulerOk} fuel i k w ws rs :
  ws !! i = Some (k, Idle) →
  let r := run (R := NewWorkerRepo k) fuel w in
  rtc (any_step in_round)
    (mkSystem w true ws rs)
    (mkSystem r.2 true (<[i := (k, after_run r.1)]> ws) rs).
Proof. intros Hi. exact (run_steps fuel i k w ws rs Hi). Qed.

(** C5: the queue drains into deliveries: while the process is up, calls succeed
    and destinations answer 2xx, an idle queue worker has a continuation of the
    run, of its own steps alone, after which every event queued now is delivered
    with a 2xx code, in as many rounds as its batches need, provided that the
    providers of the queue's events are cached with an address and their rate
    limits have room for it. *)
Theorem queued_events_are_delivered `{SchedulerOk} s n :
  reachable s → s_up s = true → s_pool s !! n = Some (WorkerKindQueue, Waiting) → healthy (s_world s) →
  let queue := backlog (rows_of s) in
  0 < (w_batch (s_world s)).1 →
  (∀ j y, rows_of s !! j = Some y → wh_DeliveryStatus y = Queued → ready_for (size queue) (s_world s) y) →
  ∃ s', rtc (any_step working) s s' ∧
    ∀ i x, rows_of s !! i = Some x → wh_DeliveryStatus x = Queued → delivered_as x (rows_of s' !! i).
Proof.
  intros Hr Hup Hn Hh queue Hb Hready.
  destruct (reachable_sys_inv _ _ row_ok_closed Hr) as [[Hok Hrows] _].
  exists (after_rounds (size queue) n WorkerKindQueue s). split; [by apply after_rounds_steps|]. intros i x Hx Hq.
  apply (run_delivers (size queue) (s_world s)); try done.
  2: { change (backlog _) with queue. destruct (Z.to_nat (w_batch (s_world s)).1) eqn:E; lia. }
  split; try done.
  - intros j y Hy. apply (ro_count y), (Hrows j y Hy).
  - split; [done|]. intros y (j & z & Hz & Hzq & Hp & Hhd). apply (ready_for_like _ _ y z); eauto.
  - by left.
Qed.


End system.

(** ** Instances of the theorems *)

Import Run.

Example delivered_rows : (λ x, (wh_DeliveryStatus x, wh_ResponseCode x)) <$> rows (rows_of delivered) = [(Delivered, Some 200)].
Proof. vm_compute. reflexivity. Qed.
Example failed_rows :
  (λ x, (wh_DeliveryStatus x, wh_ResponseCode x, wh_RetryCount x)) <$> rows (rows_of failed) = [(Failed, Some 500, 0)].
Proof. vm_compute. reflexivity. Qed.

(** The insertion has left a token for a queue worker. *)
Example stored_signalled : w_signal (s_world stored) = 1%nat.
Proof. vm_compute. reflexivity. Qed.

Definition row_in (s : System) : Webhook := default (Fix.queued 0 "") (rows_of s !! 0).

Lemma reachable_rows_consistent_witness :
  (∀ i x, rows_of delivered !! i = Some x → row_ok x) ∧ wh_DeliveryStatus (row_in delivered) = Delivered.
Proof.
  split; [|vm_compute; reflexivity].
  apply (reachable_rows_consistent delivered), delivered_reachable.
Defined.

Lemma reachable_rows_typed_witness : row_typed (row_in failed) ∧ wh_NextRetryAt (row_in failed) ≠ None.
Proof.
  split; [|vm_compute; discriminate].
  apply (reachable_rows_typed failed 0); [apply failed_reachable|by_compute].
Defined.

Lemma stored_events_never_lost_witness :
  ∃ y, rows_of delivered !! 0 = Some y ∧ identity y = identity (row_in stored).
Proof.
  apply (stored_events_never_lost stored delivered 0 (row_in stored)).
  - eapply weaken_steps; [apply working_not_cleanup|apply delivered_steps].
  - by_compute.
Defined.

(** The insertion of the scenario's request. *)
Lemma steps_follow_lifecycle_witness :
  rtc (life_step 0 arrived LStore) (life_of 0 (w_db (s_world arrived))) (life_of 0 (w_db (s_world stored)))
  ∧ life_of 0 (w_db (s_world stored)) = Some (Queued, 0).
Proof.
  split; [|by_compute].
  apply (steps_follow_lifecycle arrived LStore stored 0).
  - apply arrives_reachable; [reflexivity|apply arrive_eq|apply set_up_reachable].
  - exact (StepStore pending (s_world arrived) (s_pool arrived) [] []).
Defined.

Lemma idle_pool_free i w up rs : ¬ in_flight i (mkSystem w up NewWorkerPool rs).
Proof.
  intros (j & k & p & E & Hi). cbn [s_pool] in E. apply lookup_NewWorkerPool in E as ->. by apply not_elem_of_nil in Hi.
Qed.

Lemma delivered_free i : ¬ in_flight i delivered.
Proof.
  intros (j & k & p & E & Hi). apply list_elem_of_lookup_2 in E.
  assert (Forall (λ q, phase_ids q.2 = []) (s_pool delivered)) as HF by (vm_compute; repeat constructor).
  rewrite Forall_forall in HF. specialize (HF _ E). simpl in HF. rewrite HF in Hi. by apply not_elem_of_nil in Hi.
Qed.

(** Another worker runs a round after the delivery. *)
Lemma settled_is_final_witness :
  rows_of (after_round 9 WorkerKindRetry delivered) !! 0 = Some (row_in delivered)
  ∧ ¬ in_flight 0 (after_round 9 WorkerKindRetry delivered).
Proof.
  apply (settled_is_final delivered _ 0 (row_in delivered)); [apply delivered_reachable|by_compute|apply delivered_free|
    left; by_compute|].
  eapply weaken_steps; [apply working_hands_off|]. apply after_round_steps; [reflexivity|vm_compute; reflexivity].
Defined.

Lemma retrying_is_stranded_by_crash_witness :
  rows_of later !! 0 = Some (row_in retrying) ∧ wh_DeliveryStatus (row_in retrying) = Retrying.
Proof.
  split; [|by_compute].
  apply (retrying_is_stranded_by_crash retrying crashed later 0 (row_in retrying));
    [apply retrying_reachable|by_compute|by_compute|apply crash_step|apply later_steps].
Defined.


(** The conditions of a delivery, computed. *)
Lemma deliverable_now n w x p :
  (kv (w_redis w) !! (RedisProviderPrefix +:+ wh_Provider x) ≫= Unmarshal = Some p) →
  bool_decide (p_Name p = wh_Provider x) && text_ok (p_DestinationURL p)
  && is_ok (provider_headers (wh_Provider x) (wh_Headers x)) = true →
  (0 <? p_MaxReqSecond p) && (p_MaxReqSecond p <? 2 ^ 53)
  && (level_now w p + Z.of_nat n * one <=? p_MaxReqSecond p * one) = true →
  deliverable w x p ∧ room n w p.
Proof.
  intros Hc Hd Hr. apply bind_Some in Hc as (v & Hv & Hu). bsplit. split; [|by repeat split].
  split; [by exists v|done|done|done|]. destruct (provider_headers _ _); [by eexists|done..].
Qed.


(** The stored event of the scenario. *)
Lemma queued_events_are_delivered_witness :
  ∃ s', rtc (any_step working) stored s' ∧ delivered_as (row_in stored) (rows_of s' !! 0).
Proof.
  destruct (queued_events_are_delivered stored 0) as (s' & Hs & Hd).
  - apply stored_reachable.
  - reflexivity.
  - reflexivity.
  - split; [|by_compute]. assert (w_env (s_world stored) = []) as -> by (vm_compute; reflexivity). constructor.
  - apply Z.ltb_lt. vm_compute. reflexivity.
  - intros j y Hj _. exists (default (Run.provider 1 (Github, 100)) (providers (w_db (s_world stored)) !! 1)).
    assert (y = row_in stored) as ->.
    { assert (rows (rows_of stored) = [row_in stored]) as E by by_compute.
      apply list_elem_of_singleton. rewrite <-E. apply elem_of_rows. eauto. }
    apply (deliverable_now _ _ _ _); vm_compute; auto.
  - exists s'. split; [exact Hs|]. apply (Hd 0 (row_in stored)); by_compute.
Defined.

(** The round of [delivered] as the loop runs it: the worker goes on. *)
Lemma run_refines_steps_witness :
  let pool := <[0%nat := (WorkerKindQueue, Idle)]> NewWorkerPool in
  let r := run (R := NewWorkerRepo WorkerKindQueue) 1 (s_world stored) in
  r.1 = None ∧
  rtc (any_step in_round)
    (mkSystem (s_world stored) true pool [])
    (mkSystem r.2 true (<[0%nat := (WorkerKindQueue, after_run r.1)]> pool) []).
Proof. intros pool r. split; [by_compute|]. exact (run_refines_steps 1 0 WorkerKindQueue (s_world stored) pool [] eq_refl). Defined.
