(* ===== verification/SpecLimiter.v ===== *)
(** What the rate limiter guarantees: it decides every call as a reference that
    keeps no bucket and looks at all windows of the past; over any span it
    admits at most one burst plus the rate; and it never blocks for good. *)
From stdpp Require Import base tactics list numbers.
From Stdlib Require Import ZArith Lia.
From S2P Require Import Prelude GoStd Model Codecs World Double Limiter.

Open Scope Z_scope.

(** ** The reference

    The past is the list of the calls so far, latest first, with their times
    and decisions.  A window begins at a call of the past and ends now; its
    demand is what it admitted less what leaks in its length.  All of it is exact
    arithmetic, in the units of the doubles, on the times the script is given. *)
Fixpoint demands (rate now n : Z) (past : list (Z * bool)) : list Z :=
  match past with
  | [] => []
  | (t, a) :: past =>
    let n := n + (if a then one else 0) in
    (n - rate * (now - t)) :: demands rate now n past
  end.

(** A call is admitted if with it no window holds more than a burst. *)
Definition admits (maxReq now : Z) (past : list (Z * bool)) : bool :=
  forallb (λ d, d + one <=? maxReq * one) (0 :: demands maxReq now 0 past).

Fixpoint reference (maxReq : Z) (past : list (Z * bool)) (calls : list (Z * Z)) : list bool :=
  match calls with
  | [] => []
  | (now, _) :: calls =>
    let a := admits maxReq (unix_seconds now) past in
    a :: reference maxReq ((unix_seconds now, a) :: past) calls
  end.

(** ** The level of the bucket is the highest demand *)

Definition highest (l : list Z) : Z := foldr Z.max 0 l.

Lemma highest_cons d l : highest (d :: l) = Z.max d (highest l).
Proof. done. Qed.

Lemma highest_nonneg l : 0 <= highest l.
Proof. induction l; simpl; lia. Qed.

Lemma highest_leak l k : 0 <= k → highest ((λ d, d - k) <$> l) = Z.max 0 (highest l - k).
Proof.
  intros Hk. induction l as [|d l IH]; [simpl; lia|]. rewrite fmap_cons, !highest_cons, IH. lia.
Qed.

Lemma highest_raise l k : 0 <= k → highest (k :: ((λ d, d + k) <$> l)) = highest l + k.
Proof.
  intros Hk. rewrite highest_cons. induction l as [|d l IH]; [simpl; lia|]. rewrite fmap_cons, !highest_cons. lia.
Qed.

Lemma demands_raise rate now n k past : demands rate now (n + k) past = (λ d, d + k) <$> demands rate now n past.
Proof.
  revert n. induction past as [|[t a] past IH]; intros n; [done|]. simpl. f_equal; [lia|].
  rewrite <-IH. f_equal. lia.
Qed.

Lemma demands_later rate now now' n past :
  demands rate now' n past = (λ d, d - rate * (now' - now)) <$> demands rate now n past.
Proof. revert n. induction past as [|[t a] past IH]; intros n; [done|]. simpl. f_equal; [lia|apply IH]. Qed.

Lemma admits_highest maxReq now past :
  admits maxReq now past = (highest (demands maxReq now 0 past) + one <=? maxReq * one).
Proof.
  unfold admits. generalize (demands maxReq now 0 past). intros l. induction l as [|d l IH]; [simpl; lia|].
  rewrite highest_cons. cbn [forallb] in *. destruct (d + one <=? _) eqn:?, (forallb _ l) eqn:?; simpl in *; lia.
Qed.

(** The highest demand after a call, of what it was at the last one. *)
Lemma highest_step maxReq last now past a :
  0 < maxReq → last <= now →
  highest (demands maxReq now 0 ((now, a) :: past))
  = Z.max 0 (highest (demands maxReq last 0 past) - maxReq * (now - last)) + (if a then one else 0).
Proof.
  intros Hm Hn. cbn [demands]. rewrite Z.sub_diag, Z.mul_0_r, Z.sub_0_r, Z.add_0_l.
  rewrite <-(Z.add_0_l (if a then one else 0)) at 2. pose proof one_pos.
  rewrite demands_raise, highest_raise by (destruct a; lia).
  rewrite (demands_later maxReq last now), highest_leak by nia. done.
Qed.

(** July 2024. *)
Definition some_time : Z := 1720000000000.

(** A bucket that says what the past demands. *)
Definition agrees (maxReq now server : Z) (past : list (Z * bool)) (b : Bucket) : Prop :=
  bucket_ok maxReq now server b ∧ b_level b = highest (demands maxReq (unix_seconds now) 0 past).

Lemma fill_agrees maxReq now server past :
  let level := highest (demands maxReq (unix_seconds now) 0 past) in
  let r := fill maxReq (unix_seconds now) server level in
  0 < maxReq → (grain | level) → level <= maxReq * one → in_era now = true → now <= server <= now + 58000 →
  r.1 = admits maxReq (unix_seconds now) past ∧ agrees maxReq now server ((unix_seconds now, r.1) :: past) r.2.
Proof.
  intros level r Hm Hg Hl He Hs. pose proof (highest_nonneg (demands maxReq (unix_seconds now) 0 past)) as H0.
  rewrite admits_highest. split; [done|]. split; [by apply fill_ok|].
  rewrite (highest_step maxReq (unix_seconds now)), Z.sub_diag, Z.mul_0_r, Z.sub_0_r, Z.max_r by (done || lia).
  unfold r, fill, level. cbv zeta. cbn [fst snd b_level]. destruct (_ <=? _); lia.
Qed.

Lemma allowScript_agrees maxReq now0 server0 now server past b :
  limit_ok maxReq → agrees maxReq now0 server0 past b →
  in_era now = true → now0 <= now → server0 <= server → now <= server <= now + 58000 →
  let r := allowScript maxReq (unix_seconds now) server (Some b) in
  r.1 = admits maxReq (unix_seconds now) past ∧ agrees maxReq now server ((unix_seconds now, r.1) :: past) r.2.
Proof.
  intros Hm [Hb Hlev] He Hn Hs Hlag. cbv zeta. rewrite (allowScript_exact maxReq now0 server0) by done.
  destruct (leaked_range maxReq now0 now server0 b Hm Hb He Hn) as [Hg Hl].
  pose proof (unix_seconds_mono now0 now Hn) as Hmono. destruct Hm as [Hm _].
  assert (leaked maxReq now0 now (b_level b) = highest (demands maxReq (unix_seconds now) 0 past)) as E.
  { rewrite (demands_later maxReq (unix_seconds now0) (unix_seconds now)), highest_leak by nia.
    unfold leaked. by rewrite Hlev. }
  rewrite E in Hg, Hl |- *. apply fill_agrees; try assumption. destruct Hb. lia.
Qed.

Lemma allow_many_agrees maxReq now0 server0 past b calls :
  limit_ok maxReq → agrees maxReq now0 server0 past b → timely now0 server0 calls = true →
  (allow_many maxReq calls (Some b)).1 = reference maxReq past calls.
Proof.
  intros Hm. revert now0 server0 past b. induction calls as [|[now server] calls IH]; intros now0 server0 past b Hb Ht; [done|].
  cbn [timely] in Ht. bsplit. rewrite allow_many_cons. cbn [fst reference].
  destruct (allowScript_agrees maxReq now0 server0 now server past b) as [<- Hb1]; try done; try lia.
  f_equal. by eapply IH.
Qed.

(** C22: the script decides like the reference, without an error from the
    doubles it computes with: over any sequence of timely calls on a bucket that
    did not exist, a call is let through exactly when with it no window of the
    past holds more than a burst of the limit on top of the configured rate;
    expiring keys make no difference. *)
Theorem limiter_equals_reference maxReq now0 server0 calls :
  limit_ok maxReq → timely now0 server0 calls = true →
  (allow_many maxReq calls None).1 = reference maxReq [] calls.
Proof.
  intros Hm. destruct calls as [|[now server] calls]; [done|]. cbn [timely]. intros Ht. bsplit.
  rewrite allow_many_cons, (allowScript_first maxReq (unix_seconds now)) by done. cbn [fst reference].
  destruct (fill_agrees maxReq now server []) as [<- Hb];
    [by destruct Hm|apply Z.divide_0_r|pose proof one_pos; destruct Hm; simpl; nia|done|lia|].
  f_equal. by eapply allow_many_agrees.
Qed.

(** ** Bounds *)


(** A call that finds the bucket a second after the previous call is let
    through: no destination is refused for longer than it stays busy. *)
Theorem limiter_recovers maxReq now0 server0 now server_now b :
  limit_ok maxReq → bucket_ok maxReq now0 server0 b → in_era now = true →
  now0 + 1000 < now → server0 <= server_now → now <= server_now <= now + 58000 →
  (allowScript maxReq (unix_seconds now) server_now (Some b)).1 = true.
Proof.
  intros Hm Hb He Hn Hs Hlag. rewrite (allowScript_exact maxReq now0 server0) by (done || lia).
  unfold fill, leaked. cbn [fst]. apply Z.leb_le. pose proof (unix_seconds_gap now0 now (bo_era _ _ _ _ Hb) He).
  pose proof one_grain. pose proof grain_pos. destruct (bo_level _ _ _ _ Hb). destruct Hm as [Hm _].
  assert (1001 * one <= (now - now0) * one) by (apply Z.mul_le_mono_nonneg_r; lia).
  assert (one <= unix_seconds now - unix_seconds now0) by lia. nia.
Qed.

(** The limit is one of a leaky bucket: within one second a destination of
    10 requests a second is sent 19. *)
Theorem limiter_burst :
  let calls := (λ i, (some_time + Z.of_nat i * 50, some_time + Z.of_nat i * 50)) <$> seq 0 20 in
  let burst := replicate 9 (some_time, some_time) ++ calls in
  allowed_count (allow_many 10 burst None).1 = 19 ∧ Forall (λ c, some_time <= c.1 < some_time + 1000) burst.
Proof. split; [vm_compute; reflexivity|]. repeat constructor; simpl; lia. Qed.

(** ** Instances of the theorems *)

Definition calls_after (l : list (Z * Z)) : list (Z * Z) := (λ c, (some_time + c.1, some_time + c.2)) <$> l.
Definition some_calls : list (Z * Z) :=
  calls_after [(0, 0); (100, 100); (200, 210); (700, 700); (1200, 1200); (70000, 70000)].

Lemma limiter_equals_reference_witness :
  (allow_many 2 some_calls None).1 = reference 2 [] some_calls
  ∧ reference 2 [] some_calls = [true; true; false; true; true; true].
Proof.
  split; [apply (limiter_equals_reference 2 some_time some_time); [unfold limit_ok; lia|reflexivity]|].
  vm_compute. reflexivity.
Defined.

