(* ===== verification/SpecDelivery.v ===== *)
(** What the workers guarantee: how batches are claimed, forwarded and
    recorded, which failures are retried, the rate limit of a destination,
    the end of a worker's loop, and the cleanup. *)
From stdpp Require Import base tactics list gmap strings numbers.
From Stdlib Require Import ZArith Lia.
From S2P Require Import Prelude GoStd GoCrypto Model Codecs World Schema External EventsRepo Crypto Providers Ingest.
From S2P Require Import Github Shopify Stripe Hub Limiter WorkerRepo Worker WorkerLoop Handlers System Fixtures.

Open Scope Z_scope.

(** ** Claiming *)





(** ** Forwarding *)

Section forward.
Context `{UuidLib, Postgres, StripeLib, HttpLib}.






(** C16: whatever the interleaving of the goroutines, the batch of reports has,
    slot by slot, the report of its own hook: delivered only with a 2xx code
    and no error, failed only with an error. *)
Theorem forward_reports_every_hook `{SchedulerOk} hooks w :
  Forall2 attempt_ok hooks (forwardEvent hooks w).1.
Proof. apply forwardEvent_slots. Qed.



End forward.

(** ** Recording *)

Lemma exec_batch_fails k now us m u rs om :
  exec_batch k now us m = (rs, om) → u ∈ us → status_in (u_deliveryStatus u) = None →
  om = None ∧ (scan_rows rs).2 ≠ None.
Proof.
  revert m rs om. induction us as [|u0 us IH]; intros m rs om Hb Hu Hst; [by apply not_elem_of_nil in Hu|].
  simpl in Hb. apply elem_of_cons in Hu as [->|Hu].
  - unfold update_stmt in Hb. rewrite Hst in Hb. injection Hb as <- <-. done.
  - destruct (update_stmt k now u0 m) as [[row m1]|e|] eqn:Eu; [|injection Hb as <- <-; done|].
    + destruct (exec_batch k now us m1) as [rs1 om1] eqn:Eb. injection Hb as <- <-.
      destruct (IH _ _ _ Eb Hu Hst) as [-> Hs]. split; [done|]. destruct row; simpl; [|done].
      by destruct (scan_rows rs1).
    + unfold update_stmt in Eu. by repeat case_match.
Qed.

(** C19: an update of a batch applies all of its reports or none: the table is
    as before, or every reported row holds its report and every other row is
    untouched. *)
Theorem update_is_atomic k us w :
  NoDup (u_id <$> us) →
  w_db (UpdateEvents k us w).2 = w_db w ∨
  ∃ now,
    (∀ u x, u ∈ us → webhook_events (w_db w) !! u_id u = Some x →
       ∃ st fwd, status_in (u_deliveryStatus u) = Some st ∧ u_forwardedTo u = Some fwd ∧
         webhook_events (w_db (UpdateEvents k us w).2) !! u_id u
         = Some (set_updated_at now (apply_update k st fwd u x))) ∧
    (∀ i, i ∉ u_id <$> us → webhook_events (w_db (UpdateEvents k us w).2) !! i = webhook_events (w_db w) !! i) ∧
    (∀ i, is_Some (webhook_events (w_db (UpdateEvents k us w).2) !! i) ↔ is_Some (webhook_events (w_db w) !! i)).
Proof.
  intros Hnd. unfold UpdateEvents. case_match; [by left|]. rewrite st_bind_run. step_db.
  - left. simpl. by rewrite ext_db.
  - unfold batch_stmt. destruct (exec_batch k now us (webhook_events (w_db w))) as [rs [m'|]] eqn:E; cbn [fst snd].
    + right. exists now. simpl. split_and!.
      * intros u x Hu Hx. by eapply exec_batch_written.
      * intros i Hi. by eapply exec_batch_other.
      * intros i. by eapply exec_batch_dom.
    + by left.
Qed.

(** One report with a status the database does not know, which is what a
    1xx or 3xx response leaves behind, makes the update of the whole batch fail:
    no outcome of the batch is recorded. *)
Theorem unnamed_response_blocks_batch k us w now res u :
  u ∈ us → u = handle_response now res (mkUpdate (u_id u) (u_provName u) None "" None None (u_forwardedTo u)) →
  StatusCode res < 200 ∨ 300 <= StatusCode res < 400 →
  w_db (UpdateEvents k us w).2 = w_db w ∧ (UpdateEvents k us w).1.2 ≠ None.
Proof.
  intros Hu Eu Hc.
  assert (status_in (u_deliveryStatus u) = None) as Hst.
  { rewrite Eu. unfold handle_response, StatusTooManyRequests, StatusServiceUnavailable, StatusBadRequest,
      StatusInternalServerError. set (c := StatusCode res) in *.
    rewrite (proj2 (andb_false_iff (200 <=? c) _)) by (rewrite Z.leb_gt, Z.ltb_ge; lia).
    rewrite (proj2 (orb_false_iff _ _)) by (rewrite !Z.eqb_neq; lia).
    rewrite (proj2 (andb_false_iff (400 <=? c) _)) by (rewrite Z.leb_gt, Z.ltb_ge; lia).
    by rewrite (proj2 (Z.leb_gt _ _)) by lia. }
  clear Eu. unfold UpdateEvents. case_match eqn:El.
  { destruct us; [by apply not_elem_of_nil in Hu|done]. }
  rewrite st_bind_run. step_db.
  - simpl. by rewrite ext_db.
  - unfold batch_stmt. destruct (exec_batch k now0 us (webhook_events (w_db w))) as [rs om] eqn:E; cbn [fst snd].
    destruct (exec_batch_fails _ _ _ _ _ _ _ E Hu Hst) as [-> Hs]. done.
Qed.

(** A Retry-After of up to about 292 years in seconds sets the next retry
    to that many seconds after the response. *)
Theorem retry_after_honoured now code err retryAfter secs u :
  Atoi retryAfter = Some secs → 0 < secs <= 9223372036 →
  u_nextRetryAt (setRateLimitedUpdateValues now code err retryAfter u) = Some (now + secs * Second).
Proof.
  intros Ha Hs. unfold setRateLimitedUpdateValues. rewrite Ha, (proj2 (Z.ltb_lt _ _)) by lia. simpl.
  unfold retry_at. by rewrite wrap64_small by (unfold min_int64, max_int64, Second; lia).
Qed.

(** One second more overflows the duration: the next retry lies in the past
    and the event is due at once. *)
Theorem retry_after_overflows now code err u :
  ∃ t, u_nextRetryAt (setRateLimitedUpdateValues now code err "9223372037" u) = Some t ∧ t < now.
Proof.
  exists (retry_at now 9223372037). split; [done|]. unfold retry_at.
  replace (wrap64 _) with (-9223372036709551616) by (vm_compute; reflexivity). lia.
Qed.

(** ** The loop *)

(** C37: with every call succeeding, a worker of any kind never returns from its
    loop, however long it runs and even when no event is left: the sentinel the
    loop stops on is never produced. *)
Theorem run_never_returns `{UuidLib, Postgres, StripeLib, HttpLib, Scheduler}
    k fuel w :
  reliable w → 0 <= (w_batch w).1 → 0 <= (w_batch w).2 →
  (run (R := NewWorkerRepo k) fuel w).1 = None.
Proof. intros Hr Hq Hb. by apply run_unfinished. Qed.

(** Without failures and competing transactions, [fuel] rounds of a queue
    worker empty a queue of at most [fuel] batches: no row is left queued. *)
Theorem queue_drains `{UuidLib, Postgres, StripeLib, HttpLib, SchedulerOk}
    fuel w :
  calm w → db_ok (w_db w) → 0 <= (w_batch w).1 →
  (size (backlog (webhook_events (w_db w))) ≤ fuel * Z.to_nat (w_batch w).1)%nat →
  ∀ i x, webhook_events (w_db (run (R := queue_repo) fuel w).2) !! i = Some x → wh_DeliveryStatus x ≠ Queued.
Proof.
  intros Hc Hok Hb Hn i x Hx Hq.
  pose proof (calm_run fuel (size (backlog (webhook_events (w_db w)))) w) as Hrun.
  assert (i ∈ backlog (webhook_events (w_db (run (R := queue_repo) fuel w).2))) as Hi
    by (apply elem_of_backlog; eauto).
  assert (size (backlog (webhook_events (w_db (run (R := queue_repo) fuel w).2))) = 0)%nat as Hz
    by (specialize (Hrun ltac:(by split)); lia).
  apply size_empty_inv in Hz. set_solver.
Qed.

(** ** Cleanup *)



(** ** Instances of the theorems *)


(** Two queued events, and one that failed and is due. *)
Definition two_queued : list Webhook := [Fix.queued 1 "a"; Fix.queued 2 "b"].
Definition queue_world : World := Fix.world (Fix.events_of two_queued) [].

Lemma queue_world_ok : db_ok (w_db queue_world).
Proof. apply (Fix.db_ok_events two_queued). vm_compute. reflexivity. Qed.




Definition blank : updateWebhook := mkUpdate 3 Github None "" None None (Some "https://gh.example/hook"%string).


Definition delivered_report : updateWebhook :=
  setSuccessUpdateValues 200 (mkUpdate 1 Github None "" None None (Some "https://gh.example/hook"%string)).

Lemma update_is_atomic_witness :
  let w' := (UpdateEvents WorkerKindQueue [delivered_report] queue_world).2 in
  (w_db w' = w_db queue_world ∨
  ∃ now,
    (∀ u x, u ∈ [delivered_report] → webhook_events (w_db queue_world) !! u_id u = Some x →
       ∃ st fwd, status_in (u_deliveryStatus u) = Some st ∧ u_forwardedTo u = Some fwd ∧
         webhook_events (w_db w') !! u_id u
         = Some (set_updated_at now (apply_update WorkerKindQueue st fwd u x))) ∧
    (∀ i, i ∉ u_id <$> [delivered_report] → webhook_events (w_db w') !! i = webhook_events (w_db queue_world) !! i) ∧
    (∀ i, is_Some (webhook_events (w_db w') !! i) ↔ is_Some (webhook_events (w_db queue_world) !! i)))
  ∧ wh_DeliveryStatus <$> webhook_events (w_db w') !! 1 = Some Delivered.
Proof.
  split; [|vm_compute; reflexivity].
  apply (update_is_atomic WorkerKindQueue [delivered_report] queue_world).
  apply NoDup_singleton.
Defined.

Lemma unnamed_response_blocks_batch_witness :
  let redirected := handle_response Fix.now (mkResp 304 "304 Not Modified" "") blank in
  w_db (UpdateEvents WorkerKindQueue [delivered_report; redirected] queue_world).2 = w_db queue_world.
Proof.
  apply (unnamed_response_blocks_batch WorkerKindQueue
           [delivered_report; handle_response Fix.now (mkResp 304 "304 Not Modified" "") blank] queue_world
           Fix.now (mkResp 304 "304 Not Modified" "") (handle_response Fix.now (mkResp 304 "304 Not Modified" "") blank)).
  - right; left.
  - reflexivity.
  - right. split; vm_compute; [discriminate|reflexivity].
Defined.

Lemma retry_after_honoured_witness :
  u_nextRetryAt (setRateLimitedUpdateValues Fix.now 429 "[Worker] rate limited" "120" blank) = Some (Fix.now + 120 * Second).
Proof. apply retry_after_honoured; [reflexivity|lia]. Defined.

Lemma run_never_returns_witness :
  (run (R := NewWorkerRepo WorkerKindQueue) 4 queue_world).1 = None.
Proof. apply run_never_returns; [constructor|vm_compute; discriminate..]. Defined.

Lemma queue_drains_witness :
  wh_DeliveryStatus <$> rows (webhook_events (w_db queue_world)) = [Queued; Queued] ∧
  ∀ i x, webhook_events (w_db (run (R := queue_repo) 1 queue_world).2) !! i = Some x → wh_DeliveryStatus x ≠ Queued.
Proof.
  split; [by_compute|].
  apply (queue_drains 1 queue_world); [constructor|apply queue_world_ok|vm_compute; discriminate|].
  apply Nat.leb_le. vm_compute. reflexivity.
Defined.



Lemma forward_reports_every_hook_witness :
  Forall2 attempt_ok two_queued (forwardEvent two_queued queue_world).1 ∧
  u_deliveryStatus <$> (forwardEvent two_queued queue_world).1 = [DeliveryStatusDelivered; DeliveryStatusDelivered].
Proof. split; [apply forward_reports_every_hook|vm_compute; reflexivity]. Defined.

