(* ===== verification/SpecMock.v ===== *)
(** What the simulated destination does to the deliveries it is meant to test:
    how it heals, what its statistics count, and which of its failures a worker
    retries. *)
From stdpp Require Import base tactics list sets strings numbers pretty.
From Stdlib Require Import ZArith QArith Lia.
From S2P Require Import Prelude GoStd Model Codecs World WorkerRepo Worker MockDest.

Open Scope Z_scope.

(** ** Healing *)

Definition counts_failures (mode : string) : bool :=
  bool_decide (mode ∈ [ModeOutage; ModeSlowRecover; ModeFatal; ModeChaos]).

(** A plain reply of success. *)
Definition healthy (a : MockAnswer) : bool :=
  match a with Replied code _ _ => code =? 200 | _ => false end.

Definition remaining (m : Mock) : nat := Z.to_nat (failCount m - failCounter m).

Lemma fatal_code d : nth (Z.to_nat (Intn (Z.of_nat (length fatalCodes)) d)) fatalCodes 0 ∈ fatalCodes.
Proof.
  unfold Intn. simpl length. pose proof (Z.mod_pos_bound (dr_int d) 3 ltac:(lia)) as Hr. change (Z.of_nat 3) with 3.
  assert (dr_int d mod 3 = 0 ∨ dr_int d mod 3 = 1 ∨ dr_int d mod 3 = 2) as [->|[->| ->]] by lia;
    simpl; unfold fatalCodes; set_solver.
Qed.

(** Compares the modes of a goal. *)
Ltac modes :=
  repeat match goal with
  | |- context [bool_decide (?a = ?b)] =>
    let v := eval vm_compute in (bool_decide (a = b)) in change (bool_decide (a = b)) with v
  end.

(** One request in a mode that counts its failures. *)
Lemma post_counts d m :
  counts_failures (currentMode m) = true →
  let r := uniWebhookHandler "POST" d m in
  healthy r.1 = (match remaining m with O => true | S _ => false end) ∧
  currentMode r.2 = currentMode m ∧ remaining r.2 = pred (remaining m).
Proof.
  intros Hc. cbv zeta. unfold uniWebhookHandler. rewrite bool_decide_eq_true_2 by done. cbn [negb].
  rewrite st_bind_run. unfold decide_failing. cbv zeta. unfold counts_failures in Hc. rewrite !Hc. unfold remaining, shouldFail.
  apply bool_decide_eq_true_1 in Hc.
  pose proof (fatal_code d) as Hf.
  destruct (failCounter m <? failCount m) eqn:E; cbn [fst snd]; bsplit.
  - replace (Z.to_nat (failCount m - failCounter m)) with (S (Z.to_nat (failCount m - (failCounter m + 1)))) by lia.
    rewrite !elem_of_cons in Hc. unfold reject. cbv zeta.
    generalize dependent (nth (Z.to_nat (Intn (Z.of_nat (length fatalCodes)) d)) fatalCodes 0). intros c Hf.
    destruct Hc as [Hc|[Hc|[Hc|[Hc|Hc]]]]; [rewrite Hc; modes; simpl; rewrite ?Hc; try done..|by apply not_elem_of_nil in Hc].
    split; [|done]. unfold fatalCodes in Hf. clear -Hf.
    rewrite !elem_of_cons in Hf. destruct Hf as [->|[->|[->|Hf]]]; [done..|by apply not_elem_of_nil in Hf].
  - replace (Z.to_nat (failCount m - failCounter m)) with O by lia.
    rewrite !elem_of_cons in Hc.
    destruct Hc as [Hc|[Hc|[Hc|[Hc|Hc]]]]; [rewrite Hc; modes; simpl; rewrite ?Hc; split_and!; [done..|lia]..|by apply not_elem_of_nil in Hc].
Qed.

(** A destination in a mode that counts failures fails exactly the number of
    requests it was told to and then answers 200 to every request, whatever
    the random source yields. *)
Theorem mock_heals_after_fail_count ds m :
  counts_failures (currentMode m) = true →
  healthy <$> (posts ds m).1
  = replicate (remaining m `min` length ds) false ++ replicate (length ds - remaining m) true.
Proof.
  revert m. induction ds as [|d ds IH]; intros m Hc; [by rewrite Nat.min_0_r|].
  unfold posts. cbn [st_mapM]. rewrite st_bind_run. destruct (post_counts d m Hc) as (Hh & Hm & Hr).
  destruct (uniWebhookHandler "POST" d m) as [a m1]. cbn [fst snd] in *. rewrite st_bind_run. fold (posts ds).
  cbn [st_ret fst snd]. rewrite fmap_cons, Hh, IH by by rewrite Hm. rewrite Hr.
  destruct (remaining m) as [|n]; simpl; [|done]. by rewrite Nat.sub_0_r.
Qed.

(** ** Deliveries to it *)





(** A rejection is never retried: whatever the fatal or the flaky mode
    answers, a worker reports the attempt as delivered or as failed for good,
    so these modes neither exhaust the retries of an event nor see it again
    after a failure, which is what their descriptions promise to test. *)
Theorem mock_rejections_are_final d m now u :
  currentMode m = ModeFatal ∨ currentMode m = ModeFlaky →
  let v := report_of now u (uniWebhookHandler "POST" d m).1 in
  u_nextRetryAt v = None ∧
  (u_deliveryStatus v = DeliveryStatusDelivered ∨ u_deliveryStatus v = DeliveryStatusFailed).
Proof.
  intros Hm. cbv zeta. unfold uniWebhookHandler. rewrite bool_decide_eq_true_2 by done. cbn [negb].
  assert (∀ m0 : Mock, (∃ c b, (reject d m0).1 = Replied c "" b ∧ c ∈ fatalCodes)) as Hrej.
  { intros m0. unfold reject. eexists _, _. split; [reflexivity|apply fatal_code]. }
  assert (∀ c b, c ∈ fatalCodes → let v := report_of now u (Replied c "" b) in
            u_nextRetryAt v = None ∧ u_deliveryStatus v = DeliveryStatusFailed) as Hfin.
  { intros c b Hc. unfold fatalCodes in Hc. rewrite !elem_of_cons in Hc.
    destruct Hc as [->|[->|[->|Hc]]]; [done..|by apply not_elem_of_nil in Hc]. }
  assert (∀ m0 : Mock, let v := report_of now u (reject d m0).1 in
            u_nextRetryAt v = None ∧ (u_deliveryStatus v = DeliveryStatusDelivered ∨ u_deliveryStatus v = DeliveryStatusFailed)) as Hr.
  { intros m0. destruct (Hrej m0) as (c & b & -> & Hc). destruct (Hfin c b Hc). auto. }
  rewrite st_bind_run. unfold decide_failing. cbv zeta.
  destruct Hm as [Hm|Hm]; rewrite Hm.
  - rewrite bool_decide_eq_true_2 by set_solver. destruct (shouldFail m) as [[] m1]; cbn [fst snd]; modes; [apply Hr|].
    split; [done|by left].
  - rewrite bool_decide_eq_false_2 by (vm_compute; intros Hin; repeat (apply elem_of_cons in Hin as [Hin|Hin]; [done|]); by apply not_elem_of_nil in Hin).
    modes. destruct (negb _); cbn [fst snd]; modes; [apply Hr|]. split; [done|by left].
Qed.

(** A reply whose body trickles is a delivery: the worker has its status
    before the first character and does not read on. *)
Theorem mock_trickle_is_delivered d m now u :
  currentMode m = ModeSlowRecover →
  u_deliveryStatus (report_of now u (uniWebhookHandler "POST" d m).1) = DeliveryStatusDelivered.
Proof.
  intros Hm. unfold uniWebhookHandler. rewrite bool_decide_eq_true_2 by done. cbn [negb].
  rewrite st_bind_run. unfold decide_failing. cbv zeta. rewrite Hm, bool_decide_eq_true_2 by set_solver.
  by destruct (shouldFail m) as [[] m1]; cbn [fst snd]; modes.
Qed.

(** ** Statistics *)

Lemma mock_serve_stats r m :
  stats (mock_serve r m).2 = stats m ∨ (∃ b, stats (mock_serve r m).2 = record b (stats m))
  ∨ stats (mock_serve r m).2 = reset (stats m).
Proof.
  assert (∀ d m0, stats (decide_failing d m0).2 = stats m0) as Hd.
  { intros d m0. unfold decide_failing, shouldFail. cbv zeta. by repeat case_match; simplify_eq/=. }
  destruct r as [method d|method [body|]|]; simpl; [|unfold controlHandler; case_bool_decide; simpl; auto..|auto].
  unfold uniWebhookHandler. destruct (negb _); [by left|]. right; left. rewrite st_bind_run. specialize (Hd d m).
  destruct (decide_failing d m) as [[mode failing] m1]. cbn [fst snd] in *. rewrite <-Hd.
  unfold reject. repeat case_match; eexists; reflexivity.
Qed.

Definition counted (s : ModeStats) : Prop :=
  Requests s = Successes s + Failures s ∧ 0 <= Successes s ∧ 0 <= Failures s.

(** Since the last change of mode, the requests counted are the successes
    and the failures, after any sequence of requests to the three endpoints
    shorter than 2^63. *)
Theorem mock_stats_add_up rs :
  Z.of_nat (length rs) <= max_int64 →
  counted (stats (st_mapM mock_serve rs boot).2) ∧
  Requests (stats (st_mapM mock_serve rs boot).2) <= Z.of_nat (length rs).
Proof.
  assert (∀ m, counted (stats m) → Requests (stats m) + Z.of_nat (length rs) <= max_int64 →
    counted (stats (st_mapM mock_serve rs m).2) ∧
    Requests (stats (st_mapM mock_serve rs m).2) <= Requests (stats m) + Z.of_nat (length rs)) as Hall.
  { induction rs as [|r rs IH]; intros m Hc Hl; [simpl; split; [done|lia]|]. cbn [st_mapM length] in *.
    rewrite !st_bind_run. cbn [st_ret fst snd]. unfold counted in *.
    assert (counted (stats (mock_serve r m).2) ∧ Requests (stats (mock_serve r m).2) <= Requests (stats m) + 1) as [Hc1 Hr1].
    { unfold counted. destruct (mock_serve_stats r m) as [->|[[b ->]| ->]]; [lia| |simpl; lia].
      unfold record. cbn [Requests Successes Failures].
      destruct b; rewrite !wrap64_small by (unfold min_int64, max_int64 in *; lia); lia. }
    destruct (IH (mock_serve r m).2 Hc1) as [Hc2 Hr2]; [lia|]. split; [exact Hc2|lia]. }
  intros Hl. apply (Hall boot); [by unfold counted|]. simpl. exact Hl.
Qed.

(** ** Instances of the theorems *)

Definition some_draws : list Draws := [mkDraws (1 # 3) 7; mkDraws (1 # 3) 30; mkDraws (1 # 3) 2].
Definition outage : Mock := (controlHandler "POST" (Some (mkControl ModeOutage 2 0)) boot).2.

Lemma mock_heals_after_fail_count_witness : healthy <$> (posts some_draws outage).1 = [false; false; true].
Proof. apply (mock_heals_after_fail_count some_draws outage). vm_compute. reflexivity. Defined.


Lemma mock_rejections_are_final_witness :
  let fatal := (controlHandler "POST" (Some (mkControl ModeFatal 0 0)) boot).2 in
  let v := report_of 0 zero_update (uniWebhookHandler "POST" (mkDraws 0 1) fatal).1 in
  u_nextRetryAt v = None ∧ u_responseCode v = Some 401.
Proof.
  split; [|vm_compute; reflexivity].
  apply (mock_rejections_are_final (mkDraws 0 1) (controlHandler "POST" (Some (mkControl ModeFatal 0 0)) boot).2 0 zero_update).
  left. reflexivity.
Defined.

Lemma mock_stats_add_up_witness :
  counted (stats (st_mapM mock_serve [Webhook_ "POST" (mkDraws 0 1); Stats_; Webhook_ "GET" (mkDraws 0 1)] boot).2).
Proof. apply (mock_stats_add_up [Webhook_ "POST" (mkDraws 0 1); Stats_; Webhook_ "GET" (mkDraws 0 1)]). vm_compute. discriminate. Defined.
