(* ===== verification/SpecServices.v ===== *)
(** What the services of the dashboard guarantee: the SSE hub, search and
    validation, the configuration of providers, the secrets at rest and the
    headers passed on to a destination. *)
From stdpp Require Import base tactics list gmap strings numbers.
From Stdlib Require Import ZArith Lia.
From S2P Require Import Prelude GoStd GoCrypto GoAes Model Codecs Helpers World Schema External EventsRepo Crypto Providers Ingest.
From S2P Require Import Github Shopify Stripe Hub Search WorkerRepo Worker Handlers System Fixtures.

Open Scope Z_scope.

(** ** The hub *)

(** After any history of sends, ticks, subscriptions and reads, what a
    subscriber has read and still has queued, followed by what the hub holds, is
    a subsequence of the accepted events: nothing is invented, repeated or
    reordered. *)
Theorem hub_keeps_order l ch :
  let s := runs l in
  mjoin (default [] (h_taken s !! ch) ++ default [] (subscribers (h_hub s) !! ch))
  ++ buffer (h_hub s) ++ broadcast (h_hub s) `sublist_of` h_accepted s.
Proof. by destruct (runs_ok l) as (_ & Ho & _). Qed.

(** No history makes the hub send on a channel that a subscriber closed. *)
Theorem hub_never_sends_on_closed l : open_chans (runs l).
Proof. by destruct (runs_ok l) as (_ & _ & ?). Qed.

(** The queues of the hub stay within their capacities: 10000 events
    broadcast, 100 batches for each subscriber, 200 events in a batch. *)
Theorem hub_queues_bounded l : hub_bounded (h_hub (runs l)).
Proof. apply runs_bounded. Qed.

(** Every accepted event is still pending, was put into a batch, or was cut
    from one; the events cut are exactly those the overflow notices have told
    or will tell. *)
Theorem hub_accounts_for_every_event l : accounted (runs l).
Proof. apply runs_accounted. Qed.

(** ** Validation and search *)

Section search.
Context `{Postgres, UuidLib}.

(** C34: a search request is accepted exactly when every field obeys its
    documented rule. *)
Theorem validate_accepts_exactly_valid p : Validate p = Ok tt ↔ valid_request p.
Proof.
  unfold Validate, valid_request. destruct (decide (sr_Type p = LookUp)) as [E|E].
  - rewrite (bool_decide_eq_true_2 _ E), validateLookup_ok. split; [tauto|].
    intros [[_ ?]|[E' _]]; [done|]. by rewrite E in E'.
  - rewrite (bool_decide_eq_false_2 _ E). destruct (decide (sr_Type p = Filter)) as [E'|E'].
    + rewrite (bool_decide_eq_true_2 _ E'), validateFilter_ok. tauto.
    + rewrite (bool_decide_eq_false_2 _ E'). split; [done|tauto].
Qed.

(** C33: a search that succeeds returns the page of the matching events, newest
    first, at its offset, and says truthfully whether there are more. *)
Theorem search_returns_page opts w r w' :
  valid_request opts → search_limit opts <= max_int64 → Search opts w = (Ok r, w') →
  resp_Events r = take (Z.to_nat (search_limit opts))
                    (drop (Z.to_nat (sr_Offset opts)) (matches opts (webhook_events (w_db w))))
  ∧ resp_HasMore r = (sr_Offset opts + search_limit opts
                      <? Z.of_nat (length (matches opts (webhook_events (w_db w))))).
Proof. intros Hv. apply Search_Ok. destruct Hv as [[? _]|[? _]]; auto. Qed.

(** The text parameters of a search. *)
Definition search_texts (opts : SearchRequest) : list string :=
  if bool_decide (sr_Type opts = LookUp) then option_list (sr_WebhookID opts) ++ option_list (sr_EventID opts)
  else sr_Providers opts ++ option_list (sr_EventType opts) ++ option_list (sr_PayloadSearch opts).

(** A valid search with a representable page over known statuses and
    storable texts succeeds when the database answers: validation leaves no request whose statement is
    malformed. *)
Theorem valid_search_succeeds opts w :
  reliable w → valid_request opts → search_limit opts < max_int64 → 0 <= sr_Offset opts →
  (sr_Type opts = Filter → is_Some (statuses_in (sr_DeliveryStatuses opts))) →
  forallb text_ok (search_texts opts) = true →
  ∃ r, (Search opts w).1 = Ok r.
Proof.
  intros Hr Hv Hl Ho Hst Htx. unfold search_texts in Htx. unfold Search, st_bind_res. rewrite !st_bind_run.
  pose proof (search_limit_range opts) as Hpos.
  assert (wrap64 (search_limit opts + 1) = search_limit opts + 1) as Hw
    by (apply wrap64_small; unfold min_int64, max_int64 in *; lia).
  assert (∀ conds comb, conds ≠ [] →
    ∃ l, (select_page conds comb (search_limit opts + 1) (sr_Offset opts) (w_db w)).1 = Ok l) as Hpage.
  { intros conds comb Hc. unfold select_page. destruct conds; [done|]. simpl.
    rewrite !(proj2 (Z.ltb_ge _ _)) by lia. eauto. }
  destruct Hv as [[E Hv]|[E Hv]].
  - rewrite (bool_decide_eq_true_2 _ E), (bool_decide_eq_false_2 (sr_Type opts = Filter)) by (by rewrite E).
    rewrite (bool_decide_eq_true_2 _ E) in Htx.
    unfold lookup_events. rewrite db_stmt_reliable by done. cbn [fst snd lookup_opts lo_WebhookID lo_EventID].
    rewrite Htx, Hw. cbn [negb].
    destruct (Hpage (lookup_conds (lookup_opts opts (search_limit opts + 1))) any_of) as [l El];
      [by apply valid_lookup_conds|]. cbn [lookup_opts lo_Limit lo_Offset] in *. rewrite El. simpl. eauto.
  - rewrite (bool_decide_eq_false_2 (sr_Type opts = LookUp)), (bool_decide_eq_true_2 _ E) by (by rewrite E).
    rewrite bool_decide_eq_false_2 in Htx by (by rewrite E).
    cbn [st_ret fst snd]. rewrite st_bind_run. unfold filter_events. rewrite db_stmt_reliable by done. cbn [fst snd filter_opts fo_Providers fo_EventType fo_PayloadSearch].
    rewrite Htx. cbn [negb]. destruct (Hst E) as [sts Es]. cbn [filter_opts fo_DeliveryStatuses fo_Limit fo_Offset] in *. rewrite Es, Hw.
    destruct (Hpage (filter_conds (filter_opts opts (search_limit opts + 1)) sts) all_of) as [l El];
      [by apply valid_filter_conds|]. rewrite El. simpl. eauto.
Qed.

(** A page of the largest integer overflows when one is added to look for
    more: the valid request ends in a database error. *)
Theorem search_limit_overflows opts w :
  reliable w → valid_request opts → sr_Type opts = LookUp → sr_Limit opts = max_int64 →
  forallb text_ok (search_texts opts) = true →
  (Search opts w).1 = Err (PgError "LIMIT must not be negative").
Proof.
  intros Hr Hv E Hl Htx. unfold search_texts in Htx. rewrite (bool_decide_eq_true_2 _ E) in Htx.
  assert (valid_lookup opts) as Hvl by (destruct Hv as [[_ ?]|[E' _]]; [done|by rewrite E in E']).
  assert (search_limit opts = max_int64) as Hlim by (unfold search_limit; by rewrite Hl).
  unfold Search, st_bind_res. rewrite !st_bind_run, (bool_decide_eq_true_2 _ E), Hlim.
  replace (wrap64 (max_int64 + 1)) with min_int64 by (vm_compute; reflexivity).
  unfold lookup_events. rewrite db_stmt_reliable by done. cbn [fst snd lookup_opts lo_WebhookID lo_EventID].
  rewrite Htx. cbn [negb]. unfold select_page. rewrite (proj2 (Nat.eqb_neq _ _)); [done|].
  intros El%length_zero_iff_nil. by eapply valid_lookup_conds.
Qed.

(** Replaying an event marks that row [replaying] and changes nothing else;
    an id that is not a UUID is refused without touching the database. *)
Theorem replay_marks_one_event id w :
  reliable w →
  match uuid_Parse id with
  | None => svc_ReplayEvent id w = (Err ErrInvalidUUID, w)
  | Some u => (svc_ReplayEvent id w).1 = Ok tt ∧ ∃ now, ∀ i,
      webhook_events (w_db (svc_ReplayEvent id w).2) !! i
      = (λ x, if bool_decide (wh_ID x = u) then set_updated_at now (set_status Replaying x) else x)
          <$> webhook_events (w_db w) !! i
  end.
Proof.
  intros Hr. unfold svc_ReplayEvent. destruct (uuid_Parse id) as [u|]; [|done].
  unfold st_bind_res, replayEvent. rewrite st_bind_run, db_stmt_reliable by done. simpl. split; [done|].
  exists (w_now (ext w).2). intros i. apply lookup_sql_update.
Qed.

End search.

(** ** Secrets at rest *)

(** C27: a secret that was encrypted is decrypted to itself under the same master
    key, whatever nonce was drawn; and a stored string only decrypts to a text
    that AES-GCM sealed into it under that key. *)
Theorem decrypt_encrypt plaintext w enc w' :
  EncryptSigningKey plaintext w = (Ok enc, w') →
  DecryptSigningKey (MasterKey (w_cfg w)) enc = Ok plaintext ∧
  ∀ stored text, stored ≠ ""%string → DecryptSigningKey (MasterKey (w_cfg w)) stored = Ok text →
    ∃ nonce, String.length nonce = gcm_NonceSize ∧
      DecodeString stored = Some (nonce +:+ gcm_seal (MasterKey (w_cfg w)) nonce text).
Proof.
  intros He. apply EncryptSigningKey_Ok in He as (nonce & Hn & Hk & -> & _). split; [by apply Decrypt_encoded|].
  intros stored text Hs Hd. by apply Decrypt_only_sealed.
Qed.

(** A stored secret that decodes to fewer bytes than a nonce makes
    decryption panic instead of returning an error. *)
Theorem decrypt_panics_on_short key encoded decoded :
  encoded ≠ ""%string → DecodeString encoded = Some decoded → aes_NewCipher key = true →
  (String.length decoded < gcm_NonceSize)%nat →
  DecryptSigningKey key encoded = Panic.
Proof.
  intros He Hd Hk Hl. unfold DecryptSigningKey. rewrite bool_decide_eq_false_2, Hd, Hk by done. simpl.
  unfold slice_to. by rewrite (proj2 (Nat.leb_gt _ _)).
Qed.

(** ** Configuration of providers *)

Section providers.
Context `{UuidLib}.

(** C28: a configuration that succeeds validated every field, stored them with
    the secret encrypted, cached what it stored, and the stored secret decrypts
    to the submitted one, trimmed. *)
Theorem configure_stores_and_caches id sec des maxRetry maxReqSec w prov w' :
  Configure id sec des maxRetry maxReqSec w = (Ok prov, w') →
  ∃ u old, uuid_Parse id = Some u ∧ providers (w_db w) !! u = Some old ∧
    providers (w_db w') = <[u := prov]> (providers (w_db w)) ∧
    webhook_events (w_db w') = webhook_events (w_db w) ∧
    (∃ b, Marshal prov = Ok b ∧ kv (w_redis w') !! (RedisProviderPrefix +:+ p_Name old) = Some b) ∧
    DecryptSigningKey (MasterKey (w_cfg w)) (p_SigningSecret prov) = Ok (TrimSpace sec) ∧
    prov = configured (p_SigningSecret prov) des maxRetry maxReqSec old ∧
    TrimSpace sec ≠ ""%string ∧ des ≠ ""%string ∧ 0 <= maxRetry <= 20 ∧ 0 <= maxReqSec <= 1000.
Proof.
  unfold Configure. destruct (uuid_Parse id) as [u|]; [|done]. cbv zeta.
  destruct (len (TrimSpace sec) =? 0) eqn:E1; [done|]. destruct (len des =? 0) eqn:E2; [done|].
  destruct ((maxRetry <? 0) || _) eqn:E3; [done|]. destruct ((maxReqSec <? 0) || _) eqn:E4; [done|].
  unfold st_bind_res at 1. rewrite st_bind_run.
  destruct (EncryptSigningKey (TrimSpace sec) w) as [[enc|e|] w1] eqn:Ee; [|done..]. cbn [fst snd].
  apply EncryptSigningKey_Ok in Ee as (nonce & Hn & Hk & -> & ->).
  unfold st_bind_res at 1. rewrite st_bind_run. unfold repo_configure. step_db; [done|].
  unfold configure_stmt. autorewrite with world. destruct (negb _); [done|]. destruct (providers (w_db w) !! u) as [old|] eqn:Eo; [|done]. cbn [fst snd].
  unfold st_bind_res. rewrite st_bind_run. unfold Cache_Set, serialize, cache_Set.
  destruct (Marshal (configured _ _ _ _ _)) as [b| |] eqn:Em; [|done..]. step_redis; [done|]. cbn [fst snd].
  intros [= <- <-]. exists u, old. simpl. autorewrite with world. simpl. autorewrite with world.
  bsplit. unfold maxRetryCount, maxReqSecond in *. split_and!; try done; try lia.
  - exists b. split; [done|]. by rewrite lookup_insert_eq.
  - by apply Decrypt_encoded.
  - by intros E; rewrite E in E1.
  - by intros ->.
Qed.

(** A configuration with a blank secret, no destination or a limit out of
    range is refused with the error of that field, and nothing changes. *)
Theorem configure_rejects_invalid id sec des maxRetry maxReqSec w :
  TrimSpace sec = ""%string ∨ des = ""%string ∨ ¬ (0 <= maxRetry <= 20) ∨ ¬ (0 <= maxReqSec <= 1000) →
  ∃ err, Configure id sec des maxRetry maxReqSec w = (Err err, w).
Proof.
  intros Hv. unfold Configure. destruct (uuid_Parse id) as [u|]; [|by eauto]. cbv zeta.
  destruct (len (TrimSpace sec) =? 0) eqn:E1; [by eauto|]. destruct (len des =? 0) eqn:E2; [by eauto|].
  destruct ((maxRetry <? 0) || _) eqn:E3; [by eauto|]. destruct ((maxReqSec <? 0) || _) eqn:E4; [by eauto|].
  exfalso. bsplit. unfold maxRetryCount, maxReqSecond in *. destruct Hv as [Hv|[->|[Hv|Hv]]]; [by rewrite Hv in E1|done|lia|lia].
Qed.

End providers.

(** ** Headers passed on *)

Definition allowed_of (at_ : endpoint) : list string :=
  match at_ with AtGithub => Github.allowed | AtShopify => Shopify.allowed | AtStripe => Stripe.allowed end.

(** C29: the request to a destination carries, for each header on the provider's
    allowlist, exactly the values that were received, and no other header. *)
Theorem forwards_exactly_allowed_headers at_ headers h :
  provider_headers (ep_name at_) headers = Ok h →
  ∃ parsed : Header, Unmarshal headers = Some parsed ∧
    ∀ c, default [] (h !! c) = if bool_decide (c ∈ allowed_of at_) then values_for c (map_to_list parsed) else [].
Proof.
  destruct at_; unfold provider_headers, Stripe.SetForwardHeaders, Github.SetForwardHeaders, Shopify.SetForwardHeaders;
    simpl; destruct (Unmarshal headers) as [parsed|]; try done; intros [= <-]; exists parsed; (split; [done|]);
    intros c; by rewrite lookup_add_allowed.
Qed.

(** ** Instances of the theorems *)

Definition lookup_request (limit : Z) : SearchRequest :=
  mkSearch LookUp None (Some "a"%string) [] None [] None None None None false false 0 limit.
Definition filter_request : SearchRequest :=
  mkSearch Filter None None [Github] None ["queued"%string] (Some 200) None None None false false 0 1.

Lemma lookup_request_valid limit : valid_request (lookup_request limit).
Proof. left. split; [done|]. split; vm_compute; [by right|discriminate..]. Qed.

Lemma filter_request_valid : valid_request filter_request.
Proof.
  right. split; [done|]. split; try done; [|by left].
  intros c [= <-]. split; vm_compute; discriminate.
Qed.

Definition search_world : World := Fix.world (Fix.events_of [Fix.queued 1 "a"; Fix.queued 2 "b"]) [].
Definition search_result : SearchResponse :=
  match (Search (lookup_request 1) search_world).1 with Ok r => r | _ => mkResponse [] false end.

Lemma search_returns_page_witness :
  resp_HasMore search_result = false ∧ wh_ID <$> resp_Events search_result = [1].
Proof.
  split; [|vm_compute; reflexivity].
  destruct (search_returns_page (lookup_request 1) search_world search_result (Search (lookup_request 1) search_world).2)
    as [_ Hm]; [apply lookup_request_valid|vm_compute; discriminate|vm_compute; reflexivity|].
  etrans; [exact Hm|]. vm_compute. reflexivity.
Defined.

Lemma valid_search_succeeds_witness : ∃ r, (Search filter_request search_world).1 = Ok r.
Proof.
  apply valid_search_succeeds; [constructor|apply filter_request_valid|reflexivity|discriminate|..].
  - intros _. exists [Queued]. reflexivity.
  - reflexivity.
Defined.

Lemma search_limit_overflows_witness :
  (Search (lookup_request max_int64) search_world).1 = Err (PgError "LIMIT must not be negative").
Proof. apply search_limit_overflows; [constructor|apply lookup_request_valid|reflexivity..]. Defined.

Lemma replay_marks_one_event_witness :
  (svc_ReplayEvent "2" search_world).1 = Ok tt ∧ ∃ now, ∀ i,
      webhook_events (w_db (svc_ReplayEvent "2" search_world).2) !! i
      = (λ x, if bool_decide (wh_ID x = 2) then set_updated_at now (set_status Replaying x) else x)
          <$> webhook_events (w_db search_world) !! i.
Proof. exact (replay_marks_one_event "2" search_world (Forall_nil_2 _)). Defined.

Definition encrypted : string :=
  match (EncryptSigningKey "s3cret" Fix.w0).1 with Ok e => e | _ => "" end.

Lemma decrypt_encrypt_witness : DecryptSigningKey (MasterKey Fix.cfg) encrypted = Ok "s3cret"%string.
Proof.
  apply (proj1 (decrypt_encrypt "s3cret" Fix.w0 encrypted (EncryptSigningKey "s3cret" Fix.w0).2 ltac:(vm_compute; reflexivity))).
Defined.

Lemma decrypt_panics_on_short_witness : DecryptSigningKey (MasterKey Fix.cfg) "00ff" = Panic.
Proof.
  apply (decrypt_panics_on_short _ _ (string_of [0; 255])); [discriminate|vm_compute; reflexivity..|].
  apply Nat.ltb_lt. vm_compute. reflexivity.
Defined.

Definition new_config := Configure "1" " s3cret " "https://new.example" 5 20 Fix.w0.
Definition new_provider : Provider := match new_config.1 with Ok p => p | _ => Fix.github end.

Lemma configure_stores_and_caches_witness :
  providers (w_db new_config.2) = <[1 := new_provider]> Fix.table ∧ p_MaxRetries new_provider = 5.
Proof.
  split; [|vm_compute; reflexivity].
  destruct (configure_stores_and_caches "1" " s3cret " "https://new.example" 5 20 Fix.w0 new_provider new_config.2)
    as (u & old & Hu & _ & Hp & _); [apply injective_projections; [by_compute|reflexivity]|].
  injection Hu as <-. exact Hp.
Defined.

Lemma configure_rejects_invalid_witness :
  ∃ err, Configure "1" "s3cret" "https://new.example" 21 20 Fix.w0 = (Err err, Fix.w0).
Proof. apply configure_rejects_invalid. right; right; left. intros [_ Hc]. vm_compute in Hc. by apply Hc. Defined.

Definition received_headers : Header := Fix.headers [("Stripe-Signature", "v1=00"); ("Cookie", "secret")]%string.

Definition forwarded_headers : Header :=
  match provider_headers Stripe (header_text received_headers) with Ok h => h | _ => ∅ end.

Lemma forwards_exactly_allowed_headers_witness :
  default [] (forwarded_headers !! "Cookie"%string) = [] ∧
  default [] (forwarded_headers !! "Stripe-Signature"%string) = ["v1=00"%string].
Proof.
  split; [|by_compute].
  destruct (forwards_exactly_allowed_headers AtStripe (header_text received_headers) forwarded_headers) as (parsed & _ & Hh);
    [by_compute|].
  etrans; [apply Hh|]. reflexivity.
Defined.
