(* ===== verification/SpecAuth.v ===== *)
(** What the authentication guarantees: who gets tokens, how long they last,
    single use of refresh tokens, and the guard of the protected routes. *)
From stdpp Require Import base tactics list gmap strings numbers countable.
From Stdlib Require Import ZArith Lia.
From S2P Require Import Prelude GoStd GoCrypto GoAes Model Codecs Helpers World External Auth TokenLib Fixtures.

Open Scope Z_scope.

Section auth.
Context `{JwtLibOk}.

(** C25: only the configured user's credentials open a session; its access token
    is accepted, with the user's claims, exactly until ten minutes after the
    login, and its refresh token is stored. *)
Theorem login_opens_session email password w a r w' :
  Login email password w = (Ok (a, r), w') →
  email = UserEmail (w_cfg w) ∧ password = UserPassword (w_cfg w) ∧
  is_Some (refresh_tokens (w_db w') !! r) ∧
  ∀ w2, JWTSecret (w_cfg w2) = JWTSecret (w_cfg w) →
    match (ValidateAccessToken a w2).1 with
    | Ok claims => c_email claims = Some email ∧ Unix (w_now w2) < Unix (w_now w + 10 * Minute)
    | Err err => err = ErrTokenExpired ∧ Unix (w_now w + 10 * Minute) <= Unix (w_now w2)
    | Panic => False
    end.
Proof.
  unfold Login. rewrite st_bind_run. cbn [st_gets fst snd].
  destruct (negb _ || _) eqn:E; [done|]. bsplit. intros Hi.
  apply issue_tokens_Ok in Hi as (-> & -> & _ & _ & (row & Hrow) & _).
  split_and!; [done|done|rewrite Hrow, lookup_insert_eq; eauto|].
  intros w2 Hs. unfold ValidateAccessToken, GenerateAccessToken. rewrite <-Hs, parse_token_signed. cbn [c_exp c_email].
  unfold accessTokenTTL, AccessTokenTTL. destruct (Unix (w_now w2) <? _) eqn:El; bsplit; done.
Qed.


(** The check of the protected routes accepts a refresh token: for 24 hours
    the refresh token of a login passes wherever its access token does. *)
Theorem refresh_token_passes_as_access_token email password w a r w' w2 :
  Login email password w = (Ok (a, r), w') → JWTSecret (w_cfg w2) = JWTSecret (w_cfg w) →
  Unix (w_now w2) < Unix (w_now w + 24 * Hour) →
  ∃ claims, (ValidateAccessToken r w2).1 = Ok claims ∧ c_email claims = Some email.
Proof.
  unfold Login. rewrite st_bind_run. cbn [st_gets fst snd].
  destruct (negb _ || _); [done|]. intros Hi Hs Ht.
  apply issue_tokens_Ok in Hi as (_ & -> & _).
  unfold ValidateAccessToken, GenerateRefreshToken. rewrite <-Hs, parse_token_signed. cbn [c_exp].
  unfold refreshTokenTTL, RefreshTokenTTL. rewrite (proj2 (Z.ltb_lt _ _) Ht). eauto.
Qed.

(** After a logout answered 200 the refresh token of its cookie is revoked:
    a refresh with it is refused. *)
Theorem logout_revokes_refresh_token cs token w x :
  reliable w → find_cookie "refresh_token" cs = Some token →
  (logout cs w).1 = Some x → ar_status x = 200 →
  (RefreshToken token (logout cs w).2).1 = Err ErrTokenNotFound.
Proof.
  intros Hr Hc. unfold logout. rewrite Hc, st_bind_run. unfold DeleteRefreshToken.
  destruct (token_Delete_reliable token w Hr) as [E Hd].
  assert (reliable (token_Delete token w).2) as Hrel.
  { unfold token_Delete. rewrite db_stmt_reliable by done. by apply reliable_ext. }
  rewrite E. rewrite st_bind_run. cbn [st_gets st_ret fst snd]. intros _ _.
  apply RefreshToken_unknown; [done|]. by rewrite Hd, lookup_delete_eq.
Qed.

End auth.

(** ** Instances of the theorems *)

Abbreviation logged_in := (Login "a@b.c" "pw" Fix.w0).
Definition tokens (r : result (string * string)) : string * string :=
  match r with Ok p => p | _ => (EmptyString, EmptyString) end.
Definition session : string * string := tokens logged_in.1.

(** A minute later, and then the first refresh. *)
Definition a_minute_later : World :=
  let w := logged_in.2 in
  mkWorld (w_now w + Minute) [] (w_cfg w) (w_db w) (w_redis w) true (w_batch w) (w_hub w) (w_signal w) (w_sent w).
Abbreviation refreshed := (RefreshToken session.2 a_minute_later).

Lemma pair_intro {A B} (p : A * B) a : p.1 = a → p = (a, p.2).
Proof. destruct p. by intros <-. Qed.

Lemma logged_in_eq : logged_in = (Ok (session.1, session.2), logged_in.2).
Proof. apply pair_intro. by_compute. Qed.

Lemma login_opens_session_witness :
  "a@b.c"%string = UserEmail (w_cfg Fix.w0) ∧ "pw"%string = UserPassword (w_cfg Fix.w0) ∧
  is_Some (refresh_tokens (w_db logged_in.2) !! session.2) ∧
  ∀ w2, JWTSecret (w_cfg w2) = JWTSecret (w_cfg Fix.w0) →
    match (ValidateAccessToken session.1 w2).1 with
    | Ok claims => c_email claims = Some "a@b.c"%string ∧ Unix (w_now w2) < Unix (w_now Fix.w0 + 10 * Minute)
    | Err err => err = ErrTokenExpired ∧ Unix (w_now Fix.w0 + 10 * Minute) <= Unix (w_now w2)
    | Panic => False
    end.
Proof. exact (login_opens_session "a@b.c" "pw" Fix.w0 session.1 session.2 logged_in.2 logged_in_eq). Defined.


Lemma refresh_token_passes_as_access_token_witness :
  ∃ claims, (ValidateAccessToken session.2 a_minute_later).1 = Ok claims ∧ c_email claims = Some "a@b.c"%string.
Proof.
  apply (refresh_token_passes_as_access_token _ _ _ _ _ _ a_minute_later logged_in_eq); [reflexivity|].
  vm_compute. reflexivity.
Defined.

Lemma logout_revokes_refresh_token_witness :
  (RefreshToken session.2 (logout [("refresh_token"%string, session.2)] a_minute_later).2).1 = Err ErrTokenNotFound.
Proof.
  apply (logout_revokes_refresh_token [("refresh_token"%string, session.2)] session.2 a_minute_later
           (mkAuthResp 200 [ExpiredAccessCookie true; ExpiredRefreshCookie true]));
    [constructor|reflexivity|vm_compute; reflexivity|reflexivity].
Defined.

(** A refresh within the second of the login hands back the same refresh
    token: rotation does not rotate it. *)
Example refresh_in_the_same_second :
  (RefreshToken session.2 logged_in.2).1 = Ok (session.1, session.2).
Proof. by_compute. Qed.
