(* ===== verification/SpecDashboard.v ===== *)
(** What the HTTP surface as a whole guarantees: the guard of the protected
    routes, requests that only read and the SSE stream. *)
From stdpp Require Import base tactics list gmap strings numbers.
From Stdlib Require Import ZArith Lia.
From S2P Require Import Prelude GoStd Json GoCrypto GoAes Model Codecs Helpers World Schema External EventsRepo Crypto Providers Ingest Auth.
From S2P Require Import Hub Search Dashboard Stream SseTrace Limiter WorkerRepo Handlers Startup App Router Fixtures.
From S2P Require Import TokenLib SpecAuth.

Open Scope Z_scope.

Section surface.
Context `{Postgres, StripeLib, UuidLib, JwtLib, Unicode}.

(** C23: a request to a protected route without a valid access cookie is
    answered without running its handler and without any effect, not even a
    call to the outside world; with one, the handler decides. *)
Theorem protected_routes_are_guarded cs p w :
  (¬ authorized cs w →
     (∃ err, serve (Protected cs p) w = (Unauthorized err, w)) ∨ serve (Protected cs p) w = (Crashed, w)) ∧
  (authorized cs w → serve (Protected cs p) w = serve_protected p w).
Proof.
  cbn [serve]. destruct (Jwt_cases (serve_protected p) Unauthorized Crashed cs w) as [[Ha ->]|[Hn Hr]];
    split; intros Hc; [done|done|exact Hr|done].
Qed.

(** Listing, searching, statistics, the providers, the health check and the
    session check change nothing: the tables, the cache, the hub and what was
    sent stay as they are. *)
Theorem read_requests_change_nothing r : reads r = true → read_only (serve r).
Proof. apply read_only_reads. Qed.

End surface.


(** ** The SSE stream *)


(** C31: a client reads what the stream wrote: whatever frames the handler sends,
    the bytes on the wire parse, by the event stream format, into exactly the
    events of those frames, heartbeats being comments; parsing the messages as
    JSON gives the values of the batches, in order, the headers and payloads
    being the values their columns hold; and every batch that a connection
    sends has such a value, so that none is lost. *)
Theorem sse_wire_roundtrip `{UuidLib} frames :
  client (wire frames) = omap event_of frames ∧
  feed (wire frames) = omap batch_value (batches frames) ∧
  ∀ wakes w, frames = (SSE wakes w).1 → Some <$> feed (wire frames) = batch_value <$> batches frames.
Proof. split_and!; [apply client_wire|apply feed_wire|intros wakes w ->; apply SSE_feed]. Qed.

(** ** Request bodies *)

(** C32: [DecodeBodyJSON], which reads a body with two calls of a streaming
    decoder, accepts exactly the bodies of at most [MaxBodyBytes] bytes, declared
    as JSON or not at all, that parse as one JSON value and nothing else, all of
    whose members are fields of the struct and hold a value of their type; it
    then returns the struct those members make of the zero value.  Every other
    body is refused: 415 exactly for another content type, else 413 or 400, and
    413 only for a body over the limit. *)
Theorem body_accepted_exactly {A} `{Struct A, Unicode} contentType body :
  let json_type := contentType = ""%string ∨ media_type contentType = "application/json"%string in
  (∀ a : A, DecodeBodyJSON contentType body = Ok a ↔
    json_type ∧ len body <= MaxBodyBytes ∧
    ∃ j, parse (bytes_of body) = Some j ∧ object_value (struct_set true) zero_struct j = Some a) ∧
  DecodeBodyJSON (A := A) contentType body ≠ Panic ∧
  ∀ err, DecodeBodyJSON (A := A) contentType body = Err err →
    (mr_Status err = 415 ↔ ¬ json_type) ∧ mr_Status err ∈ [400; 413; 415] ∧
    (mr_Status err = 413 → MaxBodyBytes < len body).
Proof.
  split_and!; [intros a; apply DecodeBodyJSON_Ok|apply DecodeBodyJSON_returns|apply DecodeBodyJSON_Err].
Qed.

(** The replies to what is not accepted. *)
Definition refusal_of (body : string) : option (Z * string) :=
  match DecodeBodyJSON (A := configureRequestBody) "application/json; charset=utf-8" body with
  | Err err => Some (mr_Status err, mr_Message err) | _ => None end.

Example body_badly_formed : refusal_of (double_quoted "{'max_retries':1 x}")
  = Some (400, "Request body contains badly-formed JSON (at position 18)")%string.
Proof. vm_compute. reflexivity. Qed.
Example body_cut_off : refusal_of "[1, " = Some (400, "Request body contains badly-formed JSON"%string).
Proof. vm_compute. reflexivity. Qed.
Example body_of_another_type : refusal_of (double_quoted "{'max_retries':'3','max_req_second':[]}")
  = Some (400, double_quoted "Request body contains an invalid value for the 'max_retries' field (at position 18)").
Proof. vm_compute. reflexivity. Qed.
Example body_unknown_field : refusal_of (double_quoted "{'max_retry\u0007':3, 'max_retries': {}}")
  = Some (400, double_quoted "Request body contains unknown field 'max_retry\a'").
Proof. vm_compute. reflexivity. Qed.
Example body_empty : refusal_of " " = Some (400, "Request body must not be empty"%string).
Proof. vm_compute. reflexivity. Qed.
Example body_followed : refusal_of "{} {}" = Some (400, "Request body must only contain a single JSON object"%string).
Proof. vm_compute. reflexivity. Qed.

(** Despite the name, the value [null] passes for an object. *)
Example body_null : DecodeBodyJSON (A := configureRequestBody) "" "null" = Ok (mkConfigure "" "" 0 0).
Proof. vm_compute. reflexivity. Qed.

(** ** Instances of the theorems *)

(** Without a cookie nothing is replayed; with the cookie of the login the
    replay is answered. *)
Lemma protected_routes_are_guarded_witness :
  (∃ err, serve (Protected [] (PostReplay "7")) Fix.w0 = (Unauthorized err, Fix.w0)) ∧
  serve (Protected [(accessCookieName, session.1)] (PostReplay "7")) a_minute_later
  = serve_protected (PostReplay "7") a_minute_later.
Proof.
  split.
  - destruct (proj1 (protected_routes_are_guarded [] (PostReplay "7") Fix.w0)) as [Hr|Hr];
      [by intros (token & claims & [=] & _)|exact Hr|by vm_compute in Hr].
  - apply (protected_routes_are_guarded [(accessCookieName, session.1)] (PostReplay "7") a_minute_later).
    exists session.1, (mkClaims "access token | a@b.c" (Some "a@b.c"%string) 1750000600 1750000000). split; by_compute.
Defined.

Lemma read_requests_change_nothing_witness :
  same_state Fix.w0 (serve (Public (GetHealth Fix.now Fix.runtime true)) Fix.w0).2.
Proof. exact (read_requests_change_nothing (Public (GetHealth Fix.now Fix.runtime true)) eq_refl Fix.w0). Defined.

Definition with_payload (p : string) (w : Webhook) : Webhook :=
  mkWebhook (wh_ID w) (wh_ProviderID w) (wh_Provider w) (wh_EventID w) (wh_EventType w) (wh_Headers w) p
    (wh_DeliveryStatus w) (wh_ForwardedTo w) (wh_ResponseCode w) (wh_RetryCount w) (wh_NextRetryAt w)
    (wh_LastError w) (wh_ReceivedAt w) (wh_UpdatedAt w) (wh_CreatedAt w).

Definition sse_run : list wakeup :=
  [Meanwhile (ASend (Fix.queued 1 "a")); Meanwhile AReceive; Meanwhile ATick; BatchReady; HeartbeatTick].

Example sse_frames : (SSE sse_run Fix.w0).1 = [Connected; Data [Fix.queued 1 "a"]; Heartbeat].
Proof. reflexivity. Qed.


Lemma sse_wire_roundtrip_witness :
  Some <$> feed (wire (SSE sse_run Fix.w0).1) = [batch_value [Fix.queued 1 "a"]] ∧
  client (wire [Connected; Overflow 12]) = [("connected", "{}"); ("overflow", "{" +:+ quoted "count" +:+ ":12}")]%string.
Proof.
  split; [|exact (proj1 (sse_wire_roundtrip [Connected; Overflow 12]))].
  etrans; [exact (proj2 (proj2 (sse_wire_roundtrip (SSE sse_run Fix.w0).1)) sse_run Fix.w0 eq_refl)|]. vm_compute. reflexivity.
Defined.

(** What the dashboard reads of a payload with white space and a tag in it. *)
Example payload_on_the_wire :
  let ev := with_payload ("{ " +:+ quoted "a" +:+ " : " +:+ quoted "<b>" +:+ "}") (Fix.queued 1 "a") in
  match Marshal [ev] with Ok data => JSON_parse data | _ => None end = batch_value [ev].
Proof. vm_compute. reflexivity. Qed.

#[export] Existing Instance Chi.one_param.
#[export] Existing Instance Chi.one_param_ok.

