(* ===== verification/SpecStartup.v ===== *)
(** The health check, the sizing of the workers, the configuration of the
    process, the objects it creates once and its start. *)
From stdpp Require Import base tactics list gmap strings numbers.
From Stdlib Require Import ZArith Lia.
From S2P Require Import Prelude GoStd GoCrypto Model Codecs Helpers World Schema External EventsRepo Crypto Providers.
From S2P Require Import Limiter WorkerRepo Startup Fixtures.

Open Scope Z_scope.

(** The health check answers 200 exactly when both dependencies answered
    their ping, in whichever order the two pings ran, and 503 otherwise, and
    sends the check as JSON either way. *)
Theorem health_reports_dependencies startTime rt db_first w :
  let up := es_fault (ext w).1 = None ∧ es_fault (ext (ext w).2).1 = None in
  ∃ body, Marshal (GetHealthCheck startTime rt db_first w).1 = Ok body ∧
    (up → (getHealth startTime rt db_first w).1 = Some (mkReply 200 body)) ∧
    (¬ up → (getHealth startTime rt db_first w).1 = Some (mkReply 503 body)).
Proof.
  cbv zeta. rewrite getHealth_run. cbv zeta.
  destruct (Marshal_health (GetHealthCheck startTime rt db_first w).1) as [body Hb]. exists body. split; [done|].
  rewrite Hb. clear Hb. unfold GetHealthCheck, getUpTime, getTimeStamp, checkDB, checkRedis, check_dependency.
  destruct db_first; repeat (rewrite !st_bind_run; cbn [time_Now st_gets st_ret fst snd]);
    destruct (es_fault (ext w).1), (es_fault (ext (ext w).2).1); simpl; (split; [naive_solver|intros Hn]);
    try done; by destruct Hn.
Qed.

(** On any machine the workers' batches stay between their limits and there
    is a worker of each kind; up to 2^60 processors, the workers and the four
    reserved connections use exactly the connections of the pool. *)
Theorem resources_fit_the_pool numCPU :
  let R := ComputeResources numCPU in
  20 <= QueueBatch R <= 100 ∧ 10 <= RetryBatch R <= 50 ∧
  2 <= QueueWorkers R ∧ 1 <= RetryWorkers R ∧ 10 <= DBMaxConns R ∧
  (0 <= numCPU <= 2 ^ 60 → QueueWorkers R + RetryWorkers R + minReservedConns = DBMaxConns R).
Proof.
  cbv zeta. unfold ComputeResources. cbn [QueueBatch RetryBatch QueueWorkers RetryWorkers DBMaxConns].
  split; [by apply clamp_range|]. split; [by apply clamp_range|].
  unfold minQueueWorkers, minRetryWorkers, minDBConns, minReservedConns, minWorkerBudget, queueWorkerShareNum,
    queueWorkerShareDen, dbConnsPerCPU. split_and!; [lia..|]. intros Hn.
  rewrite (wrap64_small (numCPU * 2)) by (unfold min_int64, max_int64; lia).
  set (conns := Z.max (numCPU * 2) 10). assert (10 <= conns <= 2 ^ 61 + 10) by lia.
  rewrite (wrap64_small (conns - 4)) by (unfold min_int64, max_int64; lia).
  replace (Z.max (conns - 4) 4) with (conns - 4) by lia.
  rewrite (wrap64_small ((conns - 4) * 2)) by (unfold min_int64, max_int64; lia).
  rewrite Z.quot_div_nonneg by lia.
  pose proof (Z.div_mod ((conns - 4) * 2) 3). pose proof (Z.mod_pos_bound ((conns - 4) * 2) 3).
  rewrite Z.max_r by lia. rewrite wrap64_small by (unfold min_int64, max_int64; lia). lia.
Qed.

(** The process runs only with every variable set: no secret, credential or
    address of its configuration is empty. *)
Theorem config_has_no_empty_field `{LogLib} env cfg :
  initConfig env = Ok cfg →
  Forall (λ s : string, s ≠ EmptyString)
    [DBType cfg; DBUser cfg; DBPassword cfg; DBHost cfg; DBName cfg; RedisURL cfg; UserEmail cfg;
     UserPassword cfg; JWTSecret cfg; MasterKey cfg] ∧
  min_int64 <= DBPort cfg <= max_int64.
Proof.
  unfold initConfig. intros Hc.
  repeat (apply res_bind_Ok in Hc as (? & ? & Hc)). injection Hc as <-. simpl.
  split; [repeat (constructor; [by eapply getEnvString_Ok|]); constructor|by eapply getEnvInt_Ok].
Qed.

Section startup.
Context `{UuidLib, InfraLib, LogLib}.

(** C39: a start that does not panic leaves the configuration the environment
    gives, every provider of the database in the cache, the limiter connected
    and the batch sizes within their limits, and does not touch the database. *)
Theorem startup_prepares_the_process env rt numCPU w w' :
  db_ok (w_db w) → start env rt numCPU w = (Ok tt, w') →
  initConfig env = Ok (w_cfg w') ∧ coherent w' ∧ w_limiter w' = true ∧ w_db w' = w_db w ∧
  20 <= (w_batch w').1 <= 100 ∧ 10 <= (w_batch w').2 <= 50.
Proof.
  intros Hok Hs. apply start_Ok in Hs as (cfg & w1 & w2 & Hcfg & [] & Hr & ->).
  assert (coherent w2) as Hc by (apply (fill_cache_Ok "insertion" w1); [by rewrite same_db|done]).
  destruct (fill_cache_frame "insertion" w1) as (Hdb & Hb & Hcf). rewrite Hr in Hdb, Hb, Hcf. simpl in *.
  split_and!; [congruence|exact Hc|done|congruence|rewrite Hb, same_batch; by apply clamp_range..].
Qed.

End startup.

(** ** Objects created once *)

Section singletons.
Context `{InfraLib}.

(** Calls of [NewPG] one after the other in one process. *)
Fixpoint connect (sizes : list Z) (s : Singleton PgPool) : M (list (option PgPool * option goerr)) :=
  match sizes with
  | [] => st_ret []
  | n :: sizes =>
    let* r := NewPG n s in
    let* later := connect sizes r.2 in
    st_ret (r.1 :: later)
  end.

(** The two outcomes of the first call. *)
Lemma NewPG_first n w :
  (∃ w', let p := Some (mkPool (wrap32 n)) in NewPG n fresh_singleton w = (p, None, mkSingleton p true, w')) ∨
  (∃ err w', NewPG n fresh_singleton w = (None, Some err, mkSingleton None true, w')).
Proof.
  unfold NewPG, once_Do, init_pool. cbn [once fresh_singleton]. rewrite !st_bind_run. cbn [st_gets fst snd].
  destruct (ParseConfig_ok _); cbn [negb]; [|right; by do 2 eexists]. rewrite st_bind_run. cbn [st_ret fst snd].
  destruct (es_fault _); [right; by do 2 eexists|]. destruct (NewWithConfig_ok _); [left|right]; by repeat eexists.
Qed.

Lemma NewPG_again n i : NewPG n (mkSingleton i true) = st_ret (i, None, mkSingleton i true).
Proof. done. Qed.

Lemma connect_again sizes i w : connect sizes (mkSingleton i true) w = (replicate (length sizes) (i, None), w).
Proof. induction sizes as [|n sizes IH]; [done|]. cbn [connect]. rewrite st_bind_run, NewPG_again. simpl. by rewrite st_bind_run, IH. Qed.

(** The pool is created by the first call only, with the size that call
    asks for.  Every later call, whatever size it asks for, has no effect and
    returns what the first one left, with a nil error: the pool if the first
    call made one, and a nil pool without an error if the first call failed. *)
Theorem pool_is_created_once n sizes w :
  let first := (NewPG n fresh_singleton w).1.1 in
  connect (n :: sizes) fresh_singleton w
  = (first :: replicate (length sizes) (first.1, None), (NewPG n fresh_singleton w).2) ∧
  (first.2 = None ↔ first.1 = Some (mkPool (wrap32 n))) ∧ (first.2 ≠ None ↔ first.1 = None).
Proof.
  cbv zeta. cbn [connect]. rewrite st_bind_run.
  destruct (NewPG_first n w) as [(w' & ->)|(err & w' & ->)]; cbn [fst snd]; rewrite st_bind_run, connect_again;
    (split_and!; [done|..]; split; congruence).
Qed.

End singletons.

(** ** Instances of the theorems *)

Example health_reply : (getHealth (Fix.now - Hour) Fix.runtime true Fix.w0).1 = Some (mkReply 200 (double_quoted
  ("{'status':'healthy','uptime_seconds':3600,'version':'b2c4','timestamp':'2025-06-15T15:06:40Z',"
   +:+ "'checks':{'postgres':{'status':'healthy','latency_ms':0},'redis':{'status':'healthy','latency_ms':0}},"
   +:+ "'resources':{'alloc_mb':3,'total_alloc_mb':5,'sys_mb':9,'num_goroutine':17,'num_gc':2,'disk_free_mb':16}}"))).
Proof. vm_compute. reflexivity. Qed.

Example unset_variable_panics : initConfig (delete "MASTER_KEY"%string Fix.environ) = Panic.
Proof. vm_compute. reflexivity. Qed.

Example environ_config : initConfig Fix.environ = Ok Fix.cfg.
Proof. vm_compute. reflexivity. Qed.

Lemma config_has_no_empty_field_witness : ∃ cfg, initConfig Fix.environ = Ok cfg ∧ MasterKey cfg ≠ EmptyString.
Proof.
  exists Fix.cfg. split; [exact environ_config|].
  destruct (config_has_no_empty_field Fix.environ _ environ_config) as [Hf _].
  by do 9 apply Forall_inv_tail in Hf; apply Forall_inv in Hf.
Defined.

Definition cold : World := set_limiter (λ _, false) (set_redis (λ _, mkRedis ∅ ∅) Fix.w0).

Lemma startup_prepares_the_process_witness :
  coherent (Startup.start Fix.environ Fix.runtime 8 cold).2 ∧
  w_limiter (Startup.start Fix.environ Fix.runtime 8 cold).2 = true.
Proof.
  destruct (startup_prepares_the_process Fix.environ Fix.runtime 8 cold (Startup.start Fix.environ Fix.runtime 8 cold).2)
      as (_ & Hc & Hl & _).
  - apply (Fix.db_ok_events []). vm_compute. reflexivity.
  - apply injective_projections; [by_compute|reflexivity].
  - split; [exact Hc|exact Hl].
Defined.
