(* ===== verification/SpecTestutil.v ===== *)
(** What the helper of the integration tests promises: the container runs the
    creation parts of the migrations in their order, the returned function
    releases all that was taken, and a failure leaves nothing running. *)
From stdpp Require Import base tactics list gmap strings.
From Stdlib Require Import ZArith Lia Ascii.
From S2P Require Import Prelude GoStd Model Codecs Testutil.

Open Scope Z_scope.

(** ** The order of the scripts *)

Lemma compare_same_prefix (c a b : string) : String.compare (c +:+ a) (c +:+ b) = String.compare a b.
Proof.
  induction c as [|x c IH]; [done|]. rewrite !string_app_cons. simpl. unfold Ascii.compare.
  by rewrite N.compare_refl.
Qed.

Lemma compare_same_length (a b x y : string) :
  String.length a = String.length b → String.compare a b = Lt → String.compare (a +:+ x) (b +:+ y) = Lt.
Proof.
  revert b. induction a as [|c a IH]; intros [|d b]; try done.
  intros [= Hl]. rewrite !string_app_cons. simpl. destruct (Ascii.compare c d); auto.
Qed.

Lemma temp_name_order p q r s :
  String.length (temp_prefix p) = String.length (temp_prefix q) →
  String.compare (temp_prefix p) (temp_prefix q) = Lt →
  String.compare (temp_name p r) (temp_name q s) = Lt.
Proof.
  intros Hl Hc. unfold temp_name. rewrite compare_same_prefix, !string_app_assoc. by apply compare_same_length.
Qed.

(** When the migrations could be prepared, each has a file of its own,
    with what stands before its teardown marker and no such marker, under a name
    that sorts as the number in front of the migration's name: the container
    executes the creation parts in order and no teardown. *)
Theorem init_scripts_are_up_migrations paths h cleaned h' :
  stripGooseDown paths h = (Ok cleaned, h') →
  NoDup cleaned ∧
  Forall2 (λ path name, ∃ data rest,
      (∀ d, h_files h !! path = Some d → d = data) ∧ h_files h' !! name = Some (up_section data) ∧
      data = up_section data +:+ rest ∧ ¬ occurs (LF +:+ goose_down) (up_section data) ∧
      (rest = ""%string ∨ (∃ before, up_section data = before +:+ LF) ∧ ∃ down, rest = goose_down +:+ down))
    paths cleaned ∧
  ∀ i j p q n m, paths !! i = Some p → paths !! j = Some q → cleaned !! i = Some n → cleaned !! j = Some m →
    String.length (temp_prefix p) = String.length (temp_prefix q) →
    String.compare (temp_prefix p) (temp_prefix q) = Lt → String.compare n m = Lt.
Proof.
  intros E. destruct (strip_loop_ok _ _ _ _ _ E) as (names & -> & [Hn _ Hnd _ Hc]). cbn [app].
  split; [done|]. split.
  - eapply Forall2_impl; [exact Hc|]. intros path name (data & Hd & Hsame).
    destruct (up_section_spec data) as (rest & ? & ? & ?). exists data, rest. by split_and!.
  - intros i j p q n m Hp Hq Hi Hj Hl Hlt.
    destruct (Forall2_lookup_lr _ _ _ _ _ _ Hn Hp Hi) as [r ->].
    destruct (Forall2_lookup_lr _ _ _ _ _ _ Hn Hq Hj) as [s ->]. by apply temp_name_order.
Qed.

(** ** What is taken is released *)

(** Numbers of containers and pools are not reused. *)
Definition host_ok (h : Host) : Prop :=
  ∀ n, (h_next h ≤ n)%nat → h_containers h !! n = None ∧ h_pools h !! n = None.

Lemma Terminate_quiet ctr h :
  quiet h → let h' := (Terminate ctr h).2 in
  quiet h' ∧ h_files h' = h_files h ∧ h_pools h' = h_pools h ∧ h_containers h' = delete ctr (h_containers h).
Proof.
  intros Hq. unfold Terminate. host. destruct (call_quiet h Hq) as [Hc Hq']. run_call. rewrite Hc. host.
  destruct Hfo. simpl. split_and!; [done|done|done|congruence].
Qed.

Lemma cleanup_quiet t h :
  quiet h → let h' := (cleanup t h).2 in
  h_files h' = foldr delete (h_files h) (reverse (td_files t)) ∧
  h_pools h' = delete (td_pool t) (h_pools h) ∧ h_containers h' = delete (td_container t) (h_containers h).
Proof.
  intros Hq. unfold cleanup. host. unfold pool_Close. host. set (h1 := set_pools _ h).
  destruct (Terminate_quiet (td_container t) h1 Hq) as (Hq2 & Hf2 & Hp2 & Hc2).
  destruct (Terminate _ h1) as [e2 h2]. cbn [fst snd] in *. host.
  destruct (Terminate_quiet (td_container t) h2 Hq2) as (Hq3 & Hf3 & Hp3 & Hc3).
  destruct (Terminate _ h2) as [e3 h3]. cbn [fst snd] in *. host.
  rewrite cleanup_files_quiet by done. destruct (cleanup_files_only (td_files t) h3) as [Hc Hp _ _].
  rewrite Hc, Hp, Hc3, Hp3, Hf3, Hc2, Hp2, Hf2. split_and!; [done|done|]. apply delete_delete_eq.
Qed.

(** The calls of [NewTestDB] after the strip, on success. *)
Lemma postgres_Run_ok scripts h ctr h' :
  postgres_Run scripts h = (Ok ctr, h') →
  ctr = h_next h ∧ h_next h' = S (h_next h) ∧ h_files h' = h_files h ∧ h_pools h' = h_pools h ∧
  h_containers h' = <[ctr := scripts]> (h_containers h).
Proof.
  unfold postgres_Run. host. run_call. destruct Hfo. destruct (c_fault c); host; intros [= <- <-]. simpl.
  split_and!; congruence.
Qed.

Lemma NewWithConfig_ok cfg h pool h' :
  NewWithConfig cfg h = (Ok pool, h') →
  pool = h_next h ∧ h_files h' = h_files h ∧ h_containers h' = h_containers h ∧
  h_pools h' = <[pool := cfg]> (h_pools h).
Proof.
  unfold NewWithConfig. host. run_call. destruct Hfo. destruct (c_fault c); host; intros [= <- <-]. simpl.
  split_and!; congruence.
Qed.

Lemma ConnectionString_frame ctr h :
  let r := ConnectionString ctr h in files_only h r.2 ∧ h_files r.2 = h_files h ∧ r.1 ≠ Panic.
Proof. unfold ConnectionString. host. run_call. by destruct (c_fault c). Qed.

Lemma ParseConfig_frame s h :
  let r := ParseConfig s h in files_only h r.2 ∧ h_files r.2 = h_files h ∧ r.1 ≠ Panic.
Proof. unfold ParseConfig. host. run_call. by destruct (c_fault c). Qed.

Lemma NewTestDB_ok scripts h t h' :
  host_ok h → NewTestDB scripts h = (Ok t, h') →
  ∃ cfg, (∃ h1, stripped h scripts (td_files t) h1 ∧ h_files h' = h_files h1) ∧
    h_containers h' = <[td_container t := td_files t]> (h_containers h) ∧ h_containers h !! td_container t = None ∧
    h_pools h' = <[td_pool t := (cfg, 30)]> (h_pools h) ∧ h_pools h !! td_pool t = None.
Proof.
  intros Hok. unfold NewTestDB. host. pose proof (strip_loop_files_only scripts [] h) as Hfo.
  fold (stripGooseDown scripts) in Hfo.
  destruct (stripGooseDown scripts h) as [[cleaned|err|] h1] eqn:Estrip; cbn [fst snd] in *; host; [|done..].
  destruct (strip_loop_ok _ _ _ _ _ Estrip) as (names & E & Hstrip). cbn [app] in E. subst names.
  destruct (postgres_Run cleaned h1) as [[ctr|err|] h2] eqn:Erun; cbn [fst snd]; host; [|done..].
  destruct (ConnectionString_frame ctr h2) as (Hfo3 & Hf3 & _).
  destruct (ConnectionString ctr h2) as [[conn|err|] h3]; cbn [fst snd] in *; host; [|done..].
  destruct (ParseConfig_frame conn h3) as (Hfo4 & Hf4 & _).
  destruct (ParseConfig conn h3) as [[cfg|err|] h4]; cbn [fst snd] in *; host; [|done..].
  destruct (NewWithConfig (cfg, 30) h4) as [[pool|err|] h5] eqn:Epool; cbn [fst snd]; host; [|done..].
  intros [= <- <-]. cbn [td_pool td_container td_files].
  apply postgres_Run_ok in Erun as (-> & Hnext & Hf2 & Hp2 & Hc2). apply NewWithConfig_ok in Epool as (-> & Hf5 & Hc5 & Hp5).
  destruct Hfo as [Hc1 Hp1 Hn1 _], Hfo3 as [Hc3 Hp3 Hn3 _], Hfo4 as [Hc4 Hp4 Hn4 _].
  exists cfg. split; [exists h1; split; [done|congruence]|].
  rewrite Hc5, Hc4, Hc3, Hc2, Hc1, Hp5, Hp4, Hp3, Hp2, Hp1, Hn4, Hn3, Hnext, Hn1.
  split_and!; [done|apply Hok; lia|done|apply Hok; lia].
Qed.

(** The test database is given back whole: a container that runs the
    creation parts of the migrations, each from a file of its own, and a pool of
    thirty connections on it are all that is new, and once the returned function
    has run, files, containers and pools are those of before. *)
Theorem test_database_is_given_back scripts h t h' :
  host_ok h → NewTestDB scripts h = (Ok t, h') → quiet h' →
  h_containers h' = <[td_container t := td_files t]> (h_containers h) ∧
  (∃ cfg, h_pools h' = <[td_pool t := (cfg, 30)]> (h_pools h)) ∧
  Forall2 (λ path name, ∃ data, h_files h' !! name = Some (up_section data) ∧
      (∀ d, h_files h !! path = Some d → d = data)) scripts (td_files t) ∧
  (∀ file, file ∉ td_files t → h_files h' !! file = h_files h !! file) ∧
  let h'' := (cleanup t h').2 in
  h_files h'' = h_files h ∧ h_containers h'' = h_containers h ∧ h_pools h'' = h_pools h.
Proof.
  intros Hok E Hq. destruct (NewTestDB_ok _ _ _ _ Hok E) as (cfg & (h1 & Hs & Hf) & Hc & Hc0 & Hp & Hp0).
  split; [done|]. split; [by eexists|]. rewrite Hf. split; [apply Hs|]. split; [apply Hs|].
  destruct (cleanup_quiet t h' Hq) as (Hf2 & Hp2 & Hc2). cbv zeta.
  rewrite Hf2, Hp2, Hc2, Hc, Hp, Hf. split_and!; [by eapply stripped_removed|by apply delete_insert_id..].
Qed.

(** ** One failure *)

Lemma quiet_single_script l : Forall (λ c, c_fault c = None) l → single_script l.
Proof. induction 1 as [|c l Hc Hl IH]; [done|]. simpl. by rewrite Hc. Qed.

Lemma files_only_single h h' : files_only h h' → single h → single h'.
Proof.
  intros Hf. destruct (fo_script _ _ Hf) as [l Hl]. unfold single. rewrite Hl. clear.
  induction l as [|c l IH]; [done|]. simpl. destruct (c_fault c); [|done].
  intros [_ Hq]%Forall_app. by apply quiet_single_script.
Qed.

(** A call of the engine or the driver that fails has changed nothing, and no
    other call fails. *)
Definition fails_clean {A} (m : ST Host (result A)) : Prop := ∀ h, single h →
  (m h).1 ≠ Panic ∧ single (m h).2 ∧ ∀ err, (m h).1 = Err err →
    quiet (m h).2 ∧ h_containers (m h).2 = h_containers h ∧ h_pools (m h).2 = h_pools h.

Ltac fail_clean :=
  intros h Hs; host; destruct (call_single h Hs) as [Hs' Hq]; run_call;
  match goal with Hfo : files_only _ _ |- _ => destruct Hfo end;
  match goal with c : Call |- _ => destruct (c_fault c) eqn:? end; host;
  split_and!; try done; intros ? [= <-]; split_and!; try done; by apply Hq.

Lemma postgres_Run_clean scripts : fails_clean (postgres_Run scripts).
Proof. unfold postgres_Run. fail_clean. Qed.
Lemma ConnectionString_clean ctr : fails_clean (ConnectionString ctr).
Proof. unfold ConnectionString. fail_clean. Qed.
Lemma ParseConfig_clean s : fails_clean (ParseConfig s).
Proof. unfold ParseConfig. fail_clean. Qed.
Lemma NewWithConfig_clean cfg : fails_clean (NewWithConfig cfg).
Proof. unfold NewWithConfig. fail_clean. Qed.

(** The steps that follow the start of the container [ctr]. *)
Definition running (h0 h : Host) (ctr : nat) : Prop :=
  single h ∧ delete ctr (h_containers h) = h_containers h0 ∧ h_pools h = h_pools h0.

Lemma running_frame h0 h h' ctr :
  files_only h h' → running h0 h ctr → running h0 h' ctr.
Proof.
  intros Hf (Hs & Hc & Hp). split; [by eapply files_only_single|]. by rewrite (fo_containers _ _ Hf), (fo_pools _ _ Hf).
Qed.

(** When one of them fails, [Terminate] restores the host. *)
Lemma running_failure {A B} (m : ST Host (result A)) what err h0 h ctr (h' : Host) e :
  fails_clean m → running h0 h ctr → (m h).1 = Err err →
  (let* _ := Terminate ctr in fail_after (A := B) what err) (m h).2 = (Err e, h') →
  h_containers h' = h_containers h0 ∧ h_pools h' = h_pools h0.
Proof.
  intros Hm (Hs & Hc & Hp) He. destruct (Hm h Hs) as (_ & _ & Hf). destruct (Hf _ He) as (Hq & Hc' & Hp').
  unfold fail_after. host. destruct (Terminate_quiet ctr _ Hq) as (_ & _ & Hpt & Hct). intros [= _ <-].
  by rewrite Hct, Hpt, Hc', Hp'.
Qed.

(** When a single call fails, whichever it is, a failed [NewTestDB] leaves no
    container running and no pool open. *)
Theorem failed_test_database_stops scripts h err h' :
  host_ok h → single h → NewTestDB scripts h = (Err err, h') →
  h_containers h' = h_containers h ∧ h_pools h' = h_pools h.
Proof.
  intros Hok Hs. unfold NewTestDB. host. pose proof (strip_loop_files_only scripts [] h) as Hfo.
  fold (stripGooseDown scripts) in Hfo.
  destruct (stripGooseDown scripts h) as [[cleaned|e1|] h1]; cbn [fst snd] in *; host; [|by intros [= _ <-]; destruct Hfo|done].
  pose proof (files_only_single _ _ Hfo Hs) as Hs1. destruct Hfo as [Hc1 Hp1 Hn1 _].
  destruct (postgres_Run_clean cleaned h1 Hs1) as (_ & Hs2 & Hrun).
  destruct (postgres_Run cleaned h1) as [[ctr|e2|] h2] eqn:Erun; cbn [fst snd] in *; host; [| |done].
  2: { destruct (Hrun _ eq_refl) as (_ & Hc2 & Hp2). pose proof (cleanup_files_only cleaned h2) as [Hc3 Hp3 _ _].
       unfold fail_after. host. intros [= _ <-]. split; congruence. }
  apply postgres_Run_ok in Erun as (-> & _ & _ & Hp2 & Hc2).
  assert (running h h2 (h_next h1)) as Hr2.
  { split; [done|]. rewrite Hc2, Hp2, Hc1, Hn1. split; [|done]. apply delete_insert_id, Hok. done. }
  set (ctr := h_next h1) in *. clearbody ctr.
  destruct (ConnectionString_frame ctr h2) as (Hfo3 & _ & Hnp3).
  pose proof (λ e B w, running_failure (B := B) _ w e h h2 ctr h' err (ConnectionString_clean ctr) Hr2) as Hx.
  destruct (ConnectionString ctr h2) as [[conn|e3|] h3]; cbn [fst snd] in *; host; [|by apply Hx|done].
  pose proof (running_frame _ _ _ _ Hfo3 Hr2) as Hr3. clear Hx.
  destruct (ParseConfig_frame conn h3) as (Hfo4 & _ & Hnp4).
  pose proof (λ e B w, running_failure (B := B) _ w e h h3 ctr h' err (ParseConfig_clean conn) Hr3) as Hx.
  destruct (ParseConfig conn h3) as [[cfg|e4|] h4]; cbn [fst snd] in *; host; [|by apply Hx|done].
  pose proof (running_frame _ _ _ _ Hfo4 Hr3) as Hr4. clear Hx.
  pose proof (λ e B w, running_failure (B := B) _ w e h h4 ctr h' err (NewWithConfig_clean (cfg, 30)) Hr4) as Hx.
  destruct (NewWithConfig_clean (cfg, 30) h4 (proj1 Hr4)) as (Hnp5 & _ & _).
  destruct (NewWithConfig (cfg, 30) h4) as [[pool|e5|] h5]; cbn [fst snd] in *; host; [done|by apply Hx|done].
Qed.

(** ** Instances *)

Definition migration : string :=
  "-- +goose Up" +:+ LF +:+ "CREATE TABLE t ();" +:+ LF +:+ "-- +goose Down" +:+ LF +:+ "DROP TABLE t;" +:+ LF.
Definition second : string := "-- +goose Up" +:+ LF +:+ "INSERT INTO t DEFAULT VALUES;" +:+ LF.

Definition disk : gmap string string :=
  {[ "../../migrations/00001_create.sql"%string := migration; "../../migrations/00002_fill.sql"%string := second ]}.
Definition both : list string := ["../../migrations/00001_create.sql"; "../../migrations/00002_fill.sql"]%string.

Definition ok (text : string) : Call := mkCall None text.
Definition broken : Call := mkCall (Some (ErrOther "cannot parse")) "".

(** Six calls per pair of files; the random parts are out of order. *)
Definition preparing : list Call := [ok ""; ok "92"; ok ""; ok ""; ok "17"; ok ""].
Definition host_with (script : list Call) : Host := mkHost disk ∅ ∅ 0 script.

Definition prepared : list string := ["/tmp/00001-vaulthook-init-92.sql"; "/tmp/00002-vaulthook-init-17.sql"]%string.

Lemma init_scripts_are_up_migrations_witness :
  let h' := (stripGooseDown both (host_with preparing)).2 in
  stripGooseDown both (host_with preparing) = (Ok prepared, h') ∧
  String.compare "/tmp/00001-vaulthook-init-92.sql" "/tmp/00002-vaulthook-init-17.sql" = Lt ∧
  h_files h' !! "/tmp/00001-vaulthook-init-92.sql"%string = Some ("-- +goose Up" +:+ LF +:+ "CREATE TABLE t ();" +:+ LF).
Proof.
  intros h'. assert (stripGooseDown both (host_with preparing) = (Ok prepared, h')) as E by (vm_compute; reflexivity).
  split; [exact E|]. split; [|vm_compute; reflexivity].
  destruct (init_scripts_are_up_migrations _ _ _ _ E) as (_ & _ & Ho).
  by apply (Ho 0%nat 1%nat "../../migrations/00001_create.sql" "../../migrations/00002_fill.sql")%string.
Defined.

Lemma empty_host_ok script : host_ok (host_with script).
Proof. intros n _. by split. Qed.

Definition opened : Host := (NewTestDB both (host_with preparing)).2.

Lemma test_database_is_given_back_witness :
  dom (h_files opened) ≠ dom disk ∧
  ∃ t, (NewTestDB both (host_with preparing)).1 = Ok t ∧ h_files (cleanup t opened).2 = disk.
Proof.
  split; [intros E; apply (f_equal size) in E; vm_compute in E; discriminate|].
  exists (mkTestDB 1 0 prepared). split; [vm_compute; reflexivity|].
  apply (test_database_is_given_back both (host_with preparing) (mkTestDB 1 0 prepared) opened).
  - apply empty_host_ok.
  - vm_compute. reflexivity.
  - assert (h_script opened = []) as E by (vm_compute; reflexivity). unfold quiet. rewrite E. constructor.
Defined.

(** The address of the container cannot be parsed: it is stopped, but the
    prepared scripts stay on the disk. *)
Definition unparsed : Host := host_with (preparing ++ [ok ""; ok "postgres://"; broken]).

Lemma failed_test_database_stops_witness :
  is_ok (NewTestDB both unparsed).1 = false ∧ h_containers (NewTestDB both unparsed).2 = ∅.
Proof.
  split; [vm_compute; reflexivity|].
  apply (failed_test_database_stops both unparsed (Wrap (ErrOther "testutil: parse config") (ErrOther "cannot parse")) (NewTestDB both unparsed).2).
  - apply empty_host_ok.
  - repeat constructor.
  - vm_compute. reflexivity.
Defined.

Lemma failed_test_database_leaks_scripts :
  h_files (NewTestDB both unparsed).2 !! "/tmp/00001-vaulthook-init-92.sql"%string ≠ None ∧
  h_files unparsed !! "/tmp/00001-vaulthook-init-92.sql"%string = None.
Proof. by vm_compute. Qed.

(** A failed write leaves its own file behind: only the earlier ones are in
    [tmpFiles]. *)
Lemma failed_write_leaks_file :
  let h := host_with [ok ""; ok "92"; mkCall (Some (ErrOther "disk full")) "CREATE"] in
  is_ok (stripGooseDown both h).1 = false ∧
  h_files (stripGooseDown both h).2 !! "/tmp/00001-vaulthook-init-92.sql"%string = Some "CREATE"%string.
Proof. by vm_compute. Qed.
